(* ===== verification/_CoqProject ===== *)
-Q . S2P
Prelude.v
Contexts.v
PQueue.v
ListQueue.v
ArrayHeap.v
Timer.v
Scheduler.v
PriorityScheduler.v
RoundRobin.v
Policies.v
Fprint.v
Termination.v
Terminal.v
Segment.v
LowLevel.v
HighLevel.v
Kernel.v
Typing.v
Response.v
Model.v
Isolation.v
Rounds.v
Timing.v
Output.v
Builds.v
FixedGdt.v
PrivilegedIdle.v
InjectedBugs.v
RangeAllocation.v
UserTask.v
TaskRun.v
Examples.v
Bindings.v
UnitTests.v
SchedulerTheorems.v
DeviceTheorems.v
VariantTheorems.v
LibaseTheorems.v
Theorems.v
