(* ===== verification/Prelude.v ===== *)
(** * EducRTOS: a verification development

    EducRTOS (src/educrtos) is a small real-time kernel for 32-bit x86.  It runs
    a fixed set of tasks, each confined by segmentation, under a fixed-priority,
    earliest-deadline-first or round-robin scheduler; tasks yield until a date,
    print characters and may duplicate themselves.  The repository also holds
    the C bindings of the OCaml library libase (src/libase).  This library
    models both and proves the properties below.  It assumes nothing: it
    declares no axiom and uses none.

    ** The program and its model

    A task enters the kernel by an interrupt.  The processor switches to the
    stack that the task state segment designates, which the last context switch
    placed at the end of the registers of the running context, so entering the
    kernel saves the task (low_level.c).  The handler updates the queues of the
    scheduler and chooses a context (high_level.c, the schedulers, heap.c), and
    the kernel leaves through hw_context_switch, which rewrites the two user
    descriptors and executes popa and iret (low_level.c).

    Files, in dependency order:
    - Prelude.v: this header; machine integers ([wrap], [in_width]), outcomes of
      C code ([res], with [let*]), the shared tactics and lemmas.
    - Contexts.v: config.h, the structures of low_level.h, scheduler.h,
      high_level.h and user_tasks.h, the image of system_desc.c.  A pointer to a
      context is a [cptr]; the contexts are a finite map [mem], shared by the
      queues, the schedulers and the interrupt entry.  [m ≈ₙ m'] says that two
      memories differ in [next] links only, and is a setoid.
    - PQueue.v: the interface of heap.c's functor, [PQueue], and its contract
      [PQueueSpec]; ListQueue.v and ArrayHeap.v: the two implementations.
    - Timer.v: timer.h, pit_timer.c, x86/port.h.
    - Scheduler.v: scheduler.h as the class [Scheduler] and its contract
      [SchedulerSpec]; PriorityScheduler.v and RoundRobin.v: the two schedulers,
      the first over any [PQueueSpec].
    - Policies.v: what a scheduler decides, as relations on sets or lists of
      contexts ([Policy]); [Refines], which both schedulers discharge.
    - Fprint.v: lib/fprint.c; Termination.v: the number of iterations of the
      loops of the queues and of vfprint; Terminal.v: terminal.c, error.c.
    - Segment.v: selectors, descriptors and gates of segment.h and low_level.c,
      and their decoding by the processor; LowLevel.v: the rest of low_level.c,
      low_level.h and copy64.c.
    - HighLevel.v: high_level.c and timer_interrupt_handler; Kernel.v: the
      invariant [kernel_inv] and the transition relation [step] of the machine.
    - Typing.v: every variable stays in the range of its C type, as an invariant
      of [step] ([kstate_typed]) that schedulers preserve ([SchedulerTyped]).
    - Response.v: runs of timer ticks without system calls ([ticks]), up to the
      alarm and past it.
    - Model.v: the abstract model of the kernel ([mstep]), the events that label
      its steps and those of the machine, and the simulation ([sim_run]);
      Isolation.v: the registers of a task while others run; Rounds.v: the turns
      of the threads under round robin; Timing.v: dates and activations ([asks],
      [on_time]); Output.v: what is on the screen ([prints], [display]); Builds.v: the model is deterministic with
      distinct priorities, so the builds with the two queues agree.
    - FixedGdt.v, PrivilegedIdle.v, InjectedBugs.v and RangeAllocation.v: the
      build options that are not the default ones.
    - UserTask.v: user_tasks.h, the stubs of low_level.h, task.c with the entry of
      a task and the creation of a thread, the code of the idle task; TaskRun.v:
      the calls of a task executed by the kernel.
    - Examples.v: concrete systems; UnitTests.v: the test programs that end
      heap.c and fprint.c.
    - Bindings.v: utils/int_builtins_c.c, ext/framac_ival/c_bindings.c and
      libc.c of libase.
    - SchedulerTheorems.v, DeviceTheorems.v, VariantTheorems.v, LibaseTheorems.v
      and Theorems.v: the properties, numbered (C1) to (C40), with their
      witnesses.

    State is passed explicitly: [sstate] is what a scheduler reads and writes,
    [lowlevel] the tables of the processor, [kstate] the whole kernel.  Code that
    does not return ([fatal], error_infinite_loop) and undefined behaviour are
    values of [error]; [catch] turns the former into a halted machine.  Integers
    are in Z, wrapped at the width of their C type wherever the code can leave
    it.  The address of an object is a parameter ([symbols]).

    ** What the theorems show

    - The system (Theorems.v, C1-C11): for any scheduler that meets its contract,
      every state reachable from _start handles interrupts without undefined
      behaviour, user mode cannot address the kernel, interrupts save and
      restore the task, the boot reaches user mode, dup_thread and yield do what
      they promise, an iteration of the example task prints and sleeps as
      written, and variables stay in their types.  [system_ok] is what the linker
      script and the configuration must ensure, [boot_state] the memory before
      _start.  For a scheduler that refines a policy the kernel refines the
      abstract model (C2); from it follow that a task gets its registers back
      (C4), how each task starts (C6) and how a thread starts (C8).
    - Scheduling (SchedulerTheorems.v, C12-C23): no thread is lost, and the running
      task is always one that no ready task precedes; wakeup dates do not drift and
      no task runs before its date; at the first tick after the alarm the best of
      the due threads runs; both queues refine a sorted list, agree, and have loops
      of logarithmic and linear length; each function of the schedulers; round
      robin gives the threads turns in a fixed order.
    - Build options (VariantTheorems.v, C24-C28): with distinct fixed priorities
      the builds with the two queues behave the same from _start on,
      FIXED_SIZE_GDT is equivalent to the default, PRIVILEGED_IDLE keeps the
      kernel's invariant, what the injected faults allow, how far allocation by
      range is sound.
    - Devices and tables (DeviceTheorems.v, C29-C37): the terminal refines a
      sheet of paper, on which a run of the system writes what its events print;
      vfprint refines its format language and ends on every format, descriptors
      and gates decode to what they were built from, the clock and its counter.
    - libase (LibaseTheorems.v, C38-C40).

    Several theorems state behaviour that the code probably does not intend: the
    alarm lost by the timer handler and the starvation that follows (C15), the
    room for the reserve (C22), the threads that allocation by range gives twice
    or past the array (C28), negative numbers, ambiguous formats and reversed
    digits (C32), privileges of the gates and the limit of the GDT (C34), the size
    of the segments and the dead hw_context_idle_init (C35), error codes (C36),
    the counter of ticks (C37), truncation in clz (C38).

    ** Bounds and fuel

    Loops that C bounds by a counter are recursive on the number of iterations
    that remain.  The others take fuel: the walk of the linked queue the number
    of contexts in memory, since a walk visits distinct contexts; sifting in the
    array heap the number of elements; sched_wake_tasks the size of the waiting
    queue, which every iteration shortens; the conversions of fprint.c 20 digits
    and the length of the format.  The lemmas on these functions prove that the
    fuel is enough: they return [Ok].  C19, C20 and C31 state how many iterations
    the loops take, and that more fuel changes nothing.

    ** What is not modelled

    The instructions of the kernel and its stack; the code and memory of user
    tasks, except as the registers they may change between interrupts
    ([user_step]) and the calls of task.c; the devices beyond the port writes.
    Several processors: NUM_CPUS is 1, current_cpu is 0, and no code starts
    another one.  The GDT of parametric size that config.h mentions, which does not
    compile.  BINSEC and libase proper are OCaml programs, and
    the other C files of the repository are generated by CMake to identify the
    compiler.  The libraries that the bindings call (libm, strtof, the OCaml
    runtime) are parameters.

    The model of C2 forgets the terminal, which C29 follows, and what tasks do
    with their memory.  Response times of tasks would need bounds on the time that
    tasks take, which the sources do not give: C14 bounds what the kernel adds.
    The build options that are not the default ones are modelled one at a time,
    not in combination. *)

From Stdlib Require Export ZArith Lia ZifyNat Bool.
From stdpp Require Export base decidable gmap list sorting option strings.
From stdpp Require Import options.

#[export] Set Default Goal Selector "1".
#[global] Open Scope Z_scope.

(** ** Machine integers *)

(** A [w]-bit unsigned value is an integer in [0 <= z < 2^w]; every operation
    of the C code that can leave the range is followed by [wrap w]. *)
Definition wrap (w z : Z) : Z := z mod 2 ^ w.

Abbreviation u8 := (wrap 8).
Abbreviation u16 := (wrap 16).
Abbreviation u32 := (wrap 32).
Abbreviation u64 := (wrap 64).

(** [z] is representable on [w] bits. *)
Definition in_width (w z : Z) : Prop := 0 <= z < 2 ^ w.

#[global] Instance in_width_dec w z : Decision (in_width w z).
Proof. unfold in_width. apply _. Defined.

(** ** Outcomes of C code *)

(** Undefined behaviour the models can reach; [HwFault] is an exception the
    processor would raise while in the kernel. *)
Inductive ub :=
  | NullDeref | BadPointer | OutOfBounds | UninitRead | SignedOverflow | HwFault.

(** How a piece of kernel code can fail to return a value: [fatal] with its
    format string and integer arguments, a jump to [error_infinite_loop],
    undefined behaviour, or (for the fuelled loops only) lack of fuel. *)
Inductive error :=
  | Fatal (format : string) (args : list Z)
  | InfiniteLoop
  | Undef (u : ub)
  | NoFuel.

Inductive res (A : Type) := Ok (a : A) | Err (e : error).
Arguments Ok {A} a.
Arguments Err {A} e.

Definition rbind {A B} (m : res A) (k : A -> res B) : res B :=
  match m with Ok a => k a | Err e => Err e end.

(** Partial correctness: the result satisfies [P] if there is one. *)
Definition on_ok {A} (P : A -> Prop) (r : res A) : Prop :=
  match r with Ok a => P a | Err _ => True end.

Declare Scope krn_scope.
Delimit Scope krn_scope with krn.
Notation "'let*' x ':=' m 'in' k" := (rbind m (fun x => k))
  (at level 200, x pattern, m at level 100, k at level 200) : krn_scope.
#[global] Open Scope krn_scope.

(** The newline of the messages. *)
Definition nl : string := String (Ascii.ascii_of_nat 10) EmptyString.

(** [assert(b)] of error.h; [text] is the stringified condition. *)
Definition assertion (b : bool) (text : string) : res unit :=
  if b then Ok tt
  else Err (Fatal ("Assertion " +:+ text +:+ " failed") []).

(** ** Tactics and hints *)

(** Facts about widths, used by [auto with width]. *)
Create HintDb width.

(** Destructs the binds of a computation known to succeed. *)
Ltac res_inv :=
  repeat match goal with
  | H : Ok _ = Ok _ |- _ => injection H as H; subst
  | H : Err _ = Ok _ |- _ => discriminate H
  | H : Ok _ = Err _ |- _ => discriminate H
  | H : rbind ?m _ = _ |- _ =>
      let E := fresh "E" in
      destruct m eqn:E; cbn [rbind] in H
  | H : (_, _) = (_, _) |- _ => injection H as ?; subst
  end.

(** Decides the integer comparisons of the goal with [lia]. *)
Ltac zbool :=
  repeat match goal with
  | |- context [?a <? ?b] =>
      first [ rewrite (proj2 (Z.ltb_lt a b)) by lia
            | rewrite (proj2 (Z.ltb_ge a b)) by lia ]
  | |- context [?a <=? ?b] =>
      first [ rewrite (proj2 (Z.leb_le a b)) by lia
            | rewrite (proj2 (Z.leb_gt a b)) by lia ]
  | |- context [?a =? ?b] =>
      first [ rewrite (proj2 (Z.eqb_eq a b)) by lia
            | rewrite (proj2 (Z.eqb_neq a b)) by lia ]
  end.

(** [lia] with division and remainder by constants. *)
Ltac dlia := zify; Z.to_euclidean_division_equations; lia.

(** ** Lemmas on machine integers *)

Section Words.
Context (w : Z) (Hw : 0 <= w).

Lemma pow2_pos : 0 < 2 ^ w.
Proof using Hw. by apply Z.pow_pos_nonneg. Qed.

Lemma wrap_range z : in_width w (wrap w z).
Proof using Hw. apply Z.mod_pos_bound, pow2_pos. Qed.

Lemma wrap_small z : in_width w z -> wrap w z = z.
Proof using. intros H. by apply Z.mod_small. Qed.

Lemma wrap_wrap z : wrap w (wrap w z) = wrap w z.
Proof using Hw. apply wrap_small, wrap_range. Qed.

Lemma wrap_add_l a b : wrap w (wrap w a + b) = wrap w (a + b).
Proof using. apply Zplus_mod_idemp_l. Qed.

Lemma wrap_add_r a b : wrap w (a + wrap w b) = wrap w (a + b).
Proof using. apply Zplus_mod_idemp_r. Qed.

Lemma wrap_land z : wrap w z = Z.land z (Z.ones w).
Proof using Hw. by rewrite Z.land_ones. Qed.

Lemma wrap_testbit z i :
  0 <= i -> Z.testbit (wrap w z) i = (i <? w) && Z.testbit z i.
Proof using Hw.
  intros Hi. unfold wrap. destruct (Z.ltb_spec i w).
  - by rewrite Z.mod_pow2_bits_low.
  - by rewrite Z.mod_pow2_bits_high by lia.
Qed.

Lemma testbit_high z i : in_width w z -> w <= i -> Z.testbit z i = false.
Proof using Hw.
  intros Hz Hi. rewrite <-(wrap_small z Hz), wrap_testbit by lia.
  by rewrite (proj2 (Z.ltb_ge i w)) by lia.
Qed.
End Words.

(** Combinations of words. *)
Lemma in_width_mono (w w' z : Z) : 0 <= w <= w' -> in_width w z -> in_width w' z.
Proof. unfold in_width. intros Hw Hz. pose proof (Z.pow_le_mono_r 2 w w'). lia. Qed.

Lemma in_width_bits w z :
  0 <= w -> 0 <= z -> (forall i, w <= i -> Z.testbit z i = false) -> in_width w z.
Proof.
  intros Hw Hz Hb. split; [done|]. assert (z = wrap w z) as ->; [|by apply wrap_range].
  apply Z.bits_inj'. intros i Hi. rewrite wrap_testbit by done.
  destruct (Z.ltb_spec i w); [done|]. by apply Hb.
Qed.

Lemma in_width_lor w a b : 0 <= w -> in_width w a -> in_width w b -> in_width w (Z.lor a b).
Proof.
  intros Hw Ha Hb. apply in_width_bits; [done|apply Z.lor_nonneg; split; [apply Ha|apply Hb]|].
  intros i Hi. rewrite Z.lor_spec, !(testbit_high w) by done. done.
Qed.

Lemma in_width_land w a b : 0 <= w -> in_width w b -> in_width w (Z.land a b).
Proof.
  intros Hw Hb. apply in_width_bits; [done|apply Z.land_nonneg; right; apply Hb|].
  intros i Hi. by rewrite Z.land_spec, (testbit_high w Hw b), andb_false_r.
Qed.

#[export] Hint Resolve wrap_range : width.
#[export] Hint Extern 1 (0 <= _) => lia : width.

(** ** Lemmas on the error monad *)

Lemma rbind_ok {A B} (m : res A) (k : A -> res B) b :
  rbind m k = Ok b <-> exists a, m = Ok a /\ k a = Ok b.
Proof. destruct m; naive_solver. Qed.

Lemma on_ok_bind {A B} (P : A -> Prop) (Q : B -> Prop) (m : res A) (k : A -> res B) :
  on_ok P m -> (forall a, P a -> on_ok Q (k a)) -> on_ok Q (rbind m k).
Proof. destruct m; cbn; auto. Qed.

(** A step whose result does not matter. *)
Lemma on_ok_skip {A B} (Q : B -> Prop) (m : res A) (k : A -> res B) :
  (forall a, on_ok Q (k a)) -> on_ok Q (rbind m k).
Proof. destruct m; cbn; auto. Qed.

Lemma on_ok_mono {A} (P Q : A -> Prop) (m : res A) :
  on_ok P m -> (forall a, P a -> Q a) -> on_ok Q m.
Proof. destruct m; cbn; auto. Qed.

Lemma assertion_ok b text : assertion b text = Ok tt <-> b = true.
Proof. destruct b; naive_solver. Qed.

(** ** Lemmas on lists *)

(** Two lists with the same elements have the same [Forall]. *)
Lemma Forall_perm {A} (P : A -> Prop) l k : l ≡ₚ k -> Forall P l -> Forall P k.
Proof. intros E. by rewrite E. Qed.

Lemma StronglySorted_ext {A} (R S : relation A) l :
  (forall x y, x ∈ l -> y ∈ l -> R x y -> S x y) ->
  StronglySorted R l -> StronglySorted S l.
Proof.
  intros HRS Hl. induction Hl as [|x l Hl IH Hx]; constructor.
  - apply IH. set_solver.
  - rewrite Forall_forall in *. set_solver.
Qed.

Section Filter.
Context {A : Type} (P : A -> Prop) `{!forall x, Decision (P x)}.

Lemma filter_true (l : list A) : (forall x, x ∈ l -> P x) -> filter P l = l.
Proof using.
  induction l as [|x l IH]; intros Hl; [done|]. rewrite filter_cons, decide_True by set_solver.
  f_equal. set_solver.
Qed.

Lemma filter_false (l : list A) : (forall x, x ∈ l -> ~ P x) -> filter P l = [].
Proof using.
  induction l as [|x l IH]; intros Hl; [done|]. rewrite filter_cons, decide_False by set_solver.
  set_solver.
Qed.
End Filter.
