(* ===== verification/Contexts.v ===== *)
(** * The kernel's data: configuration, contexts and the user image

    Models educrtos/config.h, low_level.h (the saved hardware state),
    scheduler.h (struct scheduling_context), high_level.h (struct context),
    user_tasks.h (struct task_description, struct user_tasks_image) and
    system_desc.c (the generated image).  Contexts are statically allocated
    objects; a non-null [struct context *] is a [cptr] naming one of them and
    the kernel's memory of contexts is a finite map from [cptr]. *)

From stdpp Require Import options.
From S2P Require Import Prelude.

(** ** Configuration (config.h, Makefile) *)

Inductive sched_alg := FP_SCHEDULING | EDF_SCHEDULING | ROUND_ROBIN_SCHEDULING.
Inductive queue_impl := SCHED_PRIORITY_QUEUE_USE_LIST | SCHED_PRIORITY_QUEUE_USE_HEAP.

Record config := Config {
  cfg_scheduler : sched_alg;
  cfg_queue : queue_impl;
  cfg_dynamic : bool;                 (* DYNAMIC_TASK_CREATION *)
  cfg_debug : bool                    (* DEBUG_PRINTING *)
}.

Definition DYNAMIC_TASK_INITIAL_HEIGHT : Z := 3.
Definition NUM_CPUS : nat := 1.

(** CONTEXTS_PER_TASK of high_level.h. *)
Definition CONTEXTS_PER_TASK (cfg : config) : Z :=
  if cfg_dynamic cfg then Z.shiftl 1 DYNAMIC_TASK_INITIAL_HEIGHT else 1.

(** ** Pointers to contexts *)

(** The context objects of system_desc.c: [contexts_for_<task>[slot]],
    [reserve[i]] and [idle_ctx_array[cpu]]. *)
Inductive cptr :=
  | ContextFor (task slot : nat)
  | Reserve (i : nat)
  | IdleCtx (cpu : nat).

#[global] Instance cptr_eq_dec : EqDecision cptr.
Proof. solve_decision. Defined.

Definition cptr_encode (p : cptr) : nat * nat + (nat + nat) :=
  match p with
  | ContextFor t s => inl (t, s)
  | Reserve i => inr (inl i)
  | IdleCtx c => inr (inr c)
  end.

Definition cptr_decode (e : nat * nat + (nat + nat)) : cptr :=
  match e with
  | inl (t, s) => ContextFor t s
  | inr (inl i) => Reserve i
  | inr (inr c) => IdleCtx c
  end.

#[global] Instance cptr_countable : Countable cptr.
Proof. apply (inj_countable' cptr_encode cptr_decode). by intros []. Defined.

(** ** Contexts *)

(** What [pusha] saves, in memory order. *)
Record pusha := Pusha {
  edi : Z; esi : Z; ebp : Z; pusha_esp : Z;
  ebx : Z; edx : Z; ecx : Z; eax : Z
}.

(** What an interrupt pushes at privilege 0, in memory order. *)
Record intra_privilege_interrupt_frame := IntraFrame { intra_eip : Z; intra_cs : Z; intra_flags : Z }.

(** What an interrupt from privilege level 3 pushes. *)
Record inter_privilege_interrupt_frame := Iframe {
  eip : Z; cs : Z; flags : Z; esp : Z; ss : Z
}.

(** struct hw_context, with DYNAMIC_DESCRIPTORS as config.h sets it. *)
Record hw_context := HwContext {
  regs : pusha;
  iframe : inter_privilege_interrupt_frame;
  start_address : Z;
  memsize : Z
}.

(** struct scheduling_context. [deadline] exists only with EDF_SCHEDULING,
    [priority] only with FP_SCHEDULING, and [next] only with
    ROUND_ROBIN_SCHEDULING or the list queue; elsewhere the field is unused. *)
Record scheduling_context := SchedContext {
  wakeup_date : Z;
  deadline : Z;
  priority : Z;
  next : option cptr
}.

(** struct context; [pid] and [range] exist only with DYNAMIC_TASK_CREATION. *)
Record context := Context_ {
  hw : hw_context;
  sched : scheduling_context;
  pid : Z;
  range : Z
}.

Abbreviation mem := (gmap cptr context).

(** Field updates. *)
Definition set_hw (h : hw_context) (c : context) : context :=
  Context_ h (sched c) (pid c) (range c).
Definition set_sched (s : scheduling_context) (c : context) : context :=
  Context_ (hw c) s (pid c) (range c).
Definition set_pid (z : Z) (c : context) : context :=
  Context_ (hw c) (sched c) z (range c).
Definition set_range (z : Z) (c : context) : context :=
  Context_ (hw c) (sched c) (pid c) z.
Definition set_regs (r : pusha) (h : hw_context) : hw_context :=
  HwContext r (iframe h) (start_address h) (memsize h).
Definition set_iframe (f : inter_privilege_interrupt_frame) (h : hw_context) : hw_context :=
  HwContext (regs h) f (start_address h) (memsize h).
Definition set_wakeup_date (z : Z) (c : context) : context :=
  set_sched (SchedContext z (deadline (sched c)) (priority (sched c)) (next (sched c))) c.
Definition set_deadline (z : Z) (c : context) : context :=
  set_sched (SchedContext (wakeup_date (sched c)) z (priority (sched c)) (next (sched c))) c.
Definition set_priority (z : Z) (c : context) : context :=
  set_sched (SchedContext (wakeup_date (sched c)) (deadline (sched c)) z (next (sched c))) c.
Definition set_next (n : option cptr) (c : context) : context :=
  set_sched (SchedContext (wakeup_date (sched c)) (deadline (sched c)) (priority (sched c)) n) c.

(** Accesses through a [struct context *]. *)
Definition load (m : mem) (p : cptr) : res context :=
  match m !! p with Some c => Ok c | None => Err (Undef BadPointer) end.

Definition modify (m : mem) (p : cptr) (f : context -> context) : res mem :=
  let* c := load m p in Ok (<[p := f c]> m).

(** ** The user image *)

Record task_description := TaskDescription {
  t_context : cptr;
  t_start_pc : Z;
  t_task_begin : Z;
  t_task_end : Z;
  t_priority : Z                       (* with FP_SCHEDULING *)
}.

Record user_tasks_image := UserTasksImage {
  nb_tasks : Z;
  nb_contexts : Z;
  tasks : list task_description;
  idle_start : Z;
  idle_end : Z;
  idle_ctx_array : nat -> cptr;
  reserve : nat -> cptr
}.

(** current_cpu() of per_cpu.h and low_level.c. *)
Definition current_cpu : nat := 0.

(** context_idle and context_is_idle of high_level.c. *)
Definition context_idle (img : user_tasks_image) : cptr := idle_ctx_array img current_cpu.
Definition context_is_idle (img : user_tasks_image) (ctx : cptr) : bool :=
  bool_decide (ctx = idle_ctx_array img current_cpu).

(** One TASK(name, file, priority) entry of the TASKS x-macro, as the linker
    places it: the addresses of [name_begin] and [name_end]. *)
Record task_entry := TaskEntry { te_begin : Z; te_end : Z; te_priority : Z }.

(** The image system_desc.c builds for a list of entries. *)
Definition system_desc (cfg : config) (entries : list task_entry)
    (idle_begin idle_fin : Z) : user_tasks_image :=
  {| nb_tasks := Z.of_nat (length entries);
     nb_contexts := u32 (Z.of_nat (length entries) * CONTEXTS_PER_TASK cfg);
     tasks := imap (fun i e =>
                TaskDescription (ContextFor i 0) 0 (te_begin e) (te_end e) (te_priority e))
                entries;
     idle_start := idle_begin;
     idle_end := idle_fin;
     idle_ctx_array := IdleCtx;
     reserve := Reserve |}.

(** ** Memories that differ only in [next] fields *)

(** The part of a context the priority queues never write. *)
Definition strip_next (c : context) : context := set_next None c.

(** [m] and [m'] hold the same contexts up to their [next] links. *)
Definition mem_eq_next (m m' : mem) : Prop :=
  forall p, strip_next <$> m !! p = strip_next <$> m' !! p.

Infix "≈ₙ" := mem_eq_next (at level 70, no associativity) : krn_scope.

#[global] Instance mem_eq_next_equiv : Equivalence mem_eq_next.
Proof. split; unfold mem_eq_next; congruence. Qed.

Lemma load_ok m p c : load m p = Ok c <-> m !! p = Some c.
Proof. unfold load. destruct (m !! p); naive_solver. Qed.

Lemma modify_ok m p f c : m !! p = Some c -> modify m p f = Ok (<[p := f c]> m).
Proof. intros E. unfold modify, load. by rewrite E. Qed.

Lemma strip_set_next n c : strip_next (set_next n c) = strip_next c.
Proof. reflexivity. Qed.

(** Writing a [next] field keeps the memory in its class. *)
Lemma mem_eq_set_next m p c n :
  m !! p = Some c -> <[p := set_next n c]> m ≈ₙ m.
Proof.
  intros E q. rewrite lookup_insert. case_decide; [subst|done].
  by rewrite E.
Qed.

Lemma mem_eq_next_lookup m m' p c :
  m ≈ₙ m' -> m !! p = Some c ->
  exists n, m' !! p = Some (set_next n c).
Proof.
  intros E Hp. specialize (E p). rewrite Hp in E. cbn in E.
  destruct (m' !! p) as [c'|] eqn:E'; [|done]. cbn in E.
  exists (next (sched c')). f_equal.
  destruct c as [h [] pd r], c' as [h' [] pd' r']. by injection E as -> -> -> -> -> ->.
Qed.

Lemma mem_eq_next_is_Some m m' p :
  m ≈ₙ m' -> is_Some (m !! p) -> is_Some (m' !! p).
Proof. intros E [c Hc]. destruct (mem_eq_next_lookup _ _ _ _ E Hc). eauto. Qed.

Lemma modify_alter m p f c : m !! p = Some c -> modify m p f = Ok (alter f p m).
Proof.
  intros E. rewrite (modify_ok _ _ _ _ E). f_equal. apply map_eq. intros q.
  destruct (decide (q = p)) as [->|Hne].
  - by rewrite lookup_insert_eq, lookup_alter_eq, E.
  - by rewrite lookup_insert_ne, lookup_alter_ne.
Qed.

(** A function of contexts that does not read the link. *)
Definition link_free (f : context -> context) : Prop :=
  forall c c', strip_next c = strip_next c' -> strip_next (f c) = strip_next (f c').

Lemma alter_eq_next f p m m' : link_free f -> m ≈ₙ m' -> alter f p m ≈ₙ alter f p m'.
Proof.
  intros Hf E q. destruct (decide (q = p)) as [->|Hne].
  - rewrite !lookup_alter_eq. specialize (E p). destruct (m !! p), (m' !! p); try done.
    cbn in *. f_equal. apply Hf. congruence.
  - by rewrite !lookup_alter_ne.
Qed.

Lemma set_priority_link_free z : link_free (set_priority z).
Proof. intros [? [] ? ?] [? [] ? ?]. by intros [= -> -> -> -> -> ->]. Qed.
