(* ===== verification/PQueue.v ===== *)
(** * Priority queues: the interface between heap.c and the schedulers

    heap.c is a hand-written functor: INSTANTIATE_HEAP(prefix) takes
    prefix_get_priority and prefix_is_gt_priority and defines a queue of
    contexts.  [prio_fn] is the functor's argument, [PQueue] its result, and
    [PQueueSpec] what every instance promises to priority_scheduler.c.  The
    two implementations of heap.c (linked list and array heap) discharge
    [PQueueSpec] in ListQueue.v and ArrayHeap.v. *)

From stdpp Require Import options.
From S2P Require Import Prelude Contexts.

(** ** The functor's argument *)

Record prio_fn := PrioFn {
  get_priority : scheduling_context -> Z;
  is_gt_priority : Z -> Z -> bool
}.

(** [is_gt_priority] is a strict weak order and [get_priority] ignores the
    link field. *)
Class PrioOrder (pf : prio_fn) : Prop := {
  gt_asym a b : is_gt_priority pf a b = true -> is_gt_priority pf b a = false;
  gt_ntrans a b c : is_gt_priority pf a b = false -> is_gt_priority pf b c = false ->
    is_gt_priority pf a c = false;
  priority_next s n : get_priority pf
      (SchedContext (wakeup_date s) (deadline s) (Contexts.priority s) n)
    = get_priority pf s
}.

(** The priority of the context at [p]. *)
Definition prio_of (pf : prio_fn) (m : mem) (p : cptr) : Z :=
  from_option (fun c => get_priority pf (sched c)) 0 (m !! p).

(** [x] has strictly higher priority than [y] in memory [m]. *)
Definition outranks (pf : prio_fn) (m : mem) (x y : cptr) : bool :=
  is_gt_priority pf (prio_of pf m x) (prio_of pf m y).

(** No element of [l] has strictly higher priority than [x]. *)
Definition top_of (pf : prio_fn) (m : mem) (x : cptr) (l : list cptr) : Prop :=
  Forall (fun y => outranks pf m y x = false) l.

(** The order in which a queue serves its elements. *)
Definition served_before (pf : prio_fn) (m : mem) (x y : cptr) : Prop :=
  outranks pf m y x = false.

(** Both memories give the contexts of [l] the same scheduling data. *)
Definition same_sched (m m' : mem) (l : list cptr) : Prop :=
  forall p, p ∈ l -> sched <$> m !! p = sched <$> m' !! p.

(** ** The functor's result *)

(** The operations take [user_tasks_image.nb_contexts], which the array heap
    reads, as their first argument. *)
Class PQueue (pf : prio_fn) (Q : Type) := {
  pq_init : Z -> Q;
  pq_size : Q -> Z;
  pq_insert_elt : Z -> mem -> Q -> cptr -> res (mem * Q);
  pq_remove_elt : Z -> mem -> Q -> res (cptr * mem * Q);
  pq_get_first : Z -> mem -> Q -> res cptr
}.

(** An array of [nbc] pointers of four bytes fits in the address space. *)
Definition addressable (nbc : Z) : Prop := 0 <= 4 * nbc <= 2 ^ 32.

(** [pq_rep nbc m q l]: queue [q] in memory [m] holds exactly the contexts of
    [l], in any order. *)
Class PQueueSpec (pf : prio_fn) (Q : Type) `{PQueue pf Q} := {
  pq_rep : Z -> mem -> Q -> list cptr -> Prop;
  pq_rep_perm nbc m q l l' : l ≡ₚ l' -> pq_rep nbc m q l -> pq_rep nbc m q l';
  pq_rep_size nbc m q l : pq_rep nbc m q l -> pq_size q = Z.of_nat (length l);
  pq_rep_nodup nbc m q l : pq_rep nbc m q l -> NoDup l;
  pq_rep_alloc nbc m q l p : pq_rep nbc m q l -> p ∈ l -> is_Some (m !! p);
  pq_rep_init nbc m : addressable nbc -> pq_rep nbc m (pq_init nbc) [];
  pq_rep_frame nbc m m' q l :
    pq_rep nbc m q l -> same_sched m m' l -> pq_rep nbc m' q l;
  pq_insert_spec nbc m q l x :
    pq_rep nbc m q l -> addressable nbc -> Z.of_nat (length l) < nbc ->
    is_Some (m !! x) -> x ∉ l ->
    exists m' q', pq_insert_elt nbc m q x = Ok (m', q') /\
      pq_rep nbc m' q' (x :: l) /\ m' ≈ₙ m /\
      (forall p, p ∉ x :: l -> m' !! p = m !! p);
  pq_first_spec nbc m q l :
    pq_rep nbc m q l -> l <> [] ->
    exists x, pq_get_first nbc m q = Ok x /\ x ∈ l /\ top_of pf m x l;
  pq_remove_spec nbc m q l :
    pq_rep nbc m q l -> addressable nbc -> l <> [] -> Z.of_nat (length l) <= nbc ->
    exists x l' m' q', pq_get_first nbc m q = Ok x /\
      pq_remove_elt nbc m q = Ok (x, m', q') /\
      l ≡ₚ x :: l' /\ pq_rep nbc m' q' l' /\ m' ≈ₙ m /\
      (forall p, p ∉ l -> m' !! p = m !! p)
}.

Create HintDb pqueue.

(** ** Facts about priorities *)

Section Priorities.
Context {pf : prio_fn} `{!PrioOrder pf}.
Implicit Types (m : mem) (p x y z : cptr) (l : list cptr).

#[global] Instance prio_of_proper :
  Proper (mem_eq_next ==> eq ==> eq) (prio_of pf).
Proof using All.
  intros m m' E p ? <-. unfold prio_of. specialize (E p).
  destruct (m !! p) as [c|], (m' !! p) as [c'|]; try done. cbn in *.
  injection E as E1 E2 E3 E4 E5 E6.
  rewrite <-(priority_next (sched c) None), <-(priority_next (sched c') None).
  by rewrite E2, E3, E4.
Qed.

#[global] Instance outranks_proper :
  Proper (mem_eq_next ==> eq ==> eq ==> eq) (outranks pf).
Proof using All. intros m m' E x ? <- y ? <-. unfold outranks. by rewrite !E. Qed.

#[global] Instance top_of_proper :
  Proper (mem_eq_next ==> eq ==> Permutation ==> iff) (top_of pf).
Proof using All.
  intros m m' E x ? <- l l' El. unfold top_of. rewrite El.
  apply Forall_iff. intros y. by rewrite E.
Qed.

#[global] Instance served_before_refl m : Reflexive (served_before pf m).
Proof using All.
  intros x. unfold served_before, outranks.
  destruct (is_gt_priority _ _ _) eqn:E; [|done]. by rewrite <-E, (gt_asym _ _ E).
Qed.

#[global] Instance served_before_trans m : Transitive (served_before pf m).
Proof using All.
  intros x y z Hxy Hyz. unfold served_before, outranks in *. by eapply gt_ntrans.
Qed.

Lemma served_before_total m x y :
  served_before pf m x y \/ served_before pf m y x.
Proof using All.
  unfold served_before, outranks.
  destruct (is_gt_priority pf (prio_of pf m y) (prio_of pf m x)) eqn:E; [|by left].
  right. by apply gt_asym.
Qed.

(** A context that outranks [x] precedes whatever [x] precedes. *)
Lemma outranks_served m x y z :
  outranks pf m x y = true -> served_before pf m y z -> served_before pf m x z.
Proof using All.
  intros Hxy Hyz. transitivity y; [|done].
  unfold served_before. by apply gt_asym.
Qed.

Lemma served_outranks m x y z :
  served_before pf m x y -> outranks pf m y z = true -> outranks pf m x z = true.
Proof using All.
  unfold served_before, outranks. intros Hxy Hyz.
  destruct (is_gt_priority pf (prio_of pf m x) (prio_of pf m z)) eqn:E; [done|].
  by rewrite (gt_ntrans _ _ _ Hxy E) in Hyz.
Qed.

Lemma top_of_served m x l :
  top_of pf m x l <-> Forall (served_before pf m x) l.
Proof using. done. Qed.

Lemma top_of_trans m x y l :
  served_before pf m x y -> top_of pf m y l -> top_of pf m x l.
Proof using All.
  intros Hxy Hl. eapply Forall_impl; [exact Hl|]. intros z Hz.
  change (served_before pf m x z). by transitivity y.
Qed.

Lemma same_sched_prio m m' l x :
  same_sched m m' l -> x ∈ l -> prio_of pf m x = prio_of pf m' x.
Proof using.
  intros E Hx. specialize (E x Hx). unfold prio_of.
  destruct (m !! x), (m' !! x); try done. cbn in *. by injection E as ->.
Qed.

Lemma same_sched_outranks m m' l x y :
  same_sched m m' l -> x ∈ l -> y ∈ l -> outranks pf m x y = outranks pf m' x y.
Proof using.
  intros E Hx Hy. unfold outranks.
  by rewrite (same_sched_prio m m' l x), (same_sched_prio m m' l y).
Qed.
End Priorities.

Lemma same_sched_sym m m' l : same_sched m m' l -> same_sched m' m l.
Proof. intros E p Hp. symmetry. by apply E. Qed.

Lemma same_sched_subset m m' l l' :
  (forall p, p ∈ l' -> p ∈ l) -> same_sched m m' l -> same_sched m m' l'.
Proof. intros Hs E p Hp. by apply E, Hs. Qed.

Lemma same_sched_lookup m m' l :
  (forall p, p ∈ l -> m' !! p = m !! p) -> same_sched m m' l.
Proof. intros E p Hp. by rewrite E. Qed.

Lemma same_sched_alloc m m' l p :
  same_sched m m' l -> p ∈ l -> is_Some (m !! p) -> is_Some (m' !! p).
Proof.
  intros E Hp [c Hc]. specialize (E p Hp). rewrite Hc in E.
  destruct (m' !! p); [eauto|done].
Qed.

#[export] Hint Resolve same_sched_sym same_sched_lookup : pqueue.

(** ** Filling and emptying a queue *)

Section Clients.
Context (pf : prio_fn) {Q : Type} `{!PQueue pf Q}.

(** The contexts of [l] inserted in turn. *)
Fixpoint pq_fill (nbc : Z) (l : list cptr) (m : mem) (q : Q) : res (mem * Q) :=
  match l with
  | [] => Ok (m, q)
  | x :: l => let* (m', q') := pq_insert_elt nbc m q x in pq_fill nbc l m' q'
  end.

(** [n] removals. *)
Fixpoint pq_drain (n : nat) (nbc : Z) (m : mem) (q : Q) : res (list cptr) :=
  match n with
  | O => Ok []
  | S n =>
      let* (x, m', q') := pq_remove_elt nbc m q in
      let* l := pq_drain n nbc m' q' in
      Ok (x :: l)
  end.

(** Everything in, everything out. *)
Definition pq_sort (nbc : Z) (l : list cptr) (m : mem) : res (list cptr) :=
  let* (m', q) := pq_fill nbc l m (pq_init nbc) in
  pq_drain (length l) nbc m' q.

Context `{!PrioOrder pf} `{!PQueueSpec pf Q}.

Lemma pq_fill_ok nbc l k m (q : Q) :
  addressable nbc -> pq_rep nbc m q k -> NoDup (l ++ k) ->
  Z.of_nat (length (l ++ k)) <= nbc -> (forall p, p ∈ l -> is_Some (m !! p)) ->
  exists m' q', pq_fill nbc l m q = Ok (m', q') /\ m' ≈ₙ m /\
    exists k', pq_rep nbc m' q' k' /\ k' ≡ₚ l ++ k.
Proof using All.
  intros Hadd. revert k m q. induction l as [|x l IH]; intros k m q Hq Hnd Hlen Hal.
  { exists m, q. split; [done|]. split; [done|]. by exists k. }
  cbn in *. apply NoDup_cons in Hnd as [Hx Hnd]. rewrite length_app in Hlen.
  destruct (pq_insert_spec _ _ _ _ x Hq Hadd) as (m1 & q1 & -> & Hq1 & Heq & _);
    [lia|apply Hal; by left|set_solver|]. cbn [rbind].
  destruct (IH (x :: k) m1 q1 Hq1) as (m' & q' & E & Heq' & k' & Hk' & Hp).
  - rewrite <-Permutation_middle. by constructor.
  - rewrite length_app. cbn. lia.
  - intros p Hp. eapply mem_eq_next_is_Some; [symmetry; exact Heq|]. apply Hal. by right.
  - exists m', q'. split; [done|]. split; [by etrans|]. exists k'. split; [done|].
    by rewrite Hp, <-Permutation_middle.
Qed.

Lemma pq_drain_ok nbc l m (q : Q) :
  addressable nbc -> pq_rep nbc m q l -> Z.of_nat (length l) <= nbc ->
  exists k, pq_drain (length l) nbc m q = Ok k /\ k ≡ₚ l /\
    StronglySorted (served_before pf m) k.
Proof using All.
  intros Hadd. remember (length l) as n eqn:Hn. revert l m q Hn.
  induction n as [|n IH]; intros l m q Hn Hq Hlen.
  { apply symmetry, nil_length_inv in Hn as ->. exists []. repeat constructor. }
  assert (l <> []) as Hne by (by intros ->).
  destruct (pq_first_spec _ _ _ _ Hq Hne) as (x & Hf & _ & Htop).
  destruct (pq_remove_spec _ _ _ _ Hq Hadd Hne) as (y & l' & m' & q' & Hf' & E & Hp & Hq' & Heq & _);
    [lia|]. rewrite Hf in Hf'. injection Hf' as <-.
  destruct (IH l' m' q') as (k & E' & Hk & Hs); [|done|lia|].
  { apply Permutation_length in Hp. cbn in Hp. lia. }
  exists (x :: k). cbn. rewrite E. cbn [rbind]. rewrite E'. cbn. split; [done|].
  split; [by rewrite Hp, Hk|]. constructor.
  - eapply StronglySorted_ext; [|exact Hs]. intros a b _ _. unfold served_before. by rewrite Heq.
  - apply top_of_served. rewrite Hk. rewrite Hp in Htop. by apply Forall_cons in Htop as [_ ?].
Qed.

Lemma pq_sort_ok nbc l m :
  addressable nbc -> NoDup l -> Z.of_nat (length l) <= nbc -> (forall p, p ∈ l -> is_Some (m !! p)) ->
  exists k, pq_sort nbc l m = Ok k /\ k ≡ₚ l /\ StronglySorted (served_before pf m) k.
Proof using All.
  intros Hadd Hnd Hlen Hal. unfold pq_sort.
  destruct (pq_fill_ok nbc l [] m (pq_init nbc)) as (m' & q' & -> & Heq & k' & Hq & Hp);
    rewrite ?app_nil_r; [done|by apply pq_rep_init|done..|]. cbn [rbind].
  rewrite app_nil_r in Hp. rewrite <-(Permutation_length Hp).
  destruct (pq_drain_ok nbc k' m' q') as (k & -> & Hk & Hs); [done|done|by rewrite Hp|].
  exists k. split; [done|]. split; [by rewrite Hk|].
  eapply StronglySorted_ext; [|exact Hs]. intros a b _ _. unfold served_before. by rewrite Heq.
Qed.
End Clients.
