(* ===== verification/ListQueue.v ===== *)
(** * The linked-list priority queue (heap.c, SCHED_PRIORITY_QUEUE_USE_LIST)

    The queue is threaded through the [next] fields of the contexts it holds.
    Each operation of the INSTANTIATE_HEAP macro is translated over the shared
    memory of contexts, and refined to insertion into and removal from a list
    sorted by priority in which equal priorities keep their arrival order. *)

From stdpp Require Import options.
From S2P Require Import Prelude Contexts PQueue.

(** ** The operations *)

(** struct prefix_heap. *)
Record list_heap := ListHeap { lh_size : Z; lh_head : option cptr }.

(** prefix_heap_init. *)
Definition lq_heap_init : list_heap := {| lh_head := None; lh_size := 0 |}.

Section Operations.
Context (pf : prio_fn).

(** The [while(cur)] loop of prefix_insert_elt and the [if(!cur)] that follows
    it; a step costs one unit of fuel. *)
Fixpoint lq_insert_walk (fuel : nat) (m : mem) (heap : list_heap) (prio : Z)
    (elt : cptr) (cur prev : option cptr) : res (mem * list_heap) :=
  match cur with
  | None =>
      match prev with
      | None => Err (Undef NullDeref)
      | Some pr =>
          let* m1 := modify m pr (set_next (Some elt)) in
          let* m2 := modify m1 elt (set_next None) in
          Ok (m2, heap)
      end
  | Some c =>
      match fuel with
      | O => Err NoFuel
      | S fuel =>
          let* cc := load m c in
          if is_gt_priority pf prio (get_priority pf (sched cc)) then
            let* (m1, heap1) :=
              match prev with
              | Some pr =>
                  let* m1 := modify m pr (set_next (Some elt)) in Ok (m1, heap)
              | None => Ok (m, ListHeap (lh_size heap) (Some elt))
              end in
            let* m2 := modify m1 elt (set_next cur) in
            Ok (m2, heap1)
          else lq_insert_walk fuel m heap prio elt (next (sched cc)) cur
      end
  end.

(** prefix_insert_elt.  A walk visits distinct allocated contexts, so the
    number of contexts bounds the number of steps of a walk that ends. *)
Definition lq_insert_elt (m : mem) (heap : list_heap) (elt : cptr) : res (mem * list_heap) :=
  let* ce := load m elt in
  let* (m1, heap1) :=
    match lh_head heap with
    | None =>
        let* m1 := modify m elt (set_next None) in
        Ok (m1, ListHeap (lh_size heap) (Some elt))
    | Some _ =>
        lq_insert_walk (size m) m heap (get_priority pf (sched ce)) elt (lh_head heap) None
    end in
  Ok (m1, ListHeap (u32 (lh_size heap1 + 1)) (lh_head heap1)).
End Operations.

(** prefix_remove_elt. *)
Definition lq_remove_elt (m : mem) (heap : list_heap) : res (cptr * mem * list_heap) :=
  let* _ := assertion (bool_decide (is_Some (lh_head heap))) "heap->head" in
  match lh_head heap with
  | None => Err (Undef NullDeref)
  | Some to_remove =>
      let* c := load m to_remove in
      Ok (to_remove, m, ListHeap (u32 (lh_size heap - 1)) (next (sched c)))
  end.

(** prefix_get_first. *)
Definition lq_get_first (heap : list_heap) : res cptr :=
  let* _ := assertion (bool_decide (is_Some (lh_head heap))) "heap->head" in
  match lh_head heap with
  | None => Err (Undef NullDeref)
  | Some p => Ok p
  end.

#[global] Instance list_pqueue (pf : prio_fn) : PQueue pf list_heap := {
  pq_init _ := lq_heap_init;
  pq_size := lh_size;
  pq_insert_elt _ m q x := lq_insert_elt pf m q x;
  pq_remove_elt _ m q := lq_remove_elt m q;
  pq_get_first _ _ q := lq_get_first q
}.

(** ** The abstract queue *)

(** Insertion before the first element of strictly lower priority. *)
Fixpoint ordered_insert (pf : prio_fn) (m : mem) (x : cptr) (l : list cptr) : list cptr :=
  match l with
  | [] => [x]
  | y :: l' => if outranks pf m x y then x :: l else y :: ordered_insert pf m x l'
  end.

(** The contexts of [l], in order, are linked from [p] to [q]. *)
Fixpoint lseg (m : mem) (p : option cptr) (l : list cptr) (q : option cptr) : Prop :=
  match l with
  | [] => p = q
  | x :: l' => p = Some x /\ exists c, m !! x = Some c /\ lseg m (next (sched c)) l' q
  end.

(** [heap] in memory [m] is the queue [l], head first. *)
Record lq_rep (pf : prio_fn) (m : mem) (heap : list_heap) (l : list cptr) : Prop := {
  lq_links : lseg m (lh_head heap) l None;
  lq_nodup : NoDup l;
  lq_sorted : StronglySorted (served_before pf m) l;
  lq_size : lh_size heap = Z.of_nat (length l)
}.

(** ** Segments *)

Lemma lseg_app m p l1 l2 q :
  lseg m p (l1 ++ l2) q <-> exists r, lseg m p l1 r /\ lseg m r l2 q.
Proof.
  revert p. induction l1 as [|x l1 IH]; intros p; cbn.
  - naive_solver.
  - setoid_rewrite IH. naive_solver.
Qed.

Lemma lseg_head m p l : lseg m p l None -> p = head l.
Proof. destruct l; cbn; [done|by intros [-> _]]. Qed.

Lemma lseg_alloc m p l q x : lseg m p l q -> x ∈ l -> is_Some (m !! x).
Proof.
  revert p. induction l as [|y l IH]; intros p; [set_solver|].
  cbn. intros (-> & c & Hc & Hl) [->|Hx]%elem_of_cons; eauto.
Qed.

Lemma lseg_frame m m' p l q :
  same_sched m m' l -> lseg m p l q -> lseg m' p l q.
Proof.
  revert p. induction l as [|x l IH]; intros p E; [done|].
  cbn. intros (-> & c & Hc & Hl). split; [done|].
  pose proof (E x ltac:(set_solver)) as Ex. rewrite Hc in Ex. cbn in Ex.
  destruct (m' !! x) as [c'|]; [|done]. injection Ex as Ex.
  exists c'. split; [done|]. rewrite <-Ex. apply IH; [|done].
  eapply same_sched_subset; [|exact E]. set_solver.
Qed.

Lemma lseg_insert_ne m p l q x c :
  x ∉ l -> lseg m p l q -> lseg (<[x := c]> m) p l q.
Proof.
  intros Hx. apply lseg_frame. intros y Hy.
  rewrite lookup_insert_ne; [done|]. set_solver.
Qed.

(** Linking [elt] between the last element of [l1] and the head of [l2]. *)
Lemma lseg_splice m p l1 pr l2 elt cp ce :
  lseg m p ((l1 ++ [pr]) ++ l2) None -> NoDup ((l1 ++ [pr]) ++ l2) ->
  elt ∉ (l1 ++ [pr]) ++ l2 -> m !! pr = Some cp -> m !! elt = Some ce ->
  lseg (<[elt := set_next (head l2) ce]> (<[pr := set_next (Some elt) cp]> m))
    p ((l1 ++ [pr]) ++ elt :: l2) None.
Proof.
  intros Hl Hnd Helt Hcp Hce.
  apply lseg_app in Hl as (r & Hl1 & Hl2).
  apply lseg_app in Hl1 as (r1 & Hl1 & Hpr).
  cbn in Hpr. destruct Hpr as (-> & c & Hc & Hr). simplify_eq.
  apply NoDup_app in Hnd as (Hnd1 & Hdis & Hnd2).
  apply NoDup_app in Hnd1 as (_ & Hdis1 & _).
  assert (elt ∉ l1 /\ elt <> pr /\ elt ∉ l2) as (He1 & Hep & He2) by set_solver.
  assert (pr ∉ l1 /\ pr ∉ l2) as (Hp1 & Hp2) by set_solver.
  apply lseg_app. exists (Some elt). split.
  - apply lseg_app. exists (Some pr). split.
    + by apply lseg_insert_ne, lseg_insert_ne.
    + cbn. split; [done|]. eexists. rewrite lookup_insert_ne by done.
      by rewrite lookup_insert_eq.
  - cbn. split; [done|]. eexists. rewrite lookup_insert_eq. split; [done|]. cbn.
    rewrite <-(lseg_head _ _ _ Hl2). by apply lseg_insert_ne, lseg_insert_ne.
Qed.

(** ** Ordered insertion *)

Section Ordered.
Context {pf : prio_fn} `{!PrioOrder pf}.

Lemma ordered_insert_perm m x l : ordered_insert pf m x l ≡ₚ x :: l.
Proof using.
  induction l as [|y l IH]; cbn; [done|]. destruct (outranks _ _ _ _); [done|].
  rewrite IH. by apply Permutation_swap.
Qed.

Lemma ordered_insert_sorted m x l :
  StronglySorted (served_before pf m) l ->
  StronglySorted (served_before pf m) (ordered_insert pf m x l).
Proof using All.
  induction l as [|y l IH]; cbn; intros Hs.
  - repeat constructor.
  - apply StronglySorted_cons in Hs as [Hy Hs]. destruct (outranks _ _ _ _) eqn:E.
    + apply StronglySorted_cons. split; [|by apply StronglySorted_cons].
      constructor; [by apply gt_asym|].
      eapply Forall_impl; [exact Hy|]. intros z. by apply outranks_served.
    + apply StronglySorted_cons. split; [|auto].
      rewrite ordered_insert_perm. by constructor.
Qed.

(** In a sorted queue the new element goes after every element it does not
    outrank and before every element it does. *)
Lemma ordered_insert_split m x l :
  StronglySorted (served_before pf m) l ->
  exists l1 l2, l = l1 ++ l2 /\ ordered_insert pf m x l = l1 ++ x :: l2 /\
    Forall (fun y => outranks pf m x y = false) l1 /\
    Forall (fun y => outranks pf m x y = true) l2.
Proof using All.
  induction l as [|y l IH]; cbn; intros Hs.
  - by exists [], [].
  - apply StronglySorted_cons in Hs as [Hy Hs]. destruct (outranks _ _ _ _) eqn:E.
    + exists [], (y :: l). repeat split; [constructor|]. constructor; [done|].
      eapply Forall_impl; [exact Hy|]. intros z Hz.
      destruct (outranks pf m x z) eqn:E'; [done|].
      unfold outranks, served_before in *.
      by rewrite (gt_ntrans _ _ _ E' Hz) in E.
    + destruct (IH Hs) as (l1 & l2 & -> & -> & H1 & H2).
      exists (y :: l1), l2. repeat split; [by constructor|done].
Qed.

Lemma ordered_insert_eq_next m m' x l :
  m ≈ₙ m' -> ordered_insert pf m x l = ordered_insert pf m' x l.
Proof using All.
  intros E. induction l as [|y l IH]; cbn; [done|]. by rewrite IH, E.
Qed.
End Ordered.

(** ** The operations refine the abstract queue *)

Section Refinement.
Context {pf : prio_fn} `{!PrioOrder pf}.
Implicit Types (m : mem) (l : list cptr).

Lemma prio_of_lookup m p c :
  m !! p = Some c -> prio_of pf m p = get_priority pf (sched c).
Proof using. intros E. unfold prio_of. by rewrite E. Qed.

(** The two stores that link [elt] after [pr]. *)
Lemma splice_mem_eq m pr cp elt ce n n' :
  m !! pr = Some cp -> m !! elt = Some ce -> elt <> pr ->
  <[elt := set_next n ce]> (<[pr := set_next n' cp]> m) ≈ₙ m.
Proof using.
  intros Hcp Hce Hne. etrans; [apply mem_eq_set_next|by apply mem_eq_set_next].
  by rewrite lookup_insert_ne.
Qed.

Lemma lq_insert_walk_spec fuel m heap elt ce l1 l2 :
  lseg m (lh_head heap) (l1 ++ l2) None -> NoDup (l1 ++ l2) -> l1 ++ l2 <> [] ->
  elt ∉ l1 ++ l2 -> m !! elt = Some ce -> (length l2 <= fuel)%nat ->
  exists m' heap',
    lq_insert_walk pf fuel m heap (prio_of pf m elt) elt (head l2) (last l1)
      = Ok (m', heap') /\
    lh_size heap' = lh_size heap /\
    lseg m' (lh_head heap') (l1 ++ ordered_insert pf m elt l2) None /\
    m' ≈ₙ m /\ (forall p, p ∉ elt :: l1 ++ l2 -> m' !! p = m !! p).
Proof using All.
  revert l1 fuel. induction l2 as [|c l2 IH]; intros l1 fuel Hl Hnd Hne Helt Hce Hf.
  - rewrite app_nil_r in *. destruct l1 as [|pr l1 _] using rev_ind; [done|].
    rewrite last_snoc.
    destruct (lseg_alloc _ _ _ _ pr Hl) as [cp Hcp]; [set_solver|].
    assert (elt <> pr) by set_solver.
    destruct fuel; cbn; rewrite (modify_ok _ _ _ _ Hcp); cbn;
      rewrite (modify_ok _ _ _ ce) by (by rewrite lookup_insert_ne by done); cbn;
      (do 2 eexists; split; [done|]; split; [done|]; split;
        [apply (lseg_splice m (lh_head heap) l1 pr [] elt cp ce);
           by rewrite ?app_nil_r|];
       split; [by apply splice_mem_eq|];
       intros p Hp; rewrite !lookup_insert_ne; set_solver).
  - destruct fuel as [|fuel]; [cbn in Hf; lia|]. cbn.
    destruct (lseg_alloc _ _ _ _ c Hl) as [cc Hcc]; [set_solver|].
    unfold load at 1. rewrite Hcc. cbn.
    unfold outranks. rewrite (prio_of_lookup _ _ _ Hcc).
    destruct (is_gt_priority _ _ _) eqn:E.
    + destruct l1 as [|pr l1 _] using rev_ind; cbn.
      * rewrite (modify_ok _ _ _ _ Hce). cbn. do 2 eexists. split; [done|].
        split; [done|]. cbn in *. split.
        { split; [done|]. eexists. rewrite lookup_insert_eq. split; [done|].
          apply (lseg_insert_ne _ _ (c :: l2)); [done|].
          by rewrite (lseg_head m (lh_head heap) (c :: l2)) in Hl. }
        split; [by apply mem_eq_set_next|].
        intros p Hp. rewrite lookup_insert_ne; set_solver.
      * rewrite last_snoc.
        destruct (lseg_alloc _ _ _ _ pr Hl) as [cp Hcp]; [set_solver|].
        assert (elt <> pr) by set_solver.
        rewrite (modify_ok _ _ _ _ Hcp). cbn.
        rewrite (modify_ok _ _ _ ce) by (by rewrite lookup_insert_ne by done). cbn.
        do 2 eexists. split; [done|]. split; [done|]. split.
        { by apply (lseg_splice m (lh_head heap) l1 pr (c :: l2) elt cp ce). }
        split; [by apply splice_mem_eq|].
        intros p Hp. rewrite !lookup_insert_ne; set_solver.
    + assert (next (sched cc) = head l2) as ->.
      { apply lseg_app in Hl as (r & _ & Hl). cbn in Hl.
        destruct Hl as (_ & c' & Hc' & Hl). simplify_eq. by eapply lseg_head. }
      specialize (IH (l1 ++ [c]) fuel). rewrite last_snoc, <-!app_assoc in IH.
      destruct IH as (m' & heap' & -> & Hsz & Hseg & Hrest); try done; [cbn in Hf; lia|].
      by exists m', heap'.
Qed.

(** A list of distinct allocated contexts is no longer than the memory. *)
Lemma alloc_length m l :
  NoDup l -> (forall p, p ∈ l -> is_Some (m !! p)) -> (length l <= size m)%nat.
Proof using.
  intros Hnd Hal. rewrite <-size_dom, <-(size_list_to_set (C := gset cptr) l) by done.
  apply subseteq_size. intros p Hp%elem_of_list_to_set. by apply elem_of_dom, Hal.
Qed.

Lemma lq_insert_elt_refines m heap l x :
  lq_rep pf m heap l -> is_Some (m !! x) -> x ∉ l -> Z.of_nat (length l) + 1 < 2 ^ 32 ->
  exists m' heap', lq_insert_elt pf m heap x = Ok (m', heap') /\
    lq_rep pf m' heap' (ordered_insert pf m x l) /\
    m' ≈ₙ m /\ (forall p, p ∉ x :: l -> m' !! p = m !! p).
Proof using All.
  intros [Hl Hnd Hs Hsz] [ce Hce] Hx Hlen.
  assert (exists m' h1, (match lh_head heap with
      | None => let* m1 := modify m x (set_next None) in
                Ok (m1, ListHeap (lh_size heap) (Some x))
      | Some _ => lq_insert_walk pf (size m) m heap (get_priority pf (sched ce)) x
                    (lh_head heap) None
      end) = Ok (m', h1) /\ lh_size h1 = lh_size heap /\
      lseg m' (lh_head h1) (ordered_insert pf m x l) None /\
      m' ≈ₙ m /\ (forall p, p ∉ x :: l -> m' !! p = m !! p))
    as (m' & h1 & E & Hh1 & Hseg & Heq & Hfr).
  { rewrite (lseg_head _ _ _ Hl). destruct l as [|y l].
    - cbn. rewrite (modify_ok _ _ _ _ Hce). cbn. do 2 eexists. split; [done|].
      split; [done|]. cbn. split.
      { split; [done|]. eexists. by rewrite lookup_insert_eq. }
      split; [by apply mem_eq_set_next|].
      intros p Hp. rewrite lookup_insert_ne; set_solver.
    - rewrite <-(prio_of_lookup _ _ _ Hce).
      apply (lq_insert_walk_spec (size m) m heap x ce [] (y :: l)); try done.
      apply alloc_length; [done|]. intros p. by eapply lseg_alloc. }
  unfold lq_insert_elt. unfold load at 1. rewrite Hce. cbn. rewrite E. cbn.
  do 2 eexists. split; [done|]. split; [|done].
  split; cbn; [done| | |].
  - rewrite ordered_insert_perm. by constructor.
  - rewrite (ordered_insert_eq_next m m') by (by symmetry).
    apply ordered_insert_sorted. eapply StronglySorted_ext; [|exact Hs].
    intros y z _ _. unfold served_before. by rewrite Heq.
  - rewrite Hh1, Hsz, (Permutation_length (ordered_insert_perm m x l)). cbn [length].
    rewrite wrap_small; [lia|]. unfold in_width. lia.
Qed.

Lemma lq_get_first_refines m heap x l :
  lq_rep pf m heap (x :: l) -> lq_get_first heap = Ok x.
Proof using.
  intros [Hl _ _ _]. unfold lq_get_first. by rewrite (lseg_head _ _ _ Hl).
Qed.

Lemma lq_remove_elt_refines m heap x l :
  lq_rep pf m heap (x :: l) -> Z.of_nat (length l) < 2 ^ 32 ->
  exists heap', lq_remove_elt m heap = Ok (x, m, heap') /\ lq_rep pf m heap' l.
Proof using.
  intros [Hl Hnd Hs Hsz] Hlen. unfold lq_remove_elt. cbn in Hl.
  destruct Hl as (Hh & c & Hc & Hl). rewrite Hh. cbn.
  unfold load. rewrite Hc. cbn. eexists. split; [done|].
  apply NoDup_cons in Hnd as [_ Hnd]. apply StronglySorted_cons in Hs as [_ Hs].
  split; cbn; [done..|]. rewrite Hsz. cbn [length].
  rewrite wrap_small; [lia|]. unfold in_width. lia.
Qed.

Lemma lq_rep_frame m m' heap l :
  lq_rep pf m heap l -> same_sched m m' l -> lq_rep pf m' heap l.
Proof using.
  intros [Hl Hnd Hs Hsz] E. split; [by eapply lseg_frame|done| |done].
  eapply StronglySorted_ext; [|exact Hs].
  intros x y Hx Hy. unfold served_before. by rewrite (same_sched_outranks m m' l).
Qed.

Lemma lq_rep_top m heap x l : lq_rep pf m heap (x :: l) -> top_of pf m x (x :: l).
Proof using All.
  intros [_ _ Hs _]. apply StronglySorted_cons in Hs as [Hx _].
  constructor; [apply (served_before_refl m x)|done].
Qed.
End Refinement.

(** ** The interface *)

#[global] Program Instance list_pqueue_spec (pf : prio_fn) `{!PrioOrder pf} :
    PQueueSpec pf list_heap := {
  pq_rep _ m q l := exists l', l ≡ₚ l' /\ lq_rep pf m q l'
}.
Next Obligation. intros pf ? nbc m q l l' E (k & Ek & H). exists k. by rewrite <-E. Qed.
Next Obligation. intros pf ? nbc m q l (k & Ek & H). rewrite Ek. apply (lq_size _ _ _ _ H). Qed.
Next Obligation. intros pf ? nbc m q l (k & Ek & H). rewrite Ek. apply (lq_nodup _ _ _ _ H). Qed.
Next Obligation.
  intros pf ? nbc m q l p (k & Ek & H). rewrite Ek. eapply lseg_alloc, (lq_links _ _ _ _ H).
Qed.
Next Obligation. intros pf ? nbc m _. exists []. split; [done|]. split; cbn; try done; constructor. Qed.
Next Obligation.
  intros pf ? nbc m m' q l (k & Ek & H) E. exists k. split; [done|].
  eapply lq_rep_frame; [done|]. eapply same_sched_subset; [|exact E].
  intros p. by rewrite Ek.
Qed.
Next Obligation.
  intros pf ? nbc m q l x (k & Ek & H) Hw Hlen Hal Hx. unfold addressable in *.
  destruct (lq_insert_elt_refines m q k x H Hal) as (m' & q' & E & Hrep & Heq & Hfr).
  - by rewrite <-Ek.
  - rewrite <-Ek. lia.
  - exists m', q'. split; [done|]. split.
    { eexists. split; [|exact Hrep]. by rewrite ordered_insert_perm, Ek. }
    split; [done|]. intros p Hp. apply Hfr. by rewrite <-Ek.
Qed.
Next Obligation.
  intros pf ? nbc m q l (k & Ek & H) Hne. destruct k as [|x k].
  { by apply Permutation_nil_r in Ek. }
  exists x. split; [by eapply lq_get_first_refines|]. rewrite Ek.
  split; [set_solver|by eapply lq_rep_top].
Qed.
Next Obligation.
  intros pf ? nbc m q l (k & Ek & H) Hw Hne Hlen. destruct k as [|x k].
  { by apply Permutation_nil_r in Ek. }
  unfold addressable in *. rewrite Ek in Hlen. cbn in Hlen.
  destruct (lq_remove_elt_refines m q x k H) as (q' & E & Hrep); [lia|].
  exists x, k, m, q'. split; [by eapply lq_get_first_refines|].
  split; [done|]. split; [done|]. split; [by exists k|done].
Qed.
