(* ===== verification/ArrayHeap.v ===== *)
(** * The array priority queue (heap.c, SCHED_PRIORITY_QUEUE_USE_HEAP)

    A binary heap of context pointers in an array of NB_CONTEXTS entries.
    Insertion moves a hole up from the end of the array; removal moves the
    last element to the root and swaps it down.  Indices are 32-bit. *)

From stdpp Require Import options.
From S2P Require Import Prelude Contexts PQueue.

(** ** The operations *)

(** struct prefix_heap and the array it points to; an entry that was never
    written is the null pointer of the zero-initialised array. *)
Record array_heap := ArrayHeap { ah_size : Z; ah_array : list (option cptr) }.

(** [heap->array[i]]. *)
Definition array_get (a : list (option cptr)) (i : Z) : res (option cptr) :=
  if 0 <=? i then
    match a !! Z.to_nat i with Some p => Ok p | None => Err (Undef OutOfBounds) end
  else Err (Undef OutOfBounds).

(** [heap->array[i] = p]. *)
Definition array_set (a : list (option cptr)) (i : Z) (p : option cptr)
    : res (list (option cptr)) :=
  if (0 <=? i) && (i <? Z.of_nat (length a)) then Ok (<[Z.to_nat i := p]> a)
  else Err (Undef OutOfBounds).

Section Operations.
Context (pf : prio_fn).

(** prefix_get_priority(p). *)
Definition ptr_priority (m : mem) (p : option cptr) : res Z :=
  match p with
  | None => Err (Undef NullDeref)
  | Some p => let* c := load m p in Ok (get_priority pf (sched c))
  end.

(** The [while(1)] loop of prefix_insert_elt: returns the array and the hole. *)
Fixpoint ah_sift_up (fuel : nat) (m : mem) (prio : Z) (a : list (option cptr)) (i : Z)
    : res (list (option cptr) * Z) :=
  match fuel with
  | O => Err NoFuel
  | S fuel =>
      if i =? 0 then Ok (a, i)
      else
        let parent := u32 (i - 1) / 2 in
        let* p := array_get a parent in
        let* pp := ptr_priority m p in
        if is_gt_priority pf prio pp then
          let* a1 := array_set a i p in
          ah_sift_up fuel m prio a1 parent
        else Ok (a, i)
  end.

(** prefix_insert_elt. *)
Definition ah_insert_elt (nbc : Z) (m : mem) (heap : array_heap) (elt : cptr)
    : res (mem * array_heap) :=
  let* _ := assertion (ah_size heap <? nbc) "heap->size < user_tasks_image.nb_contexts" in
  let i := ah_size heap in
  let* prio := ptr_priority m (Some elt) in
  let* (a, j) := ah_sift_up (S (Z.to_nat i)) m prio (ah_array heap) i in
  let* a1 := array_set a j (Some elt) in
  Ok (m, ArrayHeap (u32 (ah_size heap + 1)) a1).

(** The choice of [largest] in one iteration of prefix_remove_elt's loop. *)
Definition ah_largest (m : mem) (size : Z) (a : list (option cptr)) (i i_priority : Z)
    : res Z :=
  let left := u32 (2 * i + 1) in
  let right := u32 (2 * i + 2) in
  let test_left (largest largest_priority : Z) : res Z :=
    let* p := array_get a left in
    let* left_priority := ptr_priority m p in
    Ok (if is_gt_priority pf left_priority largest_priority then left else largest) in
  if right <? size then
    let* p := array_get a right in
    let* right_priority := ptr_priority m p in
    if is_gt_priority pf right_priority i_priority then test_left right right_priority
    else test_left i i_priority
  else if left <? size then test_left i i_priority
  else Ok i.

(** The [while(1)] loop of prefix_remove_elt. *)
Fixpoint ah_sift_down (fuel : nat) (nbc : Z) (m : mem) (size : Z)
    (a : list (option cptr)) (i i_priority : Z) : res (list (option cptr)) :=
  match fuel with
  | O => Err NoFuel
  | S fuel =>
      let* _ := assertion (i <? nbc) "i < user_tasks_image.nb_contexts" in
      let* largest := ah_largest m size a i i_priority in
      if largest =? i then Ok a
      else
        let* tmp := array_get a i in
        let* p := array_get a largest in
        let* a1 := array_set a i p in
        let* a2 := array_set a1 largest tmp in
        ah_sift_down fuel nbc m size a2 largest i_priority
  end.

(** prefix_remove_elt. *)
Definition ah_remove_elt (nbc : Z) (m : mem) (heap : array_heap)
    : res (cptr * mem * array_heap) :=
  let* r := array_get (ah_array heap) 0 in
  let* _ := assertion (ah_size heap <=? nbc) "heap->size <= user_tasks_image.nb_contexts" in
  let size := u32 (ah_size heap - 1) in
  let* p := array_get (ah_array heap) size in
  let* a := array_set (ah_array heap) 0 p in
  let* i_priority := ptr_priority m p in
  let* a1 := ah_sift_down (S (Z.to_nat size)) nbc m size a 0 i_priority in
  match r with
  | Some x => Ok (x, m, ArrayHeap size a1)
  | None => Err (Undef NullDeref)
  end.
End Operations.

(** prefix_get_first; the callers dereference the result. *)
Definition ah_get_first (heap : array_heap) : res cptr :=
  let* p := array_get (ah_array heap) 0 in
  match p with Some x => Ok x | None => Err (Undef NullDeref) end.

(** What scheduler_init stores: size 0 and the static array of NB_CONTEXTS
    null pointers. *)
Definition ah_init (nbc : Z) : array_heap :=
  ArrayHeap 0 (replicate (Z.to_nat nbc) None).

#[global] Instance array_pqueue (pf : prio_fn) : PQueue pf array_heap := {
  pq_init := ah_init;
  pq_size := ah_size;
  pq_insert_elt := ah_insert_elt pf;
  pq_remove_elt := ah_remove_elt pf;
  pq_get_first _ _ q := ah_get_first q
}.

(** ** Heap order on lists *)

(** The index of the parent of [n]. *)
Definition parent (n : nat) : nat := (n - 1) / 2.

Section HeapOrder.
Context {A : Type} (R : relation A).

(** Every element is below its parent. *)
Definition heap_ok (h : list A) : Prop :=
  forall n x y, (0 < n)%nat -> h !! n = Some x -> h !! parent n = Some y -> R y x.

(** As [heap_ok], but [i] may be above its parent; its children are below its
    parent. *)
Definition heap_but_up (h : list A) (i : nat) : Prop :=
  (forall n x y, (0 < n)%nat -> n <> i ->
     h !! n = Some x -> h !! parent n = Some y -> R y x) /\
  (forall n x y, (0 < n)%nat -> (0 < i)%nat -> parent n = i ->
     h !! n = Some x -> h !! parent i = Some y -> R y x).

(** As [heap_ok], but the children of [i] may be above [i]; they are below its
    parent. *)
Definition heap_but_down (h : list A) (i : nat) : Prop :=
  (forall n x y, (0 < n)%nat -> parent n <> i ->
     h !! n = Some x -> h !! parent n = Some y -> R y x) /\
  (forall n x y, (0 < n)%nat -> (0 < i)%nat -> parent n = i ->
     h !! n = Some x -> h !! parent i = Some y -> R y x).

(** [h] with the elements at [i] and [j] exchanged. *)
Definition swap (h : list A) (i j : nat) (x y : A) : list A := <[j := x]> (<[i := y]> h).
End HeapOrder.

(** The array holds [h] in its first entries. *)
Definition array_view (a : list (option cptr)) (h : list cptr) : Prop :=
  forall n x, h !! n = Some x -> a !! n = Some (Some x).

(** The array holds [h], except that the entry of the hole [i] is arbitrary. *)
Definition hole_view (a : list (option cptr)) (h : list cptr) (i : nat) : Prop :=
  forall n x, n <> i -> h !! n = Some x -> a !! n = Some (Some x).

Record ah_rep (pf : prio_fn) (nbc : Z) (m : mem) (heap : array_heap) (h : list cptr)
    : Prop := {
  ah_rep_size : ah_size heap = Z.of_nat (length h);
  ah_rep_view : array_view (ah_array heap) h;
  ah_rep_len : Z.of_nat (length (ah_array heap)) = nbc;
  ah_rep_fit : Z.of_nat (length h) <= nbc;
  ah_rep_nodup : NoDup h;
  ah_rep_alloc p : p ∈ h -> is_Some (m !! p);
  ah_rep_heap : heap_ok (served_before pf m) h
}.

(** [j], holding [y], is the best of [n], holding [x], and its children in
    [seen]. *)
Definition best_of (pf : prio_fn) (m : mem) (h : list cptr) (n : nat) (x : cptr) (seen : list nat) (j : nat) (y : cptr)
    : Prop :=
  h !! j = Some y /\
  (j = n \/ (0 < j)%nat /\ parent j = n /\ outranks pf m y x = true) /\
  served_before pf m y x /\ (forall k z, k ∈ seen -> h !! k = Some z -> served_before pf m y z).

(** ** Facts on heap order *)

Lemma parent_lt n : (0 < n)%nat -> (parent n < n)%nat.
Proof. unfold parent. intros. apply Nat.Div0.div_lt_upper_bound; lia. Qed.

Lemma parent_children n i :
  (0 < n)%nat -> parent n = i <-> n = (2 * i + 1)%nat \/ n = (2 * i + 2)%nat.
Proof. unfold parent. intros. split; intros; dlia. Qed.

Section HeapOrderFacts.
Context {A : Type} (R : relation A) `{!Reflexive R, !Transitive R}.
Implicit Types (h : list A) (i j n : nat).

Lemma lookup_swap h i j x y n :
  h !! i = Some x -> h !! j = Some y ->
  swap h i j x y !! n = if decide (n = j) then Some x
                        else if decide (n = i) then Some y else h !! n.
Proof using.
  intros Hi Hj. apply lookup_lt_Some in Hi, Hj. unfold swap.
  repeat case_decide; subst.
  - apply list_lookup_insert_eq. by rewrite length_insert.
  - rewrite list_lookup_insert_ne by done. by apply list_lookup_insert_eq.
  - by rewrite !list_lookup_insert_ne by done.
Qed.

Lemma length_swap h i j x y : length (swap h i j x y) = length h.
Proof using. unfold swap. by rewrite !length_insert. Qed.

Lemma swap_perm h i j x y :
  h !! i = Some x -> h !! j = Some y -> swap h i j x y ≡ₚ h.
Proof using. apply Permutation_insert_swap. Qed.

Lemma heap_ok_top h x n y :
  heap_ok R h -> h !! 0%nat = Some x -> h !! n = Some y -> R x y.
Proof using All.
  intros Hh Hx. revert y. induction (lt_wf n) as [n _ IH]. intros y Hy.
  destruct (decide (n = 0%nat)) as [->|Hn]; [by simplify_eq|].
  pose proof (parent_lt n ltac:(lia)) as Hp.
  destruct (lookup_lt_is_Some_2 h (parent n)) as [z Hz].
  { apply lookup_lt_Some in Hy. lia. }
  transitivity z; [by apply (IH (parent n))|]. eapply Hh; [|done..]. lia.
Qed.

Lemma heap_but_up_done h i :
  heap_but_up R h i ->
  (i = 0%nat \/ exists x y, h !! i = Some x /\ h !! parent i = Some y /\ R y x) ->
  heap_ok R h.
Proof using.
  intros [H1 _] Hi n x y Hn Hx Hy. destruct (decide (n = i)) as [->|]; [|by eapply H1].
  destruct Hi as [->|(x' & y' & ? & ? & ?)]; [lia|]. by simplify_eq.
Qed.

Lemma heap_but_up_step h i x y :
  (0 < i)%nat -> heap_but_up R h i -> h !! i = Some x -> h !! parent i = Some y ->
  R x y -> heap_but_up R (swap h i (parent i) x y) (parent i).
Proof using All.
  intros Hi [H1 H2] Hx Hy Hxy. pose proof (parent_lt i Hi) as Hpi.
  split; intros n u v Hn.
  - intros Hni. pose proof (parent_lt n Hn). rewrite !(lookup_swap h i _ x y _ Hx Hy).
    repeat case_decide; subst; intros; simplify_eq; try lia; try done.
    + (* a sibling of [i] *) transitivity y; [done|]. eapply H1; [| |done|]; [lia..|].
      congruence.
    + (* a child of [i] *) by eapply H2.
    + by eapply H1.
  - intros Hi0 Hni. pose proof (parent_lt _ Hi0). rewrite !(lookup_swap h i _ x y _ Hx Hy).
    repeat case_decide; subst; intros; simplify_eq; try lia.
    + eapply H1; [| |done..]; lia.
    + transitivity y; [eapply H1; [| |done..]; lia|].
      eapply H1; [| |done|]; [lia..|]. congruence.
Qed.

Lemma heap_but_down_done h i x :
  heap_but_down R h i -> h !! i = Some x ->
  (forall n y, (0 < n)%nat -> parent n = i -> h !! n = Some y -> R x y) -> heap_ok R h.
Proof using.
  intros [H1 _] Hx Hc n u v Hn Hu Hv.
  destruct (decide (parent n = i)) as [E|]; [|by eapply H1].
  rewrite E in Hv. simplify_eq. by eapply Hc.
Qed.

Lemma heap_but_down_step h i j x y :
  (0 < j)%nat -> parent j = i -> heap_but_down R h i ->
  h !! i = Some x -> h !! j = Some y -> R y x ->
  (forall n z, (0 < n)%nat -> parent n = i -> h !! n = Some z -> R y z) ->
  heap_but_down R (swap h i j x y) j.
Proof using All.
  intros Hj Hij [H1 H2] Hx Hy Hyx Hsib. pose proof (parent_lt j Hj) as Hpj.
  split; intros n u v Hn.
  - intros Hnj. pose proof (parent_lt n Hn). rewrite !(lookup_swap h i j x y _ Hx Hy).
    repeat case_decide; subst; intros; simplify_eq; try lia; try done.
    + eapply H2; [| |done..]; lia.
    + by eapply Hsib.
    + by eapply H1.
  - intros _ Hnj. pose proof (parent_lt n Hn). rewrite !(lookup_swap h i j x y _ Hx Hy).
    repeat case_decide; subst; intros; simplify_eq; try lia; try done.
    eapply H1; [| |done|done]; lia.
Qed.

(** Replacing the root leaves a heap but for the root's children. *)
Lemma heap_root_replaced h x :
  heap_ok R h -> heap_but_down R (<[0%nat := x]> h) 0.
Proof using.
  intros Hh. split; intros n u v Hn; [|lia].
  intros Hp. rewrite !list_lookup_insert_ne by lia. by apply Hh.
Qed.

Lemma heap_ok_prefix h x : heap_ok R (h ++ [x]) -> heap_ok R h.
Proof using.
  intros Hh n u v Hn Hu Hv. eapply Hh; [done| |]; by apply lookup_app_l_Some.
Qed.

(** A heap extended at the end is a heap but for its last element. *)
Lemma heap_extended h x : heap_ok R h -> heap_but_up R (h ++ [x]) (length h).
Proof using.
  intros Hh. split; intros n u v Hn.
  - intros Hne Hu Hv. pose proof (parent_lt n Hn).
    assert (n < length h)%nat as Hlt.
    { apply lookup_lt_Some in Hu. rewrite length_app in Hu. cbn in Hu. lia. }
    rewrite lookup_app_l in Hu, Hv by lia. by eapply Hh.
  - intros _ Hp Hu. pose proof (parent_lt n Hn).
    apply lookup_lt_Some in Hu. rewrite length_app in Hu. cbn in Hu. lia.
Qed.
End HeapOrderFacts.

(** ** Array accesses *)

Lemma array_get_ok a (n : nat) p : a !! n = Some p -> array_get a (Z.of_nat n) = Ok p.
Proof.
  intros E. unfold array_get. zbool. by rewrite Nat2Z.id, E.
Qed.

Lemma array_set_ok a (n : nat) p :
  (n < length a)%nat -> array_set a (Z.of_nat n) p = Ok (<[n := p]> a).
Proof. intros E. unfold array_set. zbool. by rewrite Nat2Z.id. Qed.

Lemma ptr_priority_ok pf m x :
  is_Some (m !! x) -> ptr_priority pf m (Some x) = Ok (prio_of pf m x).
Proof. intros [c E]. unfold ptr_priority, load, prio_of. by rewrite E. Qed.

Lemma hole_view_swap a h i j x y :
  i <> j -> (i < length a)%nat -> h !! i = Some x -> h !! j = Some y ->
  hole_view a h i -> hole_view (<[i := Some y]> a) (swap h i j x y) j.
Proof.
  intros Hij Hi Hx Hy Hv n z Hn. rewrite (lookup_swap h i j x y n Hx Hy).
  rewrite decide_False by done. case_decide; subst.
  - intros [= ->]. by apply list_lookup_insert_eq.
  - rewrite list_lookup_insert_ne by done. by apply Hv.
Qed.

Lemma hole_view_filled a h i x :
  (i < length a)%nat -> h !! i = Some x -> hole_view a h i ->
  array_view (<[i := Some x]> a) h.
Proof.
  intros Hi Hx Hv n z Hz. destruct (decide (n = i)) as [->|].
  - simplify_eq. by apply list_lookup_insert_eq.
  - rewrite list_lookup_insert_ne by done. by apply Hv.
Qed.

Lemma array_view_swap a h i j x y :
  (i < length a)%nat -> (j < length a)%nat -> h !! i = Some x -> h !! j = Some y ->
  array_view a h -> array_view (<[j := Some x]> (<[i := Some y]> a)) (swap h i j x y).
Proof.
  intros Hi Hj Hx Hy Hv n z. rewrite (lookup_swap h i j x y n Hx Hy).
  repeat case_decide; subst; intros; simplify_eq.
  - apply list_lookup_insert_eq. by rewrite length_insert.
  - rewrite list_lookup_insert_ne by done. by apply list_lookup_insert_eq.
  - rewrite !list_lookup_insert_ne by done. by apply Hv.
Qed.

(** ** The operations keep the heap *)

Section Correctness.
Context {pf : prio_fn} {Hpf : PrioOrder pf}.
Context (nbc : Z) (m : mem) (Hnbc : addressable nbc).
Implicit Types (a : list (option cptr)) (h : list cptr).
Local Abbreviation R := (served_before pf m).

Lemma ah_sift_up_spec fuel a h (n : nat) x :
  h !! n = Some x -> hole_view a h n -> heap_but_up R h n ->
  (forall p, p ∈ h -> is_Some (m !! p)) ->
  (length h <= length a)%nat -> Z.of_nat (length a) = nbc -> (n < fuel)%nat ->
  exists a' n' h', ah_sift_up pf fuel m (prio_of pf m x) a (Z.of_nat n) = Ok (a', Z.of_nat n') /\
    h' !! n' = Some x /\ hole_view a' h' n' /\ heap_ok R h' /\ h' ≡ₚ h /\
    length a' = length a.
Proof using All.
  revert fuel a h. induction (lt_wf n) as [n _ IH].
  intros fuel a h Hx Hv Hh Hal Hlen Hnb Hf. unfold addressable in Hnbc.
  destruct fuel as [|fuel]; [lia|]. cbn [ah_sift_up].
  pose proof (lookup_lt_Some _ _ _ Hx) as Hn.
  destruct (Z.eqb_spec (Z.of_nat n) 0) as [E|Hn0].
  { exists a, n, h. repeat split; try done. eapply heap_but_up_done; [done|left; lia]. }
  pose proof (parent_lt n ltac:(lia)) as Hp.
  assert (u32 (Z.of_nat n - 1) / 2 = Z.of_nat (parent n)) as ->.
  { unfold parent. rewrite wrap_small by (unfold in_width; lia). dlia. }
  destruct (lookup_lt_is_Some_2 h (parent n)) as [y Hy]; [lia|].
  rewrite (array_get_ok a _ (Some y)) by (apply Hv; [lia|done]). cbn [rbind].
  rewrite ptr_priority_ok by (apply Hal; by eapply list_elem_of_lookup_2).
  cbn [rbind]. destruct (is_gt_priority pf _ _) eqn:E.
  - rewrite array_set_ok by lia. cbn [rbind].
    destruct (IH (parent n) Hp fuel (<[n := Some y]> a) (swap h n (parent n) x y))
      as (a' & n' & h' & -> & Hx' & Hv' & Hok & Hpm & Hla).
    + rewrite (lookup_swap h n (parent n) x y _ Hx Hy). by rewrite decide_True.
    + apply hole_view_swap; try done; lia.
    + apply heap_but_up_step; [apply _|apply _|lia|done..|by apply gt_asym].
    + intros p. rewrite (swap_perm h n (parent n) x y Hx Hy). apply Hal.
    + by rewrite length_swap, length_insert.
    + by rewrite length_insert.
    + lia.
    + exists a', n', h'. rewrite length_insert in Hla. repeat split; try done.
      by rewrite Hpm, swap_perm.
  - exists a, n, h. repeat split; try done.
    eapply heap_but_up_done; [done|]. right. by exists x, y.
Qed.

Lemma best_of_self h n x : h !! n = Some x -> best_of pf m h n x [] n x.
Proof using Hpf.
  intros Hx. split; [done|]. split; [by left|]. split; [apply served_before_refl|].
  intros k z Hk. by apply elem_of_nil in Hk.
Qed.

Lemma best_of_step h n x seen j y k z :
  best_of pf m h n x seen j y -> (0 < k)%nat -> parent k = n -> h !! k = Some z ->
  if is_gt_priority pf (prio_of pf m z) (prio_of pf m y)
  then best_of pf m h n x (k :: seen) k z else best_of pf m h n x (k :: seen) j y.
Proof using Hpf.
  intros (Hy & Hj & Hyx & Hs) Hk Hp Hz. destruct (is_gt_priority pf _ _) eqn:E.
  - assert (R z y) as Hzy by (by apply gt_asym). split; [done|]. split; [right|split].
    + split; [done|]. split; [done|]. destruct (outranks pf m z x) eqn:E'; [done|].
      by rewrite (gt_ntrans _ _ _ E' Hyx) in E.
    + by transitivity y.
    + intros k' z' [->|Hk']%elem_of_cons Hz'; [simplify_eq; apply served_before_refl|].
      transitivity y; [done|]. by eapply Hs.
  - split; [done|]. split; [done|]. split; [done|].
    intros k' z' [->|Hk']%elem_of_cons Hz'; [by simplify_eq|]. by eapply Hs.
Qed.

(** What [largest] is: [i], or a child of [i] that outranks it, such that no
    child of [i] outranks [largest]. *)
Lemma ah_largest_spec a h (n : nat) x :
  h !! n = Some x -> array_view a h -> (forall p, p ∈ h -> is_Some (m !! p)) ->
  Z.of_nat (length h) <= nbc ->
  exists j y, ah_largest pf m (Z.of_nat (length h)) a (Z.of_nat n) (prio_of pf m x)
      = Ok (Z.of_nat j) /\ best_of pf m h n x [(2 * n + 1)%nat; (2 * n + 2)%nat] j y.
Proof using All.
  intros Hx Hv Hal Hlen. unfold addressable in Hnbc.
  pose proof (lookup_lt_Some _ _ _ Hx) as Hn.
  assert (forall k z, h !! k = Some z -> array_get a (Z.of_nat k) = Ok (Some z) /\
      ptr_priority pf m (Some z) = Ok (prio_of pf m z)) as Hget.
  { intros k z Hz. split; [by apply array_get_ok, Hv|].
    apply ptr_priority_ok, Hal. by eapply list_elem_of_lookup_2. }
  assert (forall k j y, (length h <= k)%nat -> best_of pf m h n x [] j y -> best_of pf m h n x [k] j y)
    as Hskip.
  { intros k j y Hk (? & ? & ? & _). repeat split; try done.
    intros k' z ->%list_elem_of_singleton Hz%lookup_lt_Some. lia. }
  assert (forall k s j y, best_of pf m h n x (k :: s) j y -> best_of pf m h n x [] j y) as Hdrop.
  { intros k s j y (? & ? & ? & _). repeat split; try done. intros ? ? []%elem_of_nil. }
  unfold ah_largest.
  assert (u32 (2 * Z.of_nat n + 1) = Z.of_nat (2 * n + 1)) as ->
    by (rewrite wrap_small by (unfold in_width; lia); lia).
  assert (u32 (2 * Z.of_nat n + 2) = Z.of_nat (2 * n + 2)) as ->
    by (rewrite wrap_small by (unfold in_width; lia); lia).
  assert (parent (2 * n + 1) = n /\ parent (2 * n + 2) = n) as [Hpl Hpr]
    by (split; apply parent_children; lia).
  assert (forall s j y, best_of pf m h n x s j y -> (2 * n + 1 < length h)%nat ->
    exists j' y', (let* p := array_get a (Z.of_nat (2 * n + 1)) in
      let* lp := ptr_priority pf m p in
      Ok (if is_gt_priority pf lp (prio_of pf m y) then Z.of_nat (2 * n + 1) else Z.of_nat j))
      = Ok (Z.of_nat j') /\ best_of pf m h n x ((2 * n + 1)%nat :: s) j' y') as Hleft.
  { intros s j y Hb Hl. destruct (lookup_lt_is_Some_2 h (2 * n + 1) Hl) as [z Hz].
    destruct (Hget _ _ Hz) as [-> E]. cbn [rbind]. rewrite E. cbn [rbind].
    pose proof (best_of_step _ _ _ _ _ _ (2 * n + 1) z Hb ltac:(lia) Hpl Hz) as Hb'.
    destruct (is_gt_priority pf _ _); eauto. }
  pose proof (best_of_self h n x Hx) as H0.
  destruct (Z.ltb_spec (Z.of_nat (2 * n + 2)) (Z.of_nat (length h))) as [Hr|Hr].
  - destruct (lookup_lt_is_Some_2 h (2 * n + 2)) as [zr Hzr]; [lia|].
    destruct (Hget _ _ Hzr) as [-> E]. cbn [rbind]. rewrite E. cbn [rbind].
    pose proof (best_of_step _ _ _ _ _ _ (2 * n + 2) zr H0 ltac:(lia) Hpr Hzr) as Hb.
    destruct (is_gt_priority pf _ _); apply (Hleft _ _ _ Hb); lia.
  - assert (best_of pf m h n x [(2 * n + 2)%nat] n x) as Hb by (apply Hskip; [lia|done]).
    destruct (Z.ltb_spec (Z.of_nat (2 * n + 1)) (Z.of_nat (length h))) as [Hl|Hl].
    + apply (Hleft _ _ _ Hb). lia.
    + exists n, x. split; [done|]. destruct Hb as (? & ? & ? & Hs). repeat split; try done.
      intros k z [->|Hk]%elem_of_cons Hz; [apply lookup_lt_Some in Hz; lia|]. by eapply Hs.
Qed.

Lemma best_of_children h n x j y k z :
  best_of pf m h n x [(2 * n + 1)%nat; (2 * n + 2)%nat] j y ->
  (0 < k)%nat -> parent k = n -> h !! k = Some z -> R y z.
Proof using.
  intros (_ & _ & _ & Hs) Hk Hp. apply Hs. apply parent_children in Hp as [->| ->]; [by left|right; by left|done].
Qed.

Lemma ah_sift_down_spec fuel a h (n : nat) x :
  h !! n = Some x -> array_view a h -> heap_but_down R h n ->
  (forall p, p ∈ h -> is_Some (m !! p)) ->
  Z.of_nat (length h) <= nbc -> Z.of_nat (length a) = nbc -> (length h - n < fuel)%nat ->
  exists a' h', ah_sift_down pf fuel nbc m (Z.of_nat (length h)) a (Z.of_nat n)
      (prio_of pf m x) = Ok a' /\
    array_view a' h' /\ heap_ok R h' /\ h' ≡ₚ h /\ length a' = length a.
Proof using All.
  revert a h n. induction fuel as [|fuel IH]; intros a h n Hx Hv Hh Hal Hlen Hnb Hf; [lia|].
  pose proof (lookup_lt_Some _ _ _ Hx) as Hn. cbn [ah_sift_down].
  unfold assertion. zbool. cbn [rbind].
  destruct (ah_largest_spec a h n x Hx Hv Hal Hlen) as (j & y & -> & Hb). cbn [rbind].
  pose proof (fun k z => best_of_children h n x j y k z Hb) as Hch.
  destruct Hb as (Hy & Hj & Hyx & Hs).
  destruct (Z.eqb_spec (Z.of_nat j) (Z.of_nat n)) as [E|E].
  { apply Nat2Z.inj in E as ->. simplify_eq. exists a, h. repeat split; try done.
    by eapply heap_but_down_done. }
  destruct Hj as [->|(Hj & Hp & Hgt)]; [done|].
  pose proof (lookup_lt_Some _ _ _ Hy) as Hjl. pose proof (parent_lt j Hj).
  rewrite (array_get_ok a n (Some x)) by (by apply Hv). cbn [rbind].
  rewrite (array_get_ok a j (Some y)) by (by apply Hv). cbn [rbind].
  rewrite array_set_ok by lia. cbn [rbind].
  rewrite array_set_ok by (rewrite length_insert; lia). cbn [rbind].
  rewrite <-(length_swap h n j x y).
  destruct (IH (<[j := Some x]> (<[n := Some y]> a)) (swap h n j x y) j)
    as (a' & h' & -> & Hv' & Hok & Hpm & Hla).
  - rewrite (lookup_swap h n j x y _ Hx Hy). by rewrite decide_True.
  - apply array_view_swap; try done; lia.
  - eapply heap_but_down_step; [apply _|apply _|done..|eauto].
  - intros p. rewrite (swap_perm h n j x y Hx Hy). apply Hal.
  - by rewrite length_swap.
  - by rewrite !length_insert.
  - rewrite length_swap. lia.
  - exists a', h'. rewrite !length_insert in Hla. repeat split; try done.
    by rewrite Hpm, swap_perm.
Qed.

Lemma ah_insert_elt_spec heap h x :
  ah_rep pf nbc m heap h -> is_Some (m !! x) -> x ∉ h -> Z.of_nat (length h) < nbc ->
  exists heap' h', ah_insert_elt pf nbc m heap x = Ok (m, heap') /\
    ah_rep pf nbc m heap' h' /\ h' ≡ₚ x :: h.
Proof using All.
  intros [Hsz Hv Hla Hfit Hnd Hal Hh] Hx Hnx Hlt. unfold ah_insert_elt.
  rewrite Hsz. unfold assertion. zbool. cbn [rbind].
  rewrite (ptr_priority_ok pf m x Hx). cbn [rbind].
  destruct (ah_sift_up_spec (S (Z.to_nat (Z.of_nat (length h)))) (ah_array heap)
      (h ++ [x]) (length h) x) as (a & j & h' & -> & Hj & Hv' & Hok & Hpm & Hl).
  - apply list_lookup_middle. done.
  - intros n y Hn Hy. apply Hv. apply lookup_app_Some in Hy as [Hy|[? Hy]]; [done|].
    apply list_lookup_singleton_Some in Hy. lia.
  - by apply heap_extended.
  - intros p. rewrite elem_of_app, list_elem_of_singleton. intros [?| ->]; auto.
  - rewrite length_app. cbn. lia.
  - done.
  - lia.
  - cbn [rbind]. pose proof (lookup_lt_Some _ _ _ Hj) as Hjl.
    rewrite Hpm, length_app in Hjl. cbn in Hjl.
    rewrite array_set_ok by lia. cbn [rbind].
    assert (h' ≡ₚ x :: h) as Hp by (by rewrite Hpm, Permutation_app_comm).
    do 2 eexists. split; [done|]. split; [|exact Hp].
    split; cbn; rewrite ?length_insert, ?Hp; cbn [length]; try done; try lia.
    + unfold addressable in Hnbc. rewrite wrap_small; unfold in_width; lia.
    + apply hole_view_filled; try done; lia.
    + by constructor.
    + intros p. rewrite Hp. intros [->|?]%elem_of_cons; auto.
Qed.

Lemma ah_get_first_spec heap x h :
  ah_rep pf nbc m heap (x :: h) ->
  ah_get_first heap = Ok x /\ top_of pf m x (x :: h).
Proof using Hpf.
  intros [Hsz Hv Hla Hfit Hnd Hal Hh]. split.
  - unfold ah_get_first. by rewrite (array_get_ok _ 0 (Some x)) by (by apply Hv).
  - apply Forall_forall. intros y [n Hy]%list_elem_of_lookup.
    by apply (heap_ok_top R (x :: h) x n y).
Qed.

Lemma ah_remove_elt_spec heap x h :
  ah_rep pf nbc m heap (x :: h) ->
  exists heap' h', ah_remove_elt pf nbc m heap = Ok (x, m, heap') /\
    ah_rep pf nbc m heap' h' /\ h' ≡ₚ h.
Proof using All.
  intros [Hsz Hv Hla Hfit Hnd Hal Hh]. unfold ah_remove_elt. unfold addressable in Hnbc.
  rewrite (array_get_ok _ 0 (Some x)) by (by apply Hv). cbn [rbind].
  rewrite Hsz. unfold assertion. cbn [length] in *. zbool. cbn [rbind].
  assert (u32 (Z.of_nat (S (length h)) - 1) = Z.of_nat (length h)) as ->
    by (rewrite wrap_small; unfold in_width; lia).
  set (a := ah_array heap) in *.
  apply NoDup_cons in Hnd as [Hxh Hnd].
  destruct h as [|z k _] using rev_ind.
  - (* the last element leaves *)
    rewrite (array_get_ok _ (length []) (Some x)) by (by apply Hv). cbn [rbind].
    rewrite (array_set_ok a 0) by (cbn in *; lia). cbn [rbind].
    rewrite (ptr_priority_ok pf m x) by (apply Hal; set_solver). cbn [rbind].
    destruct a as [|a0 a]; [by specialize (Hv 0%nat x eq_refl)|].
    cbn [ah_sift_down Z.to_nat Z.of_nat length insert list_insert]. unfold assertion.
    cbn in Hla. zbool. cbn [rbind]. unfold ah_largest. cbn.
    do 2 eexists. split; [done|]. split; [|done].
    split; cbn; try done; try lia; try (by constructor).
    intros p []%elem_of_nil.
  - rewrite length_app in *. cbn [length] in *.
    rewrite (array_get_ok _ (length k + 1) (Some z))
      by (apply Hv; rewrite Nat.add_1_r; cbn; by apply list_lookup_middle).
    cbn [rbind]. rewrite (array_set_ok a 0) by lia. cbn [rbind].
    rewrite (ptr_priority_ok pf m z) by (apply Hal; set_solver). cbn [rbind].
    assert (heap_ok R (x :: k)) as Hk by (by apply (heap_ok_prefix R (x :: k) z)).
    replace (length k + 1)%nat with (length (z :: k)) by (cbn; lia).
    destruct (ah_sift_down_spec (S (Z.to_nat (Z.of_nat (length (z :: k)))))
        (<[0%nat := Some z]> a) (z :: k) 0 z) as (a' & h' & E & Hv' & Hok & Hpm & Hl).
    + done.
    + intros n y Hy. destruct n as [|n]; cbn in Hy.
      * injection Hy as ->. apply list_lookup_insert_eq. lia.
      * rewrite list_lookup_insert_ne by done. apply Hv. cbn. by apply lookup_app_l_Some.
    + by apply (heap_root_replaced R (x :: k) z).
    + intros p Hp. apply Hal. set_solver.
    + cbn. lia.
    + by rewrite length_insert.
    + lia.
    + change (Z.of_nat 0) with 0 in E. rewrite E. cbn [rbind].
      assert (h' ≡ₚ k ++ [z]) as Hp by (by rewrite Hpm, Permutation_app_comm).
      do 2 eexists. split; [done|]. split; [|exact Hp].
      rewrite length_insert in Hl.
      split; cbn [ah_size ah_array]; rewrite ?Hl, ?Hpm; cbn [length]; try done; try lia.
      * by rewrite <-Hpm, Hp.
      * intros p. rewrite Hp. intros ?. apply Hal. set_solver.
Qed.
End Correctness.

Lemma ah_rep_frame pf nbc m m' heap h :
  ah_rep pf nbc m heap h -> same_sched m m' h -> ah_rep pf nbc m' heap h.
Proof.
  intros [Hsz Hv Hla Hfit Hnd Hal Hh] E. split; try done.
  - intros p Hp. eapply same_sched_alloc; eauto.
  - intros n x y Hn Hx Hy. unfold served_before.
    rewrite <-(same_sched_outranks m m' h); [by eapply Hh|done|..];
      by eapply list_elem_of_lookup_2.
Qed.

Lemma ah_rep_init pf nbc m : addressable nbc -> ah_rep pf nbc m (ah_init nbc) [].
Proof.
  intros Hn. unfold addressable in Hn.
  split; cbn; rewrite ?length_replicate; try done; try lia; try constructor.
  intros p []%elem_of_nil.
Qed.

(** ** The interface *)

#[global] Program Instance array_pqueue_spec (pf : prio_fn) `{!PrioOrder pf} :
    PQueueSpec pf array_heap := {
  pq_rep nbc m q l := exists h, l ≡ₚ h /\ ah_rep pf nbc m q h
}.
Next Obligation. intros pf ? nbc m q l l' E (k & Ek & H). exists k. by rewrite <-E. Qed.
Next Obligation. intros pf ? nbc m q l (k & Ek & H). rewrite Ek. by destruct H. Qed.
Next Obligation. intros pf ? nbc m q l (k & Ek & H). rewrite Ek. by destruct H. Qed.
Next Obligation. intros pf ? nbc m q l p (k & Ek & H). rewrite Ek. apply H. Qed.
Next Obligation. intros pf ? nbc m Hn. exists []. split; [done|]. by apply ah_rep_init. Qed.
Next Obligation.
  intros pf ? nbc m m' q l (k & Ek & H) E. exists k. split; [done|].
  eapply ah_rep_frame; [done|]. eapply same_sched_subset; [|exact E].
  intros p. by rewrite Ek.
Qed.
Next Obligation.
  intros pf ? nbc m q l x (k & Ek & H) Hw Hlen Hal Hx. rewrite Ek in Hlen, Hx.
  destruct (ah_insert_elt_spec nbc m Hw q k x H Hal Hx Hlen) as (q' & h' & E & Hrep & Hp).
  exists m, q'. split; [done|]. split; [|done].
  exists h'. split; [by rewrite Hp, Ek|done].
Qed.
Next Obligation.
  intros pf ? nbc m q l (k & Ek & H) Hne. destruct k as [|x k].
  { by apply Permutation_nil_r in Ek. }
  exists x. destruct (ah_get_first_spec nbc m q x k H) as [E Ht]. rewrite Ek.
  split; [done|]. split; [set_solver|done].
Qed.
Next Obligation.
  intros pf ? nbc m q l (k & Ek & H) Hw Hne Hlen. destruct k as [|x k].
  { by apply Permutation_nil_r in Ek. }
  destruct (ah_get_first_spec nbc m q x k H) as [E Ht].
  destruct (ah_remove_elt_spec nbc m Hw q x k H) as (q' & h' & E' & Hrep & Hp).
  exists x, h', m, q'. split; [done|]. split; [done|].
  split; [by rewrite Ek, Hp|]. split; [by exists h'|done].
Qed.
