(* ===== verification/Timer.v ===== *)
(** * The timer (timer.h, pit_timer.c, x86/port.h)

    The programmable interval timer: its constants, the clock and alarm
    variables, and the port writes that program the interrupt controller and
    the timer.  The interrupt handler itself is in HighLevel.v, because it
    calls the scheduler. *)

From stdpp Require Import options.
From S2P Require Import Prelude.

(** ** Constants *)

Definition NANOSECOND : Z := 1.
Definition MICROSECOND : Z := 1000 * NANOSECOND.
Definition MILLISECOND : Z := 1000 * MICROSECOND.
Definition SECOND : Z := 1000 * MILLISECOND.

Definition PIT_HZ : Z := 1193182.
Definition WANTED_TICK : Z := MILLISECOND.
Definition DIVISOR : Z := u64 (PIT_HZ * WANTED_TICK) / SECOND.
Definition ACTUAL_TICK : Z := u64 (SECOND * DIVISOR) / PIT_HZ.
Definition MAX_DIVISOR : Z := 65535.
Definition DATE_FAR_AWAY : Z := 0xFFFFFFFFFFFFFFFF.

(** ** Port writes *)

(** One [outb(port, val)]: a 16-bit port and an 8-bit value. *)
Definition outb (port val : Z) : Z * Z := (u16 port, u8 val).

(** The other functions of port.h, which the kernel does not call; [dev] is what
    the device at a port answers. *)
Module Port.
Definition outw (port val : Z) : Z * Z := (u16 port, u16 val).
Definition outl (port val : Z) : Z * Z := (u16 port, u32 val).
Definition inb (dev : Z -> Z) (port : Z) : Z := u8 (dev (u16 port)).
Definition inw (dev : Z -> Z) (port : Z) : Z := u16 (dev (u16 port)).
Definition inl (dev : Z -> Z) (port : Z) : Z := u32 (dev (u16 port)).
End Port.

Definition master_pic_command : Z := 0x20.
Definition master_pic_data : Z := 0x21.
Definition slave_pic_command : Z := 0xA0.
Definition slave_pic_data : Z := 0xA1.
Definition pit_command : Z := 0x43.
Definition pit_data : Z := 0x40.

(** The writes of init_pic, in order; the arguments are TIMER_INTNUM and
    SPURIOUS_TIMER_INTNUM of low_level.h. *)
Definition init_pic (timer_intnum spurious_timer_intnum : Z) : list (Z * Z) :=
  [ outb master_pic_command 0x11; outb slave_pic_command 0x11;
    outb master_pic_data timer_intnum; outb slave_pic_data spurious_timer_intnum;
    outb master_pic_data 4; outb slave_pic_data 2;
    outb master_pic_data 1; outb slave_pic_data 1;
    outb master_pic_data 0xFE; outb slave_pic_data 0xFF ].

(** ** State and operations *)

(** The static variables of pit_timer.c. *)
Record timer := Timer { current_time : Z; next_wake_date : Z; count : Z }.

(** Their values before timer_init. *)
Definition timer_zero : timer := Timer 0 DATE_FAR_AWAY 0.

Definition timer_current_time (t : timer) : Z := current_time t.

Definition timer_init (t : timer) : timer * list (Z * Z) :=
  (Timer 0 (next_wake_date t) (count t),
   [ outb pit_command 0x34; outb pit_data (Z.land DIVISOR 0xFF);
     outb pit_data (Z.shiftr DIVISOR 8) ]).

Definition timer_wake_at (next_wakeup : Z) (t : timer) : timer :=
  Timer (current_time t) next_wakeup (count t).

Definition timer_dont_wake (t : timer) : timer :=
  Timer (current_time t) DATE_FAR_AWAY (count t).

(** The clock update of timer_interrupt_handler. *)
Definition timer_advance (t : timer) : timer :=
  Timer (u64 (current_time t + ACTUAL_TICK)) (next_wake_date t) (count t).

(** [++count % 100 == 0], compiled with DEBUG_PRINTING; [count] is an int. *)
Definition timer_count (t : timer) : res (bool * timer) :=
  if count t =? 2 ^ 31 - 1 then Err (Undef SignedOverflow)
  else Ok (Z.rem (count t + 1) 100 =? 0,
           Timer (current_time t) (next_wake_date t) (count t + 1)).

(** ** Facts *)

Lemma divisor_value : DIVISOR = 1193.
Proof. reflexivity. Qed.

Lemma actual_tick_value : ACTUAL_TICK = 999847.
Proof. reflexivity. Qed.

(** The two _Static_asserts of pit_timer.c. *)
Lemma wanted_tick_small : WANTED_TICK < u64 (SECOND * MAX_DIVISOR) / PIT_HZ.
Proof. reflexivity. Qed.

Lemma divisor_small : DIVISOR < MAX_DIVISOR.
Proof. reflexivity. Qed.

(** The clock after [n] ticks. *)
Lemma timer_advance_iter n t :
  in_width 64 (current_time t) ->
  current_time (Nat.iter n timer_advance t)
    = u64 (current_time t + Z.of_nat n * ACTUAL_TICK).
Proof.
  intros Ht. induction n as [|n IH].
  - rewrite Z.mul_0_l, Z.add_0_r. symmetry. by apply wrap_small.
  - change (Nat.iter (S n) timer_advance t)
      with (timer_advance (Nat.iter n timer_advance t)).
    unfold timer_advance at 1. cbn [current_time].
    rewrite IH, wrap_add_l. f_equal. lia.
Qed.
