(* ===== verification/Scheduler.v ===== *)
(** * The scheduler interface (scheduler.h)

    scheduler.h declares six functions that priority_scheduler.c and
    round_robin_scheduler.c both implement; the build links one of them.
    [Scheduler] is that declaration and [SchedulerSpec] what the rest of the
    kernel relies on: an invariant over the contexts that take part in
    scheduling, indexed by where the kernel is between two context switches. *)

From stdpp Require Import options.
From S2P Require Import Prelude Contexts PQueue Timer.

(** ** The operations *)

(** What a scheduler reads and writes: the contexts, its own static variables
    and the timer. *)
Record sstate (St : Type) := SState {
  s_mem : mem;
  s_sched : St;
  s_timer : timer
}.
Arguments SState {St} s_mem s_sched s_timer.
Arguments s_mem {St} s.
Arguments s_sched {St} s.
Arguments s_timer {St} s.

Class Scheduler (St : Type) := {
  scheduler_init : user_tasks_image -> sstate St -> res (sstate St);
  sched_set_waiting : user_tasks_image -> cptr -> sstate St -> res (sstate St);
  sched_wake_tasks : user_tasks_image -> Z -> sstate St -> res (sstate St);
  sched_maybe_preempt : user_tasks_image -> cptr -> sstate St -> res (cptr * sstate St);
  sched_choose_next : user_tasks_image -> sstate St -> res (cptr * sstate St);
  sched_insert_duplicated_context :
    user_tasks_image -> cptr -> cptr -> sstate St -> res (sstate St)
}.

(** ** The contract *)

(** Where the kernel is: a task runs; the idle context runs; a task was
    interrupted and the queues may have changed since it was chosen; nothing
    is running and a context must be chosen. *)
Inductive phase := Running (ctx : cptr) | Idling | Woken (ctx : cptr) | Choosing.

Definition with_mem {St} (m : mem) (s : sstate St) : sstate St :=
  SState m (s_sched s) (s_timer s).
Definition with_timer {St} (t : timer) (s : sstate St) : sstate St :=
  SState (s_mem s) (s_sched s) t.

(** A user image in which the tasks have distinct contexts, none of which is
    the idle context, and nb_contexts contexts can be addressed. *)
Record image_ok (img : user_tasks_image) : Prop := {
  img_nb_tasks : nb_tasks img = Z.of_nat (length (tasks img));
  img_some_task : tasks img <> [];
  img_contexts : NoDup (t_context <$> tasks img);
  img_not_idle : context_idle img ∉ t_context <$> tasks img;
  img_fits : Z.of_nat (length (tasks img)) <= nb_contexts img;
  img_addressable : addressable (nb_contexts img)
}.

(** [s'] is [s] but for the scheduler's variables, the timer's alarm and the
    [next] links of the contexts of [live]. *)
Definition sched_frame {St} (live : list cptr) (s s' : sstate St) : Prop :=
  s_mem s' ≈ₙ s_mem s /\
  (forall p, p ∉ live -> s_mem s' !! p = s_mem s !! p) /\
  current_time (s_timer s') = current_time (s_timer s) /\
  count (s_timer s') = count (s_timer s).

(** The part of a context that schedulers never write. *)
Definition non_sched (c : context) : hw_context * Z * Z := (hw c, pid c, range c).

(** [m'] is [m] but for the dates of [ctx], as a yield updates them. *)
Definition redated (m : mem) (ctx : cptr) (m' : mem) : Prop :=
  exists c d d', m !! ctx = Some c /\
    m' = <[ctx := set_deadline d' (set_wakeup_date d c)]> m.

Class SchedulerSpec (St : Type) `{Scheduler St} := {
  (** [live]: the contexts that take part in scheduling. *)
  sched_inv : user_tasks_image -> sstate St -> list cptr -> phase -> Prop;
  sched_inv_live img s live ph :
    sched_inv img s live ph ->
    NoDup live /\ context_idle img ∉ live /\
    (forall p, p ∈ live -> is_Some (s_mem s !! p));
  sched_inv_running img s live ctx :
    sched_inv img s live (Running ctx) -> ctx ∈ live;
  sched_inv_woken img s live ctx :
    sched_inv img s live (Woken ctx) -> ctx ∈ live;
  (** Only the scheduling data of [live] matters. *)
  sched_inv_mem img s live ph m' :
    sched_inv img s live ph -> same_sched (s_mem s) m' live ->
    sched_inv img (with_mem m' s) live ph;
  (** The alarm matters only when idle or choosing, the clock never. *)
  sched_inv_clock img s live ph t' :
    sched_inv img s live ph -> next_wake_date t' = next_wake_date (s_timer s) ->
    sched_inv img (with_timer t' s) live ph;
  sched_inv_alarm img s live ctx t' :
    sched_inv img s live (Running ctx) ->
    sched_inv img (with_timer t' s) live (Running ctx);
  sched_inv_redate img s live ctx m' :
    sched_inv img s live (Running ctx) -> redated (s_mem s) ctx m' ->
    sched_inv img (with_mem m' s) live (Woken ctx);
  scheduler_init_spec img s :
    image_ok img ->
    (forall p, p ∈ t_context <$> tasks img -> is_Some (s_mem s !! p)) ->
    is_Some (s_mem s !! context_idle img) ->
    exists s', scheduler_init img s = Ok s' /\
      sched_inv img s' (t_context <$> tasks img) Choosing /\
      s_timer s' = s_timer s /\
      (forall p, non_sched <$> s_mem s' !! p = non_sched <$> s_mem s !! p) /\
      (forall p, p ∉ t_context <$> tasks img -> p <> context_idle img ->
         s_mem s' !! p = s_mem s !! p);
  sched_set_waiting_spec img s live ctx :
    image_ok img -> sched_inv img s live (Woken ctx) ->
    exists s', sched_set_waiting img ctx s = Ok s' /\
      sched_inv img s' live Choosing /\ sched_frame live s s';
  sched_wake_running_spec img s live ctx t :
    image_ok img -> sched_inv img s live (Running ctx) ->
    exists s', sched_wake_tasks img t s = Ok s' /\
      sched_inv img s' live (Woken ctx) /\ sched_frame live s s';
  (** As timer_interrupt_handler calls it: the alarm has passed and has just
      been disarmed. *)
  sched_wake_idle_spec img s live t :
    image_ok img -> sched_inv img s live Idling -> next_wake_date (s_timer s) <= t ->
    exists s', sched_wake_tasks img t (with_timer (timer_dont_wake (s_timer s)) s) = Ok s' /\
      sched_inv img s' live Choosing /\ sched_frame live s s';
  sched_maybe_preempt_spec img s live ctx :
    image_ok img -> sched_inv img s live (Woken ctx) ->
    exists p s', sched_maybe_preempt img ctx s = Ok (p, s') /\
      sched_inv img s' live (Running p) /\ sched_frame live s s';
  sched_choose_next_spec img s live :
    image_ok img -> sched_inv img s live Choosing ->
    exists p s', sched_choose_next img s = Ok (p, s') /\
      (p = context_idle img /\ sched_inv img s' live Idling \/
       sched_inv img s' live (Running p)) /\ sched_frame live s s';
  sched_duplicate_spec img s live ctx new :
    image_ok img -> sched_inv img s live (Running ctx) ->
    new ∉ live -> new <> context_idle img ->
    Z.of_nat (length live) < nb_contexts img ->
    is_Some (s_mem s !! new) ->
    sched <$> s_mem s !! new = sched <$> s_mem s !! ctx ->
    exists s', sched_insert_duplicated_context img ctx new s = Ok s' /\
      sched_inv img s' (new :: live) (Running ctx) /\ sched_frame (new :: live) s s'
}.

(** ** Facts *)

Lemma sched_frame_refl {St} live (s : sstate St) : sched_frame live s s.
Proof. by repeat split. Qed.

Lemma sched_frame_trans {St} live (s1 s2 s3 : sstate St) :
  sched_frame live s1 s2 -> sched_frame live s2 s3 -> sched_frame live s1 s3.
Proof.
  intros (H1 & H2 & H3 & H4) (H1' & H2' & H3' & H4'). split; [by etrans|].
  split; [|split; congruence]. intros p Hp. rewrite H2' by done. by apply H2.
Qed.

Lemma sched_frame_subset {St} live live' (s s' : sstate St) :
  (forall p, p ∈ live -> p ∈ live') -> sched_frame live s s' -> sched_frame live' s s'.
Proof. intros Hs (H1 & H2 & H3). split; [done|]. split; [|done]. intros p Hp. apply H2. auto. Qed.

Lemma mem_eq_next_non_sched m m' p :
  m ≈ₙ m' -> non_sched <$> m !! p = non_sched <$> m' !! p.
Proof.
  intros E. specialize (E p). destruct (m !! p), (m' !! p); try done.
  cbn in *. injection E as E1 _ _ _ E2 E3. unfold non_sched. congruence.
Qed.

Lemma non_sched_is_Some (m m' : mem) p :
  non_sched <$> m' !! p = non_sched <$> m !! p -> is_Some (m !! p) -> is_Some (m' !! p).
Proof. intros E [c Hc]. rewrite Hc in E. destruct (m' !! p); [eauto|done]. Qed.

Create HintDb sched.
#[export] Hint Resolve sched_frame_refl : sched.
