(* ===== verification/PriorityScheduler.v ===== *)
(** * The priority schedulers (priority_scheduler.c)

    Fixed-priority and earliest-deadline-first scheduling over two priority
    queues: the waiting queue, ordered by wakeup date, and the ready queue,
    ordered by priority or deadline.  The functions and their proofs are
    parameterised by the queue implementation through [PQueue] and
    [PQueueSpec], so they hold for the linked list and for the array heap. *)

From stdpp Require Import options.
From S2P Require Import Prelude Contexts PQueue Timer Scheduler.

(** ** Priorities *)

(** waiting_get_priority and waiting_is_gt_priority: earlier wakeup first. *)
Definition waiting_pf : prio_fn := PrioFn wakeup_date (fun a b => a <? b).

(** ready_get_priority and ready_is_gt_priority; [fp] is FP_SCHEDULING, the
    alternative is EDF_SCHEDULING. *)
Definition ready_pf (fp : bool) : prio_fn :=
  if fp then PrioFn Contexts.priority (fun a b => b <? a)
  else PrioFn deadline (fun a b => a <? b).

(** ** State and operations *)

(** The static queues of priority_scheduler.c. *)
Record priority_sched (fp : bool) (Q : Type) := PrioritySched {
  waiting_heap : Q;
  ready_heap : Q
}.
Arguments PrioritySched {fp Q} waiting_heap ready_heap.
Arguments waiting_heap {fp Q} p.
Arguments ready_heap {fp Q} p.

Section Operations.
Context (fp : bool) {Q : Type} `{!PQueue waiting_pf Q} `{!PQueue (ready_pf fp) Q}.
Local Abbreviation state := (sstate (priority_sched fp Q)).
Implicit Types (img : user_tasks_image) (s : state).

Definition ps_set_waiting img (ctx : cptr) s : res state :=
  let q := s_sched s in
  let* _ := assertion (pq_size (pf := waiting_pf) (waiting_heap q) <=? nb_contexts img)
              "waiting_heap.size <= user_tasks_image.nb_contexts" in
  let* (m, w) := pq_insert_elt (pf := waiting_pf) (nb_contexts img) (s_mem s)
                   (waiting_heap q) ctx in
  let* first := pq_get_first (pf := waiting_pf) (nb_contexts img) m w in
  let* c := load m first in
  Ok (SState m (PrioritySched w (ready_heap q))
        (timer_wake_at (wakeup_date (sched c)) (s_timer s))).

(** ready_insert_elt(&ready_heap, ctx). *)
Definition ready_insert img (ctx : cptr) s : res state :=
  let q := s_sched s in
  let* (m, r) := pq_insert_elt (pf := ready_pf fp) (nb_contexts img) (s_mem s)
                   (ready_heap q) ctx in
  Ok (SState m (PrioritySched (waiting_heap q) r) (s_timer s)).

(** ready_remove_elt(&ready_heap). *)
Definition ready_remove img s : res (cptr * state) :=
  let q := s_sched s in
  let* (ctx, m, r) := pq_remove_elt (pf := ready_pf fp) (nb_contexts img) (s_mem s)
                        (ready_heap q) in
  Ok (ctx, SState m (PrioritySched (waiting_heap q) r) (s_timer s)).

(** The [while] loop of sched_wake_tasks. *)
Fixpoint ps_wake_loop (fuel : nat) img (curtime : Z) s : res state :=
  match fuel with
  | O => Err NoFuel
  | S fuel =>
      let q := s_sched s in
      if 0 <? pq_size (pf := waiting_pf) (waiting_heap q) then
        let* first := pq_get_first (pf := waiting_pf) (nb_contexts img) (s_mem s)
                        (waiting_heap q) in
        let* c := load (s_mem s) first in
        if wakeup_date (sched c) <=? curtime then
          let* (ctx, m, w) := pq_remove_elt (pf := waiting_pf) (nb_contexts img) (s_mem s)
                                (waiting_heap q) in
          let* _ := assertion (pq_size (pf := ready_pf fp) (ready_heap q) <=? nb_contexts img)
                      "ready_heap.size <= user_tasks_image.nb_contexts" in
          let* s1 := ready_insert img ctx
                       (SState m (PrioritySched w (ready_heap q)) (s_timer s)) in
          ps_wake_loop fuel img curtime s1
        else Ok s
      else Ok s
  end.

(** Each iteration shortens the waiting queue, whose size bounds the loop. *)
Definition ps_wake_tasks img (curtime : Z) s : res state :=
  ps_wake_loop (S (Z.to_nat (pq_size (pf := waiting_pf) (waiting_heap (s_sched s)))))
    img curtime s.

Definition ps_maybe_preempt img (ctx : cptr) s : res (cptr * state) :=
  let q := s_sched s in
  let* _ := assertion (negb (context_is_idle img ctx)) "!(context_is_idle(ctx))" in
  if 0 <? pq_size (pf := ready_pf fp) (ready_heap q) then
    let* cur := load (s_mem s) ctx in
    let curprio := get_priority (ready_pf fp) (sched cur) in
    let* first := pq_get_first (pf := ready_pf fp) (nb_contexts img) (s_mem s)
                    (ready_heap q) in
    let* fst := load (s_mem s) first in
    let firstprio := get_priority (ready_pf fp) (sched fst) in
    if is_gt_priority (ready_pf fp) firstprio curprio then
      let* s1 := ready_insert img ctx s in
      ready_remove img s1
    else Ok (ctx, s)
  else Ok (ctx, s).

Definition ps_choose_next img s : res (cptr * state) :=
  if pq_size (pf := ready_pf fp) (ready_heap (s_sched s)) =? 0
  then Ok (context_idle img, s)
  else ready_remove img s.

Definition ps_insert_duplicated_context img (orig new : cptr) s : res state :=
  ready_insert img new s.

(** The loop of scheduler_init over the tasks: [n] iterations remain. *)
Fixpoint ps_init_tasks (n : nat) img (i : Z) s : res state :=
  match n with
  | O => Ok s
  | S n =>
      if nb_tasks img <=? i then Err InfiniteLoop
      else
        match tasks img !! Z.to_nat i with
        | None => Err (Undef OutOfBounds)
        | Some task =>
            let ctx := t_context task in
            let* m := if fp then modify (s_mem s) ctx (set_priority (t_priority task))
                      else Ok (s_mem s) in
            let* s1 := ready_insert img ctx (with_mem m s) in
            ps_init_tasks n img (i + 1) s1
        end
  end.

Definition ps_scheduler_init img s : res state :=
  let s0 := SState (s_mem s)
              (PrioritySched (pq_init (pf := waiting_pf) (nb_contexts img))
                             (pq_init (pf := ready_pf fp) (nb_contexts img)))
              (s_timer s) in
  let* m := if fp then modify (s_mem s0) (idle_ctx_array img 0) (set_priority 0)
            else Ok (s_mem s0) in
  ps_init_tasks (Z.to_nat (nb_tasks img)) img 0 (with_mem m s0).

#[global] Instance priority_scheduler : Scheduler (priority_sched fp Q) := {
  scheduler_init := ps_scheduler_init;
  sched_set_waiting := ps_set_waiting;
  sched_wake_tasks := ps_wake_tasks;
  sched_maybe_preempt := ps_maybe_preempt;
  sched_choose_next := ps_choose_next;
  sched_insert_duplicated_context := ps_insert_duplicated_context
}.
End Operations.

(** ** Invariant *)

(** The wakeup date of the context at [p]. *)
Definition wakeup_of (m : mem) (p : cptr) : Z := prio_of waiting_pf m p.

(** The alarm is set to the earliest wakeup date of the waiting contexts. *)
Definition armed (m : mem) (t : timer) (lw : list cptr) : Prop :=
  lw = [] \/ exists p, p ∈ lw /\ next_wake_date t = wakeup_of m p /\ top_of waiting_pf m p lw.

Section Invariant.
Context {fp : bool} {Q : Type} `{!PQueue waiting_pf Q} `{!PQueue (ready_pf fp) Q}.
Context `{!PQueueSpec waiting_pf Q} `{!PQueueSpec (ready_pf fp) Q}.

(** The queues hold the ready contexts [lr] and the waiting contexts [lw]. *)
Record queues (nbc : Z) (m : mem) (q : priority_sched fp Q) (lr lw : list cptr) : Prop := {
  q_ready : pq_rep (pf := ready_pf fp) nbc m (ready_heap q) lr;
  q_waiting : pq_rep (pf := waiting_pf) nbc m (waiting_heap q) lw;
  q_disjoint : NoDup (lr ++ lw)
}.

(** What is left of [live] besides the queues, by phase. *)
Definition phase_inv (m : mem) (t : timer) (live lr lw : list cptr) (ph : phase) : Prop :=
  match ph with
  | Running ctx => live ≡ₚ ctx :: lr ++ lw /\ top_of (ready_pf fp) m ctx lr
  | Woken ctx => live ≡ₚ ctx :: lr ++ lw
  | Choosing => live ≡ₚ lr ++ lw /\ (lr <> [] \/ armed m t lw)
  | Idling => lr = [] /\ live ≡ₚ lw /\ armed m t lw
  end.

Definition ps_inv (img : user_tasks_image) (s : sstate (priority_sched fp Q))
    (live : list cptr) (ph : phase) : Prop :=
  NoDup live /\ context_idle img ∉ live /\
  Z.of_nat (length live) <= nb_contexts img /\
  (forall p, p ∈ live -> is_Some (s_mem s !! p)) /\
  exists lr lw, queues (nb_contexts img) (s_mem s) (s_sched s) lr lw /\
    phase_inv (s_mem s) (s_timer s) live lr lw ph.

(** The invariant with the contents of the queues. *)
Definition ps_at (img : user_tasks_image) (s : sstate (priority_sched fp Q))
    (live : list cptr) (ph : phase) (lr lw : list cptr) : Prop :=
  ps_inv img s live ph /\ queues (nb_contexts img) (s_mem s) (s_sched s) lr lw /\
  phase_inv (s_mem s) (s_timer s) live lr lw ph.
End Invariant.

(** ** Orders *)

#[global] Instance waiting_order : PrioOrder waiting_pf.
Proof. split; cbn; intros; try done; lia. Qed.

#[global] Instance ready_order fp : PrioOrder (ready_pf fp).
Proof. destruct fp; split; cbn; intros; try done; lia. Qed.

(** ** Queue steps *)

Section QueueSteps.
Context {fp : bool} {Q : Type} `{!PQueue waiting_pf Q} `{!PQueue (ready_pf fp) Q}.
Context `{!PQueueSpec waiting_pf Q} `{!PQueueSpec (ready_pf fp) Q}.
Implicit Types (img : user_tasks_image) (s : sstate (priority_sched fp Q)).

Lemma queues_perm nbc m (q : priority_sched fp Q) lr lw lr' lw' :
  lr ≡ₚ lr' -> lw ≡ₚ lw' -> queues nbc m q lr lw -> queues nbc m q lr' lw'.
Proof using.
  intros Er Ew [Hr Hw Hd]. split.
  - by eapply pq_rep_perm.
  - by eapply pq_rep_perm.
  - by rewrite <-Er, <-Ew.
Qed.

Lemma queues_frame nbc m m' (q : priority_sched fp Q) lr lw :
  queues nbc m q lr lw -> same_sched m m' (lr ++ lw) -> queues nbc m' q lr lw.
Proof using.
  intros [Hr Hw Hd] E. split; [..|done]; eapply pq_rep_frame; try done;
    eapply same_sched_subset; [|exact E| |exact E]; set_solver.
Qed.

(** A [next] link changed outside [l] does not concern [l]. *)
Lemma outside_same_sched m m' (l k : list cptr) :
  (forall p, p ∉ k -> m' !! p = m !! p) -> NoDup (k ++ l) -> same_sched m m' l.
Proof using.
  intros Hfr (_ & Hdis & _)%NoDup_app. apply same_sched_lookup. intros p Hp.
  apply Hfr. intros Hk. by eapply Hdis.
Qed.

Lemma ready_insert_ok img s lr lw x :
  queues (nb_contexts img) (s_mem s) (s_sched s) lr lw -> addressable (nb_contexts img) ->
  Z.of_nat (length lr) < nb_contexts img -> is_Some (s_mem s !! x) -> x ∉ lr ++ lw ->
  exists s', ready_insert fp img x s = Ok s' /\
    queues (nb_contexts img) (s_mem s') (s_sched s') (x :: lr) lw /\
    s_timer s' = s_timer s /\ sched_frame (x :: lr) s s'.
Proof using.
  intros [Hr Hw Hd] Hadd Hlen Hx Hnx. unfold ready_insert.
  destruct (pq_insert_spec (pf := ready_pf fp) _ _ _ _ x Hr Hadd Hlen Hx)
    as (m' & r & -> & Hr' & Heq & Hfr); [set_solver|]. cbn [rbind].
  assert (NoDup ((x :: lr) ++ lw)) as Hnd by (cbn; by apply NoDup_cons).
  eexists. split; [done|]. cbn. split; [|done]. split; [done| |done].
  eapply pq_rep_frame; [done|]. by eapply outside_same_sched.
Qed.

Lemma ready_remove_ok img s lr lw :
  queues (nb_contexts img) (s_mem s) (s_sched s) lr lw -> addressable (nb_contexts img) ->
  Z.of_nat (length lr) <= nb_contexts img -> lr <> [] ->
  exists x lr' s', ready_remove fp img s = Ok (x, s') /\
    lr ≡ₚ x :: lr' /\ top_of (ready_pf fp) (s_mem s) x lr /\
    queues (nb_contexts img) (s_mem s') (s_sched s') lr' lw /\
    s_timer s' = s_timer s /\ sched_frame lr s s'.
Proof using.
  intros [Hr Hw Hd] Hadd Hlen Hne. unfold ready_remove.
  destruct (pq_first_spec (pf := ready_pf fp) _ _ _ _ Hr Hne) as (x & Hf & Hx & Htop).
  destruct (pq_remove_spec (pf := ready_pf fp) _ _ _ _ Hr Hadd Hne Hlen)
    as (x' & lr' & m' & r & Hf' & -> & Hp & Hr' & Heq & Hfr).
  rewrite Hf in Hf'. injection Hf' as <-. cbn [rbind].
  exists x, lr'. eexists. split; [done|]. split; [done|]. split; [done|]. cbn.
  split; [|done]. split; [done| |].
  - eapply pq_rep_frame; [done|]. by eapply outside_same_sched.
  - rewrite Hp in Hd. cbn in Hd. by apply NoDup_cons in Hd as [_ Hd].
Qed.

Lemma waiting_insert_ok nbc m (q : priority_sched fp Q) lr lw x :
  queues nbc m q lr lw -> addressable nbc ->
  Z.of_nat (length lw) < nbc -> is_Some (m !! x) -> x ∉ lr ++ lw ->
  exists m' w, pq_insert_elt (pf := waiting_pf) nbc m (waiting_heap q) x = Ok (m', w) /\
    queues nbc m' (PrioritySched w (ready_heap q)) lr (x :: lw) /\
    m' ≈ₙ m /\ (forall p, p ∉ x :: lw -> m' !! p = m !! p).
Proof using.
  intros [Hr Hw Hd] Hadd Hlen Hx Hnx.
  destruct (pq_insert_spec (pf := waiting_pf) _ _ _ _ x Hw Hadd Hlen Hx)
    as (m' & w & -> & Hw' & Heq & Hfr); [set_solver|].
  assert (NoDup ((x :: lw) ++ lr)) as Hnd.
  { cbn. apply NoDup_cons. split; [set_solver|]. by rewrite Permutation_app_comm. }
  exists m', w. split; [done|]. split; [|done]. split; cbn; [|done|].
  - eapply pq_rep_frame; [done|]. by eapply outside_same_sched.
  - by rewrite Permutation_app_comm.
Qed.

Lemma waiting_remove_ok nbc m (q : priority_sched fp Q) lr lw :
  queues nbc m q lr lw -> addressable nbc -> Z.of_nat (length lw) <= nbc -> lw <> [] ->
  exists x lw' m' w,
    pq_get_first (pf := waiting_pf) nbc m (waiting_heap q) = Ok x /\
    pq_remove_elt (pf := waiting_pf) nbc m (waiting_heap q) = Ok (x, m', w) /\
    lw ≡ₚ x :: lw' /\ top_of waiting_pf m x lw /\
    queues nbc m' (PrioritySched w (ready_heap q)) lr lw' /\
    m' ≈ₙ m /\ (forall p, p ∉ lw -> m' !! p = m !! p).
Proof using.
  intros [Hr Hw Hd] Hadd Hlen Hne.
  destruct (pq_first_spec (pf := waiting_pf) _ _ _ _ Hw Hne) as (x & Hf & Hx & Htop).
  destruct (pq_remove_spec (pf := waiting_pf) _ _ _ _ Hw Hadd Hne Hlen)
    as (x' & lw' & m' & w & Hf' & E & Hp & Hw' & Heq & Hfr).
  rewrite Hf in Hf'. injection Hf' as <-.
  exists x, lw', m', w. do 4 (split; [done|]). split; [|done]. split; cbn; [|done|].
  - eapply pq_rep_frame; [done|]. eapply outside_same_sched; [done|].
    by rewrite Permutation_app_comm.
  - rewrite Hp, <-Permutation_middle in Hd. by apply NoDup_cons in Hd as [_ Hd].
Qed.
End QueueSteps.

(** The store of a task's priority before its context is queued. *)
Lemma set_priority_ok (fp : bool) m ctx z :
  is_Some (m !! ctx) ->
  exists m', (if fp then modify m ctx (set_priority z) else Ok m) = Ok m' /\
    (forall p, non_sched <$> m' !! p = non_sched <$> m !! p) /\
    (forall p, p <> ctx -> m' !! p = m !! p) /\
    (fp = true -> prio_of (ready_pf true) m' ctx = z).
Proof.
  intros [c Hc]. destruct fp; [|by exists m]. rewrite (modify_ok _ _ _ _ Hc).
  eexists. split; [done|]. split; [|split]; [intros p..|].
  - destruct (decide (p = ctx)) as [->|]; [by rewrite lookup_insert_eq, Hc|].
    by rewrite lookup_insert_ne.
  - intros. by rewrite lookup_insert_ne.
  - intros _. unfold prio_of. by rewrite lookup_insert_eq.
Qed.

(** Priorities do not depend on links. *)
Lemma prio_of_strip fp m m' p :
  strip_next <$> m !! p = strip_next <$> m' !! p -> prio_of (ready_pf fp) m p = prio_of (ready_pf fp) m' p.
Proof.
  unfold prio_of. destruct (m !! p) as [c|], (m' !! p) as [c'|]; try done. cbn. intros [= _ E1 E2 E3 _ _].
  destruct fp; cbn; congruence.
Qed.

(** The contexts once the tasks have their priorities. *)
Definition with_priorities (fp : bool) (ts : list task_description) (m : mem) : mem :=
  foldl (fun m t => if fp then alter (set_priority (t_priority t)) (t_context t) m else m) m ts.

Lemma with_priorities_eq fp ts m m' :
  m ≈ₙ m' -> with_priorities fp ts m ≈ₙ with_priorities fp ts m'.
Proof.
  revert m m'. induction ts as [|t ts IH]; intros m m' E; [done|]. cbn. apply IH.
  destruct fp; [|done]. by apply alter_eq_next; [apply set_priority_link_free|].
Qed.

Lemma set_priority_alter (fp : bool) m p z m' :
  is_Some (m !! p) -> (if fp then modify m p (set_priority z) else Ok m) = Ok m' ->
  m' = if fp then alter (set_priority z) p m else m.
Proof.
  intros [c Hc] E. destruct fp; [|by injection E]. rewrite (modify_alter _ _ _ _ Hc) in E. by injection E.
Qed.

(** ** The scheduler's functions *)

Section Functions.
Context {fp : bool} {Q : Type} `{!PQueue waiting_pf Q} `{!PQueue (ready_pf fp) Q}.
Context `{!PQueueSpec waiting_pf Q} `{!PQueueSpec (ready_pf fp) Q}.
Implicit Types (img : user_tasks_image) (s : sstate (priority_sched fp Q)).

Lemma wakeup_of_lookup m p c :
  m !! p = Some c -> wakeup_of m p = wakeup_date (sched c).
Proof using. intros E. unfold wakeup_of, prio_of. by rewrite E. Qed.

Lemma wakeup_of_eq_next m m' p : m ≈ₙ m' -> wakeup_of m p = wakeup_of m' p.
Proof using. intros E. unfold wakeup_of. by rewrite E. Qed.

Lemma top_waiting_le m x lw y :
  top_of waiting_pf m x lw -> y ∈ lw -> wakeup_of m x <= wakeup_of m y.
Proof using.
  intros Ht Hy. unfold top_of in Ht. rewrite Forall_forall in Ht.
  specialize (Ht y Hy). unfold outranks in Ht. cbn in Ht. unfold wakeup_of. lia.
Qed.

Lemma due_eq_next m m' t (l : list cptr) :
  m ≈ₙ m' -> filter (fun p => wakeup_of m p <= t) l = filter (fun p => wakeup_of m' p <= t) l.
Proof using. intros E. apply list_filter_iff. intros p. by rewrite (wakeup_of_eq_next _ _ p E). Qed.

Lemma not_due_eq_next m m' t (l : list cptr) :
  m ≈ₙ m' ->
  filter (fun p => ~ wakeup_of m p <= t) l = filter (fun p => ~ wakeup_of m' p <= t) l.
Proof using. intros E. apply list_filter_iff. intros p. by rewrite (wakeup_of_eq_next _ _ p E). Qed.

(** One test of the loop: either no waiting context is due and the loop ends, or
    it moves a due context and goes on. *)
Lemma ps_wake_loop_step img t s lr lw :
  queues (nb_contexts img) (s_mem s) (s_sched s) lr lw -> addressable (nb_contexts img) ->
  Z.of_nat (length (lr ++ lw)) <= nb_contexts img ->
  ((forall y, y ∈ lw -> ~ wakeup_of (s_mem s) y <= t) /\
   forall fuel, ps_wake_loop fp (S fuel) img t s = Ok s) \/
  exists x lw' s1, lw ≡ₚ x :: lw' /\ wakeup_of (s_mem s) x <= t /\
    (forall fuel, ps_wake_loop fp (S fuel) img t s = ps_wake_loop fp fuel img t s1) /\
    queues (nb_contexts img) (s_mem s1) (s_sched s1) (x :: lr) lw' /\
    s_timer s1 = s_timer s /\ sched_frame (lr ++ lw) s s1.
Proof using.
  intros Hq Hadd Hlen. cbn [ps_wake_loop]. pose proof Hq as [Hr Hw Hd].
  rewrite (pq_rep_size _ _ _ _ Hw). destruct (decide (lw = [])) as [->|Hne].
  { left. split; [by intros y ?%elem_of_nil|done]. }
  rewrite (proj2 (Z.ltb_lt 0 _)) by (destruct lw; [done|cbn; lia]).
  rewrite length_app in Hlen.
  destruct (waiting_remove_ok _ _ _ _ _ Hq Hadd ltac:(lia) Hne)
    as (x & lw' & m' & w & -> & -> & Hp & Htop & Hq' & Heq & Hfr).
  cbn [rbind]. assert (x ∈ lw) as Hx by (rewrite Hp; by left).
  destruct (pq_rep_alloc _ _ _ _ _ Hw Hx) as [c Hc].
  rewrite (proj2 (load_ok _ _ _) Hc). cbn [rbind].
  rewrite <-(wakeup_of_lookup _ _ _ Hc).
  destruct (Z.leb_spec (wakeup_of (s_mem s) x) t) as [Hle|Hgt].
  2:{ left. split; [|done]. intros y Hy. pose proof (top_waiting_le _ _ _ _ Htop Hy). lia. }
  right. rewrite (pq_rep_size _ _ _ _ Hr). unfold assertion.
  rewrite (proj2 (Z.leb_le _ _)) by lia. cbn [rbind].
  assert (x ∉ lr ++ lw') as Hnx.
  { rewrite Hp, <-Permutation_middle in Hd. by apply NoDup_cons in Hd as [? _]. }
  assert (length lw = S (length lw')) as Hl by (by rewrite Hp).
  destruct (ready_insert_ok img (SState m' (PrioritySched w (ready_heap (s_sched s)))
      (s_timer s)) lr lw' x) as (s1 & -> & Hq1 & Ht1 & Hf1); [done|done|lia| |done|].
  { cbn. eapply mem_eq_next_is_Some; [symmetry; exact Heq|eauto]. }
  exists x, lw', s1. do 5 (split; [done|]). eapply sched_frame_trans.
  - instantiate (1 := SState m' (PrioritySched w (ready_heap (s_sched s))) (s_timer s)).
    split; [done|]. split; [|done]. intros p Hp'. apply Hfr. set_solver.
  - eapply sched_frame_subset; [|exact Hf1].
    intros p [->|?]%elem_of_cons; apply elem_of_app; auto.
Qed.

(** The loop moves exactly the contexts whose wakeup date has come, one per
    iteration. *)
Lemma ps_wake_loop_ok fuel img t s lr lw :
  queues (nb_contexts img) (s_mem s) (s_sched s) lr lw -> addressable (nb_contexts img) ->
  Z.of_nat (length (lr ++ lw)) <= nb_contexts img ->
  (length (filter (fun p => (wakeup_of (s_mem s) p <= t)%Z) lw) < fuel)%nat ->
  exists s' lr' lw', ps_wake_loop fp fuel img t s = Ok s' /\
    queues (nb_contexts img) (s_mem s') (s_sched s') lr' lw' /\
    lr' ≡ₚ filter (fun p => wakeup_of (s_mem s) p <= t) lw ++ lr /\
    lw' ≡ₚ filter (fun p => ~ wakeup_of (s_mem s) p <= t) lw /\
    s_timer s' = s_timer s /\ sched_frame (lr ++ lw) s s'.
Proof using.
  revert s lr lw. induction fuel as [|fuel IH]; intros s lr lw Hq Hadd Hlen Hf; [lia|].
  destruct (ps_wake_loop_step img t s lr lw Hq Hadd Hlen)
    as [[Hnone ->]|(x & lw' & s1 & Hp & Hle & -> & Hq1 & Ht1 & Hf1)].
  - exists s, lr, lw. rewrite filter_false, filter_true by done.
    do 5 (split; [done|]). auto with sched.
  - assert (s_mem s1 ≈ₙ s_mem s) as Heq1 by apply Hf1.
    rewrite (filter_Permutation _ _ _ Hp), filter_cons, decide_True in Hf by done.
    destruct (IH s1 (x :: lr) lw' Hq1 Hadd) as (s' & lr1 & lw1 & -> & H1 & H2 & H3 & H4 & H5).
    { rewrite Hp in Hlen. rewrite length_app in *. cbn in *. lia. }
    { rewrite (due_eq_next _ _ _ _ Heq1). cbn in Hf. lia. }
    exists s', lr1, lw1. split; [done|]. split; [done|].
    rewrite !(due_eq_next _ _ _ _ Heq1) in H2. rewrite !(not_due_eq_next _ _ _ _ Heq1) in H3.
    split; [|split; [|split; [by rewrite H4, Ht1|]]].
    { rewrite H2, (filter_Permutation _ _ _ Hp), filter_cons, decide_True by done.
      by rewrite <-Permutation_middle. }
    { rewrite H3, (filter_Permutation _ _ _ Hp), filter_cons, decide_False by naive_solver.
      done. }
    eapply sched_frame_trans; [exact Hf1|]. eapply sched_frame_subset; [|exact H5]. intros p.
    rewrite Hp, !elem_of_app, !elem_of_cons. tauto.
Qed.

(** With no more fuel than due contexts the loop is cut short. *)
Lemma ps_wake_loop_short fuel img t s lr lw :
  queues (nb_contexts img) (s_mem s) (s_sched s) lr lw -> addressable (nb_contexts img) ->
  Z.of_nat (length (lr ++ lw)) <= nb_contexts img ->
  (fuel <= length (filter (fun p => (wakeup_of (s_mem s) p <= t)%Z) lw))%nat ->
  ps_wake_loop fp fuel img t s = Err NoFuel.
Proof using.
  revert s lr lw. induction fuel as [|fuel IH]; intros s lr lw Hq Hadd Hlen Hf; [done|].
  destruct (ps_wake_loop_step img t s lr lw Hq Hadd Hlen)
    as [[Hnone _]|(x & lw' & s1 & Hp & Hle & -> & Hq1 & _ & Hf1)].
  - rewrite filter_false in Hf by done. cbn in Hf. lia.
  - assert (s_mem s1 ≈ₙ s_mem s) as Heq1 by apply Hf1.
    rewrite (filter_Permutation _ _ _ Hp), filter_cons, decide_True in Hf by done.
    apply (IH s1 (x :: lr) lw' Hq1 Hadd).
    + rewrite Hp in Hlen. rewrite length_app in *. cbn in *. lia.
    + rewrite (due_eq_next _ _ _ _ Heq1). cbn in Hf. lia.
Qed.

(** Enough fuel gives the same result as more fuel. *)
Lemma ps_wake_loop_fuel img t n f s s' :
  ps_wake_loop fp n img t s = Ok s' -> (n <= f)%nat -> ps_wake_loop fp f img t s = Ok s'.
Proof using.
  revert f s. induction n as [|n IH]; intros [|f] s E Hf; [done|done|lia|].
  cbn [ps_wake_loop] in *. destruct (0 <? _); [|done].
  destruct (pq_get_first _ _ _) as [p|]; [|done]. cbn [rbind] in *.
  destruct (load _ _) as [c|]; [|done]. cbn [rbind] in *. destruct (_ <=? _); [|done].
  destruct (pq_remove_elt _ _ _) as [[[ctx m] w]|]; [|done]. cbn [rbind] in *.
  destruct (assertion _ _); [|done]. cbn [rbind] in *.
  destruct (ready_insert _ _ _ _) as [s1|]; [|done]. apply IH; [exact E|lia].
Qed.

Lemma armed_eq_next m m' t t' lw :
  m ≈ₙ m' -> next_wake_date t' = next_wake_date t -> armed m t lw -> armed m' t' lw.
Proof using.
  intros E Ht [->|(p & Hp & Hn & Htop)]; [by left|right]. exists p. split; [done|].
  rewrite Ht, <-(wakeup_of_eq_next _ _ _ E). by rewrite <-E.
Qed.

Lemma armed_perm m t lw lw' : lw ≡ₚ lw' -> armed m t lw -> armed m t lw'.
Proof using.
  intros E [->|(p & Hp & Hn & Htop)].
  - left. by apply Permutation_nil_r; symmetry.
  - right. exists p. by rewrite <-E.
Qed.

Lemma phase_inv_live m t live lr lw ph :
  phase_inv (fp := fp) m t live lr lw ph ->
  (forall p, p ∈ lr -> p ∈ live) /\ (forall p, p ∈ lw -> p ∈ live).
Proof using.
  destruct ph; cbn; intros H; (destruct H as (-> & E & _) || destruct H as (E & _)
    || rename H into E); split; intros p Hp; rewrite E; set_solver.
Qed.

Lemma armed_frame m m' t t' lw :
  next_wake_date t' = next_wake_date t -> same_sched m m' lw -> armed m t lw -> armed m' t' lw.
Proof using.
  intros Ht E [->|(p & Hp & Hn & Htop)]; [by left|right]. exists p. split; [done|].
  unfold wakeup_of in *. rewrite Ht, Hn, (same_sched_prio m m' lw p E Hp). split; [done|].
  unfold top_of in *. rewrite Forall_forall in *. intros y Hy.
  rewrite <-(same_sched_outranks m m' lw); auto.
Qed.

Lemma phase_inv_frame m m' t t' live lr lw ph :
  phase_inv (fp := fp) m t live lr lw ph -> next_wake_date t' = next_wake_date t ->
  same_sched m m' live -> phase_inv (fp := fp) m' t' live lr lw ph.
Proof using.
  intros Hph Ht E. destruct (phase_inv_live _ _ _ _ _ _ Hph) as [Hr Hw].
  assert (armed m t lw -> armed m' t' lw) as Harm
    by (apply armed_frame; [done|]; by eapply same_sched_subset).
  destruct ph as [ctx| |ctx|]; cbn in *; try naive_solver.
  destruct Hph as [Hl Htop]. split; [done|].
  unfold top_of in *. rewrite Forall_forall in *. intros y Hy.
  rewrite <-(same_sched_outranks m m' live); [auto..|]. rewrite Hl. by left.
Qed.

Lemma ps_inv_at img s live ph :
  ps_inv img s live ph -> exists lr lw, ps_at img s live ph lr lw.
Proof using.
  intros Hinv. pose proof Hinv as (_ & _ & _ & _ & lr & lw & Hq & Hph). by exists lr, lw.
Qed.

(** A step that stays within the frame keeps the invariant. *)
Lemma ps_at_step img s s' live ph ph' lr lw :
  ps_inv img s live ph -> sched_frame live s s' ->
  queues (nb_contexts img) (s_mem s') (s_sched s') lr lw ->
  phase_inv (fp := fp) (s_mem s') (s_timer s') live lr lw ph' ->
  ps_at img s' live ph' lr lw.
Proof using.
  intros (Hnd & Hid & Hlen & Hal & _) (Heq & _) Hq Hph. split; [|done]. do 3 (split; [done|]).
  split; [|eauto]. intros p Hp. eapply mem_eq_next_is_Some; [symmetry; exact Heq|auto].
Qed.

(** Only the links and dates of [live] and the alarm matter. *)
Lemma ps_at_frame img s live ph lr lw m' t' :
  ps_at img s live ph lr lw -> same_sched (s_mem s) m' live ->
  next_wake_date t' = next_wake_date (s_timer s) ->
  ps_at img (SState m' (s_sched s) t') live ph lr lw.
Proof using.
  intros ((Hnd & Hid & Hlen & Hal & _) & Hq & Hph) E Ht.
  destruct (phase_inv_live _ _ _ _ _ _ Hph) as [Hr Hw].
  assert (same_sched (s_mem s) m' (lr ++ lw)) as E'.
  { eapply same_sched_subset; [|exact E]. intros p [?|?]%elem_of_app; auto. }
  pose proof (queues_frame _ _ _ _ _ _ Hq E') as Hq'.
  pose proof (phase_inv_frame _ _ _ _ _ _ _ _ Hph Ht E) as Hph'.
  split; [|done]. do 3 (split; [done|]). split; [|by eauto].
  intros p Hp. apply (same_sched_alloc _ _ _ _ E Hp). auto.
Qed.

Lemma ps_at_alarm img s live ctx lr lw t' :
  ps_at img s live (Running ctx) lr lw -> ps_at img (with_timer t' s) live (Running ctx) lr lw.
Proof using.
  intros ((Hnd & Hid & Hlen & Hal & _) & Hq & Hph). split; [|done].
  do 4 (split; [done|]). by exists lr, lw.
Qed.

(** The dates of the running context do not concern the queues. *)
Lemma ps_at_redate img s live ctx lr lw m' :
  ps_at img s live (Running ctx) lr lw -> redated (s_mem s) ctx m' ->
  ps_at img (with_mem m' s) live (Woken ctx) lr lw.
Proof using.
  intros ((Hnd & Hid & Hlen & Hal & _) & Hq & Hlive & _) (c & d & d' & Hc & ->).
  assert (queues (nb_contexts img) (<[ctx := set_deadline d' (set_wakeup_date d c)]> (s_mem s))
    (s_sched s) lr lw) as Hq'.
  { eapply queues_frame; [done|]. apply same_sched_lookup. intros p Hp. apply lookup_insert_ne.
    intros ->. rewrite Hlive in Hnd. by apply NoDup_cons in Hnd as [? _]. }
  split; [|done]. do 3 (split; [done|]). split; [|by exists lr, lw].
  intros p Hp. cbn. apply lookup_insert_is_Some'. right. auto.
Qed.

(** The context joins the waiting queue and the alarm is set to the earliest
    date of the queue. *)
Lemma ps_set_waiting_queues img s lr lw ctx :
  queues (nb_contexts img) (s_mem s) (s_sched s) lr lw -> addressable (nb_contexts img) ->
  Z.of_nat (length lw) < nb_contexts img -> is_Some (s_mem s !! ctx) -> ctx ∉ lr ++ lw ->
  exists s', ps_set_waiting fp img ctx s = Ok s' /\
    queues (nb_contexts img) (s_mem s') (s_sched s') lr (ctx :: lw) /\
    armed (s_mem s') (s_timer s') (ctx :: lw) /\ sched_frame (ctx :: lw) s s'.
Proof using.
  intros Hq Hadd Hlen Hctx Hnx.
  unfold ps_set_waiting. rewrite (pq_rep_size _ _ _ _ (q_waiting _ _ _ _ _ Hq)).
  unfold assertion. rewrite (proj2 (Z.leb_le _ _)) by lia. cbn [rbind].
  destruct (waiting_insert_ok _ _ _ _ _ ctx Hq Hadd Hlen Hctx Hnx)
    as (m' & w & -> & Hq' & Heq & Hfr). cbn [rbind].
  destruct (pq_first_spec (pf := waiting_pf) _ _ _ _ (q_waiting _ _ _ _ _ Hq') ltac:(done))
    as (x & E & Hx & Htop). cbn [waiting_heap] in E. rewrite E. cbn [rbind].
  destruct (pq_rep_alloc _ _ _ _ _ (q_waiting _ _ _ _ _ Hq') Hx) as [c Hc].
  rewrite (proj2 (load_ok _ _ _) Hc). cbn [rbind].
  eexists. split; [done|]. split; [done|]. split; [|by split].
  right. exists x. split; [done|]. split; [|done]. cbn. symmetry. by apply wakeup_of_lookup.
Qed.

Lemma ps_set_waiting_at img s live ctx lr lw :
  addressable (nb_contexts img) -> ps_at img s live (Woken ctx) lr lw ->
  exists s', ps_set_waiting fp img ctx s = Ok s' /\
    ps_at img s' live Choosing lr (ctx :: lw) /\
    armed (s_mem s') (s_timer s') (ctx :: lw) /\ sched_frame live s s'.
Proof using.
  intros Hadd (Hinv & Hq & Hlive). pose proof Hinv as (Hnd & Hid & Hlen & Hal & _).
  cbn in Hlive. assert (ctx ∉ lr ++ lw) as Hnx.
  { rewrite Hlive in Hnd. by apply NoDup_cons in Hnd as [? _]. }
  rewrite Hlive in Hlen. cbn in Hlen. rewrite length_app in Hlen.
  destruct (ps_set_waiting_queues img s lr lw ctx Hq Hadd) as (s' & E & Hq' & Harm & Hfr);
    [lia|apply Hal; rewrite Hlive; by left|done|].
  assert (sched_frame live s s') as Hf.
  { eapply sched_frame_subset; [|exact Hfr]. intros p. rewrite Hlive. set_solver. }
  exists s'. split; [done|]. split; [|done]. eapply ps_at_step; [done..|].
  split; [by rewrite Hlive, <-Permutation_middle|]. by right.
Qed.

(** What waking leaves of the queues, in every phase. *)
Lemma ps_wake_tasks_ok img t s lr lw :
  queues (nb_contexts img) (s_mem s) (s_sched s) lr lw -> addressable (nb_contexts img) ->
  Z.of_nat (length (lr ++ lw)) <= nb_contexts img ->
  exists s' lr' lw', ps_wake_tasks fp img t s = Ok s' /\
    queues (nb_contexts img) (s_mem s') (s_sched s') lr' lw' /\
    lr' ≡ₚ filter (fun p => wakeup_of (s_mem s) p <= t) lw ++ lr /\
    lw' ≡ₚ filter (fun p => ~ wakeup_of (s_mem s) p <= t) lw /\
    lr' ++ lw' ≡ₚ lr ++ lw /\
    s_timer s' = s_timer s /\ sched_frame (lr ++ lw) s s'.
Proof using.
  intros Hq Hadd Hlen. unfold ps_wake_tasks.
  rewrite (pq_rep_size _ _ _ _ (q_waiting _ _ _ _ _ Hq)).
  destruct (ps_wake_loop_ok (S (Z.to_nat (Z.of_nat (length lw)))) img t s lr lw Hq Hadd Hlen)
    as (s' & lr' & lw' & -> & H1 & H2 & H3 & H4 & H5);
    [pose proof (length_filter (fun p => wakeup_of (s_mem s) p <= t) lw); lia|].
  exists s', lr', lw'. do 4 (split; [done|]). split; [|done].
  rewrite H2, H3, (Permutation_app_comm _ lr), <-app_assoc.
  by rewrite filter_app_complement.
Qed.

(** More fuel than due contexts gives the result of sched_wake_tasks. *)
Lemma ps_wake_loop_exact fuel img t s lr lw s' :
  queues (nb_contexts img) (s_mem s) (s_sched s) lr lw -> addressable (nb_contexts img) ->
  Z.of_nat (length (lr ++ lw)) <= nb_contexts img ->
  (length (filter (fun p => (wakeup_of (s_mem s) p <= t)%Z) lw) < fuel)%nat ->
  ps_wake_tasks fp img t s = Ok s' -> ps_wake_loop fp fuel img t s = Ok s'.
Proof using PQueueSpec0 PQueueSpec1.
  intros Hq Hadd Hlen Hf E.
  destruct (ps_wake_loop_ok fuel img t s lr lw Hq Hadd Hlen Hf) as (s1 & _ & _ & E1 & _).
  rewrite E1. unfold ps_wake_tasks in E. destruct (Nat.le_ge_cases fuel
    (S (Z.to_nat (pq_size (pf := waiting_pf) (waiting_heap (s_sched s)))))) as [Hle|Hle].
  - by rewrite (ps_wake_loop_fuel _ _ _ _ _ _ E1 Hle) in E.
  - by rewrite (ps_wake_loop_fuel _ _ _ _ _ _ E Hle) in E1.
Qed.

(** [lr'] and [lw'] are [lr] and [lw] once the contexts due at [t] are woken. *)
Definition woken (m : mem) (t : Z) (lr lw lr' lw' : list cptr) : Prop :=
  lr' ≡ₚ filter (fun p => wakeup_of m p <= t) lw ++ lr /\
  lw' ≡ₚ filter (fun p => ~ wakeup_of m p <= t) lw.

Lemma ps_wake_running_at img s live ctx t lr lw :
  addressable (nb_contexts img) -> ps_at img s live (Running ctx) lr lw ->
  exists s' lr' lw', ps_wake_tasks fp img t s = Ok s' /\
    ps_at img s' live (Woken ctx) lr' lw' /\ woken (s_mem s) t lr lw lr' lw' /\
    s_timer s' = s_timer s /\ sched_frame live s s'.
Proof using.
  intros Hadd (Hinv & Hq & Hlive & Htop). pose proof Hinv as (_ & _ & Hlen & _).
  destruct (ps_wake_tasks_ok img t s lr lw Hq Hadd)
    as (s' & lr' & lw' & E & Hq' & Hr' & Hw' & Hp & Ht & Hfr).
  { rewrite Hlive in Hlen. cbn in Hlen. lia. }
  exists s', lr', lw'. split; [done|]. assert (sched_frame live s s') as Hf.
  { eapply sched_frame_subset; [|exact Hfr]. intros p Hp'. rewrite Hlive. by right. }
  split; [|done]. eapply ps_at_step; [done..|]. cbn. by rewrite Hp.
Qed.

Lemma ps_wake_idle_at img s live t lr lw :
  addressable (nb_contexts img) -> ps_at img s live Idling lr lw ->
  next_wake_date (s_timer s) <= t ->
  exists s' lr' lw', ps_wake_tasks fp img t (with_timer (timer_dont_wake (s_timer s)) s) = Ok s' /\
    ps_at img s' live Choosing lr' lw' /\ woken (s_mem s) t lr lw lr' lw' /\
    s_timer s' = timer_dont_wake (s_timer s) /\ sched_frame live s s'.
Proof using.
  intros Hadd (Hinv & Hq & Hph) Ht. pose proof Hinv as (_ & _ & Hlen & _).
  destruct Hph as (-> & Hlive & Harm).
  destruct (ps_wake_tasks_ok img t (with_timer (timer_dont_wake (s_timer s)) s) [] lw Hq Hadd)
    as (s' & lr' & lw' & E & Hq' & Hr' & Hw' & Hp & Ht' & Hfr).
  { cbn. by rewrite Hlive in Hlen. }
  exists s', lr', lw'. split; [done|]. assert (sched_frame live s s') as Hf.
  { destruct Hfr as (H1 & H2 & H3 & H4). split; [done|]. split; [|done].
    intros p Hp'. apply H2. by rewrite Hlive in Hp'. }
  split; [|done]. eapply ps_at_step; [done..|]. cbn.
  split; [by rewrite Hp|]. destruct Harm as [->|(p & Hpw & Hn & _)].
  - right. left. by apply Permutation_nil_r.
  - left. intros ->. assert (p ∈ filter (fun p => wakeup_of (s_mem s) p <= t) lw ++ []) as Hin.
    { rewrite app_nil_r. apply list_elem_of_filter. split; [lia|done]. }
    rewrite <-Hr' in Hin. by apply elem_of_nil in Hin.
Qed.

Lemma ps_inv_not_idle img s live ph p :
  ps_inv img s live ph -> p ∈ live -> context_is_idle img p = false.
Proof using.
  intros (_ & Hid & _) Hp. unfold context_is_idle.
  apply bool_decide_eq_false. by intros ->.
Qed.

(** The running context stays, or goes back to the ready queue for one that
    has precedence over it. *)
Lemma ps_maybe_preempt_queues img s lr lw ctx :
  queues (nb_contexts img) (s_mem s) (s_sched s) lr lw -> addressable (nb_contexts img) ->
  context_is_idle img ctx = false -> is_Some (s_mem s !! ctx) -> ctx ∉ lr ++ lw ->
  Z.of_nat (length lr) < nb_contexts img ->
  exists p lr' s', ps_maybe_preempt fp img ctx s = Ok (p, s') /\ ctx :: lr ≡ₚ p :: lr' /\
    queues (nb_contexts img) (s_mem s') (s_sched s') lr' lw /\
    top_of (ready_pf fp) (s_mem s') p lr' /\
    (p = ctx \/ outranks (ready_pf fp) (s_mem s) p ctx = true) /\
    s_timer s' = s_timer s /\ sched_frame (ctx :: lr) s s'.
Proof using.
  intros Hq Hadd Hidle [c Hc] Hnx Hlen. unfold ps_maybe_preempt. rewrite Hidle.
  cbn [rbind assertion negb]. rewrite (pq_rep_size _ _ _ _ (q_ready _ _ _ _ _ Hq)).
  destruct (decide (lr = [])) as [->|Hne].
  { cbn. exists ctx, [], s. do 3 (split; [done|]). split; [apply Forall_nil_2|]. by auto with sched. }
  rewrite (proj2 (Z.ltb_lt 0 _)) by (destruct lr; [done|cbn; lia]).
  rewrite (proj2 (load_ok _ _ _) Hc). cbn [rbind].
  destruct (pq_first_spec (pf := ready_pf fp) _ _ _ _ (q_ready _ _ _ _ _ Hq) Hne)
    as (x & -> & Hx & Htop). cbn [rbind].
  destruct (pq_rep_alloc _ _ _ _ _ (q_ready _ _ _ _ _ Hq) Hx) as [cx Hcx].
  rewrite (proj2 (load_ok _ _ _) Hcx). cbn [rbind].
  replace (is_gt_priority (ready_pf fp) (get_priority (ready_pf fp) (sched cx))
      (get_priority (ready_pf fp) (sched c))) with (outranks (ready_pf fp) (s_mem s) x ctx)
    by (unfold outranks, prio_of; by rewrite Hc, Hcx).
  destruct (outranks _ _ x ctx) eqn:Eo.
  2:{ exists ctx, lr, s. do 3 (split; [done|]). split; [by eapply top_of_trans|]. by auto with sched. }
  destruct (ready_insert_ok img s lr lw ctx Hq Hadd Hlen) as (s1 & -> & Hq1 & Ht1 & Hf1);
    [eauto|done|]. cbn [rbind]. pose proof Hf1 as (Heq & _).
  destruct (ready_remove_ok img s1 (ctx :: lr) lw Hq1 Hadd) as (p & lr' & s' & E & Hp & Htop' & Hq' & Ht' & Hf');
    [cbn; lia|done|]. pose proof Hf' as (Heq' & _).
  exists p, lr', s'. do 3 (split; [done|]). rewrite Heq'. split.
  { rewrite Hp in Htop'. by apply Forall_cons in Htop' as [_ ?]. }
  split; [right|split; [congruence|by eapply sched_frame_trans]].
  rewrite Heq in Htop'. apply Forall_cons in Htop' as [_ Htop']. rewrite Forall_forall in Htop'.
  by apply (served_outranks _ p x ctx); [apply Htop'|].
Qed.

Lemma ps_maybe_preempt_at img s live ctx lr lw :
  addressable (nb_contexts img) -> ps_at img s live (Woken ctx) lr lw ->
  exists p lr' s', ps_maybe_preempt fp img ctx s = Ok (p, s') /\
    ps_at img s' live (Running p) lr' lw /\ ctx :: lr ≡ₚ p :: lr' /\
    (p = ctx \/ outranks (ready_pf fp) (s_mem s) p ctx = true) /\
    s_timer s' = s_timer s /\ sched_frame live s s'.
Proof using.
  intros Hadd (Hinv & Hq & Hlive). pose proof Hinv as (Hnd & Hid & Hlen & Hal & _).
  cbn in Hlive. assert (ctx ∈ live) as Hctx by (rewrite Hlive; by left).
  assert (ctx ∉ lr ++ lw) as Hnx by (rewrite Hlive in Hnd; by apply NoDup_cons in Hnd as [? _]).
  rewrite Hlive in Hlen. cbn in Hlen. rewrite length_app in Hlen.
  destruct (ps_maybe_preempt_queues img s lr lw ctx Hq Hadd (ps_inv_not_idle _ _ _ _ _ Hinv Hctx)
    (Hal _ Hctx) Hnx) as (p & lr' & s' & E & Hp & Hq' & Htop & Hbest & Ht & Hf); [lia|].
  assert (sched_frame live s s') as Hf'.
  { eapply sched_frame_subset; [|exact Hf]. intros q Hq0. rewrite Hlive. set_solver. }
  exists p, lr', s'. split; [done|]. split; [|done]. eapply ps_at_step; [done..|].
  split; [|done]. by rewrite Hlive, !app_comm_cons, Hp.
Qed.

(** At date [t] context [p] runs and no waiting context is due. *)
Definition settled img s live (p : cptr) (t : Z) : Prop :=
  exists lr lw, ps_at img s live (Running p) lr lw /\ Forall (fun q => t < wakeup_of (s_mem s) q) lw.

Lemma not_due m m' t lw :
  m' ≈ₙ m -> Forall (fun q => t < wakeup_of m' q) (filter (fun q => ~ wakeup_of m q <= t) lw).
Proof using.
  intros Hm. apply Forall_forall. intros q [Hq _]%list_elem_of_filter.
  rewrite (wakeup_of_eq_next _ _ q Hm). lia.
Qed.

(** Then [p] has precedence over every context that is due. *)
Lemma settled_best img s live p t q :
  settled img s live p t -> q ∈ live -> wakeup_of (s_mem s) q <= t ->
  outranks (ready_pf fp) (s_mem s) q p = false.
Proof using.
  intros (lr & lw & (_ & _ & Hl & Htop) & Hw) Hq Hdue. rewrite Hl in Hq.
  apply elem_of_cons in Hq as [->|Hq]; [apply (served_before_refl (s_mem s) p)|].
  apply elem_of_app in Hq as [Hq|Hq]; [by apply (proj1 (Forall_forall _ _) Htop)|].
  pose proof (proj1 (Forall_forall _ _) Hw q Hq). cbn in *. lia.
Qed.

(** Waking and preempting, as the timer handler does in a task: the contexts
    that stay in the waiting queue are not due, and the alarm is untouched. *)
Lemma ps_wake_preempt_ok img s live p t :
  addressable (nb_contexts img) -> ps_inv img s live (Running p) ->
  exists s1 p' s2, ps_wake_tasks fp img t s = Ok s1 /\
    ps_maybe_preempt fp img p s1 = Ok (p', s2) /\ settled img s2 live p' t /\ s_timer s2 = s_timer s.
Proof using.
  intros Hadd Hs. apply ps_inv_at in Hs as (lr & lw & Hs).
  destruct (ps_wake_running_at img s live p t lr lw Hadd Hs) as (s1 & lr1 & lw1 & E1 & Hs1 & [_ Hw] & Ht1 & [Hm1 _]).
  destruct (ps_maybe_preempt_at img s1 live p lr1 lw1 Hadd Hs1) as (p' & lr2 & s2 & E2 & Hs2 & _ & _ & Ht2 & [Hm2 _]).
  exists s1, p', s2. do 2 (split; [done|]). split; [|congruence]. exists lr2, lw1. split; [done|].
  rewrite Hw. apply not_due. by etrans.
Qed.

(** The idle context when the ready queue is empty, else its first context. *)
Lemma ps_choose_next_at img s live lr lw :
  addressable (nb_contexts img) -> ps_at img s live Choosing lr lw ->
  exists p s', ps_choose_next fp img s = Ok (p, s') /\
    (lr = [] /\ p = context_idle img /\ ps_at img s' live Idling lr lw \/
     exists lr', lr ≡ₚ p :: lr' /\ ps_at img s' live (Running p) lr' lw) /\
    s_timer s' = s_timer s /\ sched_frame live s s'.
Proof using.
  intros Hadd (Hinv & Hq & Hlive & Harm). pose proof Hinv as (_ & _ & Hlen & _).
  unfold ps_choose_next. rewrite (pq_rep_size _ _ _ _ (q_ready _ _ _ _ _ Hq)).
  destruct (decide (lr = [])) as [->|Hne].
  - cbn. do 2 eexists. split; [done|]. split; [left|auto with sched]. do 2 (split; [done|]).
    eapply ps_at_step; [done|auto with sched|done|]. cbn. do 2 (split; [done|]). by destruct Harm.
  - rewrite (proj2 (Z.eqb_neq _ 0)) by (destruct lr; [done|cbn; lia]).
    rewrite Hlive, length_app in Hlen.
    destruct (ready_remove_ok img s lr lw Hq Hadd ltac:(lia) Hne)
      as (p & lr' & s' & E & Hp & Htop & Hq' & Ht & Hfr). exists p, s'. split; [done|].
    assert (sched_frame live s s') as Hf.
    { eapply sched_frame_subset; [|exact Hfr]. intros q Hq0. rewrite Hlive. set_solver. }
    split; [|done]. right. exists lr'. split; [done|]. eapply ps_at_step; [done..|]. cbn.
    split; [by rewrite Hlive, Hp|]. destruct Hfr as (Heq & _). rewrite Heq. rewrite Hp in Htop.
    by apply Forall_cons in Htop as [_ ?].
Qed.

(** Waking when idle: a context whose date has come runs. *)
Lemma ps_wake_choose_ok img s live t :
  addressable (nb_contexts img) -> ps_inv img s live Idling -> live <> [] ->
  next_wake_date (s_timer s) <= t ->
  exists s1 p s2, ps_wake_tasks fp img t (with_timer (timer_dont_wake (s_timer s)) s) = Ok s1 /\
    ps_choose_next fp img s1 = Ok (p, s2) /\ settled img s2 live p t /\
    s_timer s2 = timer_dont_wake (s_timer s) /\ wakeup_of (s_mem s2) p <= t.
Proof using.
  intros Hadd Hs Hne Hdue. apply ps_inv_at in Hs as (lr & lw & Hs). pose proof Hs as (_ & _ & -> & Hlive & Harm).
  destruct (ps_wake_idle_at img s live t [] lw Hadd Hs Hdue) as (s1 & lr1 & lw1 & E1 & Hs1 & [Hr Hw] & Ht1 & [Hm1 _]).
  destruct (ps_choose_next_at img s1 live lr1 lw1 Hadd Hs1) as (p & s2 & E2 & Hcase & Ht2 & [Hm2 _]).
  rewrite app_nil_r in Hr. assert (s_mem s2 ≈ₙ s_mem s) as Hm by (by etrans).
  exists s1, p, s2. do 2 (split; [done|]). destruct Hcase as [(-> & _)|(lr2 & Hp & Hs2)].
  - exfalso. apply Permutation_nil_l in Hr. destruct Harm as [->|(x & Hx & Hn & _)].
    { by apply Hne, Permutation_nil_r. }
    assert (x ∈ filter (fun p => wakeup_of (s_mem s) p <= t) lw) as Hin
      by (apply list_elem_of_filter; split; [lia|done]).
    rewrite <-Hr in Hin. by apply elem_of_nil in Hin.
  - split; [exists lr2, lw1; split; [done|]; rewrite Hw; by apply not_due|]. split; [congruence|].
    assert (p ∈ filter (fun p => wakeup_of (s_mem s) p <= t) lw) as [Hpt _]%list_elem_of_filter
      by (rewrite <-Hr, Hp; by left).
    by rewrite (wakeup_of_eq_next _ _ p Hm).
Qed.

Lemma ps_duplicate_at img s live ctx new lr lw :
  addressable (nb_contexts img) -> ps_at img s live (Running ctx) lr lw ->
  new ∉ live -> new <> context_idle img ->
  Z.of_nat (length live) < nb_contexts img ->
  is_Some (s_mem s !! new) -> sched <$> s_mem s !! new = sched <$> s_mem s !! ctx ->
  exists s', ps_insert_duplicated_context fp img ctx new s = Ok s' /\
    ps_at img s' (new :: live) (Running ctx) (new :: lr) lw /\
    s_timer s' = s_timer s /\ sched_frame (new :: live) s s'.
Proof using.
  intros Hadd (Hinv & Hq & Hlive & Htop) Hnew Hidle Hlen Hsome Hsame.
  pose proof Hinv as (Hnd & Hid & _ & Hal & _).
  assert (length live = S (length lr + length lw)) as Hl
    by (by rewrite Hlive; cbn; rewrite length_app).
  unfold ps_insert_duplicated_context.
  destruct (ready_insert_ok img s lr lw new Hq Hadd) as (s' & E & Hq' & Ht & Hfr);
    [lia|done|rewrite Hlive in Hnew; set_solver|].
  exists s'. split; [done|]. assert (sched_frame (new :: live) s s') as Hf.
  { eapply sched_frame_subset; [|exact Hfr]. intros p. rewrite Hlive. set_solver. }
  split; [|done]. destruct Hf as (Heq & _).
  assert (phase_inv (fp := fp) (s_mem s') (s_timer s') (new :: live) (new :: lr) lw (Running ctx)) as Hph.
  2:{ split; [|done]. split; [by apply NoDup_cons|]. split; [set_solver|]. split; [cbn; lia|].
      split; [|by eauto]. intros p Hp. eapply mem_eq_next_is_Some; [symmetry; exact Heq|].
      apply elem_of_cons in Hp as [->|Hp]; auto. }
  split.
  - rewrite Hlive. cbn. apply Permutation_swap.
  - rewrite Heq. constructor; [|done]. unfold outranks, prio_of.
    destruct (s_mem s !! new) as [cn|], (s_mem s !! ctx) as [cc|]; try done.
    cbn in *. injection Hsame as ->. destruct (is_gt_priority _ _ _) eqn:E'; [|done].
    by rewrite <-E', (gt_asym _ _ E').
Qed.

(** One iteration of scheduler_init: the task gets its priority and is ready. *)
Lemma ps_init_task_ok img (i : nat) s task :
  image_ok img -> tasks img !! i = Some task ->
  queues (nb_contexts img) (s_mem s) (s_sched s) (t_context <$> take i (tasks img)) [] ->
  is_Some (s_mem s !! t_context task) ->
  exists m s1, (if fp then modify (s_mem s) (t_context task) (set_priority (t_priority task))
                else Ok (s_mem s)) = Ok m /\
    ready_insert fp img (t_context task) (with_mem m s) = Ok s1 /\
    queues (nb_contexts img) (s_mem s1) (s_sched s1) (t_context <$> take (S i) (tasks img)) [] /\
    s_timer s1 = s_timer s /\
    (forall p, non_sched <$> s_mem s1 !! p = non_sched <$> s_mem s !! p) /\
    (forall p, p <> t_context task -> strip_next <$> s_mem s1 !! p = strip_next <$> s_mem s !! p) /\
    (forall p, p ∉ t_context <$> tasks img -> s_mem s1 !! p = s_mem s !! p) /\
    (fp = true -> prio_of (ready_pf true) (s_mem s1) (t_context task) = t_priority task) /\
    s_mem s1 ≈ₙ with_priorities fp [task] (s_mem s).
Proof using.
  intros Himg Htask Hq Hal. pose proof (img_fits _ Himg). apply lookup_lt_Some in Htask as Hlt.
  assert (t_context task ∉ t_context <$> take i (tasks img)) as Hnin.
  { pose proof (img_contexts _ Himg) as Hnd. rewrite <-(take_drop_middle _ _ _ Htask) in Hnd.
    rewrite fmap_app, fmap_cons in Hnd. apply NoDup_app in Hnd as (_ & Hd & _).
    intros Hin'. apply (Hd _ Hin'). by left. }
  destruct (set_priority_ok fp (s_mem s) (t_context task) (t_priority task) Hal)
    as (m & Em & Hns & Hfr & Hprio).
  destruct (ready_insert_ok img (with_mem m s) (t_context <$> take i (tasks img)) []
      (t_context task)) as (s1 & E1 & Hq1 & Ht1 & Heq1 & Hfr1 & _).
  - eapply queues_frame; [done|]. apply same_sched_lookup. intros p Hp. apply Hfr.
    intros ->. rewrite app_nil_r in Hp. done.
  - by destruct Himg.
  - rewrite length_fmap, length_take. lia.
  - cbn. eapply non_sched_is_Some; [apply Hns|]. auto.
  - by rewrite app_nil_r.
  - exists m, s1. split; [done|]. split; [done|]. split.
    { eapply queues_perm; [| |exact Hq1]; [|done].
      rewrite (take_S_r _ _ _ Htask), fmap_app. by rewrite Permutation_app_comm. }
    split; [done|]. split; [intros p; by rewrite (mem_eq_next_non_sched _ _ p Heq1), <-Hns|].
    split; [intros p Hp; rewrite (Heq1 p); cbn; by rewrite Hfr|]. split.
    + intros p Hp. rewrite Hfr1.
      * apply Hfr. intros ->. apply Hp, list_elem_of_fmap_2. by eapply list_elem_of_lookup_2.
      * rewrite <-fmap_cons. intros Hp'. apply Hp. apply list_elem_of_fmap in Hp' as (y & -> & Hy).
        apply list_elem_of_fmap_2. apply elem_of_cons in Hy as [->|Hy];
          [by eapply list_elem_of_lookup_2|]. by eapply (subseteq_take i).
    + split; [intros Hfp; rewrite Heq1; by apply Hprio|]. rewrite Heq1.
      by rewrite (set_priority_alter _ _ _ _ _ Hal Em).
Qed.

Lemma ps_init_tasks_ok n img (i : nat) s :
  image_ok img -> (i + n = length (tasks img))%nat ->
  queues (nb_contexts img) (s_mem s) (s_sched s) (t_context <$> take i (tasks img)) [] ->
  (forall p, p ∈ t_context <$> tasks img -> is_Some (s_mem s !! p)) ->
  exists s', ps_init_tasks fp n img (Z.of_nat i) s = Ok s' /\
    queues (nb_contexts img) (s_mem s') (s_sched s') (t_context <$> tasks img) [] /\
    s_timer s' = s_timer s /\
    (forall p, non_sched <$> s_mem s' !! p = non_sched <$> s_mem s !! p) /\
    (forall p, p ∉ t_context <$> tasks img -> s_mem s' !! p = s_mem s !! p) /\
    (forall p, p ∉ t_context <$> drop i (tasks img) ->
       strip_next <$> s_mem s' !! p = strip_next <$> s_mem s !! p) /\
    (forall t, t ∈ drop i (tasks img) -> fp = true ->
       prio_of (ready_pf true) (s_mem s') (t_context t) = t_priority t) /\
    s_mem s' ≈ₙ with_priorities fp (drop i (tasks img)) (s_mem s).
Proof using.
  intros Himg. revert i s. induction n as [|n IH]; intros i s Hi Hq Hal.
  { exists s. rewrite take_ge in Hq by lia. do 6 (split; [done|]). rewrite drop_ge by lia.
    split; [|done]. intros t Ht. by apply elem_of_nil in Ht. }
  destruct (lookup_lt_is_Some_2 (tasks img) i) as [task Htask]; [lia|].
  pose proof (img_nb_tasks _ Himg).
  cbn [ps_init_tasks]. rewrite (proj2 (Z.leb_gt _ _)) by lia. rewrite Nat2Z.id, Htask.
  destruct (ps_init_task_ok img i s task Himg Htask Hq)
    as (m & s1 & -> & E1 & Hq1 & Ht1 & Hns1 & Hst1 & Hfr1 & Hpr1 & Hwp1).
  { apply Hal, list_elem_of_fmap_2. by eapply list_elem_of_lookup_2. }
  cbn [rbind]. rewrite E1. cbn [rbind].
  destruct (IH (S i) s1) as (s' & E & Hq' & Ht' & Hns' & Hfr' & Hst' & Hpr' & Hwp'); [lia|done| |].
  { intros p Hp. eapply non_sched_is_Some; [apply Hns1|]. auto. }
  exists s'. replace (Z.of_nat i + 1) with (Z.of_nat (S i)) by lia.
  split; [done|]. split; [done|]. split; [by rewrite Ht', Ht1|]. split; [congruence|].
  split; [intros p Hp; by rewrite Hfr', Hfr1|]. rewrite (drop_S _ _ _ Htask).
  split; [|split; [|etrans; [exact Hwp'|exact (with_priorities_eq fp _ _ _ Hwp1)]]].
  - intros p Hp. apply not_elem_of_cons in Hp as [Hp1 Hp2]. by rewrite Hst', Hst1.
  - intros t Ht Hfp. apply elem_of_cons in Ht as [->|Ht]; [|by apply Hpr'].
    rewrite <-(Hpr1 Hfp). apply prio_of_strip, Hst'.
    pose proof (img_contexts _ Himg) as Hnd. rewrite <-(take_drop_middle _ _ _ Htask) in Hnd.
    rewrite fmap_app, fmap_cons in Hnd. apply NoDup_app in Hnd as (_ & _ & Hnd).
    by apply NoDup_cons in Hnd as [? _].
Qed.

Lemma ps_scheduler_init_at img s :
  image_ok img ->
  (forall p, p ∈ t_context <$> tasks img -> is_Some (s_mem s !! p)) ->
  is_Some (s_mem s !! context_idle img) ->
  exists s', ps_scheduler_init fp img s = Ok s' /\
    ps_at img s' (t_context <$> tasks img) Choosing (t_context <$> tasks img) [] /\
    s_timer s' = s_timer s /\
    (forall p, non_sched <$> s_mem s' !! p = non_sched <$> s_mem s !! p) /\
    (forall p, p ∉ t_context <$> tasks img -> p <> context_idle img ->
       s_mem s' !! p = s_mem s !! p) /\
    (forall t, t ∈ tasks img -> fp = true ->
       prio_of (ready_pf true) (s_mem s') (t_context t) = t_priority t) /\
    s_mem s' ≈ₙ with_priorities fp (tasks img)
      (if fp then alter (set_priority 0) (context_idle img) (s_mem s) else s_mem s).
Proof using.
  intros Himg Hal Hidle. unfold ps_scheduler_init. cbn [s_mem].
  destruct (set_priority_ok fp (s_mem s) (context_idle img) 0 Hidle) as (m & E & Hns & Hfr & _).
  unfold context_idle, current_cpu in E. rewrite E. cbn [rbind].
  match goal with |- context [ps_init_tasks _ _ _ _ ?s0] =>
    destruct (ps_init_tasks_ok (Z.to_nat (nb_tasks img)) img 0 s0)
      as (s' & E' & Hq & Ht & Hns' & Hfr' & _ & Hpr & Hwp) end; [done| | | |].
  - rewrite (img_nb_tasks _ Himg). lia.
  - split; [by apply pq_rep_init, img_addressable..|constructor].
  - intros p Hp. cbn. eapply non_sched_is_Some; [apply Hns|]. auto.
  - cbn in Hns', Hfr'. exists s'. split; [exact E'|].
    assert (forall p, non_sched <$> s_mem s' !! p = non_sched <$> s_mem s !! p) as Hns2
      by (intros p; by rewrite Hns').
    assert (m = if fp then alter (set_priority 0) (context_idle img) (s_mem s) else s_mem s) as Em.
    { by apply (set_priority_alter _ _ _ _ _ Hidle). }
    cbn in Hwp. rewrite Em in Hwp.
    split; [|split; [done|split; [done|split; [|done]]]].
    + assert (phase_inv (fp := fp) (s_mem s') (s_timer s') (t_context <$> tasks img)
        (t_context <$> tasks img) [] Choosing) as Hph
        by (cbn; rewrite app_nil_r; split; [done|]; right; by left).
      split; [|done]. split; [by apply img_contexts|]. split; [by apply img_not_idle|].
      rewrite length_fmap. split; [by apply img_fits|]. split; [|by eauto].
      intros p Hp. eapply non_sched_is_Some; [apply Hns2|]. auto.
    + intros p Hp Hpi. rewrite Hfr' by done. by apply Hfr.
Qed.
End Functions.

(** ** The interface *)

#[global] Program Instance priority_scheduler_spec (fp : bool) (Q : Type)
    `{!PQueue waiting_pf Q} `{!PQueue (ready_pf fp) Q}
    `{!PQueueSpec waiting_pf Q} `{!PQueueSpec (ready_pf fp) Q} :
    SchedulerSpec (priority_sched fp Q) := {
  sched_inv := ps_inv
}.
Next Obligation. intros fp Q ???? img s live ph (? & ? & ? & ? & _). auto. Qed.
Next Obligation.
  intros fp Q ???? img s live ctx (_ & _ & _ & _ & lr & lw & _ & E & _). rewrite E. by left.
Qed.
Next Obligation.
  intros fp Q ???? img s live ctx (_ & _ & _ & _ & lr & lw & _ & E). cbn in E. rewrite E. by left.
Qed.
Next Obligation.
  intros fp Q ???? img s live ph m' (lr & lw & Hs)%ps_inv_at E.
  by destruct (ps_at_frame _ _ _ _ _ _ m' (s_timer s) Hs E eq_refl).
Qed.
Next Obligation.
  intros fp Q ???? img s live ph t' (lr & lw & Hs)%ps_inv_at E.
  by destruct (ps_at_frame _ _ _ _ _ _ (s_mem s) t' Hs (fun _ _ => eq_refl) E).
Qed.
Next Obligation.
  intros fp Q ???? img s live ctx t' (lr & lw & Hs)%ps_inv_at. by destruct (ps_at_alarm _ _ _ _ _ _ t' Hs).
Qed.
Next Obligation.
  intros fp Q ???? img s live ctx m' (lr & lw & Hs)%ps_inv_at E. by destruct (ps_at_redate _ _ _ _ _ _ _ Hs E).
Qed.
Next Obligation.
  intros fp Q ???? img s Himg Hal Hidle.
  destruct (ps_scheduler_init_at (fp := fp) img s Himg Hal Hidle) as (s' & E & [Hs _] & Ht & Hns & Hfr & _).
  by exists s'.
Qed.
Next Obligation.
  intros fp Q ???? img s live ctx [] (lr & lw & Hs)%ps_inv_at.
  destruct (ps_set_waiting_at img s live ctx lr lw) as (s' & E & [Hs' _] & _ & Hf); eauto.
Qed.
Next Obligation.
  intros fp Q ???? img s live ctx t [] (lr & lw & Hs)%ps_inv_at.
  destruct (ps_wake_running_at img s live ctx t lr lw) as (s' & ? & ? & E & [Hs' _] & _ & _ & Hf); eauto.
Qed.
Next Obligation.
  intros fp Q ???? img s live t [] (lr & lw & Hs)%ps_inv_at Ht.
  destruct (ps_wake_idle_at img s live t lr lw) as (s' & ? & ? & E & [Hs' _] & _ & _ & Hf); eauto.
Qed.
Next Obligation.
  intros fp Q ???? img s live ctx [] (lr & lw & Hs)%ps_inv_at.
  destruct (ps_maybe_preempt_at img s live ctx lr lw) as (p & ? & s' & E & [Hs' _] & _ & _ & _ & Hf); eauto.
Qed.
Next Obligation.
  intros fp Q ???? img s live [] (lr & lw & Hs)%ps_inv_at.
  destruct (ps_choose_next_at img s live lr lw) as (p & s' & E & Hs' & _ & Hf); [done..|].
  exists p, s'. split; [done|]. split; [|done].
  destruct Hs' as [(_ & -> & [Hs' _])|(lr' & _ & [Hs' _])]; auto.
Qed.
Next Obligation.
  intros fp Q ???? img s live ctx new [] (lr & lw & Hs)%ps_inv_at Hnew Hni Hlen Hsome Hsame.
  destruct (ps_duplicate_at img s live ctx new lr lw) as (s' & E & [Hs' _] & _ & Hf); eauto.
Qed.
