(* ===== verification/RoundRobin.v ===== *)
(** * The round-robin scheduler (round_robin_scheduler.c)

    The contexts form a circular list through their [next] fields and
    [current] walks around it.  Time is ignored and no task ever blocks. *)

From stdpp Require Import options.
From S2P Require Import Prelude Contexts PQueue ListQueue Timer Scheduler.

(** ** State and operations *)

(** [static struct context *current]. *)
Record rr_sched := RRSched { current : option cptr }.

Abbreviation rr_state := (sstate rr_sched).

Definition rr_set_waiting (img : user_tasks_image) (ctx : cptr) (s : rr_state) : res rr_state :=
  Ok s.

Definition rr_wake_tasks (img : user_tasks_image) (curtime : Z) (s : rr_state) : res rr_state :=
  Ok s.

Definition rr_maybe_preempt (img : user_tasks_image) (ctx : cptr) (s : rr_state)
    : res (cptr * rr_state) :=
  Ok (ctx, s).

(** The loop of scheduler_init: [n] iterations remain. *)
Fixpoint rr_link (n : nat) (img : user_tasks_image) (i : Z) (prev : cptr) (m : mem) : res mem :=
  match n with
  | O => Ok m
  | S n =>
      if nb_tasks img <=? i then Err InfiniteLoop
      else
        match tasks img !! Z.to_nat i with
        | None => Err (Undef OutOfBounds)
        | Some task =>
            let* m1 := modify m prev (set_next (Some (t_context task))) in
            rr_link n img (i + 1) (t_context task) m1
        end
  end.

Definition rr_scheduler_init (img : user_tasks_image) (s : rr_state) : res rr_state :=
  match tasks img !! Z.to_nat (u32 (nb_tasks img - 1)) with
  | None => Err (Undef OutOfBounds)
  | Some task =>
      let* m := rr_link (Z.to_nat (nb_tasks img)) img 0 (t_context task) (s_mem s) in
      match tasks img !! 0%nat with
      | None => Err (Undef OutOfBounds)
      | Some task0 => Ok (SState m (RRSched (Some (t_context task0))) (s_timer s))
      end
  end.

Definition rr_choose_next (img : user_tasks_image) (s : rr_state) : res (cptr * rr_state) :=
  match current (s_sched s) with
  | None => Err (Undef NullDeref)
  | Some cur =>
      let* c := load (s_mem s) cur in
      match next (sched c) with
      | None => Err (Undef NullDeref)
      | Some p => Ok (p, SState (s_mem s) (RRSched (Some p)) (s_timer s))
      end
  end.

Definition rr_insert_duplicated_context (img : user_tasks_image) (orig new : cptr)
    (s : rr_state) : res rr_state :=
  let* co := load (s_mem s) orig in
  let* cn := load (s_mem s) new in
  let* _ := assertion (bool_decide (next (sched co) = next (sched cn)))
              "orig->sched_context.next == new->sched_context.next" in
  let* m := modify (s_mem s) orig (set_next (Some new)) in
  Ok (with_mem m s).

#[global] Instance rr_scheduler : Scheduler rr_sched := {
  scheduler_init := rr_scheduler_init;
  sched_set_waiting := rr_set_waiting;
  sched_wake_tasks := rr_wake_tasks;
  sched_maybe_preempt := rr_maybe_preempt;
  sched_choose_next := rr_choose_next;
  sched_insert_duplicated_context := rr_insert_duplicated_context
}.

(** [n] successive choices, in order. *)
Fixpoint rr_choices (n : nat) (img : user_tasks_image) (s : rr_state)
    : res (list cptr * rr_state) :=
  match n with
  | O => Ok ([], s)
  | S n =>
      let* (p, s1) := rr_choose_next img s in
      let* (l, s2) := rr_choices n img s1 in
      Ok (p :: l, s2)
  end.

(** ** Invariant *)

(** The contexts of [l] form a circular list, in order. *)
Definition ring (m : mem) (l : list cptr) : Prop :=
  l <> [] /\ lseg m (head l) l (head l).

Definition rr_inv (img : user_tasks_image) (s : rr_state) (live : list cptr) (ph : phase)
    : Prop :=
  NoDup live /\ context_idle img ∉ live /\
  (exists l, live ≡ₚ l /\ ring (s_mem s) l) /\
  match ph with
  | Running ctx | Woken ctx => current (s_sched s) = Some ctx /\ ctx ∈ live
  | Choosing => exists ctx, current (s_sched s) = Some ctx /\ ctx ∈ live
  | Idling => False
  end.

(** ** Rings *)

(** A ring can be entered anywhere. *)
Lemma ring_rotate m l1 c l2 : ring m (l1 ++ c :: l2) -> ring m ((c :: l2) ++ l1).
Proof.
  intros [_ H]. split; [done|]. cbn [app head]. destruct l1 as [|x l1].
  { by rewrite app_nil_r. }
  cbn [app head] in H. change (lseg m (Some x) ((x :: l1) ++ c :: l2) (Some x)) in H.
  apply lseg_app in H as (r & H1 & H2).
  change (lseg m (Some c) ((c :: l2) ++ x :: l1) (Some c)).
  assert (r = Some c) as -> by (by destruct H2 as [-> _]).
  apply lseg_app. by exists (Some x).
Qed.

Lemma ring_shift m c l : ring m (c :: l) -> ring m (l ++ [c]).
Proof. destruct l as [|x l]; [done|]. apply (ring_rotate m [c] x l). Qed.

Lemma ring_enter m l c :
  ring m l -> c ∈ l -> exists l', ring m (c :: l') /\ l ≡ₚ c :: l'.
Proof.
  intros H (l1 & l2 & ->)%list_elem_of_split. exists (l2 ++ l1).
  split; [by apply (ring_rotate m l1 c l2)|].
  by rewrite Permutation_app_comm.
Qed.

Lemma ring_alloc m l p : ring m l -> p ∈ l -> is_Some (m !! p).
Proof. intros [_ H]. by eapply lseg_alloc. Qed.

Lemma ring_frame m m' l : ring m l -> same_sched m m' l -> ring m' l.
Proof. intros [Hne H] E. split; [done|]. by eapply lseg_frame. Qed.

(** The successor of the first element of a ring. *)
Lemma ring_next m c l :
  ring m (c :: l) ->
  exists cc p, m !! c = Some cc /\ next (sched cc) = Some p /\ head (l ++ [c]) = Some p.
Proof.
  intros [_ (_ & cc & Hc & Hl)]. exists cc. cbn in Hl. destruct l as [|p l].
  - exists c. cbn in Hl. auto.
  - exists p. destruct Hl as [E _]. auto.
Qed.

(** Linking a copy of [c] right after [c]. *)
Lemma ring_insert m c cc new cn l :
  ring m (c :: l) -> m !! c = Some cc -> m !! new = Some cn ->
  NoDup (c :: l) -> new ∉ c :: l -> next (sched cn) = next (sched cc) ->
  ring (<[c := set_next (Some new) cc]> m) (c :: new :: l).
Proof.
  intros [_ (_ & c' & Hc' & Hl)] Hc Hn [Hcl _]%NoDup_cons Hnew E. simplify_eq. split; [done|].
  cbn. split; [done|]. eexists. rewrite lookup_insert_eq. split; [done|]. cbn.
  split; [done|]. exists cn. rewrite lookup_insert_ne by set_solver. split; [done|].
  rewrite E. by apply lseg_insert_ne.
Qed.

(** ** The functions *)

Lemma rr_link_ok img (i : nat) l z prev m :
  nb_tasks img = Z.of_nat (length (tasks img)) ->
  t_context <$> drop i (tasks img) = l ++ [z] -> NoDup (prev :: l) ->
  (forall p, p ∈ prev :: l -> is_Some (m !! p)) ->
  exists m', rr_link (S (length l)) img (Z.of_nat i) prev m = Ok m' /\
    lseg m' (Some prev) (prev :: l) (Some z) /\
    m' ≈ₙ m /\ (forall p, p ∉ prev :: l -> m' !! p = m !! p).
Proof.
  intros Hnb. revert i prev m. induction l as [|x l IH]; intros i prev m Hd Hnd Hal.
  all: assert (length (drop i (tasks img)) = length (t_context <$> drop i (tasks img))) as Hlen
    by (by rewrite length_fmap); rewrite Hd, length_drop in Hlen; cbn in Hlen.
  all: destruct (Hal prev) as [cp Hcp]; [by left|].
  all: destruct (lookup_lt_is_Some_2 (tasks img) i) as [task Ht]; [lia|].
  all: rewrite (drop_S _ _ _ Ht) in Hd; cbn in Hd; injection Hd as E Hd; subst.
  all: cbn [rr_link length]; rewrite (proj2 (Z.leb_gt _ _)) by lia.
  all: rewrite Nat2Z.id, Ht, (modify_ok _ _ _ _ Hcp); cbn [rbind].
  - eexists. split; [done|]. split.
    { cbn. split; [done|]. eexists. by rewrite lookup_insert_eq. }
    split; [by apply mem_eq_set_next|].
    intros p Hp. rewrite lookup_insert_ne; [done|]. set_solver.
  - set (x := t_context task) in *. apply NoDup_cons in Hnd as [Hpx Hnd].
    destruct (IH (S i) x (<[prev := set_next (Some x) cp]> m)) as (m' & E & Hseg & Heq & Hfr).
    { done. }
    { done. }
    { intros p Hp. apply lookup_insert_is_Some'. right. apply Hal. by right. }
    replace (Z.of_nat i + 1) with (Z.of_nat (S i)) by lia. exists m'. split; [exact E|].
    split; [|split].
    + cbn. split; [done|]. exists (set_next (Some x) cp).
      rewrite Hfr by done. rewrite lookup_insert_eq. split; [done|]. exact Hseg.
    + etrans; [exact Heq|]. by apply mem_eq_set_next.
    + intros p Hp. rewrite Hfr by (intros ?; apply Hp; by right).
      apply lookup_insert_ne. intros ->. apply Hp. by left.
Qed.

Lemma rr_scheduler_init_ok img s :
  image_ok img ->
  (forall p, p ∈ t_context <$> tasks img -> is_Some (s_mem s !! p)) ->
  exists s', rr_scheduler_init img s = Ok s' /\
    rr_inv img s' (t_context <$> tasks img) Choosing /\
    ring (s_mem s') (t_context <$> tasks img) /\
    current (s_sched s') = head (t_context <$> tasks img) /\
    s_timer s' = s_timer s /\ s_mem s' ≈ₙ s_mem s /\
    (forall p, p ∉ t_context <$> tasks img -> s_mem s' !! p = s_mem s !! p).
Proof.
  intros [Hnb Hne Hnd Hid Hfit Hadd] Hal. unfold rr_scheduler_init. unfold addressable in Hadd.
  destruct (tasks img) as [|tz ts _] eqn:Ets using rev_ind; [done|].
  rewrite Hnb, length_app in *. cbn [length] in *.
  assert (Z.to_nat (u32 (Z.of_nat (length ts + 1) - 1)) = length ts) as ->
    by (rewrite wrap_small; unfold in_width; lia).
  rewrite list_lookup_middle by done. rewrite Nat2Z.id.
  rewrite fmap_app in *. change (t_context <$> [tz]) with [t_context tz] in *.
  set (z := t_context tz) in *. set (l := t_context <$> ts) in *.
  assert (NoDup (z :: l)) as Hnd' by (by rewrite Permutation_cons_append).
  destruct (rr_link_ok img 0 l z z (s_mem s)) as (m' & E & Hseg & Heq & Hfr).
  { by rewrite Ets, length_app. }
  { by rewrite Ets, drop_0, fmap_app. }
  { done. }
  { intros p Hp. apply Hal. by rewrite <-Permutation_cons_append. }
  subst l. rewrite length_fmap, <-Nat.add_1_r in E. change (Z.of_nat 0) with 0 in E.
  rewrite E. cbn [rbind].
  destruct (lookup_lt_is_Some_2 (ts ++ [tz]) 0) as [t0 Ht0]; [rewrite length_app; cbn; lia|].
  rewrite Ht0. assert (ring m' ((t_context <$> ts) ++ [z])) as Hring.
  { apply ring_shift. by split. }
  assert (head ((t_context <$> ts) ++ [z]) = Some (t_context t0)) as Hhead.
  { destruct ts; by injection Ht0 as <-. }
  eexists. split; [done|]. split; [|do 4 (split; [done|])].
  - split; [done|]. split; [done|]. split; [by eexists|].
    + eexists. split; [done|]. subst z. change [t_context tz] with (t_context <$> [tz]).
      rewrite <-fmap_app. apply list_elem_of_fmap_2. by eapply list_elem_of_lookup_2.
  - intros p Hp. apply Hfr. by rewrite Permutation_cons_append.
Qed.

(** The choice is the next context of the ring. *)
Lemma rr_choose_next_ring img m t c l :
  ring m (c :: l) ->
  exists p, rr_choose_next img (SState m (RRSched (Some c)) t)
      = Ok (p, SState m (RRSched (Some p)) t) /\ head (l ++ [c]) = Some p.
Proof.
  intros Hr. destruct (ring_next _ _ _ Hr) as (cc & p & Hcc & Hn & Hh).
  unfold rr_choose_next. cbn [s_sched current s_mem s_timer].
  rewrite (proj2 (load_ok _ _ _) Hcc). cbn [rbind]. rewrite Hn. by exists p.
Qed.

Lemma rr_choose_next_ok img s live :
  rr_inv img s live Choosing ->
  exists p s', rr_choose_next img s = Ok (p, s') /\
    rr_inv img s' live (Running p) /\ sched_frame live s s'.
Proof.
  intros (Hnd & Hid & (l & Hl & Hring) & c & Hcur & Hc). rewrite Hl in Hc.
  destruct (ring_enter _ _ _ Hring Hc) as (l' & Hr' & Hp). destruct s as [m [cur] t].
  cbn in Hcur, Hr'. subst cur. destruct (rr_choose_next_ring img m t c l' Hr') as (p & -> & Hh).
  do 2 eexists. split; [done|]. split; [|by repeat split].
  split; [done|]. split; [done|]. split; [by exists l|]. split; [done|].
  rewrite Hl, Hp, Permutation_cons_append. by apply head_Some_elem_of.
Qed.

(** The copy comes right after the original. *)
Lemma rr_duplicate_ring img s ctx new l :
  ring (s_mem s) (ctx :: l) -> NoDup (ctx :: l) -> new ∉ ctx :: l ->
  is_Some (s_mem s !! new) -> sched <$> s_mem s !! new = sched <$> s_mem s !! ctx ->
  exists s', rr_insert_duplicated_context img ctx new s = Ok s' /\
    ring (s_mem s') (ctx :: new :: l) /\ s_sched s' = s_sched s /\ s_timer s' = s_timer s /\
    sched_frame [ctx] s s'.
Proof.
  intros Hr Hnd Hnew [cn Hcn] E. destruct (ring_next _ _ _ Hr) as (cc & p & Hcc & Hn & Hh).
  rewrite Hcn, Hcc in E. cbn in E. injection E as E.
  unfold rr_insert_duplicated_context.
  rewrite (proj2 (load_ok _ _ _) Hcc). cbn. rewrite (proj2 (load_ok _ _ _) Hcn). cbn.
  rewrite E, bool_decide_true by done. cbn. rewrite (modify_ok _ _ _ _ Hcc). cbn.
  eexists. split; [done|]. split; [apply (ring_insert _ ctx cc new cn l); try done; by rewrite E|].
  do 2 (split; [done|]). split; [by apply mem_eq_set_next|]. split; [|done].
  intros q Hq. cbn. apply lookup_insert_ne. intros ->. apply Hq. by left.
Qed.

Lemma rr_duplicate_ok img s live ctx new :
  rr_inv img s live (Running ctx) -> new ∉ live -> new <> context_idle img ->
  is_Some (s_mem s !! new) -> sched <$> s_mem s !! new = sched <$> s_mem s !! ctx ->
  exists s', rr_insert_duplicated_context img ctx new s = Ok s' /\
    rr_inv img s' (new :: live) (Running ctx) /\ sched_frame (new :: live) s s'.
Proof.
  intros (Hnd & Hid & (l & Hl & Hring) & Hcur & Hc) Hnew Hni Hcn E. pose proof Hc as Hc'.
  rewrite Hl in Hc. destruct (ring_enter _ _ _ Hring Hc) as (l' & Hr' & Hp). rewrite Hp in Hl.
  destruct (rr_duplicate_ring img s ctx new l' Hr') as (s' & -> & Hr & Es & _ & Hf);
    [by rewrite <-Hl|by rewrite <-Hl|done..|].
  exists s'. split; [done|]. split.
  - split; [by apply NoDup_cons|]. split; [set_solver|]. rewrite Es. split; [|split; [done|by right]].
    exists (ctx :: new :: l'). split; [rewrite Hl; apply Permutation_swap|done].
  - eapply sched_frame_subset; [|exact Hf]. intros q ->%list_elem_of_singleton. by right.
Qed.

Lemma rr_inv_frame img s live ph m' t' :
  rr_inv img s live ph -> same_sched (s_mem s) m' live ->
  rr_inv img (SState m' (s_sched s) t') live ph.
Proof.
  intros (Hnd & Hid & (l & Hl & Hring) & Hph) E. split; [done|]. split; [done|].
  split; [|done]. exists l. split; [done|]. eapply ring_frame; [done|].
  eapply same_sched_subset; [|exact E]. intros p. by rewrite Hl.
Qed.

Lemma redated_same_next m ctx m' l p r :
  redated m ctx m' -> lseg m p l r -> lseg m' p l r.
Proof.
  intros (c & d & d' & Hc & ->). revert p. induction l as [|x l IH]; intros p; [done|].
  cbn. intros (-> & cx & Hx & Hl). split; [done|].
  destruct (decide (x = ctx)) as [->|].
  - eexists. rewrite lookup_insert_eq. split; [done|]. simplify_eq. by apply IH.
  - exists cx. rewrite lookup_insert_ne by done. split; [done|]. by apply IH.
Qed.

(** Going round from [c], the choices are the rest of the ring and [c]. *)
Lemma rr_choices_ring img m t l1 l2 c r :
  ring m (r ++ c :: l1 ++ l2) -> NoDup (r ++ c :: l1 ++ l2) ->
  exists s', rr_choices (length l1) img (SState m (RRSched (Some c)) t) = Ok (l1, s') /\
    s' = SState m (RRSched (last (c :: l1))) t.
Proof.
  revert r c. induction l1 as [|x l1 IH]; intros r c Hr Hnd; [by eexists|].
  cbn [rr_choices length].
  destruct (rr_choose_next_ring img m t c ((x :: l1 ++ l2) ++ r)) as (p & -> & Hh).
  { by apply (ring_rotate m r c ((x :: l1) ++ l2)). }
  cbn in Hh. injection Hh as <-.
  cbn [rbind]. destruct (IH (r ++ [c]) x) as (s' & E & Hs').
  - by rewrite <-app_assoc.
  - by rewrite <-app_assoc.
  - rewrite E. cbn [rbind]. by eexists.
Qed.

Lemma rr_choices_app n k img s :
  rr_choices (n + k) img s =
    (let* (l1, s1) := rr_choices n img s in
     let* (l2, s2) := rr_choices k img s1 in Ok (l1 ++ l2, s2)).
Proof.
  revert s. induction n as [|n IH]; intros s; cbn.
  { by destruct (rr_choices k img s) as [[]|]. }
  destruct (rr_choose_next img s) as [[p s1]|]; [|done]. cbn. rewrite IH.
  destruct (rr_choices n img s1) as [[l1 s2]|]; [|done]. cbn.
  by destruct (rr_choices k img s2) as [[]|].
Qed.

(** As many choices as there are contexts choose each of them once, and leave
    the scheduler where it was. *)
Lemma rr_round img s live :
  rr_inv img s live Choosing ->
  exists l, rr_choices (length live) img s = Ok (l, s) /\ l ≡ₚ live.
Proof.
  intros (Hnd & _ & (l & Hl & Hring) & c & Hcur & Hc). rewrite Hl in Hc.
  destruct (ring_enter _ _ _ Hring Hc) as (l' & Hr & Hp).
  assert (NoDup (c :: l')) as Hnd' by (by rewrite <-Hp, <-Hl).
  exists (l' ++ [c]). split; [|by rewrite <-Permutation_cons_append, <-Hp].
  rewrite (Permutation_length Hl), (Permutation_length Hp). cbn [length].
  destruct s as [m [cur] t]. cbn in Hcur, Hr. subst cur. rewrite <-Nat.add_1_r, rr_choices_app.
  destruct (rr_choices_ring img m t l' [] c []) as (s' & -> & ->); [by cbn; rewrite app_nil_r..|].
  cbn [rbind rr_choices]. destruct (exists_last (l := c :: l') ltac:(done)) as (l0 & z & E).
  rewrite E, last_snoc. assert (ring m (z :: l0)) as Hz by (rewrite E in Hr; by apply (ring_rotate m l0 z [])).
  destruct (rr_choose_next_ring img m t z l0 Hz) as (p & -> & Hh). cbn [rbind].
  rewrite <-E in Hh. cbn in Hh. by injection Hh as ->.
Qed.

(** ** The interface *)

#[global] Program Instance rr_scheduler_spec : SchedulerSpec rr_sched := {
  sched_inv := rr_inv
}.
Next Obligation.
  intros img s live ph (Hnd & Hid & (l & Hl & Hring) & _). do 2 (split; [done|]).
  intros p. rewrite Hl. by apply ring_alloc.
Qed.
Next Obligation. intros img s live ctx (_ & _ & _ & _ & ?). done. Qed.
Next Obligation. intros img s live ctx (_ & _ & _ & _ & ?). done. Qed.
Next Obligation. intros img s live ph m' H E. by apply rr_inv_frame. Qed.
Next Obligation. intros img s live ph t' H E. apply rr_inv_frame; [done|by apply same_sched_lookup]. Qed.
Next Obligation. intros img s live ctx t' H. apply rr_inv_frame; [done|by apply same_sched_lookup]. Qed.
Next Obligation.
  intros img s live ctx m' (Hnd & Hid & (l & Hl & Hne & Hring) & Hph) E.
  do 2 (split; [done|]). split; [|done]. exists l. split; [done|]. split; [done|].
  by eapply redated_same_next.
Qed.
Next Obligation.
  intros img s Himg Hal _. destruct (rr_scheduler_init_ok img s Himg Hal)
    as (s' & E & Hinv & _ & _ & Ht & Heq & Hfr).
  exists s'. do 3 (split; [done|]). split; [|auto].
  intros p. by apply mem_eq_next_non_sched.
Qed.
Next Obligation.
  intros img s live ctx _ (Hnd & Hid & Hr & Hcur & Hc). exists s. split; [done|].
  split; [|auto with sched]. split; [done|]. split; [done|]. split; [done|]. by exists ctx.
Qed.
Next Obligation. intros img s live ctx t _ Hinv. exists s. auto with sched. Qed.
Next Obligation. intros img s live t _ (_ & _ & _ & []). Qed.
Next Obligation. intros img s live ctx _ Hinv. exists ctx, s. auto with sched. Qed.
Next Obligation.
  intros img s live _ Hinv. destruct (rr_choose_next_ok img s live Hinv) as (p & s' & ? & ? & ?).
  exists p, s'. auto.
Qed.
Next Obligation. intros img s live ctx new _ Hinv Hn Hi _ Hs E. by apply rr_duplicate_ok. Qed.
