(* ===== verification/Policies.v ===== *)
(** * Scheduling policies: what the schedulers decide

    A scheduler, seen from the kernel, is a policy: which contexts are ready,
    which one runs next, when the alarm rings.  [Policy] states the effect of
    each function of scheduler.h on abstract data, as relations because a policy
    does not say which of several contexts of equal rank is served first.  The
    data of the priority policies are two sets, those of the round-robin policy
    a list.  [Refines] says that a scheduler follows a policy; it is discharged
    by priority_scheduler.c over any queue and by round_robin_scheduler.c. *)

From stdpp Require Import options.
From S2P Require Import Prelude Contexts PQueue ListQueue Timer Scheduler.
From S2P Require Import PriorityScheduler RoundRobin.

(** ** Contexts without links *)

(** The contexts as a policy sees them. *)
Definition erase (m : mem) : mem := strip_next <$> m.

Lemma erase_lookup m p : erase m !! p = strip_next <$> m !! p.
Proof. apply lookup_fmap. Qed.

Lemma erase_eq m m' : m ≈ₙ m' <-> erase m = erase m'.
Proof.
  split; intros E.
  - apply map_eq. intros p. rewrite !erase_lookup. apply E.
  - intros p. by rewrite <-!erase_lookup, E.
Qed.

Lemma erase_eq_next m : erase m ≈ₙ m.
Proof. intros p. rewrite erase_lookup. by destruct (m !! p). Qed.

Lemma erase_insert m p c : erase (<[p := c]> m) = <[p := strip_next c]> (erase m).
Proof. apply fmap_insert. Qed.

(** ** The interface *)

Class Policy (D : Type) := {
  (** The contexts and the data at boot, for the contexts that were there. *)
  pol_init : user_tasks_image -> mem -> mem -> D -> Prop;
  (** The context, which runs, waits for its wakeup date; the alarm before and
      after. *)
  pol_wait : mem -> cptr -> D -> Z -> D -> Z -> Prop;
  (** The contexts due at this date are woken. *)
  pol_wake : mem -> Z -> D -> D -> Prop;
  (** Whether to go on with the running context. *)
  pol_preempt : mem -> cptr -> D -> cptr -> D -> Prop;
  (** What to run when no context runs; the first argument is the idle context. *)
  pol_choose : cptr -> mem -> D -> cptr -> D -> Prop;
  (** A copy of the running context is created. *)
  pol_fork : cptr -> cptr -> D -> D -> Prop
}.

(** ** Priorities and deadlines *)

Record pdata (fp : bool) := PData { p_ready : gset cptr; p_waiting : gset cptr }.
Arguments PData {fp} p_ready p_waiting.
Arguments p_ready {fp} p.
Arguments p_waiting {fp} p.

Section Priorities.
Context (fp : bool).
Implicit Types (m : mem) (d : pdata fp) (R : gset cptr).

(** [p] is in [R] and nothing in [R] has precedence over it. *)
Definition best m (p : cptr) R : Prop :=
  p ∈ R /\ forall q, q ∈ R -> outranks (ready_pf fp) m q p = false.

(** [t] is the earliest wakeup date of [R]. *)
Definition earliest m R (t : Z) : Prop :=
  (exists q, q ∈ R /\ wakeup_of m q = t) /\ forall q, q ∈ R -> t <= wakeup_of m q.

Definition pp_init (img : user_tasks_image) m m' d : Prop :=
  m' = erase (with_priorities fp (tasks img)
                (if fp then alter (set_priority 0) (context_idle img) m else m)) /\
  d = PData (list_to_set (t_context <$> tasks img)) ∅ /\
  forall t, t ∈ tasks img -> fp = true ->
    prio_of (ready_pf true) m' (t_context t) = t_priority t.

Definition pp_wait m (ctx : cptr) d (alarm : Z) d' (alarm' : Z) : Prop :=
  d' = PData (p_ready d) ({[ctx]} ∪ p_waiting d) /\ earliest m (p_waiting d') alarm'.

Definition pp_wake m (t : Z) d d' : Prop :=
  d' = PData (filter (fun p => wakeup_of m p <= t) (p_waiting d) ∪ p_ready d)
             (filter (fun p => ~ wakeup_of m p <= t) (p_waiting d)).

Definition pp_preempt m (ctx : cptr) d (p : cptr) d' : Prop :=
  let candidates := {[ctx]} ∪ p_ready d in
  best m p candidates /\ (p = ctx \/ outranks (ready_pf fp) m p ctx = true) /\
  d' = PData (candidates ∖ {[p]}) (p_waiting d).

Definition pp_choose (idle : cptr) m d (p : cptr) d' : Prop :=
  if decide (p_ready d = ∅) then p = idle /\ d' = d
  else best m p (p_ready d) /\ d' = PData (p_ready d ∖ {[p]}) (p_waiting d).

#[global] Instance priority_policy : Policy (pdata fp) := {
  pol_init := pp_init;
  pol_wait := pp_wait;
  pol_wake := pp_wake;
  pol_preempt := pp_preempt;
  pol_choose := pp_choose;
  pol_fork _ new d d' := d' = PData ({[new]} ∪ p_ready d) (p_waiting d)
}.
End Priorities.

(** ** Round robin *)

(** The contexts in the order of their turns, the running one first. *)
#[global] Instance round_robin_policy : Policy (list cptr) := {
  pol_init img m m' l := m' = m /\ l = t_context <$> tasks img;
  pol_wait _ _ l alarm l' alarm' := l' = l /\ alarm' = alarm;
  pol_wake _ _ l l' := l' = l;
  pol_preempt _ ctx l p l' := p = ctx /\ l' = l;
  pol_choose _ _ l p l' := exists c k, l = c :: k /\ l' = k ++ [c] /\ head l' = Some p;
  pol_fork ctx new l l' := exists k, l = ctx :: k /\ l' = ctx :: new :: k
}.

(** ** Refinement *)

Abbreviation alarm_of s := (next_wake_date (s_timer s)).

(** [rep img s live ph d]: the scheduler's variables represent [d]. *)
Class Refines (St D : Type) `{SchedulerSpec St} `{!Policy D} := {
  rep : user_tasks_image -> sstate St -> list cptr -> phase -> D -> Prop;
  rep_inv img s live ph d : rep img s live ph d -> sched_inv img s live ph;
  rep_mem img s live ph d m' :
    rep img s live ph d -> same_sched (s_mem s) m' live -> rep img (with_mem m' s) live ph d;
  rep_clock img s live ph d t' :
    rep img s live ph d -> next_wake_date t' = alarm_of s -> rep img (with_timer t' s) live ph d;
  rep_alarm img s live ctx d t' :
    rep img s live (Running ctx) d -> rep img (with_timer t' s) live (Running ctx) d;
  rep_redate img s live ctx d m' :
    rep img s live (Running ctx) d -> redated (s_mem s) ctx m' ->
    rep img (with_mem m' s) live (Woken ctx) d;
  init_refines img s s' :
    image_ok img -> (forall p, p ∈ t_context <$> tasks img -> is_Some (s_mem s !! p)) ->
    is_Some (s_mem s !! context_idle img) -> scheduler_init img s = Ok s' ->
    exists d, pol_init img (erase (s_mem s)) (erase (s_mem s')) d /\
      rep img s' (t_context <$> tasks img) Choosing d;
  wait_refines img s s' live ctx d :
    image_ok img -> rep img s live (Woken ctx) d -> sched_set_waiting img ctx s = Ok s' ->
    exists d', pol_wait (erase (s_mem s)) ctx d (alarm_of s) d' (alarm_of s') /\
      rep img s' live Choosing d';
  wake_running_refines img s s' live ctx t d :
    image_ok img -> rep img s live (Running ctx) d -> sched_wake_tasks img t s = Ok s' ->
    exists d', pol_wake (erase (s_mem s)) t d d' /\ rep img s' live (Woken ctx) d' /\
      alarm_of s' = alarm_of s;
  wake_idle_refines img s s' live t d :
    image_ok img -> rep img s live Idling d -> alarm_of s <= t ->
    sched_wake_tasks img t (with_timer (timer_dont_wake (s_timer s)) s) = Ok s' ->
    exists d', pol_wake (erase (s_mem s)) t d d' /\ rep img s' live Choosing d' /\
      alarm_of s' = DATE_FAR_AWAY;
  preempt_refines img s s' live ctx p d :
    image_ok img -> rep img s live (Woken ctx) d -> sched_maybe_preempt img ctx s = Ok (p, s') ->
    exists d', pol_preempt (erase (s_mem s)) ctx d p d' /\ rep img s' live (Running p) d' /\
      alarm_of s' = alarm_of s;
  choose_refines img s s' live p d :
    image_ok img -> rep img s live Choosing d -> sched_choose_next img s = Ok (p, s') ->
    exists d', pol_choose (context_idle img) (erase (s_mem s)) d p d' /\
      (p = context_idle img /\ rep img s' live Idling d' \/ rep img s' live (Running p) d') /\
      alarm_of s' = alarm_of s;
  fork_refines img s s' live ctx new d :
    image_ok img -> rep img s live (Running ctx) d -> new ∉ live -> new <> context_idle img ->
    Z.of_nat (length live) < nb_contexts img -> is_Some (s_mem s !! new) ->
    sched <$> s_mem s !! new = sched <$> s_mem s !! ctx ->
    sched_insert_duplicated_context img ctx new s = Ok s' ->
    exists d', pol_fork ctx new d d' /\ rep img s' (new :: live) (Running ctx) d' /\
      s_timer s' = s_timer s
}.

(** ** The priority schedulers *)

Section PriorityRefines.
Context {fp : bool} {Q : Type} `{!PQueue waiting_pf Q} `{!PQueue (ready_pf fp) Q}.
Context `{!PQueueSpec waiting_pf Q} `{!PQueueSpec (ready_pf fp) Q}.
Local Abbreviation state := (sstate (priority_sched fp Q)).
Implicit Types (img : user_tasks_image) (s : state) (d : pdata fp).

Definition ps_rep img s (live : list cptr) (ph : phase) d : Prop :=
  ps_at img s live ph (elements (p_ready d)) (elements (p_waiting d)).

Lemma phase_inv_perm m t live lr lw lr' lw' ph :
  lr ≡ₚ lr' -> lw ≡ₚ lw' ->
  phase_inv (fp := fp) m t live lr lw ph -> phase_inv (fp := fp) m t live lr' lw' ph.
Proof using.
  intros Er Ew. destruct ph; cbn.
  - by rewrite Er, Ew.
  - intros (-> & Hl & Ha). split; [by symmetry; apply Permutation_nil_l|].
    split; [by rewrite Hl|by eapply armed_perm].
  - by rewrite Er, Ew.
  - intros [Hl Ha]. split; [by rewrite Hl, Er, Ew|]. destruct Ha as [Hne|Ha].
    + left. intros ->. by apply Hne, Permutation_nil_r.
    + right. by eapply armed_perm.
Qed.

(** The sets of the contents of the queues. *)
Lemma ps_at_rep img s live ph lr lw (R W : gset cptr) :
  ps_at img s live ph lr lw -> (forall p, p ∈ R <-> p ∈ lr) -> (forall p, p ∈ W <-> p ∈ lw) ->
  ps_rep img s live ph (PData R W).
Proof using.
  intros (Hinv & Hq & Hph) HR HW. pose proof (q_disjoint _ _ _ _ _ Hq) as (Hr & _ & Hw)%NoDup_app.
  assert (lr ≡ₚ elements R) as Er
    by (apply NoDup_Permutation; [done|apply NoDup_elements|]; intros p; by rewrite elem_of_elements, HR).
  assert (lw ≡ₚ elements W) as Ew
    by (apply NoDup_Permutation; [done|apply NoDup_elements|]; intros p; by rewrite elem_of_elements, HW).
  split; [done|]. split; [by eapply queues_perm|by eapply phase_inv_perm].
Qed.

Lemma wakeup_of_erase m p : wakeup_of (erase m) p = wakeup_of m p.
Proof using. apply wakeup_of_eq_next, erase_eq_next. Qed.

Lemma outranks_erase m p q : outranks (ready_pf fp) (erase m) p q = outranks (ready_pf fp) m p q.
Proof using. by rewrite (erase_eq_next m). Qed.

(** The first of a queue is the best of its set. *)
Lemma top_best m p l R :
  top_of (ready_pf fp) m p l -> (forall q, q ∈ R <-> q = p \/ q ∈ l) -> best fp (erase m) p R.
Proof using.
  intros Htop HR. split; [apply HR; by left|]. intros q Hq. rewrite outranks_erase.
  apply HR in Hq as [->|Hq]; [apply (served_before_refl m p)|].
  by apply (proj1 (Forall_forall _ _) Htop).
Qed.

Lemma ps_wait_refines img s s' live ctx d :
  image_ok img -> ps_rep img s live (Woken ctx) d -> ps_set_waiting fp img ctx s = Ok s' ->
  exists d', pp_wait fp (erase (s_mem s)) ctx d (alarm_of s) d' (alarm_of s') /\
    ps_rep img s' live Choosing d'.
Proof using.
  intros [] Hs E. destruct (ps_set_waiting_at _ _ _ _ _ _ ltac:(done) Hs)
    as (s1 & E' & Hs' & Harm & (Heq & _)). rewrite E in E'. injection E' as <-.
  eexists. split; [split; [done|]|eapply ps_at_rep; [exact Hs'|set_solver..]].
  destruct Harm as [|(q & Hq & Ha & Htop)]; [done|]. cbn [p_waiting]. split.
  - exists q. split; [set_solver|]. by rewrite wakeup_of_erase, Ha, (wakeup_of_eq_next _ _ _ Heq).
  - intros q' Hq'. rewrite Ha, wakeup_of_erase, <-(wakeup_of_eq_next _ _ _ Heq).
    apply (top_waiting_le _ _ _ _ Htop). set_solver.
Qed.

Lemma woken_refines m t d lr' lw' :
  woken m t (elements (p_ready d)) (elements (p_waiting d)) lr' lw' ->
  (forall p, p ∈ filter (fun p => wakeup_of (erase m) p <= t) (p_waiting d) ∪ p_ready d <-> p ∈ lr') /\
  (forall p, p ∈ filter (fun p => ~ wakeup_of (erase m) p <= t) (p_waiting d) <-> p ∈ lw').
Proof using.
  intros [Er Ew]. split; intros p.
  - rewrite Er, elem_of_union, elem_of_filter, elem_of_app, list_elem_of_filter, !elem_of_elements.
    by rewrite wakeup_of_erase.
  - rewrite Ew, elem_of_filter, list_elem_of_filter, !elem_of_elements. by rewrite wakeup_of_erase.
Qed.

Lemma ps_preempt_refines img s s' live ctx p d :
  image_ok img -> ps_rep img s live (Woken ctx) d -> ps_maybe_preempt fp img ctx s = Ok (p, s') ->
  exists d', pp_preempt fp (erase (s_mem s)) ctx d p d' /\ ps_rep img s' live (Running p) d' /\
    alarm_of s' = alarm_of s.
Proof using.
  intros [] Hs E. destruct (ps_maybe_preempt_at _ _ _ _ _ _ ltac:(done) Hs)
    as (p1 & lr' & s1 & E' & Hs' & Hp & Hbest & Ht & (Heq & _)). rewrite E in E'. injection E' as <- <-.
  pose proof Hs' as (Hinv & Hq & Hlive & Htop). rewrite Heq in Htop.
  assert (forall q, q ∈ {[ctx]} ∪ p_ready d <-> q ∈ p :: lr') as Hset.
  { intros q. rewrite <-Hp. set_solver. }
  assert (p ∉ lr') as Hnp.
  { destruct Hinv as (Hnd & _). rewrite Hlive in Hnd. apply NoDup_cons in Hnd as [? _]. set_solver. }
  eexists. split; [split; [|split]; [|by rewrite outranks_erase|done]|split; [|by rewrite Ht]].
  - apply top_best with lr'; [done|]. intros q. by rewrite Hset, elem_of_cons.
  - eapply ps_at_rep; [done|..|set_solver].
    intros q. rewrite elem_of_difference, Hset, elem_of_cons. set_solver.
Qed.

Lemma ps_choose_refines img s s' live p d :
  image_ok img -> ps_rep img s live Choosing d -> ps_choose_next fp img s = Ok (p, s') ->
  exists d', pp_choose fp (context_idle img) (erase (s_mem s)) d p d' /\
    (p = context_idle img /\ ps_rep img s' live Idling d' \/ ps_rep img s' live (Running p) d') /\
    alarm_of s' = alarm_of s.
Proof using.
  intros [] Hs E. destruct (ps_choose_next_at _ _ _ _ _ ltac:(done) Hs)
    as (p1 & s1 & E' & Hcase & Ht & (Heq & _)). rewrite E in E'. injection E' as <- <-.
  unfold pp_choose. destruct Hcase as [(Hnil & -> & Hs')|(lr' & Hp & Hs')].
  - apply elements_empty_inv, leibniz_equiv in Hnil. exists d. rewrite decide_True by done. rewrite Ht. auto.
  - assert (forall q, q ∈ p_ready d <-> q ∈ p :: lr') as Hset.
    { intros q. rewrite <-Hp. set_solver. }
    exists (PData (p_ready d ∖ {[p]}) (p_waiting d)). rewrite decide_False.
    2:{ intros Hnil. specialize (Hset p). rewrite Hnil in Hset. set_solver. }
    pose proof Hs' as (Hinv & Hq & Hlive & Htop). rewrite Heq in Htop.
    assert (p ∉ lr') as Hnp.
    { destruct Hinv as (Hnd & _). rewrite Hlive in Hnd. apply NoDup_cons in Hnd as [? _]. set_solver. }
    split; [split; [|done]|split; [|by rewrite Ht]].
    + apply top_best with lr'; [done|]. intros q. by rewrite Hset, elem_of_cons.
    + right. eapply ps_at_rep; [done|..|set_solver].
      intros q. rewrite elem_of_difference, Hset, elem_of_cons. set_solver.
Qed.
End PriorityRefines.

#[global] Program Instance priority_refines (fp : bool) (Q : Type)
    `{!PQueue waiting_pf Q} `{!PQueue (ready_pf fp) Q}
    `{!PQueueSpec waiting_pf Q} `{!PQueueSpec (ready_pf fp) Q} :
    Refines (priority_sched fp Q) (pdata fp) := {
  rep := ps_rep
}.
Next Obligation. by intros fp Q ???? img s live ph d []. Qed.
Next Obligation. intros fp Q ???? img s live ph d m' Hs E. by apply ps_at_frame. Qed.
Next Obligation. intros fp Q ???? img s live ph d t' Hs E. by apply (ps_at_frame _ s _ _ _ _ (s_mem s)). Qed.
Next Obligation. intros fp Q ???? img s live ctx d t' Hs. by apply ps_at_alarm. Qed.
Next Obligation. intros fp Q ???? img s live ctx d m' Hs E. by apply ps_at_redate. Qed.
Next Obligation.
  intros fp Q ???? img s s' Himg Hal Hidle E.
  destruct (ps_scheduler_init_at (fp := fp) img s Himg Hal Hidle) as (s1 & E' & Hs & _ & _ & _ & Hpr & Hwp).
  pose proof (eq_trans (eq_sym E) E') as [= <-]. eexists. split.
  - split; [|split; [done|]].
    { apply erase_eq. rewrite Hwp. apply with_priorities_eq. destruct fp; [|by rewrite (erase_eq_next (s_mem s))].
      apply alter_eq_next; [apply set_priority_link_free|]. by rewrite (erase_eq_next (s_mem s)). }
    intros t Ht Hfp. by rewrite (erase_eq_next (s_mem s')), Hpr.
  - eapply ps_at_rep; [exact Hs|intros p; apply elem_of_list_to_set|set_solver].
Qed.
Next Obligation. intros fp Q ???? img s s' live ctx d. apply ps_wait_refines. Qed.
Next Obligation.
  intros fp Q ???? img s s' live ctx t d [] Hs E.
  destruct (ps_wake_running_at _ _ _ _ t _ _ ltac:(done) Hs)
    as (s1 & lr' & lw' & E' & Hs' & [Hr Hw]%woken_refines & Ht & _).
  pose proof (eq_trans (eq_sym E) E') as [= <-]. eexists. split; [done|]. rewrite Ht.
  split; [by eapply ps_at_rep|done].
Qed.
Next Obligation.
  intros fp Q ???? img s s' live t d [] Hs Hle E.
  destruct (ps_wake_idle_at _ _ _ t _ _ ltac:(done) Hs Hle)
    as (s1 & lr' & lw' & E' & Hs' & [Hr Hw]%woken_refines & Ht & _).
  pose proof (eq_trans (eq_sym E) E') as [= <-]. eexists. split; [done|]. rewrite Ht.
  split; [by eapply ps_at_rep|done].
Qed.
Next Obligation. intros fp Q ???? img s s' live ctx p d. apply ps_preempt_refines. Qed.
Next Obligation. intros fp Q ???? img s s' live p d. apply ps_choose_refines. Qed.
Next Obligation.
  intros fp Q ???? img s s' live ctx new d [] Hs Hnew Hni Hlen Hsome Hsame E.
  destruct (ps_duplicate_at _ _ _ _ new _ _ ltac:(done) Hs Hnew Hni Hlen Hsome Hsame)
    as (s1 & E' & Hs' & Ht & _). pose proof (eq_trans (eq_sym E) E') as [= <-].
  eexists. split; [done|]. rewrite Ht. split; [|done]. eapply ps_at_rep; [exact Hs'|set_solver..].
Qed.

(** ** The round-robin scheduler *)

Definition rr_rep (img : user_tasks_image) (s : rr_state) (live : list cptr) (ph : phase)
    (l : list cptr) : Prop :=
  rr_inv img s live ph /\ live ≡ₚ l /\ ring (s_mem s) l /\ current (s_sched s) = head l.

Lemma rr_rep_frame img s live ph l m' t' :
  rr_rep img s live ph l -> same_sched (s_mem s) m' live ->
  rr_rep img (SState m' (s_sched s) t') live ph l.
Proof.
  intros (Hinv & Hl & Hr & Hc) E. split; [by apply rr_inv_frame|]. split; [done|]. split; [|done].
  eapply ring_frame; [done|]. eapply same_sched_subset; [|exact E]. intros p. by rewrite Hl.
Qed.

(** The running context is first in the list. *)
Lemma rr_rep_running img s live ctx l :
  rr_rep img s live (Running ctx) l -> exists k, l = ctx :: k.
Proof.
  intros ((_ & _ & _ & Hcur & _) & _ & _ & Hh). rewrite Hcur in Hh. destruct l; naive_solver.
Qed.

#[global] Program Instance round_robin_refines : Refines rr_sched (list cptr) := {
  rep := rr_rep
}.
Next Obligation. by intros img s live ph l []. Qed.
Next Obligation. intros img s live ph l m' Hs E. by apply rr_rep_frame. Qed.
Next Obligation. intros img s live ph l t' Hs E. by apply (rr_rep_frame _ s). Qed.
Next Obligation. intros img s live ctx l t' Hs. by apply (rr_rep_frame _ s). Qed.
Next Obligation.
  intros img s live ctx l m' (Hinv & Hl & (Hne & Hr) & Hc) E.
  split; [exact (sched_inv_redate _ _ _ _ _ Hinv E)|]. split; [done|]. split; [|done].
  split; [done|]. by eapply redated_same_next.
Qed.
Next Obligation.
  intros img s s' Himg Hal _ E. destruct (rr_scheduler_init_ok img s Himg Hal)
    as (s1 & E' & Hinv & Hr & Hc & _ & Heq & _). pose proof (eq_trans (eq_sym E) E') as [= <-].
  eexists. split; [split; [by apply erase_eq|done]|done].
Qed.
Next Obligation.
  intros img s s' live ctx l _ ((H1 & H2 & H3 & H4 & H5) & Hl & Hr & Hc) [= <-].
  exists l. split; [done|]. split; [|done]. do 3 (split; [done|]). by exists ctx.
Qed.
Next Obligation. intros img s s' live ctx t l _ Hs [= <-]. by exists l. Qed.
Next Obligation. intros img s s' live t l _ ((_ & _ & _ & []) & _). Qed.
Next Obligation. intros img s s' live ctx p l _ Hs [= <- <-]. by exists l. Qed.
Next Obligation.
  intros img [m [cur] t] s' live p l _ (Hinv & Hl & Hr & Hc) E. cbn in Hc.
  destruct (rr_choose_next_ok _ _ _ Hinv) as (p1 & s1 & E1 & Hinv' & _).
  cbn [sched_choose_next rr_scheduler] in E. rewrite E in E1. injection E1 as <- <-.
  destruct l as [|c l]; [by destruct Hr|]. cbn in Hc, Hr. subst cur.
  destruct (rr_choose_next_ring img m t c l Hr) as (p1 & E1 & Hh). rewrite E in E1. injection E1 as <- ->.
  exists (l ++ [c]). split; [by exists c, l|]. split; [|done]. right. split; [done|].
  split; [by rewrite Hl, Permutation_cons_append|]. split; [by apply ring_shift|done].
Qed.
Next Obligation.
  intros img s s' live ctx new l _ Hs Hnew Hni _ Hsome Hsame E.
  destruct (rr_rep_running _ _ _ _ _ Hs) as [k ->]. destruct Hs as (Hinv & Hl & Hr & Hc).
  destruct (rr_duplicate_ok _ _ _ _ _ Hinv Hnew Hni Hsome Hsame) as (s1 & E1 & Hinv' & _).
  pose proof (eq_trans (eq_sym E) E1) as [= <-]. pose proof Hinv as (Hnd & _).
  destruct (rr_duplicate_ring img s ctx new k Hr) as (s1 & E2 & Hr' & Es & Et & _);
    [by rewrite <-Hl|by rewrite <-Hl|done..|]. pose proof (eq_trans (eq_sym E) E2) as [= <-].
  exists (ctx :: new :: k). split; [by exists k|]. rewrite Et. split; [|done]. split; [done|].
  split; [rewrite Hl; apply Permutation_swap|]. by rewrite Es.
Qed.
