(* ===== verification/Fprint.v ===== *)
(** * Formatted output (lib/fprint.c)

    vfprint prints through a character callback and converts numbers in a
    22-byte buffer.  Buffers are lists of [option Z]: a byte that was never
    written is [None], and testing it is undefined.  [long] has 32 bits.  A
    [va_list] is the list of stack slots that va_arg reads: a word, or the
    string a pointer designates. *)

From stdpp Require Import options.
From S2P Require Import Prelude.

(** ** Buffers and characters *)

Abbreviation buffer := (list (option Z)).

(** [char buf[22]], not initialised. *)
Definition new_buffer : buffer := replicate 22 None.

Definition buf_set (b : buffer) (i : Z) (v : option Z) : res buffer :=
  if (0 <=? i) && (i <? Z.of_nat (length b)) then Ok (<[Z.to_nat i := v]> b)
  else Err (Undef OutOfBounds).

Definition buf_get (b : buffer) (i : Z) : res (option Z) :=
  if 0 <=? i then
    match b !! Z.to_nat i with Some v => Ok v | None => Err (Undef OutOfBounds) end
  else Err (Undef OutOfBounds).

(** The bytes of a C string of the source. *)
Definition chars (s : string) : list Z :=
  (fun a => Z.of_N (Ascii.N_of_ascii a)) <$> String.list_ascii_of_string s.

(** The characters of the conversions. *)
Definition ch_0 : Z := 48.
Definition ch_A : Z := 65.
Definition ch_minus : Z := 45.
Definition ch_percent : Z := 37.

(** ** Number conversions *)

(** The [while(number>0)] loop of itoa and lltoa. *)
Fixpoint digit_loop (fuel : nat) (number pos : Z) (lbuf : buffer) : res (Z * buffer) :=
  if 0 <? number then
    match fuel with
    | O => Err NoFuel
    | S fuel =>
        let div := number / 10 in
        let* lbuf1 := buf_set lbuf pos (Some (ch_0 + u8 (number - div * 10))) in
        digit_loop fuel div (pos + 1) lbuf1
    end
  else Ok (pos, lbuf).

(** [for(i=0;i<pos;i++) aout[i]=lbuf[pos-i-1];] with [n] iterations left. *)
Fixpoint reverse_loop (n : nat) (i pos : Z) (lbuf aout : buffer) : res buffer :=
  match n with
  | O => Ok aout
  | S n =>
      let* c := buf_get lbuf (pos - i - 1) in
      let* aout1 := buf_set aout i c in
      reverse_loop n (i + 1) pos lbuf aout1
  end.

(** A number of at most 64 bits has at most 20 digits. *)
Definition digit_fuel : nat := 20.

Definition itoa (number : Z) (aout : buffer) : res buffer :=
  let* (number, pos, aout) :=
    if number <? 0 then
      let* aout1 := buf_set aout 0 (Some ch_minus) in
      if number =? - 2 ^ 31 then Err (Undef SignedOverflow)
      else Ok (- number, 1, aout1)
    else Ok (number, 0, aout) in
  let* (pos, lbuf) :=
    if number =? 0 then
      let* b := buf_set new_buffer 0 (Some ch_0) in Ok (pos + 1, b)
    else Ok (pos, new_buffer) in
  let* (pos, lbuf) := digit_loop digit_fuel number pos lbuf in
  let* aout := reverse_loop (Z.to_nat pos) 0 pos lbuf aout in
  buf_set aout pos (Some 0).

Definition lltoa (number : Z) (aout : buffer) : res buffer :=
  let* (pos, lbuf) :=
    if number =? 0 then
      let* b := buf_set new_buffer 0 (Some ch_0) in Ok (1, b)
    else Ok (0, new_buffer) in
  let* (pos, lbuf) := digit_loop digit_fuel number pos lbuf in
  let* aout := reverse_loop (Z.to_nat pos) 0 pos lbuf aout in
  buf_set aout pos (Some 0).

(** [while((number>>i)>15) i+=4;] *)
Fixpoint itox_width (fuel : nat) (number i : Z) : res Z :=
  if 15 <? Z.shiftr number i then
    match fuel with O => Err NoFuel | S fuel => itox_width fuel number (i + 4) end
  else Ok i.

(** [(digit>9)?'A'+(digit-10):'0'+digit], stored in a char. *)
Definition hex_char (digit : Z) : Z :=
  u8 (if 9 <? digit then ch_A + (digit - 10) else ch_0 + digit).

(** [while(i>=0) ...], where [number&=~(15<<i)]. *)
Fixpoint itox_loop (fuel : nat) (number i pos : Z) (xout : buffer) : res (Z * buffer) :=
  if 0 <=? i then
    match fuel with
    | O => Err NoFuel
    | S fuel =>
        let digit := Z.shiftr number i in
        let* xout1 := buf_set xout pos (Some (hex_char digit)) in
        itox_loop fuel (Z.land number (u32 (Z.lnot (Z.shiftl 15 i)))) (i - 4) (pos + 1) xout1
    end
  else Ok (pos, xout).

Definition itox (number : Z) (xout : buffer) : res buffer :=
  let* i := itox_width 8 number 0 in
  let* (pos, xout) := itox_loop 9 number i 0 xout in
  buf_set xout pos (Some 0).

(** ** vfprint *)

Inductive slot := SWord (w : Z) | SStr (s : list Z).

(** The signed value of a 32-bit word. *)
Definition signed32 (w : Z) : Z := if w <? 2 ^ 31 then w else w - 2 ^ 32.

(** va_arg at type int, unsigned long, char* and unsigned long long. *)
Definition va_word (ap : list slot) : res (Z * list slot) :=
  match ap with SWord w :: ap => Ok (w, ap) | _ => Err (Undef OutOfBounds) end.
Definition va_int (ap : list slot) : res (Z * list slot) :=
  let* (w, ap) := va_word ap in Ok (signed32 w, ap).
Definition va_string (ap : list slot) : res (list Z * list slot) :=
  match ap with SStr s :: ap => Ok (s, ap) | _ => Err (Undef OutOfBounds) end.
Definition va_ull (ap : list slot) : res (Z * list slot) :=
  let* (lo, ap) := va_word ap in
  let* (hi, ap) := va_word ap in
  Ok (lo + 2 ^ 32 * hi, ap).

(** [format[i]]: the string is terminated by a zero byte. *)
Definition char_at (format : list Z) (i : nat) : res Z :=
  match format !! i with
  | Some c => Ok c
  | None => if (i =? length format)%nat then Ok 0 else Err (Undef OutOfBounds)
  end.

Section Vfprint.
Context {S : Type} (putchar : Z -> S -> res S).

(** The loop that prints a string up to its zero byte. *)
Fixpoint put_chars (l : list Z) (s : S) : res S :=
  match l with
  | [] => Ok s
  | c :: l => let* s1 := putchar c s in put_chars l s1
  end.

(** [for(int j=0;buf[j]!=0;j++) putchar(buf[j]);] *)
Fixpoint put_buffer (fuel : nat) (b : buffer) (j : Z) (s : S) : res S :=
  match fuel with
  | O => Err NoFuel
  | Datatypes.S fuel =>
      let* c := buf_get b j in
      match c with
      | None => Err (Undef UninitRead)
      | Some c =>
          if c =? 0 then Ok s
          else let* s1 := putchar c s in put_buffer fuel b (j + 1) s1
      end
  end.

(** The test of [buf[j]] fails at the end of the buffer at the latest. *)
Definition put_buf (b : buffer) (s : S) : res S :=
  put_buffer (Datatypes.S (length b)) b 0 s.

(** One conversion, with [i] on the character after the percent sign: the
    index of its last character, the remaining arguments and the state.  The
    character tests are those of the source, in its order. *)
Definition conversion (format : list Z) (i : nat) (ap : list slot) (s : S)
    : res (nat * list slot * S) :=
  let* c := char_at format i in
  if (c =? 105) || (c =? 100) then                 (* i d *)
    let* (d, ap) := va_int ap in
    let* b := itoa d new_buffer in
    let* s1 := put_buf b s in Ok (i, ap, s1)
  else if c =? 120 then                            (* x *)
    let* (d, ap) := va_word ap in
    let* b := itox d new_buffer in
    let* s1 := put_buf b s in Ok (i, ap, s1)
  else if c =? 115 then                            (* s *)
    let* (str, ap) := va_string ap in
    let* s1 := put_chars str s in Ok (i, ap, s1)
  else
    let* ll := if c =? 108 then                    (* l *)
                 let* c1 := char_at format (i + 1) in
                 if c1 =? 108 then char_at format (i + 2) else Ok 0
               else Ok 0 in
    if ll =? 120 then                              (* llx *)
      let* (stk, ap) := va_ull ap in
      let* b := itox (Z.shiftr stk 32) new_buffer in
      let* s1 := put_buf b s in
      let* b2 := itox (Z.land stk 0xFFFFFFFF) b in
      let* s2 := put_buf b2 s1 in Ok ((i + 2)%nat, ap, s2)
    else if ll =? 117 then                         (* llu *)
      let* (stk, ap) := va_ull ap in
      let* b := lltoa stk new_buffer in
      let* s1 := put_buf b s in Ok ((i + 2)%nat, ap, s1)
    else if c =? ch_percent then
      let* s1 := putchar ch_percent s in Ok (i, ap, s1)
    else
      let* s1 := put_chars (chars "<unsupported conversion: `") s in
      let* s2 := putchar c s1 in
      let* s3 := putchar 39 s2 in
      let* s4 := putchar 62 s3 in Ok (i, ap, s4).

(** The [for] loop of vfprint; each iteration consumes a character. *)
Fixpoint vfprint_loop (fuel : nat) (format : list Z) (i : nat) (ap : list slot) (s : S)
    : res S :=
  match fuel with
  | O => Err NoFuel
  | Datatypes.S fuel =>
      let* c := char_at format i in
      if c =? 0 then Ok s
      else if negb (c =? ch_percent) then
        let* s1 := putchar c s in vfprint_loop fuel format (i + 1) ap s1
      else
        let* (i1, ap1, s1) := conversion format (i + 1) ap s in
        vfprint_loop fuel format (i1 + 1) ap1 s1
  end.

(** vfprint and fprint. *)
Definition vfprint (format : list Z) (ap : list slot) (s : S) : res S :=
  vfprint_loop (Datatypes.S (length format)) format 0 ap s.
End Vfprint.

(** The callback that records what is printed, newest first. *)
Definition record_char (c : Z) (out : list Z) : res (list Z) := Ok (c :: out).

(** The characters vfprint sends to its callback, in order. *)
Definition fprint_output (format : list Z) (ap : list slot) : res (list Z) :=
  let* out := vfprint record_char format ap [] in Ok (reverse out).

(** ** Values of printed numbers *)

Definition digits_value (base : Z) (ds : list Z) : Z :=
  fold_left (fun a d => base * a + d) ds 0.

(** The digit a character stands for, or -1. *)
Definition char_digit (c : Z) : Z :=
  if (48 <=? c) && (c <=? 57) then c - 48
  else if (65 <=? c) && (c <=? 70) then c - 55
  else -1.

(** [l] is a numeral of value [n] in [base], without leading zeros. *)
Definition numeral (base n : Z) (l : list Z) : Prop :=
  Forall (fun c => 0 <= char_digit c < base) l /\
  digits_value base (char_digit <$> l) = n /\
  l <> [] /\ (head l = Some 48 -> l = [48]).

(** The NUL-terminated string [l] is at the start of the buffer. *)
Definition holds_string (b : buffer) (l : list Z) : Prop :=
  exists rest, b = (Some <$> l) ++ Some 0 :: rest /\ Forall (fun c => c <> 0) l.

(** ** Buffers *)

Lemma insert_app_r_0 {A} (pre l : list A) v :
  <[length pre := v]> (pre ++ l) = pre ++ <[0%nat := v]> l.
Proof. by rewrite <-(insert_app_r pre l 0 v), Nat.add_0_r. Qed.

Lemma buf_set_app pre x rest v :
  buf_set (pre ++ x :: rest) (Z.of_nat (length pre)) v = Ok (pre ++ v :: rest).
Proof.
  unfold buf_set. rewrite length_app. cbn [length]. zbool. cbn [andb].
  rewrite Nat2Z.id. f_equal. apply (insert_app_r_0 pre (x :: rest) v).
Qed.

Lemma buf_get_app pre x rest :
  buf_get (pre ++ x :: rest) (Z.of_nat (length pre)) = Ok x.
Proof. unfold buf_get. zbool. by rewrite Nat2Z.id, list_lookup_middle by done. Qed.

Lemma digits_value_app b l d :
  digits_value b (l ++ [d]) = b * digits_value b l + d.
Proof. unfold digits_value. by rewrite fold_left_app. Qed.

Lemma digits_value_cons b d l :
  digits_value b (d :: l) = d * b ^ Z.of_nat (length l) + digits_value b l.
Proof.
  induction l as [|x l IH] using rev_ind; [cbn; lia|].
  rewrite app_comm_cons, !digits_value_app, IH, length_app. cbn [length].
  rewrite Nat.add_1_r, Nat2Z.inj_succ, Z.pow_succ_r by lia. lia.
Qed.

(** ** Decimal conversion *)

(** The loop stores the digits of [n], least significant first. *)
Lemma digit_loop_ok fuel n pre rest :
  0 <= n < 10 ^ Z.of_nat fuel -> (fuel <= length rest)%nat ->
  exists ds rest',
    digit_loop fuel n (Z.of_nat (length pre)) (pre ++ rest)
      = Ok (Z.of_nat (length (pre ++ rest) - length rest'), pre ++ (Some <$> ds) ++ rest') /\
    length rest = (length ds + length rest')%nat /\ (length ds <= fuel)%nat /\
    Forall (fun c => 48 <= c <= 57) ds /\
    digits_value 10 (char_digit <$> reverse ds) = n /\
    (n = 0 -> ds = []) /\ (n <> 0 -> ds <> [] /\ last ds <> Some 48).
Proof.
  revert n pre rest. induction fuel as [|fuel IH]; intros n pre rest Hn Hf.
  all: destruct (Z.ltb_spec 0 n) as [Hpos|Hz];
    [|exists [], rest; cbn [digit_loop]; rewrite (proj2 (Z.ltb_ge _ _)) by lia;
      replace n with 0 by lia; rewrite length_app; repeat split; try done; try (cbn; lia);
      do 2 f_equal; lia].
  { cbn in Hn. lia. }
  destruct rest as [|r0 rest]; [cbn in Hf; lia|].
  cbn [digit_loop]. rewrite (proj2 (Z.ltb_lt _ _)) by lia. rewrite buf_set_app. cbn [rbind].
  assert (Hmod : n - n / 10 * 10 = n mod 10) by dlia.
  pose proof (Z.mod_pos_bound n 10 ltac:(lia)) as Hm.
  rewrite Hmod, wrap_small by (unfold in_width; lia).
  set (c := ch_0 + n mod 10). assert (48 <= c <= 57) as Hc by (unfold c, ch_0; lia).
  assert (char_digit c = n mod 10) as Hcd.
  { unfold char_digit. zbool. cbn. unfold c, ch_0. lia. }
  destruct (IH (n / 10) (pre ++ [Some c]) rest) as (ds & rest' & E & Hl & Hlf & Hd & Hv & Hz & Hnz).
  { rewrite Nat2Z.inj_succ, Z.pow_succ_r in Hn by lia. dlia. }
  { cbn in Hf. lia. }
  rewrite length_app, <-app_assoc in E. cbn [length] in E.
  replace (Z.of_nat (length pre + 1)) with (Z.of_nat (length pre) + 1) in E by lia.
  exists (c :: ds), rest'. cbn [app] in E. rewrite E.
  split; [rewrite <-!app_assoc, !length_app; cbn [length app fmap list_fmap]; done|].
  split; [cbn; lia|]. split; [cbn; lia|]. split; [by constructor|]. split; [|split; [lia|]].
  - rewrite reverse_cons, fmap_app. cbn [fmap list_fmap].
    rewrite digits_value_app, Hv, Hcd. dlia.
  - intros _. split; [done|]. destruct (decide (n / 10 = 0)) as [E0|E0].
    + rewrite (Hz E0). cbn. intros [= E1]. unfold c, ch_0 in E1. dlia.
    + destruct (Hnz E0) as [Hne Hlast]. destruct ds; [done|]. exact Hlast.
Qed.

(** The copy reverses what the loop stored. *)
Lemma reverse_loop_ok a b tail rest :
  (length a <= length rest)%nat ->
  exists rest', reverse_loop (length a) (Z.of_nat (length b)) (Z.of_nat (length (a ++ b)))
      ((a ++ b) ++ tail) (reverse b ++ rest) = Ok (reverse (a ++ b) ++ rest') /\
    length rest = (length a + length rest')%nat.
Proof.
  revert b rest. induction a as [|x a IH] using rev_ind; intros b rest Hr; [by exists rest|].
  rewrite length_app in *. cbn [length] in *. rewrite Nat.add_1_r in *. cbn [reverse_loop].
  assert (buf_get (((a ++ [x]) ++ b) ++ tail)
      (Z.of_nat (length ((a ++ [x]) ++ b)) - Z.of_nat (length b) - 1) = Ok x) as ->.
  { rewrite <-!app_assoc. cbn [app]. rewrite length_app. cbn [length].
    replace (Z.of_nat (length a + S (length b)) - Z.of_nat (length b) - 1)
      with (Z.of_nat (length a)) by lia. apply buf_get_app. }
  cbn [rbind]. destruct rest as [|r rest]; [cbn in Hr; lia|].
  rewrite <-(length_reverse b), buf_set_app. cbn [rbind].
  destruct (IH (x :: b) rest) as (rest' & E & Hl); [cbn in Hr; lia|].
  exists rest'. rewrite length_reverse. rewrite <-app_assoc. cbn [app].
  replace (Z.of_nat (length b) + 1) with (Z.of_nat (length (x :: b))) by (cbn; lia).
  rewrite reverse_cons, <-(app_assoc (reverse b)), <-app_assoc in E.
  rewrite <-app_assoc. split; [exact E|cbn; lia].
Qed.

(** The two loops and the final NUL, for a positive number, when [pre] is
    already in the local buffer. *)
Lemma decimal_copy n pre rest aout :
  0 < n < 10 ^ 20 -> (20 <= length rest)%nat -> (length pre <= 1)%nat -> length aout = 22%nat ->
  exists l out,
    (let* (pos, lbuf) := digit_loop digit_fuel n (Z.of_nat (length pre)) (pre ++ rest) in
     let* aout := reverse_loop (Z.to_nat pos) 0 pos lbuf aout in
     buf_set aout pos (Some 0)) = Ok ((Some <$> l) ++ reverse pre ++ Some 0 :: out) /\
    numeral 10 n l /\ Forall (fun c => c <> 0) l /\
    (length l + length pre + S (length out) = 22)%nat.
Proof.
  intros Hn Hr Hp Ha.
  destruct (digit_loop_ok digit_fuel n pre rest) as (ds & rest' & E & Hl & Hf & Hd & Hv & _ & Hnz);
    [unfold digit_fuel; lia..|].
  rewrite E. cbn [rbind]. rewrite Nat2Z.id. unfold digit_fuel in Hf.
  destruct (reverse_loop_ok (pre ++ (Some <$> ds)) [] rest' aout) as (out & E2 & Ho);
    [rewrite length_app, length_fmap; lia|].
  rewrite app_nil_r, <-app_assoc in E2. change (Z.of_nat (length [])) with 0 in E2.
  rewrite reverse_nil in E2. cbn [app] in E2.
  replace (length (pre ++ rest) - length rest')%nat with (length (pre ++ (Some <$> ds)))
    by (rewrite !length_app, length_fmap; lia).
  rewrite E2. cbn [rbind]. rewrite length_app, length_fmap in Ho.
  destruct out as [|o out]; [cbn in Ho; lia|].
  rewrite <-(length_reverse (pre ++ _)), buf_set_app.
  destruct (Hnz ltac:(lia)) as [Hne Hlast].
  exists (reverse ds), out. rewrite reverse_app, fmap_reverse, <-app_assoc. split; [done|].
  split; [|split; [|rewrite length_reverse; cbn in Ho; lia]].
  - split; [|split; [done|split]].
    + rewrite Forall_reverse. eapply Forall_impl; [done|]. cbn. intros c Hc.
      unfold char_digit. zbool. cbn. lia.
    + intros E0. apply Hne. rewrite <-(reverse_involutive ds), E0. done.
    + rewrite head_reverse. done.
  - rewrite Forall_reverse. eapply Forall_impl; [done|]. cbn. lia.
Qed.

(** Zero. *)
Lemma lltoa_0 a0 a1 aout : lltoa 0 (a0 :: a1 :: aout) = Ok (Some 48 :: Some 0 :: aout).
Proof.
  unfold lltoa. change (0 =? 0) with true.
  change (buf_set new_buffer 0 (Some ch_0)) with (Ok (Some 48 :: replicate 21 None)).
  cbn [rbind]. assert (digit_loop digit_fuel 0 1 (Some 48 :: replicate 21 None)
    = Ok (1, Some 48 :: replicate 21 None)) as -> by done.
  cbn [rbind]. change (Z.to_nat 1) with 1%nat. cbn [reverse_loop].
  change (buf_get (Some 48 :: replicate 21 None) (1 - 0 - 1)) with (Ok (Some 48)). cbn [rbind].
  pose proof (buf_set_app [] a0 (a1 :: aout) (Some 48)) as E1.
  change (buf_set (a0 :: a1 :: aout) 0 (Some 48) = Ok (Some 48 :: a1 :: aout)) in E1.
  rewrite E1. apply (buf_set_app [Some 48] a1 aout).
Qed.

(** Decimal output: a NUL-terminated numeral, for every 64-bit number. *)
Lemma lltoa_ok n aout :
  in_width 64 n -> length aout = 22%nat ->
  exists b l, lltoa n aout = Ok b /\ holds_string b l /\ numeral 10 n l /\ length b = 22%nat.
Proof.
  intros Hn Ha. destruct (decide (n = 0)) as [->|Hnz].
  - destruct aout as [|a0 [|a1 aout]]; [done..|]. exists (Some 48 :: Some 0 :: aout), [48].
    split; [apply lltoa_0|]. split; [|split; [|done]].
    + exists aout. split; [done|]. by repeat constructor.
    + split; [|split; [done|split; [done|done]]]. constructor; [by vm_compute|constructor].
  - unfold lltoa. rewrite (proj2 (Z.eqb_neq _ _)) by done. cbn [rbind].
    destruct (decimal_copy n [] new_buffer aout) as (l & out & E & Hl & Hc & Hlen).
    { unfold in_width in Hn. split; [lia|]. transitivity (2 ^ 64); [lia|done]. }
    { unfold new_buffer. rewrite length_replicate. lia. }
    { cbn. lia. } { done. }
    eexists _, l. split; [exact E|]. split; [by exists out|]. split; [done|].
    rewrite length_app, length_fmap. cbn in *. lia.
Qed.

(** On the non-negative ints the two decimal conversions agree. *)
Lemma itoa_lltoa n aout : 0 <= n -> itoa n aout = lltoa n aout.
Proof. intros Hn. unfold itoa, lltoa. zbool. cbn [rbind]. by destruct (n =? 0). Qed.

(** ** Hexadecimal conversion *)

Lemma itox_width_ok fuel n k :
  0 <= n < 2 ^ (4 * (Z.of_nat fuel + k) + 4) -> 0 <= k ->
  (k = 0 \/ 15 < Z.shiftr n (4 * (k - 1))) ->
  exists j, itox_width fuel n (4 * k) = Ok (4 * j) /\ k <= j <= k + Z.of_nat fuel /\
    0 <= n < 2 ^ (4 * j + 4) /\ (j = 0 \/ 15 < Z.shiftr n (4 * (j - 1))).
Proof.
  revert k. induction fuel as [|fuel IH]; intros k Hn Hk Hprev; cbn [itox_width].
  all: pose proof (pow2_pos (4 * k) ltac:(lia)).
  all: rewrite Z.shiftr_div_pow2 by lia; destruct (Z.ltb_spec 15 (n / 2 ^ (4 * k))) as [Hlt|Hge].
  - exfalso. replace (4 * (Z.of_nat 0 + k) + 4) with (4 * k + 4) in Hn by lia.
    rewrite Z.pow_add_r in Hn by lia. apply Z.lt_nge in Hlt. apply Hlt.
    enough (n / 2 ^ (4 * k) < 16) by lia. apply Z.div_lt_upper_bound; lia.
  - exists k. replace (4 * (Z.of_nat 0 + k) + 4) with (4 * k + 4) in Hn by lia.
    split; [done|]. split; [lia|]. done.
  - replace (4 * k + 4) with (4 * (k + 1)) by lia.
    destruct (IH (k + 1)) as (j & E & Hj & Hb & Hp); [|lia|right|].
    + replace (Z.of_nat fuel + (k + 1)) with (Z.of_nat (S fuel) + k) by lia. done.
    + rewrite Z.shiftr_div_pow2 by lia. by replace (k + 1 - 1) with k by lia.
    + exists j. split; [done|]. split; [lia|done].
  - exists k. split; [done|]. split; [lia|]. split; [|done]. split; [lia|].
    rewrite Z.pow_add_r by lia. pose proof (Z.mul_succ_div_gt n (2 ^ (4 * k)) ltac:(lia)).
    change (2 ^ 4) with 16. nia.
Qed.

(** The digit a hexadecimal character stands for. *)
Lemma hex_char_ok d : 0 <= d < 16 ->
  char_digit (hex_char d) = d /\ 48 <= hex_char d <= 70.
Proof.
  intros Hd. unfold hex_char, char_digit, ch_A, ch_0.
  rewrite wrap_small by (unfold in_width; destruct (9 <? d); lia).
  destruct (Z.ltb_spec 9 d); split; try lia; zbool; cbn; lia.
Qed.

(** Clearing the printed digit. *)
Lemma itox_clear n i :
  0 <= i -> i + 4 <= 32 -> 0 <= n < 2 ^ (i + 4) ->
  Z.land n (u32 (Z.lnot (Z.shiftl 15 i))) = n mod 2 ^ i.
Proof.
  intros Hi Hi2 Hn. apply Z.bits_inj'. intros j Hj.
  rewrite Z.land_spec, wrap_testbit, Z.lnot_spec, Z.shiftl_spec by lia.
  destruct (Z.lt_ge_cases j i).
  - rewrite Z.mod_pow2_bits_low, (Z.testbit_neg_r 15) by lia. zbool. by rewrite andb_true_r.
  - rewrite Z.mod_pow2_bits_high by lia. destruct (Z.lt_ge_cases j (i + 4)).
    + change 15 with (Z.ones 4). rewrite Z.ones_spec_low by lia. cbn. by rewrite !andb_false_r.
    + by rewrite (testbit_high (i + 4) ltac:(lia) n j) by (unfold in_width; lia).
Qed.

(** The leading digit is a digit, and is zero only alone. *)
Lemma shiftr_digit n i : 0 <= i -> 0 <= n < 2 ^ (i + 4) -> 0 <= Z.shiftr n i < 16.
Proof.
  intros Hi Hn. rewrite Z.shiftr_div_pow2 by done. pose proof (pow2_pos i Hi).
  rewrite Z.pow_add_r in Hn by lia.
  split; [apply Z.div_pos; lia|apply Z.div_lt_upper_bound; lia].
Qed.

Lemma shiftr_top n k : 1 <= k -> 15 < Z.shiftr n (4 * (k - 1)) -> Z.shiftr n (4 * k) <> 0.
Proof.
  intros Hk Hn. replace (4 * k) with (4 * (k - 1) + 4) by lia.
  rewrite <-Z.shiftr_shiftr, (Z.shiftr_div_pow2 _ 4) by lia. dlia.
Qed.

(** The loop prints the digits of [n] from position [4 * k] down. *)
Lemma itox_loop_ok k : forall fuel n pre rest,
  0 <= n < 2 ^ (4 * Z.of_nat k + 4) -> (k < fuel)%nat -> (k < length rest)%nat -> (k < 8)%nat ->
  exists l rest',
    itox_loop fuel n (4 * Z.of_nat k) (Z.of_nat (length pre)) (pre ++ rest)
      = Ok (Z.of_nat (length pre + S k), pre ++ (Some <$> l) ++ rest') /\
    length l = S k /\ length rest = (S k + length rest')%nat /\
    Forall (fun c => 48 <= c <= 70 /\ 0 <= char_digit c < 16) l /\
    digits_value 16 (char_digit <$> l) = n /\
    head l = Some (hex_char (Z.shiftr n (4 * Z.of_nat k))).
Proof.
  induction k as [|k IH]; intros fuel n pre rest Hn Hf Hr Hk.
  all: destruct fuel as [|fuel]; [lia|]; destruct rest as [|r rest]; [cbn in Hr; lia|].
  all: cbn [itox_loop]; rewrite (proj2 (Z.leb_le _ _)) by lia; rewrite buf_set_app; cbn [rbind].
  all: match goal with |- context [Z.shiftr _ ?j] => remember j as i eqn:Hi end.
  all: assert (0 <= Z.shiftr n i < 16) as Hd by (apply shiftr_digit; lia).
  all: rewrite Z.shiftr_div_pow2 in * by lia.
  all: destruct (hex_char_ok _ Hd) as [Hc Hcr]; set (c := hex_char _) in *.
  all: rewrite itox_clear by lia.
  - exists [c], rest. replace i with 0 in * by lia. rewrite Z.div_1_r in *.
    destruct fuel; cbn [itox_loop]; rewrite (proj2 (Z.leb_gt _ _)) by lia.
    all: cbn [length app fmap list_fmap].
    all: repeat split; try done; try (do 2 f_equal; lia); try (repeat constructor; lia).
    all: cbn; lia.
  - destruct (IH fuel (n mod 2 ^ i) (pre ++ [Some c]) rest) as (l & rest' & E & Hl & Hrl & HF & Hv & _).
    { replace (4 * Z.of_nat k + 4) with i by lia. apply Z.mod_pos_bound, pow2_pos. lia. }
    { lia. } { cbn in Hr; lia. } { lia. }
    rewrite length_app, <-app_assoc in E. cbn [length app] in E.
    replace (Z.of_nat (length pre + 1)) with (Z.of_nat (length pre) + 1) in E by lia.
    replace (4 * Z.of_nat k) with (i - 4) in E by lia. rewrite E.
    exists (c :: l), rest'. rewrite <-!app_assoc. cbn [length app fmap list_fmap].
    split; [do 2 f_equal; lia|]. repeat split; try done; try (cbn in *; lia).
    + constructor; [lia|done].
    + rewrite digits_value_cons, Hv, length_fmap, Hl, Hc.
      replace (16 ^ Z.of_nat (S k)) with (2 ^ i) by (change 16 with (2 ^ 4);
        rewrite <-Z.pow_mul_r by lia; f_equal; lia).
      pose proof (Z.div_mod n (2 ^ i) ltac:(pose proof (pow2_pos i); lia)). lia.
Qed.

(** Hexadecimal output: a NUL-terminated numeral, for every 32-bit number. *)
Lemma itox_ok n xout :
  in_width 32 n -> length xout = 22%nat ->
  exists b l, itox n xout = Ok b /\ holds_string b l /\ numeral 16 n l /\ length b = 22%nat.
Proof.
  intros Hn Hx. unfold itox.
  destruct (itox_width_ok 8 n 0) as (j & E & Hj & Hb & Hp); [|lia|by left|].
  { unfold in_width in Hn. cbn. lia. }
  change (4 * 0) with 0 in E. rewrite E. cbn [rbind].
  assert (j < 8) as Hj8.
  { destruct (Z.le_gt_cases j 7); [lia|]. replace j with 8 in Hp by lia.
    rewrite Z.shiftr_div_pow2 in Hp by lia.
    unfold in_width in Hn. dlia. }
  rewrite <-(Z2Nat.id j) in Hb, Hp |- * by lia. set (k := Z.to_nat j) in *.
  destruct (itox_loop_ok k 9 n [] xout) as (l & rest & El & Hl & Hr & HF & Hv & Hh); [lia..|].
  change (Z.of_nat (length [])) with 0 in El. cbn [app] in El. rewrite El. cbn [rbind].
  destruct rest as [|r rest]; [cbn in Hr; lia|].
  cbn [length]. replace (0 + S k)%nat with (length (Some <$> l)) by (rewrite length_fmap; lia).
  rewrite buf_set_app. exists ((Some <$> l) ++ Some 0 :: rest), l. split; [done|].
  split; [|split; [|rewrite length_app, length_fmap; cbn in *; lia]].
  - exists rest. split; [done|]. eapply Forall_impl; [done|]. cbn. lia.
  - split; [eapply Forall_impl; [done|]; cbn; lia|]. split; [done|]. split; [by destruct l|].
    intros H0. rewrite Hh in H0. injection H0 as E0.
    assert (0 <= Z.shiftr n (4 * Z.of_nat k) < 16) as Hd by (apply shiftr_digit; lia).
    destruct (hex_char_ok _ Hd) as [Hc _]. rewrite E0 in Hc. change (char_digit 48) with 0 in Hc.
    destruct (decide (k = 0%nat)) as [->|Hk].
    + destruct l as [|c [|]]; [done| |done]. injection Hh as ->. by rewrite E0.
    + destruct Hp as [?|Hp]; [lia|]. apply shiftr_top in Hp; lia.
Qed.

(** ** Formats *)

(** A format string as a sequence of pieces, with the arguments they use. *)
Inductive piece :=
  | Lit (c : Z)                       (* a character other than the percent sign *)
  | Dec (n : Z) | Hex (n : Z) | Str (s : list Z)
  | Llu (n : Z) | Llx (n : Z) | Percent.

Definition piece_ok (p : piece) : Prop :=
  match p with
  | Lit c => c <> 0 /\ c <> ch_percent
  | Dec n => 0 <= n < 2 ^ 31
  | Hex n => in_width 32 n
  | Str _ | Percent => True
  | Llu n | Llx n => in_width 64 n
  end.

(** The characters of the piece after the percent sign. *)
Definition piece_conv (p : piece) : list Z :=
  match p with
  | Lit _ => [] | Dec _ => [100] | Hex _ => [120] | Str _ => [115]
  | Llu _ => [108; 108; 117] | Llx _ => [108; 108; 120] | Percent => [37]
  end.

Definition piece_format (p : piece) : list Z :=
  match p with Lit c => [c] | _ => ch_percent :: piece_conv p end.

Definition piece_args (p : piece) : list slot :=
  match p with
  | Dec n | Hex n => [SWord n]
  | Str s => [SStr s]
  | Llu n | Llx n => [SWord (n mod 2 ^ 32); SWord (n / 2 ^ 32)]
  | Lit _ | Percent => []
  end.

(** What the piece prints: the hexadecimal form of a 64-bit number is that of
    its high half followed by that of its low half, which is not padded. *)
Definition piece_text (p : piece) (l : list Z) : Prop :=
  match p with
  | Lit c => l = [c]
  | Dec n | Llu n => numeral 10 n l
  | Hex n => numeral 16 n l
  | Str s => l = s
  | Llx n => exists h t, numeral 16 (n / 2 ^ 32) h /\ numeral 16 (n mod 2 ^ 32) t /\ l = h ++ t
  | Percent => l = [ch_percent]
  end.

Definition format_of (ps : list piece) : list Z := mjoin (piece_format <$> ps).
Definition args_of (ps : list piece) : list slot := mjoin (piece_args <$> ps).

Lemma format_of_cons p ps : format_of (p :: ps) = piece_format p ++ format_of ps.
Proof. done. Qed.

Lemma args_of_cons p ps : args_of (p :: ps) = piece_args p ++ args_of ps.
Proof. done. Qed.

Lemma char_at_app pre l k : char_at (pre ++ l) (length pre + k) = char_at l k.
Proof.
  unfold char_at. rewrite lookup_app_r, length_app by lia.
  replace (length pre + k - length pre)%nat with k by lia.
  destruct (l !! k); [done|].
  by destruct (Nat.eqb_spec k (length l)),
    (Nat.eqb_spec (length pre + k) (length pre + length l)); try lia.
Qed.

Section Formats.
Context {S : Type} (putchar : Z -> S -> res S).

Lemma put_chars_app l k s :
  put_chars putchar (l ++ k) s = (let* s1 := put_chars putchar l s in put_chars putchar k s1).
Proof using.
  revert s. induction l as [|c l IH]; intros s; [done|]. cbn.
  destruct (putchar c s); cbn; [apply IH|done].
Qed.

Lemma put_buffer_ok fuel pre l rest s :
  (length l < fuel)%nat -> Forall (fun c => c <> 0) l ->
  put_buffer putchar fuel (pre ++ (Some <$> l) ++ Some 0 :: rest) (Z.of_nat (length pre)) s
    = put_chars putchar l s.
Proof using.
  revert pre l s. induction fuel as [|fuel IH]; intros pre l s Hf Hl; [lia|].
  destruct l as [|c l]; cbn [put_buffer put_chars fmap list_fmap app].
  all: rewrite buf_get_app; cbn [rbind].
  { done. }
  apply Forall_cons in Hl as [Hc Hl]. rewrite (proj2 (Z.eqb_neq _ _)) by done.
  destruct (putchar c s) as [s1|]; [cbn [rbind]|done].
  rewrite <-(IH (pre ++ [Some c])) by (try done; cbn in Hf; lia).
  rewrite length_app, <-app_assoc. cbn [length app]. f_equal. lia.
Qed.

Lemma put_buf_ok b l s :
  holds_string b l -> put_buf putchar b s = put_chars putchar l s.
Proof using.
  intros (rest & -> & Hl). apply (put_buffer_ok _ [] l rest); [|done].
  rewrite length_app, length_fmap. lia.
Qed.

#[local] Opaque itoa lltoa itox new_buffer put_buf Z.pow Z.modulo Z.div Z.add Z.mul Z.ltb.

#[local] Ltac conv_end := destruct put_chars; [cbn; do 3 f_equal; lia|done].

(** A conversion prints the text of its piece and consumes its arguments. *)
Lemma conversion_ok p :
  piece_ok p -> piece_conv p <> [] ->
  exists text, piece_text p text /\ forall pre rest ap s,
    conversion putchar (pre ++ piece_conv p ++ rest) (length pre) (piece_args p ++ ap) s
      = (let* s1 := put_chars putchar text s in
         Ok ((length pre + length (piece_conv p) - 1)%nat, ap, s1)).
Proof using.
  intros Hp Hc.
  assert (forall pre l, char_at (pre ++ l) (length pre) = char_at l 0) as Hat
    by (intros pre l; rewrite <-(char_at_app pre l 0); f_equal; lia).
  destruct p as [c|n|n|str|n|n|]; [done|..]; cbn [piece_ok piece_text] in *.
  - destruct (lltoa_ok n new_buffer) as (b & l & E & Hb & Hn & Hl); [unfold in_width; lia|done|].
    exists l. split; [done|]. intros. unfold conversion. rewrite Hat. cbn.
    unfold signed32. rewrite (proj2 (Z.ltb_lt _ _)) by lia.
    rewrite itoa_lltoa, E by lia. cbn [rbind]. rewrite (put_buf_ok b l) by done.
    conv_end.
  - destruct (itox_ok n new_buffer) as (b & l & E & Hb & Hn & Hl); [done..|].
    exists l. split; [done|]. intros. unfold conversion. rewrite Hat. cbn.
    rewrite E. cbn [rbind]. rewrite (put_buf_ok b l) by done.
    conv_end.
  - exists str. split; [done|]. intros. unfold conversion. rewrite Hat. cbn.
    conv_end.
  - destruct (lltoa_ok n new_buffer) as (b & l & E & Hb & Hn & Hl); [done..|].
    exists l. split; [done|]. intros. unfold conversion. rewrite Hat, !char_at_app. cbn.
    replace (n mod 2 ^ 32 + 2 ^ 32 * (n / 2 ^ 32)) with n by dlia.
    rewrite E. cbn [rbind]. rewrite (put_buf_ok b l) by done.
    conv_end.
  - assert (in_width 32 (n / 2 ^ 32) /\ in_width 32 (n mod 2 ^ 32)) as [Hhi Hlo]
      by (unfold in_width in *; dlia).
    destruct (itox_ok _ new_buffer Hhi) as (b & h & E & Hb & Hn & Hl); [done|].
    destruct (itox_ok _ b Hlo) as (b2 & t & E2 & Hb2 & Hn2 & Hl2); [done|].
    exists (h ++ t). split; [by exists h, t|]. intros. unfold conversion.
    rewrite Hat, !char_at_app. cbn.
    replace (n mod 2 ^ 32 + 2 ^ 32 * (n / 2 ^ 32)) with n by dlia.
    change 0xFFFFFFFF with (Z.ones 32). rewrite Z.shiftr_div_pow2, Z.land_ones, E by lia.
    cbn [rbind]. rewrite (put_buf_ok b h), put_chars_app by done.
    destruct put_chars; [cbn [rbind]|done]. rewrite E2. cbn [rbind]. rewrite (put_buf_ok b2 t) by done.
    conv_end.
  - exists [ch_percent]. split; [done|]. intros. unfold conversion. rewrite Hat. cbn.
    destruct putchar; [cbn|done]. do 3 f_equal. lia.
Qed.

(** Characters of a format that starts with [c]. *)
Lemma char_at_cons pre c l : char_at (pre ++ c :: l) (length pre) = Ok c.
Proof using. rewrite <-(Nat.add_0_r (length pre)). by rewrite char_at_app. Qed.

Lemma vfprint_loop_ok ps :
  Forall piece_ok ps ->
  exists texts, Forall2 piece_text ps texts /\ forall fuel pre s,
    (length (format_of ps) < fuel)%nat ->
    vfprint_loop putchar fuel (pre ++ format_of ps) (length pre) (args_of ps) s
      = put_chars putchar (mjoin texts) s.
Proof using.
  intros Hps. induction Hps as [|p ps Hp Hps (texts & Ht & IH)].
  { exists []. split; [constructor|]. intros [|fuel] pre s Hf; [cbn in Hf; lia|].
    cbn [vfprint_loop]. rewrite <-(Nat.add_0_r (length pre)), char_at_app. done. }
  destruct (decide (piece_conv p = [])) as [Hc|Hc].
  - destruct p as [c| | | | | |]; try done. destruct Hp as [Hc0 Hcp].
    exists ([c] :: texts). split; [by constructor|]. intros [|fuel] pre s Hf; [lia|].
    rewrite format_of_cons in *. cbn [piece_format app] in *. cbn [vfprint_loop].
    rewrite char_at_cons. cbn [rbind].
    rewrite (proj2 (Z.eqb_neq c 0)), (proj2 (Z.eqb_neq c ch_percent)) by done. cbn [negb].
    change (mjoin ([c] :: texts)) with (c :: mjoin texts). cbn [put_chars].
    destruct (putchar c s) as [s1|]; [cbn [rbind]|done].
    rewrite <-(IH fuel (pre ++ [c]) s1) by (cbn in Hf; lia).
    rewrite length_app, <-app_assoc. done.
  - destruct (conversion_ok p Hp Hc) as (text & Htext & E).
    exists (text :: texts). split; [by constructor|]. intros [|fuel] pre s Hf; [lia|].
    assert (piece_format p = ch_percent :: piece_conv p) as Ef by by destruct p.
    rewrite format_of_cons, args_of_cons, Ef in *. cbn [vfprint_loop app].
    rewrite char_at_cons. cbn [rbind].
    change (ch_percent =? 0) with false. change (negb (ch_percent =? ch_percent)) with false.
    cbn [rbind]. specialize (E (pre ++ [ch_percent])).
    rewrite length_app in E. cbn [length] in E.
    setoid_rewrite <-app_assoc in E. cbn [app] in E. rewrite E.
    change (mjoin (text :: texts)) with (text ++ mjoin texts). rewrite put_chars_app.
    destruct (put_chars putchar text s) as [s1|]; [cbn [rbind]|done].
    rewrite <-(IH fuel (pre ++ ch_percent :: piece_conv p) s1)
      by (cbn [length app] in Hf; rewrite length_app in Hf; lia).
    rewrite <-app_assoc. cbn [app]. f_equal. rewrite length_app. cbn [length].
    destruct (piece_conv p); [done|]. cbn [length]. lia.
Qed.

(** vfprint prints the texts of the pieces of its format, in order. *)
Lemma vfprint_ok ps :
  Forall piece_ok ps ->
  exists texts, Forall2 piece_text ps texts /\ forall s,
    vfprint putchar (format_of ps) (args_of ps) s = put_chars putchar (mjoin texts) s.
Proof using.
  intros Hps. destruct (vfprint_loop_ok ps Hps) as (texts & Ht & E).
  exists texts. split; [done|]. intros s. apply (E _ []). lia.
Qed.
End Formats.

(** A negative number loses its sign: the copy loop overwrites the minus and
    ends on the byte of the local buffer that was never written. *)
Lemma itoa_negative_garbage n aout :
  - 2 ^ 31 < n < 0 -> length aout = 22%nat ->
  exists b l, itoa n aout = Ok b /\ numeral 10 (- n) l /\
    exists rest, b = (Some <$> l) ++ None :: Some 0 :: rest.
Proof.
  intros Hn Ha. unfold itoa. destruct aout as [|a0 aout]; [done|].
  rewrite (proj2 (Z.ltb_lt n 0)), (proj2 (Z.eqb_neq n (- 2 ^ 31))) by lia.
  pose proof (buf_set_app [] a0 aout (Some ch_minus)) as E1.
  change (buf_set (a0 :: aout) 0 (Some ch_minus) = Ok (Some ch_minus :: aout)) in E1.
  rewrite E1. cbn [rbind]. rewrite (proj2 (Z.eqb_neq (- n) 0)) by lia. cbn [rbind].
  destruct (decimal_copy (- n) [None] (replicate 21 None) (Some ch_minus :: aout))
    as (l & out & E & Hl & _); [|rewrite length_replicate; lia|cbn; lia|done|].
  { split; [lia|]. transitivity (2 ^ 31); [lia|done]. }
  eexists _, l. split; [exact E|]. split; [done|]. by exists out.
Qed.

(** The hexadecimal form of a 64-bit number does not determine it. *)
Lemma llx_ambiguous :
  fprint_output (chars "%llx") [SWord 0x23; SWord 1]
    = fprint_output (chars "%llx") [SWord 3; SWord 0x12].
Proof. vm_compute. reflexivity. Qed.

(** A format that ends with a percent sign is read past its end. *)
Lemma trailing_percent_overruns : fprint_output (chars "100%") [] = Err (Undef OutOfBounds).
Proof. vm_compute. reflexivity. Qed.
