(* ===== verification/Termination.v ===== *)
(** * How long the loops run

    The loops of the kernel that C does not bound by a counter take fuel in this
    library.  Here are the numbers of iterations they need: the logarithm of the
    index or of the size for the two loops of the array heap, the elements that
    the new one does not precede for the walk of the linked queue, the contexts
    that are due for sched_wake_tasks, the digits for the conversions.
    Printing ends on every format, those that are read past their end included. *)

From stdpp Require Import options.
From S2P Require Import Prelude Contexts PQueue ListQueue ArrayHeap.
From S2P Require Import Timer Scheduler PriorityScheduler Fprint.

(** The loop ended before its fuel did. *)
Definition finishes {A} (r : res A) : Prop := r <> Err NoFuel.

(** Two runs are the same and finish. *)
Definition settled {A} (r r' : res A) : Prop := r = r' /\ finishes r.

Lemma settled_bind {A B} (m : res A) (k k' : A -> res B) :
  finishes m -> (forall a, m = Ok a -> settled (k a) (k' a)) ->
  settled (rbind m k) (rbind m k').
Proof.
  intros Hm Hk. destruct m as [a|e]; cbn; [by apply Hk|]. split; [done|].
  intros [= ->]. by apply Hm.
Qed.

Lemma settled_refl {A} (r : res A) : finishes r -> settled r r.
Proof. done. Qed.

Lemma finishes_bind {A B} (m : res A) (k : A -> res B) :
  finishes m -> (forall a, m = Ok a -> finishes (k a)) -> finishes (rbind m k).
Proof.
  intros Hm Hk. apply (settled_bind m k k Hm). intros a E. split; [done|by apply Hk].
Qed.

Create HintDb finishes.
#[export] Hint Resolve settled_refl : finishes.

(** ** The array heap *)

Section Heap.
Context (pf : prio_fn).
Implicit Types (m : mem) (a : list (option cptr)).

Lemma array_get_finishes a i : finishes (array_get a i).
Proof. unfold finishes, array_get. repeat case_match; done. Qed.

Lemma array_set_finishes a i p : finishes (array_set a i p).
Proof. unfold finishes, array_set. by case_match. Qed.

Lemma ptr_priority_finishes m p : finishes (ptr_priority pf m p).
Proof. unfold finishes, ptr_priority, load. destruct p as [p|]; [|done]. by destruct (m !! p). Qed.

Lemma assertion_finishes b text : finishes (assertion b text).
Proof. by destruct b. Qed.

Lemma Ok_finishes {A} (x : A) : finishes (Ok x).
Proof. done. Qed.

#[local] Hint Resolve array_get_finishes array_set_finishes ptr_priority_finishes
  assertion_finishes Ok_finishes : finishes.

(** The parent is one level up. *)
Lemma log2_parent i : 0 < i -> Z.log2 ((i - 1) / 2 + 1) = Z.log2 (i + 1) - 1.
Proof.
  intros Hi. replace ((i - 1) / 2 + 1) with (Z.shiftr (i + 1) 1)
    by (rewrite Z.shiftr_div_pow2 by lia; change (2 ^ 1) with 2; dlia).
  rewrite Z.log2_shiftr by lia. pose proof (Z.log2_le_mono 2 (i + 1) ltac:(lia)).
  change (Z.log2 2) with 1 in *. lia.
Qed.

(** A child is one level down. *)
Lemma log2_child i j : 0 <= i -> j = 2 * i + 1 \/ j = 2 * i + 2 -> Z.log2 (j + 1) = Z.log2 (i + 1) + 1.
Proof.
  intros Hi Hj. replace (Z.log2 (i + 1)) with (Z.log2 ((j - 1) / 2 + 1)) by (f_equal; destruct Hj as [->| ->]; dlia).
  rewrite log2_parent by lia. lia.
Qed.

Lemma sift_up_log f1 f2 m prio a i :
  0 <= i < 2 ^ 32 -> Z.log2 (i + 1) < Z.of_nat f1 -> Z.log2 (i + 1) < Z.of_nat f2 ->
  settled (ah_sift_up pf f1 m prio a i) (ah_sift_up pf f2 m prio a i).
Proof.
  pose proof (Z.log2_nonneg (i + 1)) as H0.
  revert f2 a i H0. induction f1 as [|f1 IH]; intros [|f2] a i H0 Hi H1 H2; [lia..|].
  cbn [ah_sift_up]. destruct (Z.eqb_spec i 0) as [->|Hi0]; [auto with finishes|].
  cbv zeta. rewrite wrap_small by (unfold in_width; lia).
  do 2 (apply settled_bind; [auto with finishes|intros ? _]).
  destruct (is_gt_priority _ _ _); [|auto with finishes].
  apply settled_bind; [auto with finishes|intros ? _].
  apply IH; rewrite ?log2_parent by lia; [|dlia|lia..].
  pose proof (Z.log2_le_mono 2 (i + 1) ltac:(lia)). change (Z.log2 2) with 1 in *. lia.
Qed.

(** The index chosen is [i] or one of its children. *)
Lemma ah_largest_child m size a i prio :
  0 <= i -> i = 0 \/ i < size -> size <= 2 ^ 31 - 1 ->
  finishes (ah_largest pf m size a i prio) /\
  on_ok (fun j => j = i \/ ((j = 2 * i + 1 \/ j = 2 * i + 2) /\ j < size))
    (ah_largest pf m size a i prio).
Proof.
  intros Hi Hs Hsz. unfold ah_largest. cbv zeta.
  rewrite !wrap_small by (unfold in_width; lia).
  assert (forall j p, j = i \/ j = 2 * i + 2 /\ 2 * i + 2 < size -> 2 * i + 1 < size ->
    let r := let* q := array_get a (2 * i + 1) in
             let* lp := ptr_priority pf m q in
             Ok (if is_gt_priority pf lp p then 2 * i + 1 else j) in
    finishes r /\ on_ok (fun j => j = i \/ ((j = 2 * i + 1 \/ j = 2 * i + 2) /\ j < size)) r)
    as Hleft.
  { intros j p Hj Hl. split; [repeat (apply finishes_bind; [auto with finishes|intros ? _]);
      auto with finishes|].
    do 2 (apply on_ok_skip; intros ?). cbn. destruct (is_gt_priority _ _ _); lia. }
  destruct (Z.ltb_spec (2 * i + 2) size) as [Hr|Hr].
  - split; [do 2 (apply finishes_bind; [auto with finishes|intros ? _])
           |do 2 (apply on_ok_skip; intros ?)];
      (destruct (is_gt_priority _ _ _); apply Hleft; lia).
  - destruct (Z.ltb_spec (2 * i + 1) size); [apply Hleft; lia|]. split; [auto with finishes|].
    cbn. by left.
Qed.

Lemma sift_down_log f1 f2 nbc m size a i prio :
  0 <= i -> i = 0 \/ i < size -> size <= 2 ^ 31 - 1 ->
  Z.log2 size - Z.log2 (i + 1) < Z.of_nat f1 -> Z.log2 size - Z.log2 (i + 1) < Z.of_nat f2 ->
  settled (ah_sift_down pf f1 nbc m size a i prio) (ah_sift_down pf f2 nbc m size a i prio).
Proof.
  revert f2 a i. induction f1 as [|f1 IH]; intros f2 a i Hi Hs Hsz H1 H2.
  all: assert (0 <= Z.log2 size - Z.log2 (i + 1)) as H0
    by (destruct Hs as [->|Hs]; [change (Z.log2 (0 + 1)) with 0; pose proof (Z.log2_nonneg size); lia
                               |pose proof (Z.log2_le_mono (i + 1) size); lia]).
  { lia. }
  destruct f2 as [|f2]; [lia|]. cbn [ah_sift_down].
  apply settled_bind; [auto with finishes|intros _ _].
  destruct (ah_largest_child m size a i prio Hi Hs Hsz) as [Hfin Hch].
  apply settled_bind; [done|]. intros j Ej. rewrite Ej in Hch. cbn in Hch.
  destruct (Z.eqb_spec j i) as [->|Hji]; [auto with finishes|]. destruct Hch as [?|[Hch Hjs]]; [done|].
  do 4 (apply settled_bind; [auto with finishes|intros ? _]).
  apply IH; rewrite ?(log2_child i j Hi Hch); lia.
Qed.
End Heap.

(** ** The linked queue *)

(** A walk that ends gives the same result with more fuel. *)
Lemma lq_insert_walk_fuel pf n f m heap prio elt cur prev :
  finishes (lq_insert_walk pf n m heap prio elt cur prev) -> (n <= f)%nat ->
  settled (lq_insert_walk pf f m heap prio elt cur prev) (lq_insert_walk pf n m heap prio elt cur prev).
Proof.
  revert f cur prev. induction n as [|n IH]; intros f [c|] prev Hfin Hf.
  - by destruct Hfin.
  - by destruct f.
  - destruct f as [|f]; [lia|]. cbn [lq_insert_walk] in *.
    destruct (load m c) as [cc|e]; cbn [rbind] in *; [|done].
    destruct (is_gt_priority _ _ _); [done|]. apply IH; [done|lia].
  - by destruct f.
Qed.

(** As many steps as elements are enough. *)
Lemma lq_insert_walk_settled {pf : prio_fn} `{!PrioOrder pf} f1 f2 m heap elt l ce :
  lseg m (lh_head heap) l None -> NoDup l -> l <> [] -> elt ∉ l -> m !! elt = Some ce ->
  (length l <= f1)%nat -> (length l <= f2)%nat ->
  settled (lq_insert_walk pf f1 m heap (prio_of pf m elt) elt (lh_head heap) None)
    (lq_insert_walk pf f2 m heap (prio_of pf m elt) elt (lh_head heap) None).
Proof.
  intros Hl Hnd Hne Hx Hce H1 H2.
  destruct (lq_insert_walk_spec (length l) m heap elt ce [] l) as (m' & heap' & E & _); try done.
  rewrite <-(lseg_head _ _ _ Hl) in E. cbn [last] in E.
  assert (finishes (lq_insert_walk pf (length l) m heap (prio_of pf m elt) elt (lh_head heap) None))
    as Hfin by (by rewrite E).
  destruct (lq_insert_walk_fuel _ _ f1 _ _ _ _ _ _ Hfin H1) as [E1 F1].
  destruct (lq_insert_walk_fuel _ _ f2 _ _ _ _ _ _ Hfin H2) as [E2 _].
  split; [congruence|done].
Qed.

(** ** Conversions to digits *)

(** A positive number below [10 ^ f] needs at most [f] iterations. *)
Lemma digit_loop_log f1 f2 n pos b :
  0 <= n < 10 ^ Z.of_nat f1 -> n < 10 ^ Z.of_nat f2 ->
  settled (digit_loop f1 n pos b) (digit_loop f2 n pos b).
Proof.
  revert f2 n pos b. induction f1 as [|f1 IH]; intros f2 n pos b H1 H2.
  all: destruct (Z.ltb_spec 0 n) as [Hn|Hn];
    [|replace n with 0 by lia; by destruct f2].
  { cbn in H1. lia. }
  destruct f2 as [|f2]; [cbn in H2; lia|]. cbn [digit_loop]. zbool.
  rewrite !Nat2Z.inj_succ, !Z.pow_succ_r in * by lia. apply settled_bind.
  - unfold finishes, buf_set. by repeat case_match.
  - intros b1 _. apply IH; dlia.
Qed.

Lemma buf_set_finishes b i v : finishes (buf_set b i v).
Proof. unfold finishes, buf_set. by case_match. Qed.

Lemma buf_get_finishes b i : finishes (buf_get b i).
Proof. unfold finishes, buf_get. by repeat case_match. Qed.

Lemma char_at_finishes format i : finishes (char_at format i).
Proof. unfold finishes, char_at. by repeat case_match. Qed.

Lemma va_word_finishes ap : finishes (va_word ap).
Proof. by destruct ap as [|[]]. Qed.

Lemma va_string_finishes ap : finishes (va_string ap).
Proof. by destruct ap as [|[]]. Qed.

#[local] Hint Resolve buf_set_finishes buf_get_finishes char_at_finishes va_word_finishes
  va_string_finishes Ok_finishes : finishes.

(** Peels the steps of a computation that end by [auto with finishes]. *)
Ltac finish_steps :=
  repeat (apply finishes_bind; [by auto with finishes|let E := fresh "E" in intros ? E]);
  auto with finishes.

Lemma reverse_loop_finishes n i pos lbuf aout : finishes (reverse_loop n i pos lbuf aout).
Proof.
  revert i aout. induction n as [|n IH]; intros i aout; [done|]. cbn [reverse_loop].
  by finish_steps.
Qed.

Lemma digit_loop_finishes n pos b : 0 <= n < 10 ^ 20 -> finishes (digit_loop digit_fuel n pos b).
Proof. intros Hn. exact (proj2 (digit_loop_log digit_fuel digit_fuel n pos b Hn (proj2 Hn))). Qed.

#[local] Hint Resolve reverse_loop_finishes digit_loop_finishes : finishes.

Lemma lltoa_finishes n aout : 0 <= n < 2 ^ 64 -> finishes (lltoa n aout).
Proof.
  intros Hn. assert (0 <= n < 10 ^ 20) by (split; [lia|]; transitivity (2 ^ 64); [lia|done]).
  unfold lltoa. apply finishes_bind; [destruct (n =? 0); by finish_steps|].
  intros [pos lbuf] _. apply finishes_bind; [by apply digit_loop_finishes|]. intros [pos' lbuf'] _.
  by finish_steps.
Qed.

Lemma itoa_finishes n aout : - 2 ^ 31 <= n < 2 ^ 31 -> finishes (itoa n aout).
Proof.
  intros Hn. unfold itoa. apply finishes_bind.
  { destruct (n <? 0); [|done]. finish_steps. by destruct (n =? _). }
  intros [[n' pos] out] E. assert (0 <= n' < 10 ^ 20).
  { enough (0 <= n' < 2 ^ 31) by (split; [lia|]; transitivity (2 ^ 31); [lia|done]).
    destruct (Z.ltb_spec n 0); res_inv; [|lia]. destruct (Z.eqb_spec n (- 2 ^ 31)); res_inv. lia. }
  apply finishes_bind; [destruct (n' =? 0); by finish_steps|]. intros [pos1 lbuf] _.
  apply finishes_bind; [by apply digit_loop_finishes|]. intros [pos2 lbuf2] _. by finish_steps.
Qed.

Lemma itox_loop_finishes fuel n i pos b : i < 4 * Z.of_nat fuel -> finishes (itox_loop fuel n i pos b).
Proof.
  revert n i pos b. induction fuel as [|fuel IH]; intros n i pos b Hi; cbn [itox_loop].
  - by zbool.
  - destruct (0 <=? i); [|done]. finish_steps. apply IH. lia.
Qed.

Lemma itox_finishes n xout : 0 <= n < 2 ^ 32 -> finishes (itox n xout).
Proof.
  intros Hn. unfold itox. destruct (itox_width_ok 8 n 0) as (j & E & Hj & _); [|lia|by left|].
  { split; [lia|]. transitivity (2 ^ 32); [lia|done]. }
  change (4 * 0) with 0 in E. rewrite E. cbn [rbind].
  apply finishes_bind; [apply itox_loop_finishes; lia|]. intros [pos b] _. by finish_steps.
Qed.

(** ** vfprint *)

(** The words of an argument list fit in 32 bits. *)
Definition slot_typed (a : slot) : Prop :=
  match a with SWord w => in_width 32 w | SStr _ => True end.

Lemma va_word_typed ap :
  Forall slot_typed ap -> on_ok (fun r => in_width 32 r.1 /\ Forall slot_typed r.2) (va_word ap).
Proof. destruct ap as [|[w|s] ap]; try done. intros [? ?]%Forall_cons. done. Qed.

Lemma va_string_typed ap : Forall slot_typed ap -> on_ok (fun r => Forall slot_typed r.2) (va_string ap).
Proof. destruct ap as [|[w|s] ap]; try done. intros [? ?]%Forall_cons. done. Qed.

Lemma va_int_typed ap :
  Forall slot_typed ap ->
  on_ok (fun r => - 2 ^ 31 <= r.1 < 2 ^ 31 /\ Forall slot_typed r.2) (va_int ap).
Proof.
  intros H. unfold va_int. eapply on_ok_bind; [by apply va_word_typed|]. intros [w ap1] [Hw H1].
  cbn in *. split; [|done]. unfold signed32, in_width in *. destruct (Z.ltb_spec w (2 ^ 31)); lia.
Qed.

Lemma va_int_finishes ap : finishes (va_int ap).
Proof. unfold va_int. apply finishes_bind; [auto with finishes|]. by intros [w ap1] _. Qed.

Lemma va_ull_typed ap :
  Forall slot_typed ap -> on_ok (fun r => in_width 64 r.1 /\ Forall slot_typed r.2) (va_ull ap).
Proof.
  intros H. unfold va_ull. eapply on_ok_bind; [by apply va_word_typed|]. intros [lo ap1] [Hlo H1].
  eapply on_ok_bind; [by apply va_word_typed|]. intros [hi ap2] [Hhi H2]. cbn in *.
  split; [|done]. unfold in_width in *. lia.
Qed.

Lemma va_ull_finishes ap : finishes (va_ull ap).
Proof.
  unfold va_ull. apply finishes_bind; [auto with finishes|]. intros [lo ap1] _.
  apply finishes_bind; [auto with finishes|]. by intros [hi ap2] _.
Qed.

(** A step with a property of its result. *)
Lemma finishes_step {A B} (P : A -> Prop) (m : res A) (k : A -> res B) :
  finishes m -> on_ok P m -> (forall a, P a -> finishes (k a)) -> finishes (rbind m k).
Proof. intros Hm HP Hk. apply finishes_bind; [done|]. intros a ->. by apply Hk. Qed.

Section Vfprint.
Context {S : Type} (putchar : Z -> S -> res S).
Context (Hput : forall c s, finishes (putchar c s)).

Lemma put_chars_finishes l s : finishes (put_chars putchar l s).
Proof using Hput.
  revert s. induction l as [|c l IH]; intros s; [done|]. cbn. apply finishes_bind; [done|]. auto.
Qed.

Lemma put_buffer_finishes fuel b j s :
  0 <= j -> (length b < Z.to_nat j + fuel)%nat -> (0 < fuel)%nat ->
  finishes (put_buffer putchar fuel b j s).
Proof using Hput.
  revert j s. induction fuel as [|fuel IH]; intros j s Hj Hf Hf0; [lia|]. cbn [put_buffer].
  apply finishes_bind; [auto with finishes|]. intros [c|] E; [|done]. destruct (c =? 0); [done|].
  unfold buf_get in E. zbool. rewrite (proj2 (Z.leb_le 0 j) Hj) in E.
  destruct (b !! Z.to_nat j) eqn:El; [|done]. apply lookup_lt_Some in El.
  apply finishes_bind; [done|]. intros s1 _. apply IH; lia.
Qed.

Lemma put_buf_finishes b s : finishes (put_buf putchar b s).
Proof using Hput. apply put_buffer_finishes; lia. Qed.

#[local] Hint Resolve put_chars_finishes put_buf_finishes : finishes.

(** A conversion ends, does not go back, and leaves typed arguments. *)
Definition converted (i : nat) (r : res (nat * list slot * S)) : Prop :=
  finishes r /\ on_ok (fun r => (i <= r.1.1)%nat /\ Forall slot_typed r.1.2) r.

Lemma converted_bind {A} (P : A -> Prop) i (m : res A) k :
  finishes m -> on_ok P m -> (forall a, P a -> converted i (k a)) -> converted i (rbind m k).
Proof using.
  intros Hm HP Hk. split; [by eapply finishes_step; [..|intros a Ha; apply Hk]|].
  eapply on_ok_bind; [done|]. intros a Ha. by apply Hk.
Qed.

(** A step whose result does not matter. *)
Lemma converted_skip {A} i (m : res A) k :
  finishes m -> (forall a, converted i (k a)) -> converted i (rbind m k).
Proof using. intros Hm Hk. apply (converted_bind (fun _ => True)); [done|by destruct m|auto]. Qed.

Lemma converted_end i j ap s : (i <= j)%nat -> Forall slot_typed ap -> converted i (Ok (j, ap, s)).
Proof using. done. Qed.

#[local] Hint Resolve converted_end : finishes.

Lemma conversion_finishes format i ap s :
  Forall slot_typed ap -> converted i (conversion putchar format i ap s).
Proof using Hput.
  intros Hap. unfold conversion. apply converted_skip; [auto with finishes|]. intros c.
  destruct (_ || _); [|destruct (c =? 120); [|destruct (c =? 115)]].
  - eapply converted_bind; [apply va_int_finishes|by apply va_int_typed|]. intros [d ap'] [Hd Hap'].
    apply converted_skip; [by apply itoa_finishes|]. intros b. apply converted_skip; auto with finishes.
  - eapply converted_bind; [auto with finishes|by apply va_word_typed|]. intros [d ap'] [Hd Hap'].
    do 2 (apply converted_skip; [by auto using itox_finishes with finishes|intros ?]). auto with finishes.
  - eapply converted_bind; [auto with finishes|by apply va_string_typed|]. intros [str ap'] Hap'.
    apply converted_skip; auto with finishes.
  - apply converted_skip.
    { destruct (c =? 108); [|done]. apply finishes_bind; [auto with finishes|]. intros c1 _.
      destruct (c1 =? 108); auto with finishes. }
    intros ll. destruct (ll =? 120); [|destruct (ll =? 117); [|destruct (c =? ch_percent)]].
    + eapply converted_bind; [apply va_ull_finishes|by apply va_ull_typed|]. intros [d ap'] [Hd Hap'].
      cbn in Hd, Hap'. apply converted_skip.
      { apply itox_finishes. rewrite Z.shiftr_div_pow2 by lia. unfold in_width in Hd. dlia. }
      intros b. apply converted_skip; [auto with finishes|]. intros s1. apply converted_skip.
      { apply itox_finishes. change 0xFFFFFFFF with (Z.ones 32). rewrite Z.land_ones by lia.
        by apply Z.mod_pos_bound. }
      intros b2. apply converted_skip; [auto with finishes|]. intros s2. apply converted_end; [lia|done].
    + eapply converted_bind; [apply va_ull_finishes|by apply va_ull_typed|]. intros [d ap'] [Hd Hap'].
      apply converted_skip; [by apply lltoa_finishes|]. intros b.
      apply converted_skip; [auto with finishes|]. intros s1. apply converted_end; [lia|done].
    + apply converted_skip; auto with finishes.
    + do 4 (apply converted_skip; [by auto with finishes|intros ?]). auto with finishes.
Qed.

(** Every iteration moves forward and the loop stops at the end of the format. *)
Lemma vfprint_loop_finishes fuel format i ap s :
  Forall slot_typed ap -> (0 < fuel)%nat -> (length format < i + fuel)%nat ->
  finishes (vfprint_loop putchar fuel format i ap s).
Proof using Hput.
  revert i ap s. induction fuel as [|fuel IH]; intros i ap s Hap Hf0 Hf; [lia|]. cbn [vfprint_loop].
  apply finishes_bind; [auto with finishes|]. intros c Ec. destruct (Z.eqb_spec c 0); [done|].
  assert (i < length format)%nat as Hi.
  { unfold char_at in Ec. destruct (format !! i) eqn:El; [by eapply lookup_lt_Some|].
    destruct (_ =? _)%nat; res_inv. done. }
  destruct (negb _).
  - apply finishes_bind; [done|]. intros s1 _. apply IH; [done|lia..].
  - destruct (conversion_finishes format (i + 1) ap s Hap) as [Hfin Hres].
    eapply finishes_step; [done..|]. intros [[i1 ap1] s1] [Hi1 Hap1]. cbn in *. apply IH; [done|lia..].
Qed.

Lemma vfprint_finishes format ap s : Forall slot_typed ap -> finishes (vfprint putchar format ap s).
Proof using Hput. intros Hap. apply vfprint_loop_finishes; [done|lia..]. Qed.
End Vfprint.
