(* ===== verification/Terminal.v ===== *)
(** * The VGA terminal and fatal errors (terminal.c, error.c)

    The terminal is a 25 by 80 text buffer with a cursor; writing past the last
    row scrolls it in place.  Its specification is a roll of paper that never
    scrolls: [shows] relates the two, and says that the screen displays the end
    of the paper.  fatal prints on the terminal and stops the machine. *)

From stdpp Require Import options.
From S2P Require Import Prelude Fprint.

(** ** Cells *)

Inductive vga_color :=
  | VGA_COLOR_BLACK | VGA_COLOR_BLUE | VGA_COLOR_GREEN | VGA_COLOR_CYAN
  | VGA_COLOR_RED | VGA_COLOR_MAGENTA | VGA_COLOR_BROWN | VGA_COLOR_LIGHT_GREY
  | VGA_COLOR_DARK_GREY | VGA_COLOR_LIGHT_BLUE | VGA_COLOR_LIGHT_GREEN | VGA_COLOR_LIGHT_CYAN
  | VGA_COLOR_LIGHT_RED | VGA_COLOR_LIGHT_MAGENTA | VGA_COLOR_LIGHT_BROWN | VGA_COLOR_WHITE.

Definition vga_color_value (c : vga_color) : Z :=
  match c with
  | VGA_COLOR_BLACK => 0 | VGA_COLOR_BLUE => 1 | VGA_COLOR_GREEN => 2 | VGA_COLOR_CYAN => 3
  | VGA_COLOR_RED => 4 | VGA_COLOR_MAGENTA => 5 | VGA_COLOR_BROWN => 6 | VGA_COLOR_LIGHT_GREY => 7
  | VGA_COLOR_DARK_GREY => 8 | VGA_COLOR_LIGHT_BLUE => 9 | VGA_COLOR_LIGHT_GREEN => 10
  | VGA_COLOR_LIGHT_CYAN => 11 | VGA_COLOR_LIGHT_RED => 12 | VGA_COLOR_LIGHT_MAGENTA => 13
  | VGA_COLOR_LIGHT_BROWN => 14 | VGA_COLOR_WHITE => 15
  end.

Definition vga_entry_color (fg bg : vga_color) : Z :=
  u8 (Z.lor (vga_color_value fg) (Z.shiftl (vga_color_value bg) 4)).
Definition vga_entry (uc color : Z) : Z := u16 (Z.lor uc (Z.shiftl color 8)).

Definition VGA_WIDTH : Z := 80.
Definition VGA_HEIGHT : Z := 25.

(** ** State *)

(** The static variables of terminal.c and the video memory at 0xB8000. *)
Record terminal := Terminal {
  terminal_row : Z;
  terminal_column : Z;
  terminal_color : Z;
  terminal_buffer : list Z
}.

Definition set_buffer (b : list Z) (t : terminal) : terminal :=
  Terminal (terminal_row t) (terminal_column t) (terminal_color t) b.

Definition vga_load (b : list Z) (i : Z) : res Z :=
  match b !! Z.to_nat i with Some v => Ok v | None => Err (Undef OutOfBounds) end.
Definition vga_store (b : list Z) (i v : Z) : res (list Z) :=
  if i <? Z.of_nat (length b) then Ok (<[Z.to_nat i := v]> b) else Err (Undef OutOfBounds).

(** ** Operations *)

(** [n] iterations of the inner loop of terminal_initialize. *)
Fixpoint clear_row (n : nat) (y x v : Z) (b : list Z) : res (list Z) :=
  match n with
  | O => Ok b
  | S n =>
      let index := u32 (y * VGA_WIDTH + x) in
      let* b1 := vga_store b index v in clear_row n y (x + 1) v b1
  end.

(** [n] iterations of its outer loop. *)
Fixpoint clear_rows (n : nat) (y v : Z) (b : list Z) : res (list Z) :=
  match n with
  | O => Ok b
  | S n =>
      let* b1 := clear_row (Z.to_nat VGA_WIDTH) y 0 v b in clear_rows n (y + 1) v b1
  end.

Definition terminal_initialize (t : terminal) : res terminal :=
  let color := vga_entry_color VGA_COLOR_LIGHT_GREY VGA_COLOR_BLACK in
  let* b := clear_rows (Z.to_nat VGA_HEIGHT) 0 (vga_entry 32 color) (terminal_buffer t) in
  Ok (Terminal 0 0 color b).

Definition terminal_setcolor (color : Z) (t : terminal) : terminal :=
  Terminal (terminal_row t) (terminal_column t) color (terminal_buffer t).

(** The assertion, then the [jae error_infinite_loop] on the same bound. *)
Definition terminal_putentryat (c color x y : Z) (t : terminal) : res terminal :=
  let index := u32 (y * VGA_WIDTH + x) in
  let* _ := assertion (index <=? VGA_WIDTH * VGA_HEIGHT - 1) "index <= VGA_WIDTH*VGA_HEIGHT-1" in
  if 0x7d0 <=? index then Err InfiniteLoop
  else
    let* b := vga_store (terminal_buffer t) index (vga_entry c color) in
    Ok (set_buffer b t).

(** The copy loop of terminal_newline, in place. *)
Fixpoint copy_up (n : nat) (i : Z) (b : list Z) : res (list Z) :=
  match n with
  | O => Ok b
  | S n =>
      let j := i + VGA_WIDTH in
      let* v := vga_load b j in
      let* b1 := vga_store b i v in copy_up n (i + 1) b1
  end.

(** The loop that clears the last line. *)
Fixpoint clear_from (n : nat) (i v : Z) (b : list Z) : res (list Z) :=
  match n with
  | O => Ok b
  | S n => let* b1 := vga_store b i v in clear_from n (i + 1) v b1
  end.

Definition terminal_newline (t : terminal) : res terminal :=
  let row := u32 (terminal_row t + 1) in
  let color := terminal_color t in
  if VGA_HEIGHT <=? row then
    let* b1 := copy_up (Z.to_nat ((VGA_HEIGHT - 1) * VGA_WIDTH)) 0 (terminal_buffer t) in
    let* b2 := clear_from (Z.to_nat VGA_WIDTH) ((VGA_HEIGHT - 1) * VGA_WIDTH)
                 (vga_entry 32 color) b1 in
    Ok (Terminal (VGA_HEIGHT - 1) 0 color b2)
  else Ok (Terminal row 0 color (terminal_buffer t)).

Definition terminal_putchar (c : Z) (t : terminal) : res terminal :=
  if c =? 10 then terminal_newline t
  else
    let* t1 := terminal_putentryat c (terminal_color t) (terminal_column t) (terminal_row t) t in
    let column := u32 (terminal_column t1 + 1) in
    let t2 := Terminal (terminal_row t1) column (terminal_color t1) (terminal_buffer t1) in
    if VGA_WIDTH <=? column then terminal_newline t2 else Ok t2.

(** terminal_write prints [size] characters and terminal_writestring the
    characters up to the NUL: both the characters of [data]. *)
Definition terminal_write (data : list Z) (t : terminal) : res terminal :=
  put_chars terminal_putchar data t.
Definition terminal_writestring (data : list Z) (t : terminal) : res terminal :=
  put_chars terminal_putchar data t.

Definition terminal_write_hexa_digit (n : Z) (t : terminal) : res terminal :=
  if n <? 10 then terminal_putchar (u8 (48 + n)) t
  else terminal_putchar (u8 (97 - 10 + n)) t.

Definition terminal_write_uint8 (num : Z) (t : terminal) : res terminal :=
  let* t1 := terminal_write_hexa_digit (Z.land num 15) t in
  terminal_write_hexa_digit (Z.shiftr num 4) t1.

(** The loop [for(int i = 28; i >=0; i-=4)], [n] iterations. *)
Fixpoint write_uint32_loop (n : nat) (i num : Z) (t : terminal) : res terminal :=
  match n with
  | O => Ok t
  | S n =>
      let* t1 := terminal_write_hexa_digit (Z.land (Z.shiftr num i) 15) t in
      write_uint32_loop n (i - 4) num t1
  end.

Definition terminal_write_uint32 (num : Z) (t : terminal) : res terminal :=
  write_uint32_loop 8 28 num t.

Definition terminal_print (format : list Z) (args : list slot) (t : terminal) : res terminal :=
  vfprint terminal_putchar format args t.

(** fatal and task_fatal of error.c: the terminal when the machine enters
    error_infinite_loop. *)
Definition fatal (format : list Z) (ap : list slot) (t : terminal) : res terminal :=
  vfprint terminal_putchar format ap t.
Definition task_fatal (format : list Z) (ap : list slot) (t : terminal) : res terminal :=
  vfprint terminal_putchar format ap t.

(** The outcome of kernel code: a value, or the terminal of a machine that has
    entered error_infinite_loop, after the message of fatal if it was called. *)
Definition catch {A} (t : terminal) (m : res A) : res (A + terminal) :=
  match m with
  | Ok a => Ok (inl a)
  | Err (Fatal format args) =>
      let* t1 := fatal (chars format) (SWord <$> args) t in Ok (inr t1)
  | Err InfiniteLoop => Ok (inr t)
  | Err e => Err e
  end.

(** ** Specification *)

(** Everything printed so far: the finished rows, each padded to the width of
    the screen, oldest first, and the beginning of the current row. *)
Record paper := Paper { rows : list (list Z); current : list Z }.

Definition blank (color : Z) : Z := vga_entry 32 color.
Definition pad (color : Z) (row : list Z) : list Z :=
  row ++ replicate (80 - length row) (blank color).

Definition paper_newline (color : Z) (p : paper) : paper :=
  Paper (rows p ++ [pad color (current p)]) [].

Definition paper_putchar (color : Z) (p : paper) (c : Z) : paper :=
  if c =? 10 then paper_newline color p
  else
    let p1 := Paper (rows p) (current p ++ [vga_entry c color]) in
    if (length (current p1) =? 80)%nat then paper_newline color p1 else p1.

(** The finished rows that are on the screen: at most 24. *)
Definition visible (p : paper) : list (list Z) := drop (length (rows p) - 24) (rows p).

Definition screen (color : Z) (p : paper) : list Z :=
  let used := mjoin (visible p) ++ current p in
  used ++ replicate (2000 - length used) (blank color).

Definition paper_wf (p : paper) : Prop :=
  Forall (fun r => length r = 80%nat) (rows p) /\ (length (current p) < 80)%nat.

(** The terminal displays the end of the paper. *)
Definition shows (p : paper) (t : terminal) : Prop :=
  paper_wf p /\
  terminal_row t = Z.of_nat (length (visible p)) /\
  terminal_column t = Z.of_nat (length (current p)) /\
  terminal_buffer t = screen (terminal_color t) p.

(** ** Loops over the buffer *)

Lemma vga_store_app pre x rest v :
  vga_store (pre ++ x :: rest) (Z.of_nat (length pre)) v = Ok (pre ++ v :: rest).
Proof.
  unfold vga_store. rewrite length_app. cbn [length]. zbool. rewrite Nat2Z.id. f_equal.
  apply (insert_app_r_0 pre (x :: rest) v).
Qed.

Lemma vga_load_app pre x rest :
  vga_load (pre ++ x :: rest) (Z.of_nat (length pre)) = Ok x.
Proof. unfold vga_load. by rewrite Nat2Z.id, list_lookup_middle by done. Qed.

Lemma clear_from_ok n v pre mid rest :
  length mid = n ->
  clear_from n (Z.of_nat (length pre)) v (pre ++ mid ++ rest)
    = Ok (pre ++ replicate n v ++ rest).
Proof.
  revert pre mid. induction n as [|n IH]; intros pre mid Hm; destruct mid as [|x mid]; try done.
  cbn [clear_from replicate app]. rewrite vga_store_app. cbn [rbind].
  specialize (IH (pre ++ [v]) mid). rewrite length_app, <-!app_assoc in IH. cbn [length app] in IH.
  rewrite <-IH by (cbn in Hm; lia). f_equal. lia.
Qed.

(** Copying each cell from [k] cells further moves the end of the buffer. *)
Lemma copy_up_ok n pre mid :
  length mid = (n + 80)%nat ->
  copy_up n (Z.of_nat (length pre)) (pre ++ mid)
    = Ok (pre ++ take n (drop 80 mid) ++ drop n mid).
Proof.
  revert pre mid. induction n as [|n IH]; intros pre mid Hm; [done|].
  destruct mid as [|x mid]; [cbn in Hm; lia|]. cbn [copy_up].
  destruct (drop 80 (x :: mid)) as [|v tl] eqn:Ed.
  { apply (f_equal length) in Ed. rewrite length_drop in Ed. cbn [length] in *. lia. }
  assert (x :: mid = take 80 (x :: mid) ++ v :: tl) as Esplit
    by (by rewrite <-Ed, take_drop).
  assert (length (take 80 (x :: mid)) = 80%nat) as Hl
    by (rewrite length_take; cbn [length] in *; lia).
  assert (vga_load (pre ++ x :: mid) (Z.of_nat (length pre) + VGA_WIDTH) = Ok v) as ->.
  { rewrite Esplit, app_assoc.
    replace (Z.of_nat (length pre) + VGA_WIDTH)
      with (Z.of_nat (length (pre ++ take 80 (x :: mid))))
      by (rewrite length_app, Hl; unfold VGA_WIDTH; lia).
    apply vga_load_app. }
  cbn [rbind]. rewrite vga_store_app. cbn [rbind].
  specialize (IH (pre ++ [v]) mid). rewrite length_app, <-!app_assoc in IH. cbn [length app] in IH.
  replace (Z.of_nat (length pre) + 1) with (Z.of_nat (length pre + 1)) by lia.
  rewrite IH by (cbn in Hm; lia). cbn [take drop app]. do 3 f_equal.
  change (drop 79 mid = v :: tl) in Ed.
  replace 80%nat with (79 + 1)%nat by lia. rewrite <-drop_drop, Ed. done.
Qed.

Lemma clear_from_add n k i v b :
  clear_from (n + k) i v b = (let* b1 := clear_from n i v b in clear_from k (i + Z.of_nat n) v b1).
Proof.
  revert i b. induction n as [|n IH]; intros i b; [cbn; by rewrite Z.add_0_r|].
  cbn [Nat.add clear_from]. destruct (vga_store b i v); [cbn [rbind]|done].
  rewrite IH. by replace (i + Z.of_nat (S n)) with (i + 1 + Z.of_nat n) by lia.
Qed.

Lemma clear_row_from n y x v b :
  0 <= y * 80 + x -> y * 80 + x + Z.of_nat n <= 2 ^ 32 ->
  clear_row n y x v b = clear_from n (y * 80 + x) v b.
Proof.
  revert x b. induction n as [|n IH]; intros x b H0 H1; [done|].
  cbn [clear_row clear_from]. unfold VGA_WIDTH. rewrite wrap_small by (unfold in_width; lia).
  destruct (vga_store b _ v); [cbn [rbind]|done]. rewrite IH by lia. f_equal. lia.
Qed.

Lemma clear_rows_from n y v b :
  0 <= y -> (y + Z.of_nat n) * 80 <= 2 ^ 32 ->
  clear_rows n y v b = clear_from (n * 80) (y * 80) v b.
Proof.
  revert y b. induction n as [|n IH]; intros y b H0 H1; [done|].
  cbn [clear_rows Nat.mul]. rewrite clear_from_add.
  change (Z.to_nat VGA_WIDTH) with 80%nat. rewrite clear_row_from, Z.add_0_r by lia.
  destruct (clear_from 80 (y * 80) v b); [cbn [rbind]|done].
  rewrite IH by lia. f_equal. lia.
Qed.

(** ** The terminal refines the paper *)

Lemma terminal_initialize_ok t :
  length (terminal_buffer t) = 2000%nat ->
  exists t', terminal_initialize t = Ok t' /\ shows (Paper [] []) t'.
Proof.
  intros Hl. unfold terminal_initialize.
  change (Z.to_nat VGA_HEIGHT) with 25%nat. rewrite clear_rows_from by lia.
  pose proof (clear_from_ok 2000 (vga_entry 32 (vga_entry_color VGA_COLOR_LIGHT_GREY VGA_COLOR_BLACK))
    [] (terminal_buffer t) [] Hl) as E.
  change (Z.of_nat (length [])) with (0 * 80) in E. rewrite !app_nil_r in E. cbn [app] in E.
  change (25 * 80)%nat with 2000%nat. rewrite E. cbn [rbind].
  eexists. split; [reflexivity|]. split; [split; [constructor|cbn; lia]|]. done.
Qed.

Lemma length_mjoin_rows (l : list (list Z)) :
  Forall (fun r => length r = 80%nat) l -> length (mjoin l) = (80 * length l)%nat.
Proof.
  induction 1 as [|r l Hr Hl IH]; [done|]. change (mjoin (r :: l)) with (r ++ mjoin l).
  rewrite length_app, IH, Hr. cbn. lia.
Qed.

Lemma length_visible p : length (visible p) = Nat.min (length (rows p)) 24.
Proof. unfold visible. rewrite length_drop. lia. Qed.

Lemma visible_wf p :
  Forall (fun r => length r = 80%nat) (rows p) ->
  Forall (fun r => length r = 80%nat) (visible p).
Proof. apply Forall_drop. Qed.

Lemma length_pad color r : (length r <= 80)%nat -> length (pad color r) = 80%nat.
Proof. unfold pad. rewrite length_app, length_replicate. lia. Qed.

(** The cells used on the screen. *)
Lemma length_used p :
  Forall (fun r => length r = 80%nat) (rows p) ->
  length (mjoin (visible p) ++ current p)
    = (80 * Nat.min (length (rows p)) 24 + length (current p))%nat.
Proof. intros H. by rewrite length_app, length_mjoin_rows, length_visible by by apply visible_wf. Qed.

(** The screen after the current row is finished: unchanged while rows are
    free, else moved up by one row. *)
Lemma screen_newline color p :
  Forall (fun r => length r = 80%nat) (rows p) -> (length (current p) <= 80)%nat ->
  screen color (paper_newline color p) =
    if (length (visible p) <? 24)%nat then screen color p
    else drop 80 (screen color p) ++ replicate 80 (blank color).
Proof.
  intros Hr Hc. pose proof (length_used p Hr) as Hu. rewrite length_visible.
  assert (mjoin (visible p ++ [pad color (current p)])
    = (mjoin (visible p) ++ current p) ++ replicate (80 - length (current p)) (blank color)) as Hj.
  { rewrite join_app. cbn [mjoin list_join]. by rewrite app_nil_r, <-app_assoc. }
  unfold screen. destruct (Nat.ltb_spec (Nat.min (length (rows p)) 24) 24) as [Hlt|Hge].
  - assert (visible (paper_newline color p) = visible p ++ [pad color (current p)]) as ->.
    { unfold visible, paper_newline. cbn [rows]. rewrite length_app. cbn [length].
      replace (length (rows p) + 1 - 24)%nat with 0%nat by lia.
      by replace (length (rows p) - 24)%nat with 0%nat by lia. }
    rewrite Hj. cbn [current paper_newline]. rewrite app_nil_r, <-app_assoc, <-replicate_add.
    rewrite length_app, Hu, length_replicate. do 2 f_equal. lia.
  - assert (exists r0, visible p ++ [pad color (current p)]
              = r0 :: visible (paper_newline color p) /\ length r0 = 80%nat) as (r0 & Hv & Hr0).
    { unfold visible, paper_newline. cbn [rows]. rewrite length_app. cbn [length].
      replace (length (rows p) + 1 - 24)%nat with (S (length (rows p) - 24)) by lia.
      destruct (drop (length (rows p) - 24) (rows p)) as [|r0 tl] eqn:Ed.
      { apply (f_equal length) in Ed. rewrite length_drop in Ed. cbn in Ed. lia. }
      exists r0. split.
      - rewrite <-Nat.add_1_r, <-drop_drop, drop_app_le, Ed by lia. done.
      - rewrite Forall_forall in Hr. apply Hr, (subseteq_drop (length (rows p) - 24)).
        rewrite Ed. left. }
    rewrite Hv in Hj. set (V := visible (paper_newline color p)) in *.
    change (mjoin (r0 :: V)) with (r0 ++ mjoin V) in Hj.
    set (u := mjoin (visible p) ++ current p) in *.
    cbn [current paper_newline]. rewrite app_nil_r.
    assert (length (mjoin V) = 1920%nat) as HV.
    { apply (f_equal length) in Hj. rewrite !length_app, length_replicate in Hj. lia. }
    replace (2000 - length u)%nat with (80 - length (current p))%nat by lia.
    rewrite <-Hj, drop_app_length' by done. by rewrite HV.
Qed.

Lemma length_screen color p :
  Forall (fun r => length r = 80%nat) (rows p) -> (length (current p) <= 80)%nat ->
  length (screen color p) = 2000%nat.
Proof.
  intros Hr Hc. unfold screen. rewrite length_app, length_replicate, length_used by done. lia.
Qed.

(** The scrolling loops of terminal_newline. *)
Lemma scroll_ok b v :
  length b = 2000%nat ->
  (let* b1 := copy_up (Z.to_nat ((VGA_HEIGHT - 1) * VGA_WIDTH)) 0 b in
   clear_from (Z.to_nat VGA_WIDTH) ((VGA_HEIGHT - 1) * VGA_WIDTH) v b1)
    = Ok (drop 80 b ++ replicate 80 v).
Proof.
  intros Hb. change (Z.to_nat ((VGA_HEIGHT - 1) * VGA_WIDTH)) with 1920%nat.
  change (Z.to_nat VGA_WIDTH) with 80%nat.
  pose proof (copy_up_ok 1920 [] b) as E. change (Z.of_nat (length [])) with 0 in E.
  cbn [app] in E. rewrite E by lia. cbn [rbind].
  rewrite take_ge by (rewrite length_drop; lia).
  pose proof (clear_from_ok 80 v (drop 80 b) (drop 1920 b) []) as E2.
  rewrite !length_drop, Hb, !app_nil_r in E2. by apply E2.
Qed.

(** terminal_newline, also from the state in which the row is full. *)
Lemma terminal_newline_full p t :
  Forall (fun r => length r = 80%nat) (rows p) -> (length (current p) <= 80)%nat ->
  terminal_row t = Z.of_nat (length (visible p)) ->
  terminal_buffer t = screen (terminal_color t) p ->
  exists t', terminal_newline t = Ok t' /\ shows (paper_newline (terminal_color t) p) t' /\
    terminal_color t' = terminal_color t.
Proof.
  intros Hr Hc Hrow Hbuf. unfold terminal_newline, shows.
  assert (paper_wf (paper_newline (terminal_color t) p)) as Hwf.
  { split; [|cbn; lia]. cbn. apply Forall_app. split; [done|]. by repeat constructor; apply length_pad. }
  pose proof (length_visible p) as Hv. rewrite wrap_small by (unfold in_width; lia).
  assert (length (visible (paper_newline (terminal_color t) p))
    = Nat.min (length (rows p) + 1) 24) as Hv'
    by (rewrite length_visible; cbn; by rewrite length_app).
  pose proof (screen_newline (terminal_color t) p Hr Hc) as Hs.
  destruct (Nat.ltb_spec (length (visible p)) 24).
  - unfold VGA_HEIGHT. zbool. eexists. split; [reflexivity|]. cbn [terminal_color]. split; [|done].
    split; [done|]. split; [cbn [terminal_row]; lia|]. split; [done|]. cbn [terminal_buffer terminal_color]. by rewrite Hs, Hbuf.
  - rewrite (proj2 (Z.leb_le VGA_HEIGHT _)) by (unfold VGA_HEIGHT; lia).
    pose proof (scroll_ok (terminal_buffer t) (vga_entry 32 (terminal_color t))) as E.
    apply rbind_ok in E as (b1 & E1 & E2); [|rewrite Hbuf; by apply length_screen].
    rewrite E1. cbn [rbind]. rewrite E2. cbn [rbind].
    eexists. split; [reflexivity|]. cbn [terminal_color]. split; [|done].
    split; [done|]. split; [cbn [terminal_row]; unfold VGA_HEIGHT; lia|]. split; [done|].
    cbn [terminal_buffer terminal_color]. by rewrite Hs, Hbuf.
Qed.

Lemma terminal_newline_ok p t :
  shows p t ->
  exists t', terminal_newline t = Ok t' /\ shows (paper_newline (terminal_color t) p) t' /\
    terminal_color t' = terminal_color t.
Proof. intros ((Hr & Hc) & Hrow & _ & Hbuf). apply terminal_newline_full; [done|lia|done..]. Qed.

(** Writing the cell under the cursor appends it to the current row. *)
Lemma terminal_putentryat_ok p t c :
  shows p t ->
  terminal_putentryat c (terminal_color t) (terminal_column t) (terminal_row t) t
    = Ok (set_buffer (screen (terminal_color t)
           (Paper (rows p) (current p ++ [vga_entry c (terminal_color t)]))) t).
Proof.
  intros ((Hr & Hc) & Hrow & Hcol & Hbuf).
  pose proof (length_visible p) as Hv. pose proof (length_used p Hr) as Hu.
  unfold terminal_putentryat.
  assert (u32 (terminal_row t * VGA_WIDTH + terminal_column t)
    = Z.of_nat (length (mjoin (visible p) ++ current p))) as ->.
  { unfold VGA_WIDTH. rewrite wrap_small by (unfold in_width; lia). lia. }
  unfold VGA_WIDTH, VGA_HEIGHT. zbool. cbn [assertion rbind].
  rewrite Hbuf. unfold screen at 1.
  replace (2000 - length (mjoin (visible p) ++ current p))%nat
    with (S (2000 - S (length (mjoin (visible p) ++ current p)))) by lia.
  cbn [replicate]. rewrite vga_store_app. cbn [rbind]. do 2 f_equal. unfold screen.
  change (visible (Paper (rows p) ?[c])) with (visible p). cbn [current].
  rewrite <-!app_assoc. cbn [app]. apply (f_equal (fun n =>
    mjoin (visible p) ++ current p ++ vga_entry c (terminal_color t)
      :: replicate n (blank (terminal_color t)))).
  rewrite !length_app. cbn [length]. lia.
Qed.

#[local] Opaque screen.

Lemma terminal_putchar_ok p t c :
  shows p t ->
  exists t', terminal_putchar c t = Ok t' /\ shows (paper_putchar (terminal_color t) p c) t' /\
    terminal_color t' = terminal_color t.
Proof.
  intros Hs. unfold terminal_putchar, paper_putchar. destruct (Z.eqb_spec c 10) as [->|Hc].
  { by apply terminal_newline_ok. }
  rewrite (terminal_putentryat_ok p) by done. cbn [rbind].
  destruct Hs as ((Hr & Hl) & Hrow & Hcol & Hbuf).
  cbn [set_buffer terminal_column terminal_row terminal_color terminal_buffer current].
  rewrite Hcol, wrap_small by (unfold in_width; lia).
  rewrite length_app. cbn [length]. unfold VGA_WIDTH.
  destruct (Nat.eqb_spec (length (current p) + 1) 80) as [Hfull|Hfull].
  - rewrite (proj2 (Z.leb_le _ _)) by lia.
    match goal with |- context [terminal_newline ?t2] =>
      apply (terminal_newline_full
        (Paper (rows p) (current p ++ [vga_entry c (terminal_color t)])) t2) end;
      [done|cbn; rewrite length_app; cbn; lia|done|done].
  - rewrite (proj2 (Z.leb_gt _ _)) by lia. eexists. split; [reflexivity|]. split; [|done].
    split; [split; [done|cbn; rewrite length_app; cbn; lia]|].
    split; [done|]. split; [|done]. cbn. rewrite length_app. cbn. lia.
Qed.

(** Any sequence of characters can be printed. *)
Lemma put_chars_terminal l p t :
  shows p t ->
  exists t', put_chars terminal_putchar l t = Ok t' /\
    shows (fold_left (paper_putchar (terminal_color t)) l p) t' /\
    terminal_color t' = terminal_color t.
Proof.
  revert p t. induction l as [|c l IH]; intros p t Hs; [by exists t|]. cbn [put_chars fold_left].
  destruct (terminal_putchar_ok p t c Hs) as (t1 & -> & Hs1 & Hc1). cbn [rbind].
  destruct (IH _ _ Hs1) as (t2 & E2 & Hs2 & Hc2). rewrite Hc1 in Hs2, Hc2. eauto.
Qed.

(** Hexadecimal output prints one character. *)
Lemma terminal_write_hexa_digit_eq n t :
  0 <= n < 16 ->
  terminal_write_hexa_digit n t = terminal_putchar (if n <? 10 then 48 + n else 87 + n) t.
Proof.
  intros Hn. unfold terminal_write_hexa_digit.
  destruct (Z.ltb_spec n 10); rewrite wrap_small by (unfold in_width; lia); done.
Qed.

(** ** Fatal errors *)

(** The pieces of a format without conversions. *)
Definition plain (s : string) : list piece := Lit <$> chars s.

Definition plain_chars (s : string) : bool :=
  forallb (fun c => negb (c =? 0) && negb (c =? ch_percent)) (chars s).

Lemma format_of_app ps qs : format_of (ps ++ qs) = format_of ps ++ format_of qs.
Proof. unfold format_of. by rewrite fmap_app, join_app. Qed.

Lemma format_of_plain s : format_of (plain s) = chars s.
Proof.
  unfold plain. induction (chars s) as [|c l IH]; [done|]. cbn [fmap list_fmap].
  rewrite format_of_cons. cbn. f_equal. exact IH.
Qed.

Lemma args_of_plain s : args_of (plain s) = [].
Proof. unfold plain. by induction (chars s). Qed.

Lemma plain_ok s : plain_chars s = true -> Forall piece_ok (plain s).
Proof.
  unfold plain, plain_chars. rewrite forallb_forall. intros Hs.
  apply Forall_fmap, Forall_forall. intros c Hc. apply list_elem_of_In, Hs in Hc. cbn.
  apply andb_true_iff in Hc as [H1 H2]. apply negb_true_iff in H1, H2.
  by rewrite Z.eqb_neq in H1, H2.
Qed.

(** fatal on a well-formed format prints its text and halts. *)
Lemma fatal_ok ps pap t :
  Forall piece_ok ps -> shows pap t ->
  exists texts t', Forall2 piece_text ps texts /\
    fatal (format_of ps) (args_of ps) t = Ok t' /\
    shows (fold_left (paper_putchar (terminal_color t)) (mjoin texts) pap) t'.
Proof.
  intros Hps Hs. destruct (vfprint_ok terminal_putchar ps Hps) as (texts & Ht & E).
  destruct (put_chars_terminal (mjoin texts) pap t Hs) as (t' & E' & Hs' & _).
  exists texts, t'. split; [done|]. split; [|done]. unfold fatal. by rewrite E.
Qed.

(** ** The terminal never fails *)

(** What every operation needs and preserves, whatever is on the screen. *)
Record term_ok (t : terminal) : Prop := {
  to_buffer : length (terminal_buffer t) = 2000%nat;
  to_row : 0 <= terminal_row t < 25;
  to_column : 0 <= terminal_column t < 80
}.

Lemma terminal_newline_total t :
  length (terminal_buffer t) = 2000%nat -> 0 <= terminal_row t < 25 ->
  exists t', terminal_newline t = Ok t' /\ term_ok t'.
Proof.
  intros Hl Hr. unfold terminal_newline. rewrite wrap_small by (unfold in_width; lia).
  destruct (Z.leb_spec VGA_HEIGHT (terminal_row t + 1)) as [|Hlt].
  - pose proof (scroll_ok (terminal_buffer t) (vga_entry 32 (terminal_color t)) Hl) as E.
    apply rbind_ok in E as (b1 & -> & E2). cbn [rbind]. rewrite E2. cbn [rbind].
    eexists. split; [reflexivity|]. split; cbn [terminal_buffer terminal_row terminal_column].
    + rewrite length_app, length_drop, length_replicate. lia.
    + unfold VGA_HEIGHT. lia.
    + lia.
  - unfold VGA_HEIGHT in Hlt. eexists. split; [reflexivity|]. split; cbn; lia.
Qed.

Lemma terminal_putchar_total c t :
  term_ok t -> exists t', terminal_putchar c t = Ok t' /\ term_ok t'.
Proof.
  intros [Hl Hr Hc]. unfold terminal_putchar. destruct (c =? 10); [by apply terminal_newline_total|].
  unfold terminal_putentryat, VGA_WIDTH, VGA_HEIGHT.
  rewrite wrap_small by (unfold in_width; lia). zbool. cbn [assertion rbind].
  unfold vga_store. rewrite Hl. zbool. cbn [rbind set_buffer terminal_column terminal_row
    terminal_color terminal_buffer]. rewrite wrap_small by (unfold in_width; lia).
  destruct (Z.leb_spec 80 (terminal_column t + 1)).
  - apply terminal_newline_total; cbn [terminal_buffer terminal_row]; [by rewrite length_insert|done].
  - eexists. split; [reflexivity|].
    split; cbn [terminal_buffer terminal_row terminal_column]; [by rewrite length_insert|done|lia].
Qed.

Lemma put_chars_total l t :
  term_ok t -> exists t', put_chars terminal_putchar l t = Ok t' /\ term_ok t'.
Proof.
  revert t. induction l as [|c l IH]; intros t Ht; [by exists t|]. cbn [put_chars].
  destruct (terminal_putchar_total c t Ht) as (t1 & -> & Ht1). cbn [rbind]. by apply IH.
Qed.

Lemma shows_term_ok p t : shows p t -> term_ok t.
Proof.
  intros ((Hr & Hc) & Hrow & Hcol & Hbuf). pose proof (length_visible p).
  split; [rewrite Hbuf; apply length_screen; [done|lia]|lia|lia].
Qed.

Lemma fatal_total ps t :
  Forall piece_ok ps -> term_ok t ->
  exists t', fatal (format_of ps) (args_of ps) t = Ok t' /\ term_ok t'.
Proof.
  intros Hps Ht. destruct (vfprint_ok terminal_putchar ps Hps) as (texts & _ & E).
  unfold fatal. rewrite E. by apply put_chars_total.
Qed.

Lemma catch_plain {A} s t :
  plain_chars s = true -> term_ok t ->
  exists t', catch (A := A) t (Err (Fatal s [])) = Ok (inr t') /\ term_ok t'.
Proof.
  intros Hp Hs. destruct (fatal_total (plain s) t (plain_ok s Hp) Hs) as (t' & E & Hs').
  rewrite format_of_plain, args_of_plain in E. exists t'. cbn [catch fmap list_fmap].
  rewrite E. done.
Qed.
