(* ===== verification/Segment.v ===== *)
(** * Segment selectors, segment descriptors and gates (segment.h, low_level.c)

    The macros that build selectors, descriptors and interrupt gates, as
    integers, and the fields the processor reads back from them (the layout of
    the processor's manual).  The round trips say that the processor sees what
    the macro was given; the limit keeps its 20 low bits only. *)

From stdpp Require Import options.
From S2P Require Import Prelude.

(** ** Selectors *)

Definition segment_selector (privilege : Z) (in_ldt : bool) (index : Z) : Z :=
  Z.lor (Z.lor (Z.land privilege 3) (Z.shiftl (if in_ldt then 1 else 0) 2)) (Z.shiftl index 3).

Definition gdt_segment_selector (privilege index : Z) : Z := segment_selector privilege false index.
Definition ldt_segment_selector (privilege index : Z) : Z := segment_selector privilege true index.

(** What the processor reads in a selector. *)
Definition selector_rpl (s : Z) : Z := Z.land s 3.
Definition selector_ldt (s : Z) : bool := Z.testbit s 2.
Definition selector_index (s : Z) : Z := Z.shiftr s 3.

(** ** Segment descriptors *)

Definition S16BIT : Z := 0.
Definition S32BIT : Z := 1.

(** create_descriptor; [base] and [limit] are uint32_t, the other arguments
    small constants. *)
Definition create_descriptor (base limit present privilege normal_segment permissions
    accessed granularity size : Z) : Z :=
  Z.lor (Z.lor
    (u64 (Z.shiftl
      (Z.lor (Z.lor (Z.lor (Z.lor
        (Z.land limit 0x000F0000)
        (Z.land (Z.shiftr base 16) 0x000000FF))
        (Z.land base 0xFF000000))
        (Z.shiftl (Z.lor (Z.lor (Z.lor (Z.lor accessed (Z.shiftl permissions 1))
                                       (Z.shiftl normal_segment 4))
                                (Z.shiftl privilege 5))
                         (Z.shiftl present 7)) 8))
        (Z.shiftl (Z.lor (Z.shiftl size 2) (Z.shiftl granularity 3)) 20)) 32))
    (u32 (Z.shiftl base 16)))
    (Z.land limit 0x0000FFFF).

Definition create_code_descriptor (base limit privilege conforming readable accessed
    granularity size : Z) : Z :=
  create_descriptor base limit 1 privilege 1 (Z.lor (Z.lor 4 (Z.shiftl conforming 1)) readable)
    accessed granularity size.

Definition create_data_descriptor (base limit privilege growdown writable accessed
    granularity size : Z) : Z :=
  create_descriptor base limit 1 privilege 1 (Z.lor (Z.lor 0 (Z.shiftl growdown 1)) writable)
    accessed granularity size.

Definition create_tss_descriptor (base limit privilege busy granularity : Z) : Z :=
  create_descriptor base (if limit <=? 0x67 then 0x67 else limit) 1 privilege 0
    (Z.lor (Z.lor 4 (Z.shiftl 0 1)) busy) 1 granularity 0.

Definition null_descriptor : Z := create_descriptor 0 0 0 0 0 0 0 0 0.
Definition kernel_code_descriptor : Z := create_code_descriptor 0 0xFFFFFFFF 0 0 1 0 1 S32BIT.
Definition kernel_data_descriptor : Z := create_data_descriptor 0 0xFFFFFFFF 0 0 1 0 1 S32BIT.

(** ** Gates *)

Definition create_gate_descriptor (kind func_ptr code_segment_selector privilege size : Z) : Z :=
  Z.lor (Z.lor (Z.land func_ptr 0xFFFF) (Z.shiftl code_segment_selector 16))
    (u64 (Z.shiftl
      (Z.lor (Z.land func_ptr 0xFFFF0000)
        (Z.lor (Z.lor (Z.lor (Z.shiftl 1 15) (Z.shiftl privilege 13)) (Z.shiftl size 11))
               (Z.shiftl kind 8))) 32)).

Definition create_interrupt_gate_descriptor : Z -> Z -> Z -> Z -> Z := create_gate_descriptor 6.
Definition create_trap_gate_descriptor : Z -> Z -> Z -> Z -> Z := create_gate_descriptor 7.

(** ** What the processor reads *)

(** The [w] bits of [d] from bit [i]. *)
Definition field (d i w : Z) : Z := Z.land (Z.shiftr d i) (Z.ones w).

Record segment := Segment {
  seg_base : Z;
  seg_limit : Z;                      (* the 20-bit limit field *)
  seg_4k : bool;                      (* the limit counts blocks of 4 KiB *)
  seg_present : bool;
  seg_dpl : Z;
  seg_normal : bool;                  (* not a system segment *)
  seg_type : Z;                       (* four bits: code, conforming or down, readable or writable, accessed *)
  seg_32bit : bool
}.

Definition decode_segment (d : Z) : segment := {|
  seg_base := Z.lor (Z.lor (field d 16 16) (Z.shiftl (field d 32 8) 16)) (Z.shiftl (field d 56 8) 24);
  seg_limit := Z.lor (field d 0 16) (Z.shiftl (field d 48 4) 16);
  seg_4k := Z.testbit d 55;
  seg_present := Z.testbit d 47;
  seg_dpl := field d 45 2;
  seg_normal := Z.testbit d 44;
  seg_type := field d 40 4;
  seg_32bit := Z.testbit d 54
|}.

(** The last offset the processor accepts in the segment. *)
Definition seg_last (s : segment) : Z :=
  if seg_4k s then seg_limit s * 4096 + 4095 else seg_limit s.

(** The linear address of an offset. *)
Definition seg_linear (s : segment) (off : Z) : Z := u32 (seg_base s + off).

Record gate := Gate {
  gate_offset : Z;
  gate_selector : Z;
  gate_dpl : Z;
  gate_present : bool;
  gate_kind : Z;                      (* 6: interrupt gate, 7: trap gate *)
  gate_32bit : bool
}.

Definition decode_gate (d : Z) : gate := {|
  gate_offset := Z.lor (field d 0 16) (Z.shiftl (field d 48 16) 16);
  gate_selector := field d 16 16;
  gate_dpl := field d 45 2;
  gate_present := Z.testbit d 47;
  gate_kind := field d 40 3;
  gate_32bit := Z.testbit d 43
|}.

(** ** Proofs by bits *)

Lemma field_testbit d i w j :
  0 <= i -> 0 <= w -> 0 <= j -> Z.testbit (field d i w) j = (j <? w) && Z.testbit d (j + i).
Proof.
  intros Hi Hw Hj. unfold field.
  rewrite Z.land_spec, Z.shiftr_spec, Z.testbit_ones_nonneg by lia. by rewrite andb_comm.
Qed.

(** Pushes [Z.testbit] through one operation, deciding with [lia] whether the
    index is negative or outside the operand. *)
Ltac bit_step :=
  let neg x j := rewrite (Z.testbit_neg_r x j) by lia in
  match goal with
  | |- context [Z.testbit (field ?d ?i ?w) ?j] =>
      first [ rewrite (field_testbit d i w j) by lia; zbool; cbn [andb] | neg (field d i w) j ]
  | |- context [Z.testbit (Z.lor ?a ?b) ?j] => rewrite (Z.lor_spec a b j)
  | |- context [Z.testbit (Z.land ?a ?b) ?j] => rewrite (Z.land_spec a b j)
  | |- context [Z.testbit (Z.shiftl ?a ?n) ?j] =>
      first [ rewrite (Z.shiftl_spec a n j) by lia | neg (Z.shiftl a n) j ]
  | |- context [Z.testbit (Z.shiftr ?a ?n) ?j] =>
      first [ rewrite (Z.shiftr_spec a n j) by lia | neg (Z.shiftr a n) j ]
  | |- context [Z.testbit (wrap ?w ?a) ?j] =>
      first [ rewrite (wrap_testbit w ltac:(lia) a j) by lia; zbool; cbn [andb]
            | neg (wrap w a) j ]
  | |- context [Z.testbit (Z.ones ?w) ?j] =>
      first [ rewrite (Z.testbit_ones_nonneg w j) by lia; zbool | neg (Z.ones w) j ]
  end.

(** Bits outside the width of a variable. *)
Ltac bit_zero :=
  repeat match goal with
  | H : in_width ?w ?x |- context [Z.testbit ?x ?j] =>
      first [ rewrite (testbit_high w ltac:(lia) x j H) by lia
            | rewrite (Z.testbit_neg_r x j) by lia ]
  | |- context [Z.testbit ?x ?j] => rewrite (Z.testbit_neg_r x j) by lia
  end.

Ltac bit_solve :=
  repeat bit_step; bit_zero;
  rewrite ?orb_false_r, ?orb_false_l, ?andb_false_r, ?andb_false_l, ?andb_true_r,
    ?andb_true_l, ?orb_true_r, ?orb_false_r, ?orb_false_l;
  try (f_equal; lia); try done.

(** Splits the current goal on [j < n]. *)
Ltac split_at j n := destruct (Z.lt_ge_cases j n).

(** Splits an index known to be below 4 into its values. *)
Ltac small_index j := assert (j = 0 \/ j = 1 \/ j = 2 \/ j = 3) as [-> | [-> | [-> | ->]]] by lia.

(** ** Round trips *)

Section Descriptor.
Context (base limit present privilege normal_segment permissions accessed granularity size : Z).
Context (Hbase : in_width 32 base) (Hlimit : in_width 32 limit) (Hpresent : in_width 1 present)
  (Hprivilege : in_width 2 privilege) (Hnormal : in_width 1 normal_segment)
  (Hpermissions : in_width 3 permissions) (Haccessed : in_width 1 accessed)
  (Hgranularity : in_width 1 granularity) (Hsize : in_width 1 size).
Let d := create_descriptor base limit present privilege normal_segment permissions accessed
  granularity size.

(** The masks of the macro as runs of ones. *)
#[local] Ltac unfold_masks :=
  unfold d, decode_segment, create_descriptor;
  cbn [seg_base seg_limit seg_4k seg_present seg_dpl seg_normal seg_type seg_32bit];
  change 0xF0000 with (Z.shiftl (Z.ones 4) 16);
  change 0xFF with (Z.shiftl (Z.ones 8) 0);
  change 0xFF000000 with (Z.shiftl (Z.ones 8) 24);
  change 0xFFFF with (Z.shiftl (Z.ones 16) 0).

Lemma descriptor_base : seg_base (decode_segment d) = base.
Proof using Hbase Hlimit Hpresent Hprivilege Hnormal Hpermissions Haccessed Hgranularity Hsize.
  unfold_masks. apply Z.bits_inj'. intros j Hj.
  split_at j 16; [|split_at j 24; [|split_at j 32]]; bit_solve.
Qed.

Lemma descriptor_limit : seg_limit (decode_segment d) = limit mod 2 ^ 20.
Proof using Hbase Hlimit Hpresent Hprivilege Hnormal Hpermissions Haccessed Hgranularity Hsize.
  change (limit mod 2 ^ 20) with (wrap 20 limit).
  unfold_masks. apply Z.bits_inj'. intros j Hj.
  split_at j 16; [|split_at j 20]; bit_solve.
Qed.

Lemma descriptor_type :
  seg_type (decode_segment d) = Z.lor accessed (Z.shiftl permissions 1).
Proof using Hbase Hlimit Hpresent Hprivilege Hnormal Hpermissions Haccessed Hgranularity Hsize.
  unfold_masks. apply Z.bits_inj'. intros j Hj. split_at j 4; [small_index j|]; bit_solve.
Qed.

Lemma descriptor_dpl : seg_dpl (decode_segment d) = privilege.
Proof using Hbase Hlimit Hpresent Hprivilege Hnormal Hpermissions Haccessed Hgranularity Hsize.
  unfold_masks. apply Z.bits_inj'. intros j Hj. split_at j 2; [|bit_solve].
  assert (j = 0 \/ j = 1) as [-> | ->] by lia; bit_solve.
Qed.

Lemma descriptor_flags :
  seg_4k (decode_segment d) = Z.testbit granularity 0 /\
  seg_32bit (decode_segment d) = Z.testbit size 0 /\
  seg_present (decode_segment d) = Z.testbit present 0 /\
  seg_normal (decode_segment d) = Z.testbit normal_segment 0.
Proof using Hbase Hlimit Hpresent Hprivilege Hnormal Hpermissions Haccessed Hgranularity Hsize.
  unfold_masks. repeat split; bit_solve.
Qed.

(** The processor decodes every field of the descriptor; of the limit it sees
    the 20 low bits. *)
Lemma decode_create_descriptor :
  decode_segment d = {|
    seg_base := base; seg_limit := limit mod 2 ^ 20; seg_4k := Z.testbit granularity 0;
    seg_present := Z.testbit present 0; seg_dpl := privilege;
    seg_normal := Z.testbit normal_segment 0;
    seg_type := Z.lor accessed (Z.shiftl permissions 1); seg_32bit := Z.testbit size 0 |}.
Proof using Hbase Hlimit Hpresent Hprivilege Hnormal Hpermissions Haccessed Hgranularity Hsize.
  pose proof descriptor_base as E1. pose proof descriptor_limit as E2.
  pose proof descriptor_type as E3. pose proof descriptor_dpl as E4.
  destruct descriptor_flags as (E5 & E6 & E7 & E8).
  destruct (decode_segment d). cbn in *. congruence.
Qed.
End Descriptor.

Section Gates.
Context (kind func_ptr selector privilege size : Z).
Context (Hkind : in_width 3 kind) (Hfunc : in_width 32 func_ptr) (Hsel : in_width 16 selector)
  (Hprivilege : in_width 2 privilege) (Hsize : in_width 1 size).

Lemma decode_create_gate :
  decode_gate (create_gate_descriptor kind func_ptr selector privilege size) = {|
    gate_offset := func_ptr; gate_selector := selector; gate_dpl := privilege;
    gate_present := true; gate_kind := kind; gate_32bit := Z.testbit size 0 |}.
Proof using Hkind Hfunc Hsel Hprivilege Hsize.
  unfold decode_gate, create_gate_descriptor.
  change 0xFFFF0000 with (Z.shiftl (Z.ones 16) 16). change 0xFFFF with (Z.shiftl (Z.ones 16) 0).
  assert (in_width 1 1) by (unfold in_width; lia).
  f_equal; try (apply Z.bits_inj'; intros j Hj).
  - split_at j 16; [|split_at j 32]; bit_solve.
  - split_at j 16; bit_solve.
  - split_at j 2; [|bit_solve]. assert (j = 0 \/ j = 1) as [-> | ->] by lia; bit_solve.
  - bit_solve.
  - split_at j 3; [|bit_solve].
    assert (j = 0 \/ j = 1 \/ j = 2) as [-> | [-> | ->]] by lia; bit_solve.
  - bit_solve.
Qed.
End Gates.

(** Selectors. *)
Lemma decode_selector privilege in_ldt index :
  in_width 2 privilege -> 0 <= index ->
  let s := segment_selector privilege in_ldt index in
  selector_rpl s = privilege /\ selector_ldt s = in_ldt /\ selector_index s = index.
Proof.
  intros Hp Hi s. unfold s, selector_rpl, selector_ldt, selector_index, segment_selector.
  change (Z.land privilege 3) with (Z.land privilege (Z.ones 2)).
  assert (in_width 1 (if in_ldt then 1 else 0)) as Hl by (destruct in_ldt; unfold in_width; lia).
  assert (Z.testbit (if in_ldt then 1 else 0) 0 = in_ldt) as Hb by by destruct in_ldt.
  revert Hl Hb. generalize (if in_ldt then 1 else 0). intros l Hl Hb.
  split; [|split].
  - match goal with |- Z.land ?x 3 = _ => change (Z.land x (Z.ones 2) = privilege) end.
    apply Z.bits_inj'. intros j Hj. split_at j 2; bit_solve.
  - rewrite <-Hb. bit_solve.
  - apply Z.bits_inj'. intros j Hj. bit_solve.
Qed.

(** Only the low 64 bits are decoded. *)
Lemma field_u64 d i w : 0 <= i -> 0 <= w -> i + w <= 64 -> field (u64 d) i w = field d i w.
Proof.
  intros Hi Hw Hiw. apply Z.bits_inj'. intros j Hj. split_at j w; [|].
  - rewrite !field_testbit, wrap_testbit by lia. zbool. done.
  - rewrite !field_testbit by lia. by zbool.
Qed.

Lemma decode_segment_u64 d : decode_segment (u64 d) = decode_segment d.
Proof.
  unfold decode_segment. rewrite !field_u64 by lia. by rewrite !wrap_testbit by lia.
Qed.

(** A privilege-3 segment over a range of addresses, as the context switch
    writes it: code (type 10) or data (type 2), in blocks of 4 KiB. *)
Definition user_segment (base limit type : Z) : segment := {|
  seg_base := base; seg_limit := limit mod 2 ^ 20; seg_4k := true; seg_present := true;
  seg_dpl := 3; seg_normal := true; seg_type := type; seg_32bit := true |}.

Lemma decode_user_code base limit :
  in_width 32 base -> in_width 32 limit ->
  decode_segment (create_code_descriptor base limit 3 0 1 0 1 S32BIT) = user_segment base limit 10.
Proof.
  intros Hb Hl. unfold create_code_descriptor.
  rewrite decode_create_descriptor by (done || by vm_compute). done.
Qed.

Lemma decode_user_data base limit :
  in_width 32 base -> in_width 32 limit ->
  decode_segment (create_data_descriptor base limit 3 0 1 0 1 S32BIT) = user_segment base limit 2.
Proof.
  intros Hb Hl. unfold create_data_descriptor.
  rewrite decode_create_descriptor by (done || by vm_compute). done.
Qed.

(** A segment that does not wrap around gives no access below its base. *)
Lemma seg_linear_above s off :
  0 <= seg_base s -> seg_base s + seg_last s < 2 ^ 32 -> 0 <= off <= seg_last s ->
  seg_base s <= seg_linear s off.
Proof.
  intros Hb Hl Ho. unfold seg_linear. rewrite wrap_small by (unfold in_width; lia). lia.
Qed.
