(* ===== verification/LowLevel.v ===== *)
(** * The x86 layer (low_level.c, low_level.h, copy64.c)

    The tables the processor reads (GDT, TSS, IDT), their initialisation, the
    context switch and the entry of an interrupt.  A context switch leaves the
    kernel through popa and iret; an interrupt enters it by pushing on the stack
    that the TSS designates, which the switch has placed at the end of the saved
    registers of the running context, so that entering the kernel is saving the
    context.  Addresses of objects are a parameter ([symbols], what the linker
    chooses); the stack pointer of the TSS is kept as an object and an offset. *)

From stdpp Require Import options.
From S2P Require Import Prelude Contexts Timer Fprint Terminal Segment.

(** ** Tables *)

(** The addresses the linker gives to the objects of the kernel. *)
Record symbols := Symbols {
  sym_context : cptr -> Z;
  sym_tss : Z;
  sym_gdt : Z;
  sym_idt : Z;
  sym_default_handler : Z -> Z;       (* asm_default_interrupt_handler_<n> *)
  sym_syscall_handler : Z;
  sym_timer_handler : Z;
  sym_unimplemented_handler : Z;
  sym_idle : Z
}.

Record system_gdt := SystemGdt {
  gdt_null : Z;
  gdt_kernel_code : Z;
  gdt_kernel_data : Z;
  gdt_user_code : Z;
  gdt_user_data : Z;
  gdt_tss : Z
}.

(** offsetof(struct system_gdt, ...) / sizeof(segment_descriptor_t). *)
Definition KERNEL_CODE_SEGMENT_INDEX : Z := 1.
Definition KERNEL_DATA_SEGMENT_INDEX : Z := 2.
Definition USER_CODE_SEGMENT_INDEX : Z := 3.
Definition USER_DATA_SEGMENT_INDEX : Z := 4.
Definition TSS_SEGMENTS_FIRST_INDEX : Z := 5.

Definition gdt_entries (g : system_gdt) : list Z :=
  [gdt_null g; gdt_kernel_code g; gdt_kernel_data g; gdt_user_code g; gdt_user_data g; gdt_tss g].

(** The two fields of struct tss that are used; esp0 as an object and an offset. *)
Record tss := Tss { esp0 : option (cptr * Z); ss0 : Z }.

Record lowlevel := LowLevel {
  ll_gdt : system_gdt;
  ll_tss : tss;
  ll_idt : list Z;
  ll_gdtr : Z * Z;                    (* limit, base *)
  ll_idtr : Z * Z;
  ll_tr : Z;
  ll_ports : list (Z * Z)             (* the port writes, oldest first *)
}.

(** The static variables before low_level_init: zeros. *)
Definition lowlevel_zero : lowlevel :=
  LowLevel (SystemGdt 0 0 0 0 0 0) (Tss None 0) (replicate 256 0) (0, 0) (0, 0) 0 [].

Definition set_gdt (g : system_gdt) (l : lowlevel) : lowlevel :=
  LowLevel g (ll_tss l) (ll_idt l) (ll_gdtr l) (ll_idtr l) (ll_tr l) (ll_ports l).
Definition set_tss (t : tss) (l : lowlevel) : lowlevel :=
  LowLevel (ll_gdt l) t (ll_idt l) (ll_gdtr l) (ll_idtr l) (ll_tr l) (ll_ports l).
Definition add_ports (ps : list (Z * Z)) (l : lowlevel) : lowlevel :=
  LowLevel (ll_gdt l) (ll_tss l) (ll_idt l) (ll_gdtr l) (ll_idtr l) (ll_tr l) (ll_ports l ++ ps).

(** ** Contexts *)

Definition sizeof_pusha : Z := 32.
Definition sizeof_iframe : Z := 20.

(** flags: the reserved bit and the interrupt flag. *)
Definition initial_flags : Z := Z.lor (Z.shiftl 1 1) (Z.shiftl 1 9).

(** hw_context_init, with DYNAMIC_DESCRIPTORS and without DEBUG. *)
Definition hw_context_init (h : hw_context) (pc arg start_address end_address : Z) : hw_context :=
  let r := regs h in
  {| regs := Pusha (edi r) (esi r) (ebp r) (pusha_esp r) (ebx r) (edx r) (ecx r) arg;
     iframe := Iframe pc (gdt_segment_selector 3 USER_CODE_SEGMENT_INDEX) initial_flags
                 (esp (iframe h)) (gdt_segment_selector 3 USER_DATA_SEGMENT_INDEX);
     Contexts.start_address := start_address;
     Contexts.memsize := u32 (end_address - start_address) |}.

Definition hw_context_idle_init (syms : symbols) (h : hw_context) : hw_context :=
  {| regs := regs h;
     iframe := Iframe (sym_idle syms) (gdt_segment_selector 3 KERNEL_CODE_SEGMENT_INDEX)
                 initial_flags (esp (iframe h)) (gdt_segment_selector 3 USER_DATA_SEGMENT_INDEX);
     Contexts.start_address := 0;
     Contexts.memsize := 0xFFFFFFFF |}.

Definition hw_context_set_return1 (h : hw_context) (ret1 : Z) : hw_context :=
  let r := regs h in
  set_regs (Pusha (edi r) (esi r) (ebp r) (pusha_esp r) (ebx r) (edx r) (ecx r) ret1) h.

Definition hw_context_is_idle (img : user_tasks_image) (ctx : cptr) : bool :=
  bool_decide (ctx = context_idle img).

(** ** Leaving the kernel *)

(** The registers of the processor in user mode. *)
Record cpu := Cpu {
  c_edi : Z; c_esi : Z; c_ebp : Z; c_ebx : Z; c_edx : Z; c_ecx : Z; c_eax : Z;
  c_eip : Z; c_cs : Z; c_flags : Z; c_esp : Z; c_ss : Z; c_ds : Z
}.

(** They hold 32 bits; the segment registers are among them as saved. *)
Definition cpu_words (c : cpu) : list Z :=
  [c_edi c; c_esi c; c_ebp c; c_ebx c; c_edx c; c_ecx c; c_eax c; c_eip c; c_cs c; c_flags c;
   c_esp c; c_ss c; c_ds c].
Definition cpu_typed (c : cpu) : Prop := Forall (in_width 32) (cpu_words c).

(** The descriptor a selector designates; the local table is not used. *)
Definition gdt_descriptor (g : system_gdt) (s : Z) : option segment :=
  if selector_ldt s then None
  else decode_segment <$> gdt_entries g !! Z.to_nat (selector_index s).

(** The checks of the processor when ds is loaded at privilege 0. *)
Definition load_ds_reg (g : system_gdt) (newds : Z) : res Z :=
  match gdt_descriptor g newds with
  | Some s =>
      if seg_present s && seg_normal s && negb (Z.testbit (seg_type s) 3)
         && (selector_rpl newds <=? seg_dpl s)
      then Ok newds else Err (Undef HwFault)
  | None => Err (Undef HwFault)
  end.

(** The other segment registers that hold data are loaded alike. *)
Definition load_ds_imm : system_gdt -> Z -> res Z := load_ds_reg.
Definition load_es : system_gdt -> Z -> res Z := load_ds_reg.
Definition load_fs : system_gdt -> Z -> res Z := load_ds_reg.
Definition load_gs : system_gdt -> Z -> res Z := load_ds_reg.

(** ss, at privilege 0: a present writable data segment of privilege 0. *)
Definition load_ss (g : system_gdt) (newss : Z) : res Z :=
  match gdt_descriptor g newss with
  | Some s =>
      if seg_present s && seg_normal s && negb (Z.testbit (seg_type s) 3)
         && Z.testbit (seg_type s) 1 && (selector_rpl newss =? 0) && (seg_dpl s =? 0)
      then Ok newss else Err (Undef HwFault)
  | None => Err (Undef HwFault)
  end.

Definition load_data_segments (g : system_gdt) (newds : Z) : res Z :=
  let* _ := load_ss g newds in
  let* _ := load_ds_imm g newds in
  let* _ := load_es g newds in
  let* _ := load_fs g newds in
  load_gs g newds.

(** The far jump, at privilege 0, to a present code segment that is not
    conforming. *)
Definition load_code_segment (g : system_gdt) (newcs : Z) : res Z :=
  match gdt_descriptor g newcs with
  | Some s =>
      if seg_present s && seg_normal s && Z.testbit (seg_type s) 3
         && negb (Z.testbit (seg_type s) 2) && (selector_rpl newcs =? 0) && (seg_dpl s =? 0)
      then Ok newcs else Err (Undef HwFault)
  | None => Err (Undef HwFault)
  end.

(** iret from privilege 0 to privilege 3: the code segment must be a present
    code segment, the stack segment a present writable data segment, both of
    privilege 3. *)
Definition iret_ok (g : system_gdt) (f : inter_privilege_interrupt_frame) : bool :=
  match gdt_descriptor g (cs f), gdt_descriptor g (ss f) with
  | Some c, Some s =>
      (selector_rpl (cs f) =? 3) && (selector_rpl (ss f) =? 3)
      && seg_present c && seg_normal c && Z.testbit (seg_type c) 3 && (seg_dpl c =? 3)
      && seg_present s && seg_normal s && negb (Z.testbit (seg_type s) 3)
      && Z.testbit (seg_type s) 1 && (seg_dpl s =? 3)
  | _, _ => false
  end.

(** copy64: a 64-bit load and store. *)
Definition copy64 (src : Z) : Z := u64 src.

(** The tables after the stores of hw_context_switch_no_idle. *)
Definition switch_tables (ctx : cptr) (h : hw_context) (l : lowlevel) : lowlevel :=
  let l1 := set_tss (Tss (Some (ctx, sizeof_pusha + sizeof_iframe)) (ss0 (ll_tss l))) l in
  let g := ll_gdt l1 in
  let code := copy64 (create_code_descriptor (start_address h) (memsize h) 3 0 1 0 1 S32BIT) in
  let data := copy64 (create_data_descriptor (start_address h) (memsize h) 3 0 1 0 1 S32BIT) in
  set_gdt (SystemGdt (gdt_null g) (gdt_kernel_code g) (gdt_kernel_data g) code data (gdt_tss g)) l1.

(** The registers after popa and iret. *)
Definition restore (h : hw_context) (ds : Z) : cpu :=
  let r := regs h in
  let f := iframe h in
  Cpu (edi r) (esi r) (ebp r) (ebx r) (edx r) (ecx r) (eax r)
    (eip f) (cs f) (flags f) (esp f) (ss f) ds.

Definition hw_context_switch_no_idle (ctx : cptr) (m : mem) (l : lowlevel) : res (cpu * lowlevel) :=
  let* c := load m ctx in
  let h := hw c in
  let l1 := switch_tables ctx h l in
  let* ds := load_ds_reg (ll_gdt l1) (ss (iframe h)) in
  if iret_ok (ll_gdt l1) (iframe h) then Ok (restore h ds, l1) else Err (Undef HwFault).

(** With UNPRIVILEGED_IDLE the idle context is switched to like any other. *)
Definition hw_context_switch (ctx : cptr) (m : mem) (l : lowlevel) : res (cpu * lowlevel) :=
  hw_context_switch_no_idle ctx m l.
Definition hw_context_idle (img : user_tasks_image) (m : mem) (l : lowlevel)
    : res (cpu * lowlevel) :=
  hw_context_switch (context_idle img) m l.

(** ignore_interrupt_handler, an iret alone: the registers of the interrupted
    code are untouched.  No gate leads to it. *)
Definition ignore_interrupt_handler (c : cpu) : cpu := c.

(** ** Entering the kernel *)

(** struct hw_context as 32-bit words, in memory order. *)
Definition hw_words (h : hw_context) : list Z :=
  let r := regs h in
  let f := iframe h in
  [edi r; esi r; ebp r; pusha_esp r; ebx r; edx r; ecx r; eax r;
   eip f; cs f; flags f; esp f; ss f; start_address h; memsize h].

Definition hw_of_words (l : list Z) : option hw_context :=
  match l with
  | [w0; w1; w2; w3; w4; w5; w6; w7; w8; w9; w10; w11; w12; w13; w14] =>
      Some (HwContext (Pusha w0 w1 w2 w3 w4 w5 w6 w7) (Iframe w8 w9 w10 w11 w12) w13 w14)
  | _ => None
  end.

(** A word stored at an offset of a context's hw_context. *)
Definition hw_store (m : mem) (p : cptr) (off v : Z) : res mem :=
  let* c := load m p in
  if (0 <=? off) && (off mod 4 =? 0) && (off <? 60) then
    match hw_of_words (<[Z.to_nat (off / 4) := v]> (hw_words (hw c))) with
    | Some h => Ok (<[p := set_hw h c]> m)
    | None => Err (Undef BadPointer)
    end
  else Err (Undef BadPointer).

(** [push] of each value, the first one first. *)
Fixpoint pushes (vs : list Z) (m : mem) (p : cptr) (off : Z) : res (mem * Z) :=
  match vs with
  | [] => Ok (m, off)
  | v :: vs =>
      let off1 := off - 4 in
      let* m1 := hw_store m p off1 v in pushes vs m1 p off1
  end.

(** An interrupt from privilege 3: the processor takes the stack of the TSS and
    pushes ss, esp, the flags, cs, eip and, for some exceptions, an error code;
    then INTERRUPT_HANDLER_PROLOGUE executes pusha and passes the stack pointer
    to the handler, in eax. *)
Definition interrupt_entry (syms : symbols) (error_code : list Z) (c : cpu) (m : mem) (l : lowlevel)
    : res (cptr * mem) :=
  match esp0 (ll_tss l) with
  | None => Err (Undef BadPointer)
  | Some (p, off) =>
      let* (m1, off1) := pushes ([c_ss c; c_esp c; c_flags c; c_cs c; c_eip c] ++ error_code)
                        m p off in
      let* (m2, off2) := pushes [c_eax c; c_ecx c; c_edx c; c_ebx c;
                                 u32 (sym_context syms p + off1);
                                 c_ebp c; c_esi c; c_edi c] m1 p off1 in
      if off2 =? 0 then Ok (p, m2) else Err (Undef BadPointer)
  end.

(** ** Interrupt gates *)

Definition SYSCALL_INTNUM : Z := 0x27.
Definition TIMER_INTNUM : Z := 0x40.
Definition SPURIOUS_TIMER_INTNUM : Z := 0x48.
Definition NB_GATE_DESCRIPTORS : nat := 256.

(** The store [idt[n] = create_interrupt_gate_descriptor(f, ..., privilege, S32BIT)]. *)
Definition install_gate (n func_ptr privilege : Z) (idt : list Z) : list Z :=
  <[Z.to_nat n := create_interrupt_gate_descriptor func_ptr
                    (gdt_segment_selector 0 KERNEL_CODE_SEGMENT_INDEX) privilege S32BIT]> idt.

(** FOREACH_256 of macros.h: the statements M(0) M(1) ... M(255). *)
Definition FOREACH_256 {A} (M : A -> Z -> A) (a : A) : A :=
  fold_left M (Z.of_nat <$> seq 0 256) a.

(** FOREACH_256(INSTALL_DEFAULT_HANDLER). *)
Definition install_default_handlers (syms : symbols) (idt : list Z) : list Z :=
  FOREACH_256 (fun idt n => install_gate n (sym_default_handler syms n) 3 idt) idt.

Definition sizeof_idt : Z := 2048.

Definition init_interrupts (syms : symbols) (l : lowlevel) : lowlevel :=
  let l1 := add_ports (init_pic TIMER_INTNUM SPURIOUS_TIMER_INTNUM) l in
  let idt1 := install_default_handlers syms (ll_idt l1) in
  let idt2 := install_gate SYSCALL_INTNUM (sym_syscall_handler syms) 3 idt1 in
  let idt3 := install_gate TIMER_INTNUM (sym_timer_handler syms) 0 idt2 in
  let idt4 := install_gate SPURIOUS_TIMER_INTNUM (sym_unimplemented_handler syms) 0 idt3 in
  LowLevel (ll_gdt l1) (ll_tss l1) idt4 (ll_gdtr l1) (u16 sizeof_idt, sym_idt syms)
    (ll_tr l1) (ll_ports l1).

(** The handlers of the file, and the one a gate designates. *)
Inductive handler := SyscallHandler | TimerHandler | UnimplementedHandler | DefaultHandler (num : Z).

Definition handler_at (syms : symbols) (addr : Z) : option handler :=
  if addr =? sym_syscall_handler syms then Some SyscallHandler
  else if addr =? sym_timer_handler syms then Some TimerHandler
  else if addr =? sym_unimplemented_handler syms then Some UnimplementedHandler
  else
    match list_find (fun n => sym_default_handler syms n = addr) (Z.of_nat <$> seq 0 256) with
    | Some (_, n) => Some (DefaultHandler n)
    | None => None
    end.

(** The exceptions of enum interrupt_number, and their numbers. *)
Inductive exception :=
  | DIVIDE_BY_ZERO_INTNUM
  | DEBUG_INTNUM
  | NON_MASKABLE_INTERRUPT_INTNUM
  | BREAKPOINT_INTNUM
  | OVERFLOW_INTNUM
  | BOUND_RANGE_EXCEEDED_INTNUM
  | INVALID_OPCODE_INTNUM
  | DEVICE_NOT_AVAILABLE_INTNUM
  | DOUBLE_FAULT_INTNUM
  | COPROCESSOR_SEGMENT_OVERRUN_INTNUM
  | INVALID_TSS_INTNUM
  | SEGMENT_NOT_PRESENT_INTNUM
  | STACK_SEGMENT_FAULT_INTNUM
  | GENERAL_PROTECTION_FAULT_INTNUM
  | PAGE_FAULT_INTNUM
  | RESERVED_INTNUM
  | X87_FLOATING_POINT_EXCEPTION_INTNUM
  | ALIGNMENT_CHECK_INTNUM
  | MACHINE_CHECK_INTNUM
  | SIMD_FLOATING_POINT_EXCEPTION_INTNUM
  | VIRTUALIZATION_EXCEPTION_INTNUM
  | SECURITY_EXCEPTION_INTNUM.

Definition exception_number (num : Z) : option exception :=
  match num with
  | 0x00 => Some DIVIDE_BY_ZERO_INTNUM
  | 0x01 => Some DEBUG_INTNUM
  | 0x02 => Some NON_MASKABLE_INTERRUPT_INTNUM
  | 0x03 => Some BREAKPOINT_INTNUM
  | 0x04 => Some OVERFLOW_INTNUM
  | 0x05 => Some BOUND_RANGE_EXCEEDED_INTNUM
  | 0x06 => Some INVALID_OPCODE_INTNUM
  | 0x07 => Some DEVICE_NOT_AVAILABLE_INTNUM
  | 0x08 => Some DOUBLE_FAULT_INTNUM
  | 0x09 => Some COPROCESSOR_SEGMENT_OVERRUN_INTNUM
  | 0x0a => Some INVALID_TSS_INTNUM
  | 0x0b => Some SEGMENT_NOT_PRESENT_INTNUM
  | 0x0c => Some STACK_SEGMENT_FAULT_INTNUM
  | 0x0d => Some GENERAL_PROTECTION_FAULT_INTNUM
  | 0x0e => Some PAGE_FAULT_INTNUM
  | 0x0f => Some RESERVED_INTNUM
  | 0x10 => Some X87_FLOATING_POINT_EXCEPTION_INTNUM
  | 0x11 => Some ALIGNMENT_CHECK_INTNUM
  | 0x12 => Some MACHINE_CHECK_INTNUM
  | 0x13 => Some SIMD_FLOATING_POINT_EXCEPTION_INTNUM
  | 0x14 => Some VIRTUALIZATION_EXCEPTION_INTNUM
  | 0x1e => Some SECURITY_EXCEPTION_INTNUM
  | _ => None
  end.

(** default_interrupt_handler: the message and arguments of task_fatal or fatal. *)
Definition default_interrupt_handler (num : Z) : error :=
  match exception_number num with
  | Some DIVIDE_BY_ZERO_INTNUM => Fatal ("Division by zero exception" +:+ nl) []
  | Some DEBUG_INTNUM => Fatal ("Debug exception" +:+ nl) []
  | Some NON_MASKABLE_INTERRUPT_INTNUM => Fatal ("Non maskable interrupt exception" +:+ nl) []
  | Some BREAKPOINT_INTNUM => Fatal ("Breakpoint exception" +:+ nl) []
  | Some OVERFLOW_INTNUM => Fatal ("Overflow exception" +:+ nl) []
  | Some BOUND_RANGE_EXCEEDED_INTNUM => Fatal ("Bound range exceeded exception" +:+ nl) []
  | Some INVALID_OPCODE_INTNUM => Fatal ("Invalid opcode exception" +:+ nl) []
  | Some DEVICE_NOT_AVAILABLE_INTNUM => Fatal ("Device not available exception" +:+ nl) []
  | Some DOUBLE_FAULT_INTNUM => Fatal ("Double fault exception" +:+ nl) []
  | Some COPROCESSOR_SEGMENT_OVERRUN_INTNUM => Fatal ("Coprocessor segment overrun exception" +:+ nl) []
  | Some INVALID_TSS_INTNUM => Fatal ("Invalid TSS exception" +:+ nl) []
  | Some SEGMENT_NOT_PRESENT_INTNUM => Fatal ("Segment not present exception" +:+ nl) []
  | Some STACK_SEGMENT_FAULT_INTNUM => Fatal ("Stack segment fault exception" +:+ nl) []
  | Some GENERAL_PROTECTION_FAULT_INTNUM => Fatal ("General protection fault exception" +:+ nl) []
  | Some PAGE_FAULT_INTNUM => Fatal ("Page fault exception" +:+ nl) []
  | Some X87_FLOATING_POINT_EXCEPTION_INTNUM => Fatal ("X86 floating point exception" +:+ nl) []
  | Some ALIGNMENT_CHECK_INTNUM => Fatal ("Alignment check exception" +:+ nl) []
  | Some MACHINE_CHECK_INTNUM => Fatal ("Machine check exception" +:+ nl) []
  | Some SIMD_FLOATING_POINT_EXCEPTION_INTNUM => Fatal ("SIMD floating point exception" +:+ nl) []
  | Some VIRTUALIZATION_EXCEPTION_INTNUM => Fatal ("Virtualization exception" +:+ nl) []
  | Some SECURITY_EXCEPTION_INTNUM => Fatal ("Security exception" +:+ nl) []
  | Some RESERVED_INTNUM | None =>
      Fatal ("Received unexpected interrupt: %d (%x)" +:+ nl) [u32 num; u32 num]
  end.

(** ** Initialisation *)

(** struct system_gdt, struct user_task_descriptors and struct tss. *)
Definition sizeof_system_gdt : Z := 48.
Definition sizeof_user_task_descriptors : Z := 16.
Definition sizeof_tss : Z := 104.

(** The multiboot header, which asks for the 80x25 text mode. *)
Definition MULTIBOOT_MAGIC : Z := 0x1BADB002.
Definition MULTIBOOT_FLAGS : Z :=
  Z.lor (Z.lor (Z.shiftl 1 0) (Z.shiftl 1 1)) (Z.shiftl 1 2).
Definition MULTIBOOT_CHECKSUM : Z := u32 (- (MULTIBOOT_FLAGS + MULTIBOOT_MAGIC)).

Record multiboot_base := Multiboot { mb_magic : Z; mb_flags : Z; mb_checksum : Z }.
Record extended_multiboot := ExtendedMultiboot {
  mb_base : multiboot_base;
  mb_header_addr : Z; mb_load_addr : Z; mb_load_end_addr : Z; mb_bss_end_addr : Z; mb_entry_addr : Z;
  mb_mode_type : Z; mb_width : Z; mb_height : Z; mb_depth : Z
}.
Definition multiboot : extended_multiboot :=
  ExtendedMultiboot (Multiboot MULTIBOOT_MAGIC MULTIBOOT_FLAGS MULTIBOOT_CHECKSUM)
    0 0 0 0 0 1 80 25 0.

(** What the loader passes; the kernel does not read it. *)
Record module_information := ModuleInformation {
  mod_start : Z; mod_end : Z; mod_string : Z; mod_reserved : Z
}.
Record multiboot_information := MultibootInformation {
  mbi_flags : Z; mem_lower : Z; mem_upper : Z; boot_device : Z; cmdline : Z;
  mods_count : Z; mods_addr : list module_information
}.

(** The value the loader leaves in eax, as low_level_init expects it. *)
Definition MULTIBOOT_LOADER_MAGIC : Z := 0x2BADB002.

(** lgdt: the limit register has 16 bits. *)
Definition lgdt (base size : Z) (l : lowlevel) : lowlevel :=
  LowLevel (ll_gdt l) (ll_tss l) (ll_idt l) (u16 size, base) (ll_idtr l) (ll_tr l) (ll_ports l).

(** ltr: the descriptor must be an available TSS; it is marked busy. *)
Definition load_tr (ntr : Z) (l : lowlevel) : res lowlevel :=
  let g := ll_gdt l in
  match gdt_descriptor g ntr with
  | Some s =>
      if seg_present s && negb (seg_normal s) && (seg_type s =? 9)
         && (selector_index ntr =? TSS_SEGMENTS_FIRST_INDEX) then
        let g1 := SystemGdt (gdt_null g) (gdt_kernel_code g) (gdt_kernel_data g)
                    (gdt_user_code g) (gdt_user_data g) (Z.lor (gdt_tss g) (Z.shiftl 1 41)) in
        Ok (LowLevel g1 (ll_tss l) (ll_idt l) (ll_gdtr l) (ll_idtr l) ntr (ll_ports l))
      else Err (Undef HwFault)
  | None => Err (Undef HwFault)
  end.

(** low_level_init after the multiboot check: the GDT, the TSS, the segment
    registers of the kernel, the IDT and the timer. *)
Definition low_level_tables (syms : symbols) (img : user_tasks_image) (tm : timer) (l : lowlevel)
    : res (timer * lowlevel) :=
  let g := SystemGdt null_descriptor kernel_code_descriptor kernel_data_descriptor
             (gdt_user_code (ll_gdt l)) (gdt_user_data (ll_gdt l))
             (create_tss_descriptor (sym_tss syms) sizeof_tss 3 0 0) in
  let l1 := set_tss (Tss (esp0 (ll_tss l)) (gdt_segment_selector 0 KERNEL_DATA_SEGMENT_INDEX))
              (set_gdt g l) in
  let l2 := lgdt (sym_gdt syms)
              (sizeof_system_gdt + nb_tasks img * sizeof_user_task_descriptors) l1 in
  let* _ := load_code_segment (ll_gdt l2) (gdt_segment_selector 0 KERNEL_CODE_SEGMENT_INDEX) in
  let* _ := load_data_segments (ll_gdt l2) (gdt_segment_selector 0 KERNEL_DATA_SEGMENT_INDEX) in
  let* l3 := load_tr (gdt_segment_selector 0 TSS_SEGMENTS_FIRST_INDEX) l2 in
  let l4 := init_interrupts syms l3 in
  let '(tm1, ps) := timer_init tm in
  Ok (tm1, add_ports ps l4).

(** low_level_init: with DEBUG_PRINTING the terminal is initialised first, so
    the message of a failed multiboot check is printed on it. *)
Definition low_level_init (cfg : config) (syms : symbols) (img : user_tasks_image)
    (magic_value : Z) (t : terminal) (tm : timer) (l : lowlevel)
    : res ((terminal * timer * lowlevel) + terminal) :=
  let* t1 := if cfg_debug cfg then terminal_initialize t else Ok t in
  catch t1
    (let* _ := if magic_value =? MULTIBOOT_LOADER_MAGIC then Ok tt
               else Err (Fatal "Not loaded by a multiboot loader" []) in
     let* (tm1, l1) := low_level_tables syms img tm l in
     Ok (t1, tm1, l1)).

(** The loader accepts the header: its three words add up to 0. *)
Lemma multiboot_checksum :
  u32 (mb_magic (mb_base multiboot) + mb_flags (mb_base multiboot)
       + mb_checksum (mb_base multiboot)) = 0.
Proof. reflexivity. Qed.

(** ** The context switch *)

(** The saved state of a context that runs in user mode. *)
Definition user_hw (h : hw_context) : Prop :=
  in_width 32 (start_address h) /\ in_width 32 (memsize h) /\
  cs (iframe h) = gdt_segment_selector 3 USER_CODE_SEGMENT_INDEX /\
  ss (iframe h) = gdt_segment_selector 3 USER_DATA_SEGMENT_INDEX.

Lemma switch_code_segment p h l :
  user_hw h ->
  decode_segment (gdt_user_code (ll_gdt (switch_tables p h l)))
    = user_segment (start_address h) (memsize h) 10.
Proof.
  intros (Hs & Hm & _). cbn. unfold copy64. by rewrite decode_segment_u64, decode_user_code.
Qed.

Lemma switch_data_segment p h l :
  user_hw h ->
  decode_segment (gdt_user_data (ll_gdt (switch_tables p h l)))
    = user_segment (start_address h) (memsize h) 2.
Proof.
  intros (Hs & Hm & _). cbn. unfold copy64. by rewrite decode_segment_u64, decode_user_data.
Qed.

Lemma switch_user_code p h l :
  user_hw h ->
  gdt_descriptor (ll_gdt (switch_tables p h l)) (gdt_segment_selector 3 USER_CODE_SEGMENT_INDEX)
    = Some (user_segment (start_address h) (memsize h) 10).
Proof.
  intros Hh. unfold gdt_descriptor. change (selector_ldt _) with false. cbn [fmap option_fmap].
  rewrite <-(switch_code_segment p h l Hh). done.
Qed.

Lemma switch_user_data p h l :
  user_hw h ->
  gdt_descriptor (ll_gdt (switch_tables p h l)) (gdt_segment_selector 3 USER_DATA_SEGMENT_INDEX)
    = Some (user_segment (start_address h) (memsize h) 2).
Proof.
  intros Hh. unfold gdt_descriptor. change (selector_ldt _) with false. cbn [fmap option_fmap].
  rewrite <-(switch_data_segment p h l Hh). done.
Qed.

(** Switching to a user context never faults. *)
Lemma hw_context_switch_ok p m l c :
  m !! p = Some c -> user_hw (hw c) ->
  hw_context_switch p m l
    = Ok (restore (hw c) (gdt_segment_selector 3 USER_DATA_SEGMENT_INDEX), switch_tables p (hw c) l).
Proof.
  intros Hp Hh. unfold hw_context_switch, hw_context_switch_no_idle.
  rewrite (proj2 (load_ok m p c) Hp). cbn [rbind].
  pose proof Hh as (_ & _ & Ecs & Ess). rewrite Ess.
  unfold load_ds_reg, iret_ok. rewrite Ecs, Ess, switch_user_code, switch_user_data by done.
  reflexivity.
Qed.

(** ** The entry of an interrupt *)

(** The context saved when an interrupt arrives while [p] runs with registers [c]. *)
Definition saved (syms : symbols) (p : cptr) (c : cpu) (h : hw_context) : hw_context :=
  HwContext
    (Pusha (c_edi c) (c_esi c) (c_ebp c) (u32 (sym_context syms p + 32)) (c_ebx c) (c_edx c)
       (c_ecx c) (c_eax c))
    (Iframe (c_eip c) (c_cs c) (c_flags c) (c_esp c) (c_ss c))
    (start_address h) (memsize h).

Lemma length_hw_words h : length (hw_words h) = 15%nat.
Proof. done. Qed.

Lemma hw_of_words_words h : hw_of_words (hw_words h) = Some h.
Proof. by destruct h as [[] []]. Qed.

#[global] Instance hw_words_inj : Inj (=) (=) hw_words.
Proof.
  intros h1 h2 E. apply (f_equal hw_of_words) in E. rewrite !hw_of_words_words in E. by injection E.
Qed.

Lemma hw_words_surj ws : length ws = 15%nat -> exists h, hw_words h = ws.
Proof.
  intros Hl. do 16 (destruct ws as [|? ws]; [try discriminate Hl|]); [|discriminate Hl].
  eexists (HwContext (Pusha _ _ _ _ _ _ _ _) (Iframe _ _ _ _ _) _ _). reflexivity.
Qed.

Lemma hw_store_ok m p c k v :
  m !! p = Some c -> (k < 15)%nat ->
  exists h, hw_words h = <[k := v]> (hw_words (hw c)) /\
    hw_store m p (4 * Z.of_nat k) v = Ok (<[p := set_hw h c]> m).
Proof.
  intros Hp Hk. destruct (hw_words_surj (<[k := v]> (hw_words (hw c)))) as [h Hh];
    [by rewrite length_insert|].
  exists h. split; [done|]. unfold hw_store. rewrite (proj2 (load_ok m p c) Hp). cbn [rbind].
  rewrite (Z.mul_comm 4), Z.mod_mul, Z.div_mul by lia. zbool. cbn [andb].
  by rewrite Nat2Z.id, <-Hh, hw_of_words_words.
Qed.

(** Pushing values from word [k] stores them, in reverse, below it. *)
Lemma pushes_ok vs : forall k m p c,
  m !! p = Some c -> (length vs <= k <= 15)%nat ->
  exists h, hw_words h = take (k - length vs) (hw_words (hw c)) ++ reverse vs
                         ++ drop k (hw_words (hw c)) /\
    pushes vs m p (4 * Z.of_nat k)
      = Ok (<[p := set_hw h c]> m, 4 * Z.of_nat (k - length vs)).
Proof.
  induction vs as [|v vs IH]; intros k m p c Hp Hk; cbn [length pushes] in *.
  - exists (hw c). rewrite Nat.sub_0_r, reverse_nil. cbn [app]. rewrite take_drop. split; [done|].
    rewrite insert_id; [done|]. by destruct c.
  - destruct k as [|k]; [lia|].
    replace (4 * Z.of_nat (S k) - 4) with (4 * Z.of_nat k) by lia.
    destruct (hw_store_ok m p c k v Hp) as (h1 & Hh1 & ->); [lia|]. cbn [rbind].
    destruct (IH k (<[p := set_hw h1 c]> m) p (set_hw h1 c)) as (h & Hh & E);
      [apply lookup_insert_eq|lia|].
    exists h. rewrite E, insert_insert_eq. split; [|done].
    rewrite Hh. cbn [hw set_hw]. rewrite Hh1, reverse_cons.
    replace (S k - S (length vs))%nat with (k - length vs)%nat by lia.
    rewrite take_insert_ge by lia. f_equal. rewrite <-app_assoc. f_equal. cbn [app].
    assert (k < length (hw_words (hw c)))%nat as Hlt by (rewrite length_hw_words; lia).
    rewrite (drop_S _ v k); [|by apply list_lookup_insert_eq]. f_equal.
    by rewrite drop_insert_lt by lia.
Qed.

Lemma pushes_app vs ws m p off :
  pushes (vs ++ ws) m p off = (let* (m1, off1) := pushes vs m p off in pushes ws m1 p off1).
Proof.
  revert m off. induction vs as [|v vs IH]; intros m off; [done|]. cbn [pushes app].
  destruct (hw_store m p (off - 4) v); [apply IH|done].
Qed.

(** When the stack of the TSS is the end of the saved registers of [p], the
    entry of the kernel stores the interrupted state in [p]. *)
Lemma interrupt_entry_ok syms c m l p ctx :
  esp0 (ll_tss l) = Some (p, sizeof_pusha + sizeof_iframe) -> m !! p = Some ctx ->
  interrupt_entry syms [] c m l = Ok (p, <[p := set_hw (saved syms p c (hw ctx)) ctx]> m).
Proof.
  intros He Hp. unfold interrupt_entry. rewrite He, app_nil_r.
  destruct (pushes_ok [c_ss c; c_esp c; c_flags c; c_cs c; c_eip c] 13 m p ctx Hp)
    as (h1 & Hh1 & E1); [cbn; lia|].
  change (sizeof_pusha + sizeof_iframe) with (4 * Z.of_nat 13). rewrite E1. cbn [rbind].
  change (4 * Z.of_nat (13 - length [c_ss c; c_esp c; c_flags c; c_cs c; c_eip c])) with 32.
  match goal with |- context [pushes ?vs (<[p := set_hw h1 ctx]> m) p 32] =>
    destruct (pushes_ok vs 8 (<[p := set_hw h1 ctx]> m) p (set_hw h1 ctx)) as (h2 & Hh2 & E2);
      [apply lookup_insert_eq|cbn; lia|] end.
  change (4 * Z.of_nat 8) with 32 in E2. rewrite E2. cbn [rbind].
  rewrite insert_insert_eq. cbn [set_hw hw] in Hh2. rewrite Hh1 in Hh2.
  assert (h2 = saved syms p c (hw ctx)) as -> by (apply hw_words_inj; rewrite Hh2; reflexivity).
  reflexivity.
Qed.

(** With an error code the last push is below the context. *)
Lemma interrupt_entry_error_code syms e c m l p ctx :
  esp0 (ll_tss l) = Some (p, sizeof_pusha + sizeof_iframe) -> m !! p = Some ctx ->
  interrupt_entry syms [e] c m l = Err (Undef BadPointer).
Proof.
  intros He Hp. unfold interrupt_entry. rewrite He.
  destruct (pushes_ok ([c_ss c; c_esp c; c_flags c; c_cs c; c_eip c] ++ [e]) 13 m p ctx Hp)
    as (h1 & Hh1 & E1); [cbn; lia|].
  change (sizeof_pusha + sizeof_iframe) with (4 * Z.of_nat 13). rewrite E1. cbn [rbind app length].
  change (4 * Z.of_nat (13 - 6)) with (4 * Z.of_nat 7).
  match goal with |- context [pushes [?a; ?b; ?c0; ?d; ?e0; ?f; ?g; ?h] ?m1 p _] =>
    destruct (pushes_ok [a; b; c0; d; e0; f; g] 7 m1 p (set_hw h1 ctx)) as (h2 & _ & E2);
      [apply lookup_insert_eq|cbn; lia|];
    change [a; b; c0; d; e0; f; g; h] with ([a; b; c0; d; e0; f; g] ++ [h]) end.
  rewrite pushes_app, E2. cbn [rbind pushes]. unfold hw_store, load. by rewrite lookup_insert_eq.
Qed.

(** The registers a switch loads are those the next interrupt saves. *)
Lemma saved_restore syms p h ds :
  let h' := saved syms p (restore h ds) h in
  iframe h' = iframe h /\ start_address h' = start_address h /\ memsize h' = memsize h /\
  restore h' ds = restore h ds.
Proof. by destruct h as [[] []]. Qed.

(** ** The interrupt table *)

(** The linker's addresses are 32-bit and the handlers are distinct. *)
Record symbols_ok (syms : symbols) : Prop := {
  sok_tss : in_width 32 (sym_tss syms);
  sok_default n : in_width 32 (sym_default_handler syms n);
  sok_syscall : in_width 32 (sym_syscall_handler syms);
  sok_timer : in_width 32 (sym_timer_handler syms);
  sok_unimplemented : in_width 32 (sym_unimplemented_handler syms);
  sok_distinct :
    NoDup (sym_syscall_handler syms :: sym_timer_handler syms :: sym_unimplemented_handler syms
           :: (sym_default_handler syms <$> (Z.of_nat <$> seq 0 256)))
}.

(** The handler each vector is meant for, its address and its privilege. *)
Definition vector_handler (n : Z) : handler :=
  if n =? SPURIOUS_TIMER_INTNUM then UnimplementedHandler
  else if n =? TIMER_INTNUM then TimerHandler
  else if n =? SYSCALL_INTNUM then SyscallHandler
  else DefaultHandler n.

Definition handler_address (syms : symbols) (h : handler) : Z :=
  match h with
  | SyscallHandler => sym_syscall_handler syms
  | TimerHandler => sym_timer_handler syms
  | UnimplementedHandler => sym_unimplemented_handler syms
  | DefaultHandler n => sym_default_handler syms n
  end.

Definition vector_privilege (n : Z) : Z :=
  if (n =? SPURIOUS_TIMER_INTNUM) || (n =? TIMER_INTNUM) then 0 else 3.

Lemma length_install_gate n f pr idt : length (install_gate n f pr idt) = length idt.
Proof. apply length_insert. Qed.

Lemma lookup_install_gate n i f pr idt :
  0 <= n -> (i < length idt)%nat ->
  install_gate n f pr idt !! i =
    if Z.of_nat i =? n then Some (create_interrupt_gate_descriptor f
         (gdt_segment_selector 0 KERNEL_CODE_SEGMENT_INDEX) pr S32BIT)
    else idt !! i.
Proof.
  intros Hn Hi. unfold install_gate. destruct (Z.eqb_spec (Z.of_nat i) n) as [<-|Hne].
  - rewrite Nat2Z.id. by apply list_lookup_insert_eq.
  - rewrite list_lookup_insert_ne; [done|]. lia.
Qed.

Lemma install_range syms k a idt i :
  (i < length idt)%nat ->
  fold_left (fun idt n => install_gate n (sym_default_handler syms n) 3 idt)
    (Z.of_nat <$> seq a k) idt !! i
  = if decide (a <= i < a + k)%nat then
      Some (create_interrupt_gate_descriptor (sym_default_handler syms (Z.of_nat i))
        (gdt_segment_selector 0 KERNEL_CODE_SEGMENT_INDEX) 3 S32BIT)
    else idt !! i.
Proof.
  revert a idt. induction k as [|k IH]; intros a idt Hi; cbn [seq fmap list_fmap fold_left].
  - by rewrite decide_False by lia.
  - rewrite IH, lookup_install_gate by (rewrite ?length_install_gate; lia).
    destruct (Z.eqb_spec (Z.of_nat i) (Z.of_nat a)) as [E|E].
    + assert (i = a) as -> by lia. by rewrite decide_False, decide_True by lia.
    + by destruct (decide (S a <= i < S a + k)%nat), (decide (a <= i < a + S k)%nat); try lia.
Qed.

Lemma length_install_range syms l idt :
  length (fold_left (fun idt n => install_gate n (sym_default_handler syms n) 3 idt) l idt)
    = length idt.
Proof.
  revert idt. induction l as [|n l IH]; intros idt; [done|]. cbn [fold_left].
  by rewrite IH, length_install_gate.
Qed.

(** Every vector has a present interrupt gate to its handler in the kernel's
    code segment. *)
Lemma init_interrupts_gate syms l n :
  symbols_ok syms -> length (ll_idt l) = 256%nat -> 0 <= n < 256 ->
  decode_gate <$> ll_idt (init_interrupts syms l) !! Z.to_nat n = Some {|
    gate_offset := handler_address syms (vector_handler n);
    gate_selector := gdt_segment_selector 0 KERNEL_CODE_SEGMENT_INDEX;
    gate_dpl := vector_privilege n; gate_present := true; gate_kind := 6; gate_32bit := true |}.
Proof.
  intros [_ Hd Hs Ht Hu _] Hl Hn.
  assert (forall f pr, in_width 32 f -> in_width 2 pr ->
    decode_gate (create_interrupt_gate_descriptor f
      (gdt_segment_selector 0 KERNEL_CODE_SEGMENT_INDEX) pr S32BIT) = {|
      gate_offset := f; gate_selector := gdt_segment_selector 0 KERNEL_CODE_SEGMENT_INDEX;
      gate_dpl := pr; gate_present := true; gate_kind := 6; gate_32bit := true |}) as Hg.
  { intros f pr Hf Hp. unfold create_interrupt_gate_descriptor.
    rewrite decode_create_gate by (done || by vm_compute). done. }
  unfold init_interrupts. cbn [ll_idt add_ports]. unfold install_default_handlers, FOREACH_256.
  rewrite !lookup_install_gate, install_range
    by (try done; rewrite ?length_install_gate, ?length_install_range; lia).
  rewrite Z2Nat.id by lia. rewrite decide_True by lia. unfold vector_handler, vector_privilege.
  destruct (n =? SPURIOUS_TIMER_INTNUM); [|destruct (n =? TIMER_INTNUM);
    [|destruct (n =? SYSCALL_INTNUM)]].
  all: cbn [fmap option_fmap option_map orb handler_address]; rewrite Hg; done || by vm_compute.
Qed.

Lemma length_init_interrupts syms l :
  length (ll_idt (init_interrupts syms l)) = length (ll_idt l).
Proof.
  unfold init_interrupts. cbn [ll_idt add_ports]. unfold install_default_handlers, FOREACH_256.
  by rewrite !length_install_gate, length_install_range.
Qed.

(** Distinct addresses identify the handlers. *)
Lemma handler_at_address syms n :
  symbols_ok syms -> 0 <= n < 256 ->
  handler_at syms (handler_address syms (vector_handler n)) = Some (vector_handler n).
Proof.
  intros [_ _ _ _ _ Hnd] Hn.
  apply NoDup_cons in Hnd as [H1 Hnd]. apply NoDup_cons in Hnd as [H2 Hnd].
  apply NoDup_cons in Hnd as [H3 Hnd].
  rewrite !not_elem_of_cons in H1. destruct H1 as (H12 & H13 & H14).
  rewrite !not_elem_of_cons in H2. destruct H2 as (H23 & H24).
  unfold vector_handler, handler_at.
  destruct (n =? SPURIOUS_TIMER_INTNUM); [|destruct (n =? TIMER_INTNUM);
    [|destruct (n =? SYSCALL_INTNUM)]]; cbn [handler_address].
  - by rewrite (proj2 (Z.eqb_neq _ _)), (proj2 (Z.eqb_neq _ _)), Z.eqb_refl by done.
  - by rewrite (proj2 (Z.eqb_neq _ _)), Z.eqb_refl by done.
  - by rewrite Z.eqb_refl.
  - assert (n ∈ Z.of_nat <$> seq 0 256) as Hin.
    { apply list_elem_of_fmap. exists (Z.to_nat n). split; [lia|]. apply elem_of_seq. lia. }
    assert (forall a, a ∉ sym_default_handler syms <$> (Z.of_nat <$> seq 0 256) ->
      sym_default_handler syms n <> a) as Hne.
    { intros a Ha E. apply Ha. rewrite <-E. by apply list_elem_of_fmap_2. }
    rewrite !(proj2 (Z.eqb_neq _ _)) by by apply Hne.
    destruct (list_find _ _) as [[i n']|] eqn:E.
    + apply list_find_Some in E as (Hi & E & _). do 2 f_equal.
      apply list_elem_of_lookup in Hin as [j Hj].
      assert (i = j) as ->.
      { apply (NoDup_lookup (sym_default_handler syms <$> (Z.of_nat <$> seq 0 256)) i j
                 (sym_default_handler syms n)); [done| |].
        - rewrite list_lookup_fmap, Hi. by cbn; rewrite E.
        - by rewrite list_lookup_fmap, Hj. }
      congruence.
    + exfalso. apply list_find_None in E. rewrite Forall_forall in E. by apply (E n Hin).
Qed.

(** ** Initialisation *)

(** The tables the kernel relies on while it runs. *)
Record kernel_tables (syms : symbols) (l : lowlevel) : Prop := {
  kt_kernel_code : gdt_kernel_code (ll_gdt l) = kernel_code_descriptor;
  kt_kernel_data : gdt_kernel_data (ll_gdt l) = kernel_data_descriptor;
  kt_tss : decode_segment (gdt_tss (ll_gdt l)) =
    Segment (sym_tss syms) sizeof_tss false true 3 false 11 false;
  kt_tr : ll_tr l = gdt_segment_selector 0 TSS_SEGMENTS_FIRST_INDEX;
  kt_ss0 : ss0 (ll_tss l) = gdt_segment_selector 0 KERNEL_DATA_SEGMENT_INDEX;
  kt_gates n : 0 <= n < 256 ->
    decode_gate <$> ll_idt l !! Z.to_nat n = Some {|
      gate_offset := handler_address syms (vector_handler n);
      gate_selector := gdt_segment_selector 0 KERNEL_CODE_SEGMENT_INDEX;
      gate_dpl := vector_privilege n; gate_present := true; gate_kind := 6; gate_32bit := true |}
}.

(** ltr turns the available TSS (type 9) into a busy one (type 11). *)
Lemma decode_tss syms :
  symbols_ok syms ->
  decode_segment (create_tss_descriptor (sym_tss syms) sizeof_tss 3 0 0)
    = Segment (sym_tss syms) sizeof_tss false true 3 false 9 false.
Proof.
  intros Hs. unfold create_tss_descriptor.
  rewrite decode_create_descriptor by (apply (sok_tss syms Hs) || by vm_compute). done.
Qed.

Lemma decode_busy d :
  decode_segment (Z.lor d (Z.shiftl 1 41)) =
    let s := decode_segment d in
    Segment (seg_base s) (seg_limit s) (seg_4k s) (seg_present s) (seg_dpl s) (seg_normal s)
      (Z.lor (seg_type s) 2) (seg_32bit s).
Proof.
  assert (in_width 1 1) by (unfold in_width; lia).
  assert (forall i w, 0 <= i -> 0 <= w -> i + w <= 41 \/ 42 <= i ->
    field (Z.lor d (Z.shiftl 1 41)) i w = field d i w) as Hf.
  { intros i w Hi Hw Hor. apply Z.bits_inj'. intros j Hj. rewrite !field_testbit by lia.
    destruct (Z.ltb_spec j w); [|done]. cbn [andb]. rewrite Z.lor_spec, Z.shiftl_spec by lia.
    destruct Hor; bit_zero; apply orb_false_r. }
  assert (forall i, 42 <= i -> Z.testbit (Z.lor d (Z.shiftl 1 41)) i = Z.testbit d i) as Hb.
  { intros i Hi. rewrite Z.lor_spec, Z.shiftl_spec by lia. bit_zero. apply orb_false_r. }
  unfold decode_segment. cbn [seg_base seg_limit seg_4k seg_present seg_dpl seg_normal seg_type seg_32bit].
  rewrite !Hf, !Hb by lia. f_equal.
  apply Z.bits_inj'. intros j Hj. change 2 with (Z.shiftl 1 1).
  rewrite Z.lor_spec, !field_testbit, (Z.shiftl_spec 1 1) by lia.
  split_at j 4; [small_index j|]; zbool; cbn [andb].
  all: rewrite ?Z.lor_spec, ?Z.shiftl_spec by lia; bit_zero; done.
Qed.

Lemma gdt_tss_entry g :
  gdt_descriptor g (gdt_segment_selector 0 TSS_SEGMENTS_FIRST_INDEX)
    = Some (decode_segment (gdt_tss g)).
Proof. reflexivity. Qed.

Lemma load_kernel_code g :
  gdt_kernel_code g = kernel_code_descriptor ->
  load_code_segment g (gdt_segment_selector 0 KERNEL_CODE_SEGMENT_INDEX)
    = Ok (gdt_segment_selector 0 KERNEL_CODE_SEGMENT_INDEX).
Proof. destruct g. cbn [gdt_kernel_code]. intros ->. by vm_compute. Qed.

Lemma load_kernel_data g :
  gdt_kernel_data g = kernel_data_descriptor ->
  load_data_segments g (gdt_segment_selector 0 KERNEL_DATA_SEGMENT_INDEX)
    = Ok (gdt_segment_selector 0 KERNEL_DATA_SEGMENT_INDEX).
Proof. destruct g. cbn [gdt_kernel_data]. intros ->. by vm_compute. Qed.

Lemma low_level_tables_ok syms img tm l :
  symbols_ok syms -> length (ll_idt l) = 256%nat ->
  exists l', low_level_tables syms img tm l = Ok (Timer 0 (next_wake_date tm) (count tm), l') /\
    kernel_tables syms l' /\
    ll_ports l' = ll_ports l ++ init_pic TIMER_INTNUM SPURIOUS_TIMER_INTNUM ++ (timer_init tm).2 /\
    ll_gdtr l' = (u16 (48 + nb_tasks img * 16), sym_gdt syms).
Proof.
  intros Hs Hl. unfold low_level_tables. cbn [ll_gdt set_tss set_gdt lgdt].
  rewrite load_kernel_code, load_kernel_data by done. cbn [rbind].
  unfold load_tr. rewrite gdt_tss_entry. cbn [ll_gdt lgdt set_tss set_gdt gdt_tss].
  rewrite (decode_tss syms Hs).
  cbn [seg_present seg_normal seg_type negb andb]. cbn [rbind].
  eexists. split; [reflexivity|]. split; [|split; [|done]].
  - split; try done.
    + cbn. rewrite decode_busy, (decode_tss syms Hs). done.
    + intros n Hn. apply init_interrupts_gate; done.
  - cbn. by rewrite <-app_assoc.
Qed.
