(* ===== verification/HighLevel.v ===== *)
(** * The kernel proper (high_level.c, and timer_interrupt_handler of pit_timer.c)

    The system calls, the timer interrupt and the boot sequence.  Each of them
    ends with a context switch, so each returns the registers the processor
    leaves the kernel with and the new state of the kernel; or it stops the
    machine.  The scheduler is a parameter, through [Scheduler]. *)

From stdpp Require Import options.
From S2P Require Import Prelude Contexts Timer Scheduler Fprint Terminal Segment LowLevel.

(** ** State *)

(** All the variables of the kernel. *)
Record kstate (St : Type) := KState {
  k_s : sstate St;
  k_term : terminal;
  k_ll : lowlevel;
  k_idx_reserve : Z                   (* static idx_reserve of syscall_dup_thread *)
}.
Arguments KState {St} k_s k_term k_ll k_idx_reserve.
Arguments k_s {St} k.
Arguments k_term {St} k.
Arguments k_ll {St} k.
Arguments k_idx_reserve {St} k.

Definition set_s {St} (s : sstate St) (k : kstate St) : kstate St :=
  KState s (k_term k) (k_ll k) (k_idx_reserve k).
Definition set_term {St} (t : terminal) (k : kstate St) : kstate St :=
  KState (k_s k) t (k_ll k) (k_idx_reserve k).
Definition set_ll {St} (l : lowlevel) (k : kstate St) : kstate St :=
  KState (k_s k) (k_term k) l (k_idx_reserve k).
Definition set_idx_reserve {St} (i : Z) (k : kstate St) : kstate St :=
  KState (k_s k) (k_term k) (k_ll k) i.

Definition k_mem {St} (k : kstate St) : mem := s_mem (k_s k).
Definition set_kmem {St} (m : mem) (k : kstate St) : kstate St := set_s (with_mem m (k_s k)) k.

(** ** copy_context *)

(** A 32-bit word of struct context; [next] is a pointer. *)
Inductive cell := Word (w : Z) | Pointer (p : option cptr).

(** struct context as words; 64-bit dates take two words. *)
Definition context_cells (c : context) : list cell :=
  (Word <$> hw_words (hw c)) ++
  [Word (wakeup_date (sched c) mod 2 ^ 32); Word (wakeup_date (sched c) / 2 ^ 32);
   Word (deadline (sched c) mod 2 ^ 32); Word (deadline (sched c) / 2 ^ 32);
   Word (priority (sched c)); Pointer (next (sched c)); Word (pid c); Word (range c)].

Definition context_of_cells (l : list cell) : option context :=
  match l with
  | [Word w0; Word w1; Word w2; Word w3; Word w4; Word w5; Word w6; Word w7;
     Word w8; Word w9; Word w10; Word w11; Word w12; Word w13; Word w14;
     Word wl; Word wh; Word dl; Word dh; Word pr; Pointer nx; Word pd; Word rg] =>
      Some (Context_ (HwContext (Pusha w0 w1 w2 w3 w4 w5 w6 w7) (Iframe w8 w9 w10 w11 w12) w13 w14)
              (SchedContext (wl + 2 ^ 32 * wh) (dl + 2 ^ 32 * dh) pr nx) pd rg)
  | _ => None
  end.

Definition sizeof_context_words : nat := 23.

(** The loop of copy_context: [n] iterations from word [i]. *)
Fixpoint copy_words (n i : nat) (dest src : cptr) (m : mem) : res mem :=
  match n with
  | O => Ok m
  | S n =>
      let* cs := load m src in
      let* cd := load m dest in
      match context_cells cs !! i with
      | None => Err (Undef OutOfBounds)
      | Some w =>
          match context_of_cells (<[i := w]> (context_cells cd)) with
          | None => Err (Undef BadPointer)
          | Some cd1 => copy_words n (S i) dest src (<[dest := cd1]> m)
          end
      end
  end.

Definition copy_context (dest src : cptr) (m : mem) : res mem :=
  copy_words sizeof_context_words 0 dest src m.

Section HighLevel.
Context (cfg : config) (syms : symbols) (img : user_tasks_image).
Context {St : Type} `{Scheduler St}.
Local Abbreviation kst := (kstate St).
Implicit Types (k : kst) (ctx : cptr).

(** hw_context_switch(&ctx->hw_context) at the end of a handler. *)
Definition switch_to ctx k : res (cpu * kst) :=
  let* (c, l) := hw_context_switch ctx (k_mem k) (k_ll k) in Ok (c, set_ll l k).

Definition edf : bool :=
  match cfg_scheduler cfg with EDF_SCHEDULING => true | _ => false end.

(** ** System calls *)

(** The dates of the yielding context. *)
Definition yield_dates (next_wakeup_high next_wakeup_low next_deadline_high next_deadline_low : Z)
    (c : context) : context :=
  let incr_wakeup := u64 (u64 (Z.shiftl next_wakeup_high 32) + next_wakeup_low) in
  let c1 := set_wakeup_date (u64 (wakeup_date (sched c) + incr_wakeup)) c in
  if edf then
    let incr_deadline := u64 (u64 (Z.shiftl next_deadline_high 32) + next_deadline_low) in
    set_deadline (u64 (wakeup_date (sched c1) + incr_deadline)) c1
  else c1.

Definition c_syscall_yield ctx (next_wakeup_high next_wakeup_low
    next_deadline_high next_deadline_low : Z) k : res (cpu * kst) :=
  let* m := modify (k_mem k) ctx
              (yield_dates next_wakeup_high next_wakeup_low next_deadline_high next_deadline_low) in
  let* s1 := sched_set_waiting img ctx (with_mem m (k_s k)) in
  let* (new_ctx, s2) := sched_choose_next img s1 in
  switch_to new_ctx (set_s s2 k).

(** The assembly stub pushes edi and esi: the fourth and fifth arguments. *)
Definition syscall_yield (c : cpu) ctx k : res (cpu * kst) :=
  c_syscall_yield ctx (c_edx c) (c_ecx c) (c_esi c) (c_edi c) k.

Definition syscall_putchar ctx (arg1 : Z) k : res (cpu * kst) :=
  let* t := if cfg_debug cfg then terminal_putchar (u8 arg1) (k_term k)
            else Err (Fatal "Compiled without printing feature" []) in
  switch_to ctx (set_term t k).

(** Without any INJECT_BUG macro the arguments are not used; arg3, which is not
    passed in a register, is the word above the kernel stack. *)
Definition syscall_trigger_bug ctx (arg1 arg2 : Z) k : res (cpu * kst) :=
  switch_to ctx k.

Definition set_return1 ctx (ret1 : Z) (m : mem) : res mem :=
  modify m ctx (fun c => set_hw (hw_context_set_return1 (hw c) ret1) c).

(** With the temporary allocation of the #if 1 branch. *)
Definition syscall_dup_thread ctx k : res (cpu * kst) :=
  if negb (cfg_dynamic cfg) then
    Err (Fatal ("This kernel was not compiled with dynamic task creation; "
                +:+ "dup_thread syscall is not available" +:+ nl) [])
  else
    let* c := load (k_mem k) ctx in
    if u32 (range c) =? 0 then
      Err (Fatal "This thread (%x) cannot create another thread" [u32 (sym_context syms ctx)])
    else if k_idx_reserve k =? 0 then Err (Fatal ("Not enough ctx in reserve" +:+ nl) [])
    else
      let idx := u32 (k_idx_reserve k - 1) in
      let ctx2 := reserve img (Z.to_nat idx) in
      let* m1 := modify (k_mem k) ctx2 (set_range 0) in
      let* m2 := copy_context ctx2 ctx m1 in
      let* s3 := sched_insert_duplicated_context img ctx ctx2 (with_mem m2 (k_s k)) in
      let* m4 := set_return1 ctx 1 (s_mem s3) in
      let* m5 := set_return1 ctx2 0 m4 in
      switch_to ctx (set_idx_reserve idx (set_s (with_mem m5 s3) k)).

Definition SYSCALL_NUMBER : Z := 4.

(** The entries of syscall_array, in the order of enum syscalls. *)
Definition syscall_array : list (cpu -> cptr -> kst -> res (cpu * kst)) :=
  [ syscall_yield;
    (fun c ctx k => syscall_putchar ctx (c_edx c) k);
    (fun _ ctx k => syscall_dup_thread ctx k);
    (fun c ctx k => syscall_trigger_bug ctx (c_edx c) (c_ecx c) k) ].

(** asm_syscall_handler: the call number is in ebx, the arguments in edx, ecx,
    esi and edi; a jump through an entry past the array is undefined. *)
Definition asm_syscall_handler (c : cpu) ctx k : res (cpu * kst) :=
  if SYSCALL_NUMBER <=? c_ebx c then Err InfiniteLoop
  else
    match syscall_array !! Z.to_nat (c_ebx c) with
    | Some call => call c ctx k
    | None => Err (Undef BadPointer)
    end.

(** ** The timer interrupt *)

Definition high_level_timer_interrupt_handler ctx (curtime : Z) k : res (cpu * kst) :=
  let* s1 := sched_wake_tasks img curtime (k_s k) in
  let* (new_ctx, s2) :=
    if context_is_idle img ctx then sched_choose_next img s1
    else sched_maybe_preempt img ctx s1 in
  switch_to new_ctx (set_s s2 k).

(** The acknowledgement, the clock and, with DEBUG_PRINTING, the mark printed
    every hundred ticks. *)
Definition timer_tick k : res kst :=
  let k1 := set_ll (add_ports [outb master_pic_command 0x20] (k_ll k)) k in
  let tm := timer_advance (s_timer (k_s k1)) in
  if cfg_debug cfg then
    let* (mark, tm1) := timer_count tm in
    let* t := if mark then terminal_putchar 38 (k_term k1) else Ok (k_term k1) in
    Ok (set_term t (set_s (with_timer tm1 (k_s k1)) k1))
  else Ok (set_s (with_timer tm (k_s k1)) k1).

(** timer_interrupt_handler after the clock update. *)
Definition timer_alarm ctx k : res (cpu * kst) :=
  let tm := s_timer (k_s k) in
  let cur := current_time tm in
  if next_wake_date tm <=? cur then
    high_level_timer_interrupt_handler ctx cur
      (set_s (with_timer (timer_dont_wake tm) (k_s k)) k)
  else switch_to ctx k.

Definition timer_interrupt_handler ctx k : res ((cpu * kst) + terminal) :=
  let* k1 := timer_tick k in
  catch (k_term k1) (timer_alarm ctx k1).

(** ** Boot *)

Definition context_init (m : mem) ctx (idx pc start fin : Z) : res mem :=
  modify m ctx (fun c =>
    let c1 := if cfg_dynamic cfg
              then set_pid (Z.shiftl idx DYNAMIC_TASK_INITIAL_HEIGHT)
                     (set_range (Z.shiftl 1 DYNAMIC_TASK_INITIAL_HEIGHT) c)
              else c in
    let p := if cfg_dynamic cfg then pid c1 else idx in
    set_hw (hw_context_init (hw c1) pc (u32 p) start fin) c1).

(** Contexts have a next field with the round-robin scheduler or the list queue. *)
Definition has_next : bool :=
  match cfg_scheduler cfg, cfg_queue cfg with
  | ROUND_ROBIN_SCHEDULING, _ | _, SCHED_PRIORITY_QUEUE_USE_LIST => true
  | _, _ => false
  end.

Definition set_next_if (n : cptr) (c : context) : context :=
  if has_next then set_next (Some n) c else c.

(** The loop of init_reserve: [n] iterations from [i]. *)
Fixpoint init_reserve_loop (n i : nat) (task0 : task_description) (m : mem) : res mem :=
  match n with
  | O => Ok m
  | S n =>
      let* m1 := context_init m (reserve img i) 0 (t_start_pc task0) (t_task_begin task0)
                   (t_task_end task0) in
      let* m2 := modify m1 (reserve img i) (set_next_if (reserve img 0)) in
      init_reserve_loop n (S i) task0 m2
  end.

Definition init_reserve (m : mem) : res mem :=
  match tasks img !! 0%nat with
  | None => Err (Undef OutOfBounds)
  | Some task0 => init_reserve_loop 10 0 task0 m
  end.

(** The first loop of high_level_init, with its inline bound check. *)
Fixpoint init_contexts (n : nat) (i : Z) (m : mem) : res mem :=
  match n with
  | O => Ok m
  | S n =>
      if nb_tasks img <=? i then Err InfiniteLoop
      else
        match tasks img !! Z.to_nat i with
        | None => Err (Undef OutOfBounds)
        | Some task =>
            let* m1 := context_init m (t_context task) i (t_start_pc task) (t_task_begin task)
                         (t_task_end task) in
            init_contexts n (i + 1) m1
        end
  end.

(** The loop over the idle contexts. *)
Fixpoint init_idle (n i : nat) (m : mem) : res mem :=
  match n with
  | O => Ok m
  | S n =>
      let ctx := idle_ctx_array img i in
      let* m1 := context_init m ctx 0 0 (idle_start img) (idle_end img) in
      let* m2 := modify m1 ctx (fun c =>
                   let c1 := set_wakeup_date 0 (set_next_if ctx c) in
                   if edf then set_deadline 0xFFFFFFFFFFFFFFFF c1 else c1) in
      init_idle n (S i) m2
  end.

Definition high_level_init (s : sstate St) : res (sstate St) :=
  let* m1 := init_contexts (Z.to_nat (nb_tasks img)) 0 (s_mem s) in
  let* m2 := init_reserve m1 in
  let* m3 := init_idle NUM_CPUS 0 m2 in
  scheduler_init img (with_mem m3 s).

(** boot: the terminal changes only after everything that can call fatal. *)
Definition boot k : res (cpu * kst) :=
  let* s1 := high_level_init (k_s k) in
  let* (new_ctx, s2) := sched_choose_next img s1 in
  let* t := if cfg_debug cfg
            then terminal_writestring (chars ("Switching to userspace" +:+ nl)) (k_term k)
            else Ok (k_term k) in
  switch_to new_ctx (set_term t (set_s s2 k)).

(** _start: low_level_init, then boot. *)
Definition start (magic_value : Z) k : res ((cpu * kst) + terminal) :=
  let* r := low_level_init cfg syms img magic_value (k_term k) (s_timer (k_s k)) (k_ll k) in
  match r with
  | inr t => Ok (inr t)
  | inl (t, tm, l) =>
      catch t (boot (KState (with_timer tm (k_s k)) t l (k_idx_reserve k)))
  end.

(** ** Interrupts *)

(** The processor's reaction to vector [n] in user mode: the gate of the IDT,
    the entry of the kernel, and the handler the gate designates. *)
Definition interrupt (n : Z) (error_code : list Z) (c : cpu) k
    : res ((cpu * kst) + terminal) :=
  match decode_gate <$> ll_idt (k_ll k) !! Z.to_nat n with
  | None => Err (Undef HwFault)
  | Some g =>
      match handler_at syms (gate_offset g) with
      | None => Err (Undef HwFault)
      | Some UnimplementedHandler => Ok (inr (k_term k))
      | Some h =>
          let* (ctx, m) := interrupt_entry syms error_code c (k_mem k) (k_ll k) in
          let k1 := set_kmem m k in
          match h with
          | SyscallHandler => catch (k_term k1) (asm_syscall_handler c ctx k1)
          | TimerHandler => timer_interrupt_handler ctx k1
          | DefaultHandler num => catch (k_term k1) (Err (default_interrupt_handler num))
          | UnimplementedHandler => Ok (inr (k_term k1))
          end
      end
  end.

(** The instruction [int n] in user mode: a gate of privilege 0 raises the
    general protection fault, with an error code. *)
Definition software_interrupt (n : Z) (c : cpu) k : res ((cpu * kst) + terminal) :=
  match decode_gate <$> ll_idt (k_ll k) !! Z.to_nat n with
  | None => Err (Undef HwFault)
  | Some g =>
      if gate_dpl g <? 3 then interrupt 13 [n * 8 + 2] c k else interrupt n [] c k
  end.
End HighLevel.

(** ** Facts *)

(** The system call that a number in ebx selects. *)
Lemma syscall_call cfg syms img {St} `{Scheduler St} (c : cpu) ctx (k : kstate St) n call :
  c_ebx c = Z.of_nat n -> syscall_array cfg syms img !! n = Some call ->
  asm_syscall_handler cfg syms img c ctx k = call c ctx k.
Proof.
  intros En Ec. apply lookup_lt_Some in Ec as Hlt. cbn in Hlt. unfold asm_syscall_handler, SYSCALL_NUMBER.
  rewrite En. zbool. by rewrite Nat2Z.id, Ec.
Qed.

(** *** copy_context copies the whole structure *)

(** The words of some context. *)
Definition cells_wf (l : list cell) : Prop := exists c, context_cells c = l.

(** A date from its two words, and the words of a date. *)
Lemma date_words a : a mod 2 ^ 32 + 2 ^ 32 * (a / 2 ^ 32) = a.
Proof. dlia. Qed.

Lemma date_low a b : (a mod 2 ^ 32 + 2 ^ 32 * b) mod 2 ^ 32 = a mod 2 ^ 32.
Proof. dlia. Qed.

Lemma date_high a b : (a mod 2 ^ 32 + 2 ^ 32 * b) / 2 ^ 32 = b.
Proof. dlia. Qed.

#[local] Opaque Z.modulo Z.div Z.pow Z.mul Z.add.

Lemma context_of_cells_cells c : context_of_cells (context_cells c) = Some c.
Proof. destruct c as [[[] []] [] pd rg]. cbn. by rewrite !date_words. Qed.

(** Storing a word of one context in another gives a context. *)
Lemma cells_insert_wf i a b w :
  context_cells a !! i = Some w -> cells_wf (<[i := w]> (context_cells b)).
Proof.
  intros E. exists (default b (context_of_cells (<[i := w]> (context_cells b)))).
  destruct a as [[[] []] [] pda rga], b as [[[] []] [] pdb rgb]. cbn in E.
  repeat (destruct i as [|i]; [injection E as <-|]); [..|done].
  all: cbn; by rewrite ?date_words, ?date_low, ?date_high.
Qed.

#[local] Transparent Z.modulo Z.div Z.pow Z.mul Z.add.

Lemma copy_words_ok n i dest src m cs cd :
  dest <> src -> m !! src = Some cs -> m !! dest = Some cd -> (n + i = 23)%nat ->
  take i (context_cells cd) = take i (context_cells cs) ->
  copy_words n i dest src m = Ok (<[dest := cs]> m).
Proof.
  intros Hne. revert i m cd. induction n as [|n IH]; intros i m cd Hs Hd Hn Ht; cbn [copy_words].
  - cbn in Hn. subst i. assert (cd = cs) as ->.
    { change (take 23 (context_cells cd)) with (context_cells cd) in Ht.
      change (take 23 (context_cells cs)) with (context_cells cs) in Ht.
      apply (f_equal context_of_cells) in Ht. rewrite !context_of_cells_cells in Ht. by injection Ht. }
    by rewrite insert_id.
  - rewrite (proj2 (load_ok m src cs) Hs), (proj2 (load_ok m dest cd) Hd). cbn [rbind].
    destruct (context_cells cs !! i) as [w|] eqn:Ew.
    2:{ apply lookup_ge_None in Ew. change (length (context_cells cs)) with 23%nat in Ew. lia. }
    destruct (cells_insert_wf i cs cd w Ew) as [c1 Hc1]. rewrite <-Hc1, context_of_cells_cells.
    rewrite (IH (S i) _ c1); [by rewrite insert_insert_eq|by rewrite lookup_insert_ne|
      apply lookup_insert_eq|lia|].
    rewrite Hc1, (take_S_r _ _ w), (take_S_r _ _ w Ew).
    + by rewrite take_insert_ge, Ht by lia.
    + apply list_lookup_insert_eq. change (length (context_cells cd)) with 23%nat. lia.
Qed.

Lemma copy_context_ok dest src m cs cd :
  dest <> src -> m !! src = Some cs -> m !! dest = Some cd ->
  copy_context dest src m = Ok (<[dest := cs]> m).
Proof. intros Hne Hs Hd. by apply (copy_words_ok 23 0 dest src m cs cd). Qed.

(** yield writes the two dates only. *)
Lemma yield_dates_redate cfg wh wl dh dl c :
  yield_dates cfg wh wl dh dl c =
    set_deadline (deadline (sched (yield_dates cfg wh wl dh dl c)))
      (set_wakeup_date (wakeup_date (sched (yield_dates cfg wh wl dh dl c))) c).
Proof. unfold yield_dates. by destruct (edf cfg), c as [? [] ? ?]. Qed.
