(* ===== verification/Kernel.v ===== *)
(** * The kernel as a whole

    The machine alternates between user code and the handlers of HighLevel.v.
    [kernel_inv] is the invariant of the kernel whenever user code runs; it is
    established by _start and preserved by every interrupt, for any scheduler
    that meets [SchedulerSpec].  [step] is the transition relation of the
    machine, and the theorems about its reachable states are at the end. *)

From stdpp Require Import options.
From S2P Require Import Prelude Contexts PQueue Timer Scheduler Fprint Terminal Segment.
From S2P Require Import LowLevel HighLevel.

(** ** The system *)

(** A range of addresses given to a task lies above the kernel, and the segment
    the kernel makes of it does not wrap around the address space. *)
Definition placed (kernel_end start fin : Z) : Prop :=
  in_width 32 start /\ kernel_end <= start /\
  start + (u32 (fin - start) mod 2 ^ 20 * 4096 + 4095) < 2 ^ 32.

(** What the linker script and system_desc.c guarantee: the tasks are above
    [kernel_end], the reserve is made of ten other contexts, and with dynamic
    creation the queues have room for the reserve. *)
Record system_ok (cfg : config) (syms : symbols) (img : user_tasks_image) (kernel_end : Z) : Prop := {
  so_image : image_ok img;
  so_symbols : symbols_ok syms;
  so_reserve_distinct : NoDup (reserve img <$> seq 0 10);
  so_reserve_tasks i : (i < 10)%nat -> reserve img i ∉ t_context <$> tasks img;
  so_reserve_idle i : (i < 10)%nat -> reserve img i <> context_idle img;
  so_tasks : Forall (fun t => placed kernel_end (t_task_begin t) (t_task_end t)) (tasks img);
  so_idle : placed kernel_end (idle_start img) (idle_end img);
  so_room : cfg_dynamic cfg = true -> nb_tasks img + 10 <= nb_contexts img
}.

(** The saved state of a context confined above [kernel_end]. *)
Definition confined (kernel_end : Z) (h : hw_context) : Prop :=
  user_hw h /\ kernel_end <= start_address h /\
  start_address h + (memsize h mod 2 ^ 20 * 4096 + 4095) < 2 ^ 32.

(** User mode: the selectors of the user segments. *)
Definition user_cpu (c : cpu) : Prop :=
  c_cs c = gdt_segment_selector 3 USER_CODE_SEGMENT_INDEX /\
  c_ss c = gdt_segment_selector 3 USER_DATA_SEGMENT_INDEX.

Section Kernel.
Context (cfg : config) (syms : symbols) (img : user_tasks_image) (kernel_end : Z).
Context {St : Type} `{SchedulerSpec St}.
Local Abbreviation kst := (kstate St).
Implicit Types (k : kst) (p : cptr) (live : list cptr).

(** ** The invariant *)

(** The phase of the scheduler while [p] runs. *)
Definition running_phase p : phase := if context_is_idle img p then Idling else Running p.

(** The contexts of the reserve that are still free, and the contexts in use. *)
(** The contexts in use when [idx] contexts are left in the reserve: those of the
    tasks, and those that dup_thread took. *)
Definition threads (idx : Z) : list cptr :=
  (reserve img <$> seq (Z.to_nat idx) (10 - Z.to_nat idx)) ++ (t_context <$> tasks img).

Record reserve_inv (m : mem) (idx : Z) live : Prop := {
  ri_range : 0 <= idx <= 10;
  ri_free i : Z.of_nat i < idx ->
    reserve img i ∉ live /\ reserve img i <> context_idle img /\ is_Some (m !! reserve img i);
  ri_count : Z.of_nat (length live) + idx = nb_tasks img + 10;
  ri_live : live = threads idx
}.

(** Inside the kernel. *)
Record kernel_mid k live (ph : phase) : Prop := {
  km_tables : kernel_tables syms (k_ll k);
  km_sched : sched_inv img (k_s k) live ph;
  km_contexts q : q ∈ context_idle img :: live ->
    exists c, k_mem k !! q = Some c /\ confined kernel_end (hw c);
  km_term : term_ok (k_term k);
  km_reserve : reserve_inv (k_mem k) (k_idx_reserve k) live
}.

(** While user code runs in [p]: its segments are in the GDT and its context is
    where the next interrupt will save it. *)
Record kernel_inv k live p : Prop := {
  ki_mid : kernel_mid k live (running_phase p);
  ki_known : p ∈ context_idle img :: live;
  ki_esp0 : esp0 (ll_tss (k_ll k)) = Some (p, sizeof_pusha + sizeof_iframe);
  ki_segments c : k_mem k !! p = Some c ->
    decode_segment (gdt_user_code (ll_gdt (k_ll k)))
      = user_segment (start_address (hw c)) (memsize (hw c)) 10 /\
    decode_segment (gdt_user_data (ll_gdt (k_ll k)))
      = user_segment (start_address (hw c)) (memsize (hw c)) 2
}.

(** A context switch to [p] from inside the kernel. *)
Lemma switch_to_ok k live p :
  kernel_mid k live (running_phase p) -> p ∈ context_idle img :: live ->
  exists c k', switch_to p k = Ok (c, k') /\ user_cpu c /\ kernel_inv k' live p /\ k_s k' = k_s k.
Proof using Type.
  intros Hk Hp. destruct (km_contexts _ _ _ Hk p Hp) as (ctx & Hc & Hh & Hconf).
  unfold switch_to. rewrite (hw_context_switch_ok p (k_mem k) (k_ll k) ctx Hc Hh). cbn [rbind].
  eexists _, _. split; [reflexivity|]. split; [|split; [|done]].
  - destruct Hh as (_ & _ & Ecs & Ess). split; cbn; done.
  - split; [|done|done|].
    + destruct Hk as [[] ? ? ? ?]. split; [|done..]. by split.
    + intros c' E. change (k_mem (set_ll _ k)) with (k_mem k) in E. simplify_eq.
      cbn [set_ll k_ll]. by rewrite switch_code_segment, switch_data_segment.
Qed.

(** The contexts and the reserve do not depend on the links of the queues. *)
Lemma kernel_mid_build s' t l idx live ph m :
  kernel_tables syms l -> term_ok t -> s_mem s' ≈ₙ m ->
  (forall q, q ∈ context_idle img :: live ->
     exists c, m !! q = Some c /\ confined kernel_end (hw c)) ->
  reserve_inv m idx live -> sched_inv img s' live ph ->
  kernel_mid (KState s' t l idx) live ph.
Proof using Type.
  intros Ht Hterm Hm Hc [Hr1 Hr2 Hr3 Hr4] Hs. split; [done..| |done|].
  - intros q Hq. destruct (Hc q Hq) as (c & Ec & Hconf).
    destruct (mem_eq_next_lookup m (s_mem s') q c) as [n En]; [by symmetry|done|].
    exists (set_next n c). done.
  - split; [done| |done..]. intros i Hi. destruct (Hr2 i Hi) as (H1 & H2 & H3).
    split; [done|]. split; [done|]. eapply mem_eq_next_is_Some; [|exact H3]. by symmetry.
Qed.

(** The scheduler changes only its own part of the state. *)
Lemma kernel_mid_sched k live ph ph' s' :
  kernel_mid k live ph -> sched_frame live (k_s k) s' -> sched_inv img s' live ph' ->
  kernel_mid (set_s s' k) live ph'.
Proof using Type.
  intros [Ht _ Hc Hterm Hr] (Hm & _) Hs. by apply (kernel_mid_build _ _ _ _ _ _ (k_mem k)).
Qed.

(** Storing in the saved registers of a known context. *)
Lemma kernel_mid_store k live ph p c h :
  kernel_mid k live ph -> p ∈ context_idle img :: live -> k_mem k !! p = Some c ->
  confined kernel_end h -> kernel_mid (set_kmem (<[p := set_hw h c]> (k_mem k)) k) live ph.
Proof using Type.
  intros [Ht Hs Hc Hterm [Hr1 Hr2 Hr3 Hr4]] Hp Ec Hh. split; [done| | |done|].
  - apply sched_inv_mem; [done|]. intros q Hq. unfold k_mem in *.
    rewrite lookup_insert. case_decide; subst; [|done]. by rewrite Ec.
  - intros q Hq. change (k_mem (set_kmem ?m k)) with m. rewrite lookup_insert.
    case_decide; [|by apply Hc]. exists (set_hw h c). done.
  - split; [done| |done..]. intros i Hi. destruct (Hr2 i Hi) as (H1 & H2 & H3).
    split; [done|]. split; [done|]. change (k_mem (set_kmem ?m k)) with m.
    by apply lookup_insert_is_Some'; right.
Qed.

Context (Hsys : system_ok cfg syms img kernel_end).

Lemma running_phase_live k live p :
  p ∈ live -> kernel_mid k live (running_phase p) -> kernel_mid k live (Running p).
Proof using Type.
  intros Hp Hk. unfold running_phase, context_is_idle in Hk. case_bool_decide as E; [|done].
  exfalso. destruct (sched_inv_live _ _ _ _ (km_sched _ _ _ Hk)) as (_ & Hni & _).
  apply Hni. unfold context_idle. by rewrite <-E.
Qed.

Lemma running_phase_task p live s :
  sched_inv img s live (Running p) -> running_phase p = Running p /\ p ∈ context_idle img :: live.
Proof using Type.
  intros Hs. pose proof (sched_inv_running _ _ _ _ Hs) as Hp.
  destruct (sched_inv_live _ _ _ _ Hs) as (_ & Hni & _).
  split; [|by right]. unfold running_phase, context_is_idle. case_bool_decide as E; [|done].
  exfalso. apply Hni. unfold context_idle. by rewrite <-E.
Qed.

(** Leaving the kernel after the scheduler has chosen [p]. *)
Lemma switch_chosen k live p s' ph :
  kernel_mid k live ph -> sched_frame live (k_s k) s' ->
  p = context_idle img /\ sched_inv img s' live Idling \/ sched_inv img s' live (Running p) ->
  exists c k', switch_to p (set_s s' k) = Ok (c, k') /\ user_cpu c /\
    kernel_inv k' live p /\ k_s k' = s'.
Proof using Type.
  intros Hk Hf [[-> Hs]|Hs].
  - apply switch_to_ok; [|by left].
    assert (running_phase (context_idle img) = Idling) as ->.
    { unfold running_phase, context_is_idle. by rewrite bool_decide_true. }
    by eapply kernel_mid_sched.
  - destruct (running_phase_task _ _ _ Hs) as [E Hp]. apply switch_to_ok; [|done].
    rewrite E. by eapply kernel_mid_sched.
Qed.

(** ** System calls *)

(** yield: never fails, and switches to the idle context or to a task that the
    scheduler holds to be running. *)
Lemma c_syscall_yield_ok k live p ctx wh wl dh dl :
  kernel_mid k live (Running p) -> k_mem k !! p = Some ctx ->
  exists c k' p', c_syscall_yield cfg img p wh wl dh dl k = Ok (c, k') /\ user_cpu c /\
    kernel_inv k' live p' /\ k_mem k' ≈ₙ <[p := yield_dates cfg wh wl dh dl ctx]> (k_mem k).
Proof using Hsys.
  intros Hk Ec. pose proof (km_sched _ _ _ Hk) as Hs.
  destruct (running_phase_task _ _ _ Hs) as [_ Hp].
  destruct (km_contexts _ _ _ Hk p Hp) as (ctx' & Ec' & Hconf). assert (ctx' = ctx) as -> by congruence.
  unfold c_syscall_yield. rewrite (modify_ok _ _ _ ctx Ec). cbn [rbind].
  set (f := yield_dates cfg wh wl dh dl). set (m1 := <[p := f ctx]> (k_mem k)).
  pose proof (yield_dates_redate cfg wh wl dh dl ctx) as Ef. fold f in Ef.
  set (d := wakeup_date _) in Ef. set (d' := deadline _) in Ef.
  assert (sched_inv img (with_mem m1 (k_s k)) live (Woken p)) as Hw.
  { apply sched_inv_redate; [done|]. exists ctx, d, d'. split; [done|]. unfold m1. by rewrite Ef. }
  assert (kernel_mid (set_kmem m1 k) live (Woken p)) as Hk1.
  { destruct Hk as [Ht _ Hc Hterm [Hr1 Hr2 Hr3 Hr4]]. split; [done..| |done|].
    - intros q Hq. change (k_mem (set_kmem m1 k)) with m1. unfold m1. rewrite lookup_insert.
      case_decide; [|by apply Hc]. exists (f ctx). split; [done|]. by rewrite Ef.
    - split; [done| |done..]. intros i Hi. destruct (Hr2 i Hi) as (H1 & H2 & H3).
      split; [done|]. split; [done|]. change (k_mem (set_kmem m1 k)) with m1.
      by apply lookup_insert_is_Some'; right. }
  destruct (sched_set_waiting_spec img _ live p (so_image _ _ _ _ Hsys) Hw) as (s1 & -> & Hs1 & Hf1).
  cbn [rbind].
  destruct (sched_choose_next_spec img s1 live (so_image _ _ _ _ Hsys) Hs1) as (p' & s2 & -> & Hs2 & Hf2).
  cbn [rbind].
  destruct (switch_chosen (set_kmem m1 k) live p' s2 _ Hk1) as (c & k' & E & Hu & Hi & Es);
    [by eapply sched_frame_trans|done|].
  exists c, k', p'. split; [exact E|]. split; [done|]. split; [done|].
  unfold k_mem. rewrite Es. destruct Hf1 as [Hf1 _], Hf2 as [Hf2 _]. by etrans.
Qed.

(** Changes of the terminal. *)
Lemma kernel_mid_term k live ph t :
  kernel_mid k live ph -> term_ok t -> kernel_mid (set_term t k) live ph.
Proof using Type. intros [] Ht. by split. Qed.

Lemma syscall_putchar_ok k live p arg :
  cfg_debug cfg = true -> kernel_mid k live (Running p) ->
  exists c k', syscall_putchar cfg p arg k = Ok (c, k') /\ user_cpu c /\ kernel_inv k' live p /\
    terminal_putchar (u8 arg) (k_term k) = Ok (k_term k').
Proof using Type.
  intros Hd Hk. unfold syscall_putchar. rewrite Hd.
  destruct (terminal_putchar_total (u8 arg) (k_term k) (km_term _ _ _ Hk)) as (t & Et & Hs).
  rewrite Et. cbn [rbind].
  destruct (running_phase_task _ _ _ (km_sched _ _ _ Hk)) as [E Hp].
  destruct (switch_to_ok (set_term t k) live p) as (c & k' & E' & Hu & Hi & _); [|done|].
  { rewrite E. by apply kernel_mid_term. }
  exists c, k'. split; [exact E'|]. split; [done|]. split; [done|].
  unfold switch_to in E'. destruct (hw_context_switch p _ _) as [[]|]; [|done].
  injection E' as _ <-. done.
Qed.

Lemma switch_to_same k p c k' :
  switch_to p k = Ok (c, k') -> k_s k' = k_s k /\ k_idx_reserve k' = k_idx_reserve k.
Proof using Type.
  unfold switch_to. destruct (hw_context_switch p _ _) as [[]|]; [|done]. by intros [= _ <-].
Qed.

(** The next interrupt will be saved in the context that runs. *)
Lemma switch_to_current k p c k' :
  switch_to p k = Ok (c, k') -> esp0 (ll_tss (k_ll k')) = Some (p, sizeof_pusha + sizeof_iframe).
Proof using Type.
  unfold switch_to, hw_context_switch, hw_context_switch_no_idle, load.
  destruct (k_mem k !! p) as [ctx|]; [|done]. cbn [rbind].
  destruct (load_ds_reg _ _); [|done]. cbn [rbind].
  destruct (iret_ok _ _); [|done]. by intros [= _ <-].
Qed.

(** The registers loaded by a switch are those saved in the context. *)
Lemma switch_to_restore k p c k' :
  switch_to p k = Ok (c, k') ->
  exists ctx, k_mem k !! p = Some ctx /\ c = restore (hw ctx) (ss (iframe (hw ctx))).
Proof using Type.
  unfold switch_to, hw_context_switch, hw_context_switch_no_idle, load, load_ds_reg.
  destruct (k_mem k !! p) as [ctx|]; [|done]. cbn [rbind].
  destruct (gdt_descriptor _ (ss _)); [|done]. destruct (_ && _); [|done]. cbn [rbind].
  destruct (iret_ok _ _); [|done]. intros [= <- _]. eauto.
Qed.

(** The return value of a system call is in the saved eax. *)
Lemma confined_return1 h r : confined kernel_end h -> confined kernel_end (hw_context_set_return1 h r).
Proof using Type. done. Qed.

(** What dup_thread leaves in the two contexts: the parent returns 1, the child
    is its copy and returns 0. *)
Definition duplicated (c : context) (m : mem) (parent child : cptr) : Prop :=
  (exists n, m !! parent = Some (set_hw (hw_context_set_return1 (hw c) 1) (set_next n c))) /\
  (exists n, m !! child = Some (set_hw (hw_context_set_return1 (hw c) 0) (set_next n c))).

(** Taking the last free context of the reserve. *)
Lemma reserve_inv_take m idx live ctx :
  reserve_inv m idx live -> idx <> 0 ->
  let child := reserve img (Z.to_nat (idx - 1)) in
  child ∉ live /\ child <> context_idle img /\ is_Some (m !! child) /\
  reserve_inv (<[child := ctx]> m) (idx - 1) (child :: live).
Proof using Hsys.
  intros [Hr1 Hr2 Hr3 Hr4] Hi child.
  destruct (Hr2 (Z.to_nat (idx - 1))) as (Hnl & Hni & Hs); [lia|]. fold child in Hnl, Hni, Hs.
  split; [done|]. split; [done|]. split; [done|]. split; [lia| |cbn [length]; lia|].
  2:{ rewrite Hr4. unfold threads. replace (10 - Z.to_nat (idx - 1))%nat with (S (10 - Z.to_nat idx)) by lia.
      cbn [seq fmap list_fmap app]. by replace (S (Z.to_nat (idx - 1))) with (Z.to_nat idx) by lia. }
  intros i Hlt. destruct (Hr2 i ltac:(lia)) as (H1 & H2 & H3).
  split; [|split; [done|by apply lookup_insert_is_Some'; right]].
  apply not_elem_of_cons. split; [|done]. unfold child. intros E.
  pose proof (so_reserve_distinct _ _ _ _ Hsys) as Hnd.
  assert (i = Z.to_nat (idx - 1)); [|lia].
  eapply (NoDup_lookup _ _ _ (reserve img i) Hnd).
  - rewrite list_lookup_fmap, lookup_seq_lt by lia. done.
  - rewrite list_lookup_fmap, lookup_seq_lt by lia. by rewrite E.
Qed.

(** The kernel after the child has been copied and inserted. *)
Lemma dup_insert_ok k live p ctx :
  cfg_dynamic cfg = true -> kernel_mid k live (Running p) -> k_mem k !! p = Some ctx ->
  k_idx_reserve k <> 0 ->
  let idx := k_idx_reserve k - 1 in
  let child := reserve img (Z.to_nat idx) in
  exists s3, sched_insert_duplicated_context img p child
      (with_mem (<[child := ctx]> (k_mem k)) (k_s k)) = Ok s3 /\
    kernel_mid (KState s3 (k_term k) (k_ll k) idx) (child :: live) (Running p) /\
    s_mem s3 ≈ₙ <[child := ctx]> (k_mem k).
Proof using Hsys.
  intros Hd Hk Ec Hi idx child. pose proof Hk as [Ht Hs Hc Hterm Hr].
  destruct (reserve_inv_take _ _ _ ctx Hr Hi) as (Hnl & Hni & _ & Hr'). fold idx child in Hnl, Hni, Hr'.
  destruct (running_phase_task _ _ _ Hs) as [_ Hp].
  assert (child <> p) as Hne by (intros E; rewrite E in *; apply elem_of_cons in Hp as [?|?]; done).
  set (m2 := <[child := ctx]> (k_mem k)) in *.
  assert (m2 !! p = Some ctx) as Ep by (unfold m2; by rewrite lookup_insert_ne).
  assert (m2 !! child = Some ctx) as Ech by apply lookup_insert_eq.
  destruct (sched_duplicate_spec img (with_mem m2 (k_s k)) live p child) as (s3 & -> & Hs3 & Hf3);
    [apply (so_image _ _ _ _ Hsys)| |done|done| |cbn; eauto|cbn; by rewrite Ep, Ech|].
  { apply sched_inv_mem; [done|]. intros q Hq. unfold m2.
    rewrite lookup_insert_ne; [done|]. by intros <-. }
  { pose proof (so_room _ _ _ _ Hsys Hd). destruct Hr. lia. }
  exists s3. pose proof Hf3 as (Hm3 & _). split; [done|]. split; [|done].
  apply (kernel_mid_build _ _ _ _ _ _ m2); [done..| |done|done].
  intros q Hq. unfold m2. rewrite lookup_insert. case_decide as Eq; [|].
  - exists ctx. split; [done|]. destruct (Hc p Hp) as (c' & E' & Hconf). congruence.
  - apply Hc. apply elem_of_cons in Hq as [->|Hq]; [left|]. apply elem_of_cons in Hq as [->|Hq]; [done|by right].
Qed.

Lemma syscall_dup_thread_ok k live p ctx :
  cfg_dynamic cfg = true -> kernel_mid k live (Running p) -> k_mem k !! p = Some ctx ->
  u32 (range ctx) <> 0 -> k_idx_reserve k <> 0 ->
  let child := reserve img (Z.to_nat (k_idx_reserve k - 1)) in
  exists c k', syscall_dup_thread cfg syms img p k = Ok (c, k') /\ user_cpu c /\
    kernel_inv k' (child :: live) p /\ duplicated ctx (k_mem k') p child /\
    k_idx_reserve k' = k_idx_reserve k - 1.
Proof using Hsys.
  intros Hd Hk Ec Hr Hi child. pose proof (km_sched _ _ _ Hk) as Hs.
  destruct (running_phase_task _ _ _ Hs) as [Eph Hp]. pose proof (km_reserve _ _ _ Hk) as Hres.
  destruct (reserve_inv_take _ _ _ ctx Hres Hi) as (Hnl & Hni & [cc Hcc] & _). fold child in Hnl, Hni, Hcc.
  assert (child <> p) as Hne by (intros E; rewrite E in *; apply elem_of_cons in Hp as [?|?]; done).
  unfold syscall_dup_thread. rewrite Hd, (proj2 (load_ok _ _ _) Ec). cbn [rbind negb].
  rewrite (proj2 (Z.eqb_neq _ _) Hr), (proj2 (Z.eqb_neq _ _) Hi).
  rewrite (wrap_small _ (k_idx_reserve k - 1)) by (destruct Hres; unfold in_width; lia). fold child.
  rewrite (modify_ok _ _ _ cc Hcc). cbn [rbind].
  rewrite (copy_context_ok child p _ ctx (set_range 0 cc));
    [|done|by rewrite lookup_insert_ne|apply lookup_insert_eq].
  rewrite insert_insert_eq. cbn [rbind].
  destruct (dup_insert_ok k live p ctx Hd Hk Ec Hi) as (s3 & E3 & Hk3 & Hm3). fold child in E3, Hk3, Hm3.
  rewrite E3. cbn [rbind].
  destruct (mem_eq_next_lookup _ (s_mem s3) p ctx (symmetry Hm3)) as [n1 En1];
    [by rewrite lookup_insert_ne|].
  destruct (mem_eq_next_lookup _ (s_mem s3) child ctx (symmetry Hm3)) as [n2 En2];
    [apply lookup_insert_eq|].
  destruct (km_contexts _ _ _ Hk p Hp) as (c' & E' & Hconf).
  assert (c' = ctx) as -> by congruence.
  unfold set_return1. rewrite (modify_ok _ _ _ _ En1). cbn [rbind].
  erewrite modify_ok by (rewrite lookup_insert_ne by done; exact En2). cbn [rbind].
  set (k3 := KState s3 (k_term k) (k_ll k) (k_idx_reserve k - 1)) in Hk3.
  pose proof (kernel_mid_store k3 _ _ p _ (hw_context_set_return1 (hw ctx) 1) Hk3
    ltac:(set_solver) En1 (confined_return1 _ _ Hconf)) as Hk4.
  eapply (kernel_mid_store _ _ _ child _ (hw_context_set_return1 (hw ctx) 0)) in Hk4;
    [|set_solver|cbn; by rewrite lookup_insert_ne|by apply confined_return1].
  rewrite <-Eph in Hk4. apply switch_to_ok in Hk4 as (c & k' & Esw & Hu & Hinv & Es); [|set_solver].
  exists c, k'. split; [exact Esw|]. split; [done|]. split; [done|].
  destruct (switch_to_same _ _ _ _ Esw) as [_ Eidx]. split; [|exact Eidx].
  unfold duplicated, k_mem. rewrite Es. cbn. split; [exists n1|exists n2].
  - by rewrite lookup_insert_ne, lookup_insert_eq.
  - by rewrite lookup_insert_eq.
Qed.

(** ** The timer interrupt *)

Lemma kernel_mid_clock k live ph tm :
  kernel_mid k live ph -> next_wake_date tm = next_wake_date (s_timer (k_s k)) ->
  kernel_mid (set_s (with_timer tm (k_s k)) k) live ph.
Proof using Type. intros [] Htm. split; try done. by apply sched_inv_clock. Qed.

Lemma kernel_mid_ports k live ph ps :
  kernel_mid k live ph -> kernel_mid (set_ll (add_ports ps (k_ll k)) k) live ph.
Proof using Type. intros [[] ? ? ? ?]. by split; [split|..]. Qed.

(** The signed counter of DEBUG_PRINTING has not reached its maximum. *)
Definition count_ok k : Prop := cfg_debug cfg = true -> count (s_timer (k_s k)) <> 2 ^ 31 - 1.

(** The clock advances by one tick. *)
Lemma timer_tick_ok k live ph :
  kernel_mid k live ph -> count_ok k ->
  exists k1, timer_tick cfg k = Ok k1 /\ kernel_mid k1 live ph /\
    current_time (s_timer (k_s k1)) = u64 (current_time (s_timer (k_s k)) + ACTUAL_TICK) /\
    esp0 (ll_tss (k_ll k1)) = esp0 (ll_tss (k_ll k)).
Proof using Type.
  unfold count_ok. intros Hk Hcount. unfold timer_tick.
  pose proof (kernel_mid_ports k live ph [outb master_pic_command 0x20] Hk) as Hk1.
  set (k1 := set_ll _ k) in *. destruct (cfg_debug cfg).
  - unfold timer_count. cbn [timer_advance count s_timer k_s k1 set_ll].
    rewrite (proj2 (Z.eqb_neq _ _) (Hcount eq_refl)). cbn [rbind].
    assert (exists t, (if Z.rem (count (s_timer (k_s k)) + 1) 100 =? 0
        then terminal_putchar 38 (k_term k1) else Ok (k_term k1)) = Ok t /\ term_ok t) as (t & Et & Ht).
    { pose proof (km_term _ _ _ Hk1). destruct (_ =? 0); [by apply terminal_putchar_total|eauto]. }
    cbn [current_time next_wake_date timer_advance] in *. rewrite Et. cbn [rbind].
    eexists. split; [reflexivity|]. split; [|done].
    apply kernel_mid_term; [|done]. by apply (kernel_mid_clock k1).
  - eexists. split; [reflexivity|]. split; [|done]. by apply (kernel_mid_clock k1).
Qed.

(** A tick touches only the timer's variables of the scheduler's state. *)
Lemma timer_tick_timer k k1 :
  timer_tick cfg k = Ok k1 ->
  exists tm, k_s k1 = with_timer tm (k_s k) /\
    next_wake_date tm = next_wake_date (s_timer (k_s k)) /\
    current_time tm = u64 (current_time (s_timer (k_s k)) + ACTUAL_TICK).
Proof using Type.
  unfold timer_tick. intros E. destruct (cfg_debug cfg).
  - unfold timer_count in E. destruct (_ =? 2 ^ 31 - 1); [done|]. cbn [rbind] in E.
    apply rbind_ok in E as (t & _ & [= <-]). by eexists.
  - injection E as <-. by eexists.
Qed.

Lemma timer_tick_mid k live ph k1 :
  kernel_mid k live ph -> timer_tick cfg k = Ok k1 ->
  kernel_mid k1 live ph /\ k_idx_reserve k1 = k_idx_reserve k.
Proof using Type.
  intros Hk E. assert (count_ok k) as Hc.
  { intros Hd Hc. unfold timer_tick in E. rewrite Hd in E. unfold timer_count in E.
    cbn [timer_advance count s_timer k_s set_ll] in E. by rewrite (proj2 (Z.eqb_eq _ _) Hc) in E. }
  destruct (timer_tick_ok k live ph Hk Hc) as (k1' & E' & Hk1 & _). rewrite E in E'. injection E' as <-.
  split; [done|]. unfold timer_tick in E. destruct (cfg_debug cfg); [|by injection E as <-].
  apply rbind_ok in E as ([mark tm] & _ & E). apply rbind_ok in E as (t & _ & E). by injection E as <-.
Qed.

(** The handler of an alarm: the scheduler wakes the tasks that are due and the
    kernel leaves for a context of its choice. *)
Lemma timer_alarm_ok k live p :
  kernel_mid k live (running_phase p) -> p ∈ context_idle img :: live ->
  exists c k' p', timer_alarm img p k = Ok (c, k') /\ user_cpu c /\ kernel_inv k' live p'.
Proof using Hsys.
  intros Hk Hp. unfold timer_alarm.
  destruct (Z.leb_spec (next_wake_date (s_timer (k_s k))) (current_time (s_timer (k_s k)))) as [Hdue|_].
  2:{ destruct (switch_to_ok k live p Hk Hp) as (c & k' & E & Hu & Hi & _). eauto 6. }
  pose proof (so_image _ _ _ _ Hsys) as Himg. pose proof (km_sched _ _ _ Hk) as Hs.
  unfold high_level_timer_interrupt_handler. cbn [k_s set_s].
  unfold running_phase in Hs. destruct (context_is_idle img p).
  - destruct (sched_wake_idle_spec img (k_s k) live _ Himg Hs Hdue) as (s1 & -> & Hs1 & Hf1).
    cbn [rbind].
    destruct (sched_choose_next_spec img s1 live Himg Hs1) as (p' & s2 & -> & Hs2 & Hf2). cbn [rbind].
    destruct (switch_chosen k live p' s2 _ Hk (sched_frame_trans _ _ _ _ Hf1 Hf2) Hs2)
      as (c & k' & E & Hu & Hi & _). exists c, k', p'. split; [exact E|done].
  - apply (sched_inv_alarm _ _ _ _ (timer_dont_wake (s_timer (k_s k)))) in Hs.
    destruct (sched_wake_running_spec img _ live p (current_time (s_timer (k_s k))) Himg Hs)
      as (s1 & -> & Hs1 & Hf1). cbn [rbind].
    destruct (sched_maybe_preempt_spec img s1 live p Himg Hs1) as (p' & s2 & -> & Hs2 & Hf2).
    cbn [rbind].
    destruct (switch_chosen k live p' s2 _ Hk) as (c & k' & E & Hu & Hi & _);
      [exact (sched_frame_trans _ _ _ _ Hf1 Hf2)|by right|].
    exists c, k', p'. split; [exact E|done].
Qed.

(** ** Interrupts *)

(** Entering the kernel: the interrupted state is in the running context. *)
Lemma entry_ok k live p c :
  kernel_inv k live p -> user_cpu c ->
  exists ctx, k_mem k !! p = Some ctx /\
    interrupt_entry syms [] c (k_mem k) (k_ll k)
      = Ok (p, <[p := set_hw (saved syms p c (hw ctx)) ctx]> (k_mem k)) /\
    kernel_mid (set_kmem (<[p := set_hw (saved syms p c (hw ctx)) ctx]> (k_mem k)) k) live
      (running_phase p).
Proof using Type.
  intros [Hk Hp He _] [Hcs Hss]. destruct (km_contexts _ _ _ Hk p Hp) as (ctx & Ec & Hh & Hconf).
  exists ctx. split; [done|]. split; [by apply interrupt_entry_ok|].
  apply kernel_mid_store; [done..|]. destruct Hh as (H1 & H2 & _). by split.
Qed.

(** The gates lead to the intended handlers. *)
Lemma gate_handler k n :
  kernel_tables syms (k_ll k) -> 0 <= n < 256 ->
  exists g, decode_gate <$> ll_idt (k_ll k) !! Z.to_nat n = Some g /\
    gate_dpl g = vector_privilege n /\ handler_at syms (gate_offset g) = Some (vector_handler n).
Proof using Hsys.
  intros Ht Hn. eexists. split; [by apply (kt_gates _ _ Ht)|]. split; [done|].
  apply handler_at_address; [apply Hsys|done].
Qed.

(** The outcome of an interrupt: user mode with the invariant, or a halt. *)
Definition safe_outcome (r : (cpu * kst) + terminal) : Prop :=
  match r with
  | inl (c, k) => user_cpu c /\ exists live p, kernel_inv k live p
  | inr _ => True
  end.

(** A timer interrupt, after the entry of the kernel. *)
Lemma timer_entry k live p c :
  kernel_inv k live p -> user_cpu c ->
  exists ctx, k_mem k !! p = Some ctx /\
    let k1 := set_kmem (<[p := set_hw (saved syms p c (hw ctx)) ctx]> (k_mem k)) k in
    kernel_mid k1 live (running_phase p) /\
    interrupt cfg syms img TIMER_INTNUM [] c k = timer_interrupt_handler cfg img p k1.
Proof using Hsys.
  intros Hk Hu. destruct (entry_ok k live p c Hk Hu) as (ctx & Ec & Ee & Hk1).
  exists ctx. split; [done|]. split; [done|]. unfold interrupt.
  destruct (gate_handler k TIMER_INTNUM) as (g & -> & _ & ->);
    [apply (km_tables _ _ _ (ki_mid _ _ _ Hk))|by vm_compute|].
  change (vector_handler TIMER_INTNUM) with TimerHandler. by rewrite Ee.
Qed.

Lemma interrupt_timer_ok k live p c :
  kernel_inv k live p -> user_cpu c -> count_ok k ->
  exists c' k' p', interrupt cfg syms img TIMER_INTNUM [] c k = Ok (inl (c', k')) /\
    user_cpu c' /\ kernel_inv k' live p'.
Proof using Hsys.
  intros Hk Hu Hcount. destruct (timer_entry k live p c Hk Hu) as (ctx & Ec & Hk1 & ->).
  unfold timer_interrupt_handler.
  destruct (timer_tick_ok _ live _ Hk1) as (k2 & -> & Hk2 & _); [done|]. cbn [rbind].
  destruct (timer_alarm_ok k2 live p Hk2 (ki_known _ _ _ Hk)) as (c' & k' & p' & -> & Hu' & Hi).
  exists c', k', p'. done.
Qed.

(** After 2^31 - 1 ticks the increment of the counter overflows. *)
Lemma interrupt_timer_overflow k live p c :
  kernel_inv k live p -> user_cpu c -> cfg_debug cfg = true ->
  count (s_timer (k_s k)) = 2 ^ 31 - 1 ->
  interrupt cfg syms img TIMER_INTNUM [] c k = Err (Undef SignedOverflow).
Proof using Hsys.
  intros Hk Hu Hd Hcount. destruct (timer_entry k live p c Hk Hu) as (ctx & Ec & _ & ->).
  unfold timer_interrupt_handler, timer_tick. rewrite Hd. unfold timer_count.
  cbn [set_kmem set_s set_ll k_s with_mem s_timer timer_advance count].
  by rewrite (proj2 (Z.eqb_eq _ _) Hcount).
Qed.

(** The only message with an argument among the system calls. *)
Lemma catch_cannot_create {A} a t :
  in_width 32 a -> term_ok t ->
  exists t', catch (A := A) t
    (Err (Fatal "This thread (%x) cannot create another thread" [a])) = Ok (inr t').
Proof using Type.
  intros Ha Hs.
  destruct (fatal_total (plain "This thread (" ++ Hex a :: plain ") cannot create another thread") t)
    as (t' & E & _); [|done|].
  { apply Forall_app. split; [by apply plain_ok|]. constructor; [done|by apply plain_ok]. }
  exists t'. cbn [catch]. change (args_of _) with [SWord a] in E.
  change (format_of _) with (chars "This thread (%x) cannot create another thread") in E.
  cbn [fmap list_fmap]. by rewrite E.
Qed.

(** dup_thread on every branch. *)
Lemma dup_thread_outcome k live p :
  kernel_mid k live (Running p) ->
  exists r, catch (k_term k) (syscall_dup_thread cfg syms img p k) = Ok r /\ safe_outcome r.
Proof using Hsys.
  intros Hk. pose proof (km_term _ _ _ Hk) as Hterm.
  destruct (running_phase_task _ _ _ (km_sched _ _ _ Hk)) as [_ Hp].
  destruct (km_contexts _ _ _ Hk p Hp) as (ctx & Ec & _).
  assert (forall s, plain_chars s = true -> exists r,
    catch (A := cpu * kst) (k_term k) (Err (Fatal s [])) = Ok r /\ safe_outcome r) as Hplain.
  { intros s Hs. destruct (catch_plain (A := cpu * kst) s _ Hs Hterm) as (t' & -> & _). by eexists. }
  destruct (cfg_dynamic cfg) eqn:Ed.
  2:{ unfold syscall_dup_thread. rewrite Ed. by apply Hplain. }
  destruct (decide (u32 (range ctx) = 0)) as [Er|Er];
    [|destruct (decide (k_idx_reserve k = 0)) as [Ei|Ei]].
  - unfold syscall_dup_thread. rewrite Ed, (proj2 (load_ok _ _ _) Ec). cbn [negb rbind].
    rewrite Er. cbn [Z.eqb].
    destruct (catch_cannot_create (A := cpu * kst) (u32 (sym_context syms p)) (k_term k)
      ltac:(by apply wrap_range) Hterm) as (t' & ->). by eexists.
  - unfold syscall_dup_thread. rewrite Ed, (proj2 (load_ok _ _ _) Ec). cbn [negb rbind].
    rewrite (proj2 (Z.eqb_neq _ _) Er), Ei. cbn [Z.eqb]. by apply Hplain.
  - destruct (syscall_dup_thread_ok k live p ctx Ed Hk Ec Er Ei) as (c' & k' & -> & Hu & Hi & _).
    cbn [catch]. eexists. split; [done|]. split; eauto.
Qed.

(** A system call by a task ends in user mode or halts the machine. *)
Lemma syscall_ok k live p c :
  kernel_mid k live (Running p) -> in_width 32 (c_ebx c) ->
  exists r, catch (k_term k) (asm_syscall_handler cfg syms img c p k) = Ok r /\ safe_outcome r.
Proof using Hsys.
  intros Hk Hb. pose proof (km_term _ _ _ Hk) as Hterm.
  assert (forall c' k' p' live', user_cpu c' -> kernel_inv k' live' p' -> safe_outcome (inl (c', k')))
    as Hsafe by (intros; split; eauto).
  destruct (decide (4 <= c_ebx c)) as [Hge|Hlt].
  { unfold asm_syscall_handler, SYSCALL_NUMBER. zbool. eexists. split; [reflexivity|done]. }
  assert (c_ebx c = Z.of_nat 0 \/ c_ebx c = Z.of_nat 1 \/ c_ebx c = Z.of_nat 2 \/ c_ebx c = Z.of_nat 3)
    as [En | [En | [En | En]]] by (unfold in_width in Hb; lia).
  all: rewrite (syscall_call cfg syms img c p k _ _ En eq_refl).
  - destruct (running_phase_task _ _ _ (km_sched _ _ _ Hk)) as [_ Hp].
    destruct (km_contexts _ _ _ Hk p Hp) as (ctx & Ec & _).
    destruct (c_syscall_yield_ok k live p ctx (c_edx c) (c_ecx c) (c_esi c) (c_edi c) Hk Ec)
      as (c' & k' & p' & E & Hu & Hi & _). unfold syscall_yield. rewrite E. cbn [catch]. eauto.
  - destruct (cfg_debug cfg) eqn:Ed.
    + destruct (syscall_putchar_ok k live p (c_edx c) Ed Hk) as (c' & k' & -> & Hu & Hi & _).
      cbn [catch]. eauto.
    + unfold syscall_putchar. rewrite Ed. cbn [rbind].
      destruct (catch_plain (A := cpu * kst) "Compiled without printing feature" _ ltac:(done) Hterm)
        as (t' & -> & _). by eexists.
  - by apply (dup_thread_outcome k live p).
  - destruct (running_phase_task _ _ _ (km_sched _ _ _ Hk)) as [E Hp].
    unfold syscall_trigger_bug. rewrite <-E in Hk.
    destruct (switch_to_ok k live p Hk Hp) as (c' & k' & -> & Hu & Hi & _). cbn [catch]. eauto.
Qed.

(** Every default handler prints its message and halts. *)
Lemma default_handler_halts n t :
  0 <= n < 256 -> term_ok t ->
  exists t', catch (A := cpu * kst) t (Err (default_interrupt_handler n)) = Ok (inr t') /\ term_ok t'.
Proof using Type.
  intros Hn Hs.
  assert (default_interrupt_handler n
      = Fatal ("Received unexpected interrupt: %d (%x)" +:+ nl) [u32 n; u32 n] \/
    exists s, default_interrupt_handler n = Fatal s [] /\ plain_chars s = true) as [E|(s & E & Hp)].
  { destruct n as [|n|n]; [right; by eexists|..|lia].
    do 6 try first [left; reflexivity | right; eexists; split; reflexivity | destruct n as [n|n|]]. }
  2:{ rewrite E. by apply catch_plain. }
  rewrite E, wrap_small by (unfold in_width; lia).
  destruct (fatal_total (plain "Received unexpected interrupt: " ++ Dec n :: plain " (" ++ Hex n
      :: plain (")" +:+ nl)) t) as (t' & Ef & Hs'); [|done|].
  { apply Forall_app. split; [by apply plain_ok|]. constructor; [cbn; lia|].
    apply Forall_app. split; [by apply plain_ok|]. constructor; [cbn; unfold in_width; lia|].
    by apply plain_ok. }
  exists t'. split; [|done]. cbn [catch fmap list_fmap].
  change (args_of _) with [SWord n; SWord n] in Ef.
  change (format_of _) with (chars ("Received unexpected interrupt: %d (%x)" +:+ nl)) in Ef.
  by rewrite Ef.
Qed.

(** Every interrupt without an error code ends in user mode or halts. *)
Lemma interrupt_ok k live p c n :
  kernel_inv k live p -> user_cpu c -> 0 <= n < 256 ->
  (n = SYSCALL_INTNUM -> p ∈ live /\ in_width 32 (c_ebx c)) ->
  (n = TIMER_INTNUM -> count_ok k) ->
  exists r, interrupt cfg syms img n [] c k = Ok r /\ safe_outcome r.
Proof using Hsys.
  intros Hk Hu Hn Hsys' Htim. destruct (decide (n = TIMER_INTNUM)) as [->|Hnt].
  { destruct (interrupt_timer_ok k live p c Hk Hu (Htim eq_refl)) as (c' & k' & p' & -> & Hu' & Hi).
    eexists. split; [done|]. split; eauto. }
  unfold interrupt. pose proof (ki_mid _ _ _ Hk) as Hm.
  destruct (gate_handler k n (km_tables _ _ _ Hm) Hn) as (g & -> & _ & ->).
  destruct (entry_ok k live p c Hk Hu) as (ctx & Ec & Ee & Hk1).
  unfold vector_handler. destruct (Z.eqb_spec n SPURIOUS_TIMER_INTNUM); [by eexists|].
  rewrite (proj2 (Z.eqb_neq _ _) Hnt).
  destruct (Z.eqb_spec n SYSCALL_INTNUM) as [->|Hns]; rewrite Ee; cbn [rbind].
  - destruct (Hsys' eq_refl) as [Hp Hb]. apply running_phase_live in Hk1; [|done].
    by apply (syscall_ok _ live p c) in Hk1.
  - destruct (default_handler_halts n (k_term k) Hn (km_term _ _ _ Hm)) as (t' & Et & _).
    exists (inr t'). split; [exact Et|done].
Qed.

(** ** Boot *)

Definition confined_at (m : mem) p : Prop := exists c, m !! p = Some c /\ confined kernel_end (hw c).

(** Initialisation loses no context and spoils none. *)
Definition grows (m m' : mem) : Prop :=
  (forall q, is_Some (m !! q) -> is_Some (m' !! q)) /\
  (forall q, confined_at m q -> confined_at m' q).

#[local] Instance grows_preorder : PreOrder grows.
Proof using Type. split; [by split|]. intros m1 m2 m3 [H1 H2] [H3 H4]. split; auto. Qed.

Lemma grows_insert m p c : confined kernel_end (hw c) -> grows m (<[p := c]> m).
Proof using Type.
  intros Hc. split; intros q Hq; [by apply lookup_insert_is_Some'; right|].
  unfold confined_at. rewrite lookup_insert. case_decide; [eauto|done].
Qed.

Lemma context_init_ok m p idx pc start fin :
  is_Some (m !! p) -> placed kernel_end start fin ->
  exists c, context_init cfg m p idx pc start fin = Ok (<[p := c]> m) /\ confined kernel_end (hw c).
Proof using Type.
  intros [c Hc] (Hs & Hk & Hf). unfold context_init. rewrite (modify_ok m p _ c Hc).
  eexists. split; [reflexivity|].
  assert (in_width 32 (u32 (fin - start))) by by apply wrap_range.
  by destruct (cfg_dynamic cfg).
Qed.

(** An initialised context, possibly with other scheduling data. *)
Lemma context_init_then m p idx pc start fin g :
  is_Some (m !! p) -> placed kernel_end start fin -> (forall c, hw (g c) = hw c) ->
  exists m', (let* m1 := context_init cfg m p idx pc start fin in modify m1 p g) = Ok m' /\
    grows m m' /\ confined_at m' p.
Proof using Type.
  intros Hp Hpl Hg. destruct (context_init_ok m p idx pc start fin Hp Hpl) as (c & -> & Hc).
  cbn [rbind]. rewrite (modify_ok _ p g c) by apply lookup_insert_eq. rewrite insert_insert_eq.
  eexists. split; [reflexivity|]. split; [apply grows_insert; by rewrite Hg|].
  exists (g c). rewrite lookup_insert_eq, Hg. done.
Qed.

Lemma init_contexts_ok n i m :
  (i + n = length (tasks img))%nat ->
  (forall p, p ∈ t_context <$> tasks img -> is_Some (m !! p)) ->
  exists m', init_contexts cfg img n (Z.of_nat i) m = Ok m' /\ grows m m' /\
    forall j t, (i <= j)%nat -> tasks img !! j = Some t -> confined_at m' (t_context t).
Proof using Hsys.
  revert i m. induction n as [|n IH]; intros i m Hn Hal; cbn [init_contexts].
  { exists m. split; [done|]. split; [done|]. intros j t Hj Ht. apply lookup_lt_Some in Ht. lia. }
  rewrite (img_nb_tasks _ (so_image _ _ _ _ Hsys)), (proj2 (Z.leb_gt _ _)) by lia.
  rewrite Nat2Z.id. destruct (lookup_lt_is_Some_2 (tasks img) i) as [task Et]; [lia|].
  rewrite Et. pose proof (list_elem_of_lookup_2 _ _ _ Et) as Hin.
  destruct (context_init_ok m (t_context task) (Z.of_nat i) (t_start_pc task) (t_task_begin task)
    (t_task_end task)) as (c & -> & Hc).
  { apply Hal. by apply list_elem_of_fmap_2. }
  { by apply (proj1 (Forall_forall _ _) (so_tasks _ _ _ _ Hsys)). }
  cbn [rbind]. replace (Z.of_nat i + 1) with (Z.of_nat (S i)) by lia.
  pose proof (grows_insert m (t_context task) c Hc) as Hg.
  destruct (IH (S i) (<[t_context task := c]> m)) as (m' & E & Hg' & Hall); [lia| |].
  { intros p Hp. apply Hg. by apply Hal. }
  exists m'. split; [done|]. split; [by etrans|]. intros j t Hj Ht.
  destruct (decide (j = i)) as [->|Hne]; [|apply (Hall j t); [lia|done]].
  assert (t = task) as -> by congruence. apply Hg'. exists c. by rewrite lookup_insert_eq.
Qed.

Lemma init_reserve_loop_ok n i task0 m :
  (i + n <= 10)%nat -> (forall j, (j < 10)%nat -> is_Some (m !! reserve img j)) ->
  placed kernel_end (t_task_begin task0) (t_task_end task0) ->
  exists m', init_reserve_loop cfg img n i task0 m = Ok m' /\ grows m m'.
Proof using Type.
  intros Hn Hal Hp. revert i m Hn Hal. induction n as [|n IH]; intros i m Hn Hal; [by exists m|].
  cbn [init_reserve_loop].
  destruct (context_init_then m (reserve img i) 0 (t_start_pc task0) (t_task_begin task0)
    (t_task_end task0) (set_next_if cfg (reserve img 0))) as (m2 & E & Hg & _);
    [apply Hal; lia|done|intros c; unfold set_next_if; by destruct (has_next cfg)|].
  apply rbind_ok in E as (m1 & -> & E). cbn [rbind]. rewrite E. cbn [rbind].
  destruct (IH (S i) m2) as (m' & -> & Hg'); [lia| |].
  { intros j Hj. apply Hg. by apply Hal. }
  exists m'. split; [done|]. by etrans.
Qed.

(** The objects that exist before _start. *)
Record boot_state k : Prop := {
  bs_tasks p : p ∈ t_context <$> tasks img -> is_Some (k_mem k !! p);
  bs_reserve i : (i < 10)%nat -> is_Some (k_mem k !! reserve img i);
  bs_idle : is_Some (k_mem k !! context_idle img);
  bs_idx : k_idx_reserve k = 10;
  bs_idt : length (ll_idt (k_ll k)) = 256%nat;
  bs_buffer : length (terminal_buffer (k_term k)) = 2000%nat;
  bs_term : cfg_debug cfg = false -> term_ok (k_term k)
}.

(** The contexts after the three loops of high_level_init. *)
Definition init_memory (m : mem) : res mem :=
  let* m1 := init_contexts cfg img (Z.to_nat (nb_tasks img)) 0 m in
  let* m2 := init_reserve cfg img m1 in
  init_idle cfg img NUM_CPUS 0 m2.

Lemma high_level_init_memory (s : sstate St) :
  high_level_init cfg img s = (let* m3 := init_memory (s_mem s) in scheduler_init img (with_mem m3 s)).
Proof using Type.
  unfold high_level_init, init_memory. destruct (init_contexts _ _ _ _ _); [|done]. cbn [rbind].
  by destruct (init_reserve _ _ _).
Qed.

Lemma init_memory_ok m :
  (forall p, p ∈ t_context <$> tasks img -> is_Some (m !! p)) ->
  (forall i, (i < 10)%nat -> is_Some (m !! reserve img i)) ->
  is_Some (m !! context_idle img) ->
  exists m3, init_memory m = Ok m3 /\ grows m m3 /\
    forall q, q ∈ context_idle img :: (t_context <$> tasks img) -> confined_at m3 q.
Proof using Hsys.
  intros Ht Hr Hi. pose proof (so_image _ _ _ _ Hsys) as Himg. unfold init_memory.
  destruct (init_contexts_ok (Z.to_nat (nb_tasks img)) 0 m) as (m1 & E1 & G1 & C1);
    [rewrite (img_nb_tasks _ Himg); lia|done|].
  change (Z.of_nat 0) with 0 in E1. rewrite E1. cbn [rbind]. unfold init_reserve.
  destruct (tasks img !! 0%nat) as [task0|] eqn:E0.
  2:{ apply lookup_ge_None in E0. pose proof (img_some_task _ Himg). destruct (tasks img); [done|cbn in E0; lia]. }
  destruct (init_reserve_loop_ok 10 0 task0 m1) as (m2 & -> & G2); [lia| | |].
  { intros j Hj. apply G1. auto. }
  { apply (proj1 (Forall_forall _ _) (so_tasks _ _ _ _ Hsys)), list_elem_of_lookup_2 with (1 := E0). }
  cbn [rbind init_idle NUM_CPUS].
  destruct (context_init_then m2 (context_idle img) 0 0 (idle_start img) (idle_end img) (fun c =>
    let c1 := set_wakeup_date 0 (set_next_if cfg (context_idle img) c) in
    if edf cfg then set_deadline 0xFFFFFFFFFFFFFFFF c1 else c1)) as (m3 & E3 & G3 & C3).
  { apply G2, G1, Hi. }
  { apply Hsys. }
  { intros c. unfold set_next_if. by destruct (edf cfg), (has_next cfg). }
  apply rbind_ok in E3 as (m2' & E3 & E3').
  change (context_idle img) with (idle_ctx_array img 0) in *. rewrite E3. cbn [rbind].
  cbv zeta in E3'. rewrite E3'. cbn [rbind]. exists m3. split; [done|]. split; [by do 2 (etrans; [done|])|].
  intros q Hq. apply elem_of_cons in Hq as [->|Hq]; [done|]. apply G3, G2.
  apply list_elem_of_fmap in Hq as (t & -> & Hin). apply list_elem_of_lookup in Hin as [j Hj].
  apply (C1 j t); [lia|done].
Qed.

Lemma reserve_inv_initial m :
  (forall i, (i < 10)%nat -> is_Some (m !! reserve img i)) ->
  reserve_inv m 10 (t_context <$> tasks img).
Proof using Hsys.
  intros Hr. split; [lia| | |done].
  - intros i Hi. split; [apply (so_reserve_tasks _ _ _ _ Hsys); lia|].
    split; [apply (so_reserve_idle _ _ _ _ Hsys); lia|]. apply Hr. lia.
  - rewrite length_fmap, (img_nb_tasks _ (so_image _ _ _ _ Hsys)). lia.
Qed.

Lemma high_level_init_ok (s : sstate St) :
  (forall p, p ∈ t_context <$> tasks img -> is_Some (s_mem s !! p)) ->
  (forall i, (i < 10)%nat -> is_Some (s_mem s !! reserve img i)) ->
  is_Some (s_mem s !! context_idle img) ->
  exists s', high_level_init cfg img s = Ok s' /\
    sched_inv img s' (t_context <$> tasks img) Choosing /\
    (forall q, q ∈ context_idle img :: (t_context <$> tasks img) -> confined_at (s_mem s') q) /\
    (forall i, (i < 10)%nat -> is_Some (s_mem s' !! reserve img i)).
Proof using Hsys.
  intros Ht Hr Hi. destruct (init_memory_ok (s_mem s) Ht Hr Hi) as (m3 & E & [G _] & C).
  rewrite high_level_init_memory, E. cbn [rbind].
  destruct (scheduler_init_spec img (with_mem m3 s)) as (s' & Es & Hs & _ & Hns & _);
    [apply Hsys|intros p Hp; apply G, Ht, Hp|apply G, Hi|].
  exists s'. split; [done|]. split; [done|]. split.
  - intros q Hq. destruct (C q Hq) as (c & Ec & Hc). specialize (Hns q). cbn in Hns.
    rewrite Ec in Hns. destruct (s_mem s' !! q) as [c'|] eqn:E'; [|done].
    injection Hns as Eh _ _. exists c'. by rewrite Eh.
  - intros i Hlt. eapply non_sched_is_Some; [apply Hns|]. by apply G, Hr.
Qed.

(** boot reaches user mode. *)
Lemma boot_ok k :
  kernel_tables syms (k_ll k) -> term_ok (k_term k) -> k_idx_reserve k = 10 ->
  (forall p, p ∈ t_context <$> tasks img -> is_Some (k_mem k !! p)) ->
  (forall i, (i < 10)%nat -> is_Some (k_mem k !! reserve img i)) ->
  is_Some (k_mem k !! context_idle img) ->
  exists c k' p, boot cfg img k = Ok (c, k') /\ user_cpu c /\
    kernel_inv k' (t_context <$> tasks img) p.
Proof using Hsys.
  intros Htab Hterm Hidx Ht Hr Hi. unfold boot.
  destruct (high_level_init_ok (k_s k) Ht Hr Hi) as (s1 & -> & Hs1 & Hc1 & Hr1). cbn [rbind].
  destruct (sched_choose_next_spec img s1 _ (so_image _ _ _ _ Hsys) Hs1) as (p & s2 & -> & Hs2 & Hf2).
  cbn [rbind].
  assert (exists t, (if cfg_debug cfg
      then terminal_writestring (chars ("Switching to userspace" +:+ nl)) (k_term k)
      else Ok (k_term k)) = Ok t /\ term_ok t) as (t & -> & Hterm').
  { destruct (cfg_debug cfg); [by apply put_chars_total|eauto]. }
  cbn [rbind].
  assert (kernel_mid (KState s1 t (k_ll k) (k_idx_reserve k)) (t_context <$> tasks img) Choosing) as Hk.
  { apply (kernel_mid_build _ _ _ _ _ _ (s_mem s1)); try done.
    rewrite Hidx. by apply reserve_inv_initial. }
  destruct (switch_chosen _ _ p s2 _ Hk Hf2 Hs2) as (c & k' & E & Hu & Hinv & _).
  exists c, k', p. split; [exact E|done].
Qed.

(** The optional initialisation of the terminal. *)
Lemma terminal_start_ok k :
  boot_state k ->
  exists t, (if cfg_debug cfg then terminal_initialize (k_term k) else Ok (k_term k)) = Ok t /\
    term_ok t.
Proof using.
  intros [_ _ _ _ _ Hbuf Hterm]. destruct (cfg_debug cfg); [|by eauto].
  destruct (terminal_initialize_ok (k_term k) Hbuf) as (t & E & Hs). eauto using shows_term_ok.
Qed.

(** Any other magic number stops the machine. *)
Lemma wrong_loader_halts k magic :
  boot_state k -> magic <> MULTIBOOT_LOADER_MAGIC ->
  exists t, start cfg syms img magic k = Ok (inr t) /\ term_ok t.
Proof using.
  intros Hb Hm. unfold start, low_level_init. destruct (terminal_start_ok k Hb) as (t1 & -> & Ht1).
  cbn [rbind]. rewrite (proj2 (Z.eqb_neq _ _) Hm). cbn [rbind].
  destruct (catch_plain (A := terminal * timer * lowlevel) "Not loaded by a multiboot loader" t1)
    as (t' & E & Ht'); [done|done|]. rewrite E. cbn [rbind]. eauto.
Qed.

(** _start reaches user mode when the loader's magic number is right. *)
Lemma start_ok k :
  boot_state k ->
  exists c k' p, start cfg syms img MULTIBOOT_LOADER_MAGIC k = Ok (inl (c, k')) /\ user_cpu c /\
    kernel_inv k' (t_context <$> tasks img) p.
Proof using Hsys.
  intros Hb. unfold start, low_level_init. destruct (terminal_start_ok k Hb) as (t & -> & Hterm').
  destruct Hb as [Ht Hr Hi Hidx Hidt Hbuf Hterm].
  cbn [rbind]. rewrite Z.eqb_refl. cbn [rbind].
  destruct (low_level_tables_ok syms img (s_timer (k_s k)) (k_ll k)) as (l' & -> & Htab & _);
    [apply Hsys|done|].
  cbn [rbind catch].
  destruct (boot_ok (KState (with_timer (Timer 0 (next_wake_date (s_timer (k_s k)))
    (count (s_timer (k_s k)))) (k_s k)) t l' (k_idx_reserve k))) as (c & k' & p & -> & Hu & Hinv);
    [done..|].
  exists c, k', p. done.
Qed.

(** ** The machine *)

(** User code is running, or the machine is in the [cli; hlt] loop. *)
Inductive mstate := UserMode (c : cpu) (k : kst) | Halted (t : terminal).

Definition outcome (r : (cpu * kst) + terminal) : mstate :=
  match r with inl (c, k) => UserMode c k | inr t => Halted t end.

(** An instruction of user code: the processor protects cs, ss and, at IOPL 0,
    the interrupt flag; user memory is not part of the kernel's state. *)
Definition user_step (c c' : cpu) : Prop :=
  c_cs c' = c_cs c /\ c_ss c' = c_ss c /\
  Z.testbit (c_flags c') 9 = Z.testbit (c_flags c) 9 /\
  cpu_typed c'.

(** Exceptions for which the processor pushes no error code. *)
Definition no_error_code (n : Z) : Prop :=
  0 <= n < 32 /\ n ∉ [8; 10; 11; 12; 13; 14; 17; 30].

(** The code of the idle task, two jumps, makes no system call. *)
Inductive step : mstate -> mstate -> Prop :=
  | step_user c c' k : user_step c c' -> step (UserMode c k) (UserMode c' k)
  | step_int n c k r p off :
      0 <= n < 256 -> esp0 (ll_tss (k_ll k)) = Some (p, off) -> p <> context_idle img ->
      in_width 32 (c_ebx c) ->
      software_interrupt cfg syms img n c k = Ok r -> step (UserMode c k) (outcome r)
  | step_timer c k r :
      interrupt cfg syms img TIMER_INTNUM [] c k = Ok r -> step (UserMode c k) (outcome r)
  | step_exception n c k r :
      no_error_code n -> interrupt cfg syms img n [] c k = Ok r -> step (UserMode c k) (outcome r).

(** The states reached from _start. *)
Definition reachable (k0 : kst) (st : mstate) : Prop :=
  exists r, start cfg syms img MULTIBOOT_LOADER_MAGIC k0 = Ok r /\ rtc step (outcome r) st.

Definition safe_state (st : mstate) : Prop :=
  match st with
  | UserMode c k => user_cpu c /\ exists live p, kernel_inv k live p
  | Halted _ => True
  end.

(** The error code of an exception leaves no room for the registers: the last
    one goes below the context. *)
Lemma error_code_overrun k live p c n e :
  kernel_inv k live p -> 0 <= n < 32 -> interrupt cfg syms img n [e] c k = Err (Undef BadPointer).
Proof using Hsys.
  intros [Hk Hp He _] Hn. unfold interrupt.
  destruct (gate_handler k n (km_tables _ _ _ Hk) ltac:(lia)) as (g & -> & _ & ->).
  unfold vector_handler, SPURIOUS_TIMER_INTNUM, TIMER_INTNUM, SYSCALL_INTNUM. zbool.
  destruct (km_contexts _ _ _ Hk p Hp) as (ctx & Ec & _).
  by rewrite (interrupt_entry_error_code syms e c (k_mem k) (k_ll k) p ctx).
Qed.

Lemma software_interrupt_ok k live p c n :
  kernel_inv k live p -> user_cpu c -> 0 <= n < 256 -> p ∈ live -> in_width 32 (c_ebx c) ->
  if vector_privilege n =? 0 then software_interrupt cfg syms img n c k = Err (Undef BadPointer)
  else exists r, software_interrupt cfg syms img n c k = Ok r /\ safe_outcome r.
Proof using Hsys.
  intros Hk Hu Hn Hp Hb. unfold software_interrupt.
  destruct (gate_handler k n (km_tables _ _ _ (ki_mid _ _ _ Hk)) Hn) as (g & -> & -> & _).
  unfold vector_privilege. destruct (_ || _) eqn:E; cbn [Z.eqb Z.ltb].
  - by apply (error_code_overrun k live p).
  - apply orb_false_iff in E as [_ Ht]. apply Z.eqb_neq in Ht. by apply (interrupt_ok k live p).
Qed.

Lemma step_safe st st' :
  safe_state st -> step st st' ->
  safe_state st'.
Proof using Hsys.
  intros Hsafe Hstep.
  assert (forall r, safe_outcome r -> safe_state (outcome r)) as Hout by by intros [[]|].
  destruct Hstep as [c c' k Hus|n c k r p off Hn He Hni Hb E|c k r E|n c k r Hn E].
  - destruct Hsafe as [[Hcs Hss] Hk]. destruct Hus as (E1 & E2 & _).
    split; [|done]. split; congruence.
  - destruct Hsafe as (Hu & live & p' & Hk). pose proof (ki_esp0 _ _ _ Hk) as He'.
    assert (p' = p) as -> by congruence.
    assert (p ∈ live) as Hp by (pose proof (ki_known _ _ _ Hk) as Hkn; apply elem_of_cons in Hkn as [?|?]; done).
    pose proof (software_interrupt_ok k live p c n Hk Hu Hn Hp Hb) as H'.
    rewrite E in H'. destruct (_ =? 0); [done|]. destruct H' as (r' & [= <-] & Hr). by apply Hout.
  - destruct Hsafe as (Hu & live & p & Hk).
    destruct (interrupt_timer_ok k live p c Hk Hu) as (c' & k' & p' & E' & Hu' & Hi).
    { intros Hd Hc. by rewrite (interrupt_timer_overflow k live p c Hk Hu Hd Hc) in E. }
    rewrite E in E'. injection E' as ->. cbn. split; eauto.
  - destruct Hsafe as (Hu & live & p & Hk). destruct Hn as [Hn _].
    destruct (interrupt_ok k live p c n Hk Hu) as (r' & E' & Hr); [lia|unfold SYSCALL_INTNUM; lia|
      unfold TIMER_INTNUM; lia|].
    rewrite E in E'. injection E' as ->. by apply Hout.
Qed.

(** Every reachable state is safe. *)
Lemma reachable_safe k0 st : boot_state k0 -> reachable k0 st -> safe_state st.
Proof using Hsys.
  intros Hb (r & E & Hrtc).
  destruct (start_ok k0 Hb) as (c & k & p & E' & Hu & Hk). rewrite E in E'. injection E' as ->.
  cbn in Hrtc. assert (safe_state (UserMode c k)) as Hs by (split; eauto).
  clear -Hs Hrtc Hsys. induction Hrtc; [done|]. apply IHHrtc. by eapply step_safe.
Qed.

(** The interrupts that the kernel does not expect halt the machine. *)
Lemma unexpected_halts k live p c n :
  kernel_inv k live p -> user_cpu c -> 0 <= n < 256 -> n <> SYSCALL_INTNUM -> n <> TIMER_INTNUM ->
  exists t, interrupt cfg syms img n [] c k = Ok (inr t).
Proof using Hsys.
  intros Hk Hu Hn Hns Hnt. unfold interrupt. pose proof (ki_mid _ _ _ Hk) as Hm.
  destruct (gate_handler k n (km_tables _ _ _ Hm) Hn) as (g & -> & _ & ->).
  destruct (entry_ok k live p c Hk Hu) as (ctx & Ec & Ee & _).
  unfold vector_handler. destruct (Z.eqb_spec n SPURIOUS_TIMER_INTNUM); [by eexists|].
  rewrite (proj2 (Z.eqb_neq _ _) Hnt), (proj2 (Z.eqb_neq _ _) Hns), Ee. cbn [rbind].
  destruct (default_handler_halts n (k_term k) Hn (km_term _ _ _ Hm)) as (t' & Et & _).
  exists t'. exact Et.
Qed.

(** Exceptions halt the machine. *)
Lemma exception_halts k live p c n :
  kernel_inv k live p -> user_cpu c -> 0 <= n < 32 ->
  exists t, interrupt cfg syms img n [] c k = Ok (inr t).
Proof using Hsys.
  intros Hk Hu Hn. apply (unexpected_halts k live p); [done..| | |];
    unfold SYSCALL_INTNUM, TIMER_INTNUM; lia.
Qed.

(** So do software interrupts other than system calls. *)
Lemma software_interrupt_halts k live p c n :
  kernel_inv k live p -> user_cpu c -> 0 <= n < 256 -> vector_privilege n = 3 -> n <> SYSCALL_INTNUM ->
  exists t, software_interrupt cfg syms img n c k = Ok (inr t).
Proof using Hsys.
  intros Hk Hu Hn Hv Hns. unfold software_interrupt.
  destruct (gate_handler k n (km_tables _ _ _ (ki_mid _ _ _ Hk)) Hn) as (g & -> & -> & _). rewrite Hv.
  cbn [Z.ltb Z.compare]. apply (unexpected_halts k live p); try done. intros ->. discriminate Hv.
Qed.

(** The stack of the TSS tells which context runs. *)
Lemma running_known k live p q off :
  kernel_inv k live p -> esp0 (ll_tss (k_ll k)) = Some (q, off) -> q <> context_idle img ->
  q = p /\ p ∈ live.
Proof using Type.
  intros Hk He Hq. pose proof (ki_esp0 _ _ _ Hk) as He'. assert (q = p) as -> by congruence.
  split; [done|]. by pose proof (ki_known _ _ _ Hk) as [?|?]%elem_of_cons.
Qed.

(** A system call of a running task, after the entry of the kernel. *)
Lemma syscall_entry k live p c :
  kernel_inv k live p -> user_cpu c -> p ∈ live ->
  exists ctx, k_mem k !! p = Some ctx /\
    let k1 := set_kmem (<[p := set_hw (saved syms p c (hw ctx)) ctx]> (k_mem k)) k in
    kernel_mid k1 live (Running p) /\
    software_interrupt cfg syms img SYSCALL_INTNUM c k
      = catch (k_term k) (asm_syscall_handler cfg syms img c p k1).
Proof using Hsys.
  intros Hk Hu Hp. destruct (entry_ok k live p c Hk Hu) as (ctx & Ec & Ee & Hk1).
  exists ctx. split; [done|]. split; [by apply running_phase_live in Hk1|].
  unfold software_interrupt.
  destruct (gate_handler k SYSCALL_INTNUM) as (g & -> & -> & _);
    [apply (km_tables _ _ _ (ki_mid _ _ _ Hk))|by vm_compute|].
  change (vector_privilege SYSCALL_INTNUM <? 3) with false. unfold interrupt.
  destruct (gate_handler k SYSCALL_INTNUM) as (g' & -> & _ & ->);
    [apply (km_tables _ _ _ (ki_mid _ _ _ Hk))|by vm_compute|].
  change (vector_handler SYSCALL_INTNUM) with SyscallHandler. by rewrite Ee.
Qed.

(** dup_thread leaves the kernel with the registers of the parent's context. *)
Lemma dup_returns p k c k' ctx :
  syscall_dup_thread cfg syms img p k = Ok (c, k') -> k_mem k' !! p = Some ctx ->
  c = restore (hw ctx) (ss (iframe (hw ctx))).
Proof using Type.
  unfold syscall_dup_thread. intros E Ec. destruct (negb _); [done|].
  apply rbind_ok in E as (c0 & _ & E). destruct (_ =? 0); [done|]. destruct (_ =? 0); [done|].
  apply rbind_ok in E as (m1 & _ & E). apply rbind_ok in E as (m2 & _ & E).
  apply rbind_ok in E as (s3 & _ & E). apply rbind_ok in E as (m4 & _ & E).
  apply rbind_ok in E as (m5 & _ & E). pose proof (switch_to_same _ _ _ _ E) as [Es _].
  apply switch_to_restore in E as (ctx' & Ec' & ->).
  unfold k_mem in *. rewrite Es in Ec. congruence.
Qed.
End Kernel.
