(* ===== verification/Typing.v ===== *)
(** * The widths of the kernel's variables

    The models compute in Z and wrap where the C code can leave the width of a
    variable.  This file proves that they wrap enough: [kstate_typed] gives each
    variable the range of its C type, and every operation that returns keeps it.
    The queues and the schedulers state what they keep through the classes
    [PQueueFrame] and [SchedulerTyped], so that the kernel is typed for each of
    the schedulers. *)

From stdpp Require Import options.
From S2P Require Import Prelude Contexts PQueue ListQueue ArrayHeap Timer Scheduler.
From S2P Require Import PriorityScheduler RoundRobin Fprint Terminal Segment LowLevel.
From S2P Require Import HighLevel Kernel.

(** ** Types *)

(** uint32_t registers, uint64_t dates, unsigned priority, int pid and range. *)
Record ctx_typed (c : context) : Prop := {
  ct_hw : Forall (in_width 32) (hw_words (hw c));
  ct_wakeup : in_width 64 (wakeup_date (sched c));
  ct_deadline : in_width 64 (deadline (sched c));
  ct_priority : in_width 32 (priority (sched c));
  ct_pid : in_width 31 (pid c);
  ct_range : in_width 31 (range c)
}.

Definition mem_typed (m : mem) : Prop := map_Forall (fun _ => ctx_typed) m.

Record timer_typed (t : timer) : Prop := {
  tt_current : in_width 64 (current_time t);
  tt_next : in_width 64 (next_wake_date t);
  tt_count : in_width 31 (count t)
}.

Definition sstate_typed {St} (s : sstate St) : Prop := mem_typed (s_mem s) /\ timer_typed (s_timer s).

(** 16-bit cells, 8-bit color, 32-bit coordinates. *)
Record term_typed (t : terminal) : Prop := {
  te_row : in_width 32 (terminal_row t);
  te_column : in_width 32 (terminal_column t);
  te_color : in_width 8 (terminal_color t);
  te_buffer : Forall (in_width 16) (terminal_buffer t)
}.

(** 64-bit descriptors and gates, 16-bit limits, selectors and ports, 8-bit
    values. *)
Record ll_typed (l : lowlevel) : Prop := {
  lt_gdt : Forall (in_width 64) (gdt_entries (ll_gdt l));
  lt_idt : Forall (in_width 64) (ll_idt l);
  lt_ss0 : in_width 32 (ss0 (ll_tss l));
  lt_gdtr : in_width 16 (ll_gdtr l).1 /\ in_width 32 (ll_gdtr l).2;
  lt_idtr : in_width 16 (ll_idtr l).1 /\ in_width 32 (ll_idtr l).2;
  lt_tr : in_width 16 (ll_tr l);
  lt_ports : Forall (fun p => in_width 16 p.1 /\ in_width 8 p.2) (ll_ports l)
}.

Record kstate_typed {St} (k : kstate St) : Prop := {
  ks_sstate : sstate_typed (k_s k);
  ks_term : term_typed (k_term k);
  ks_ll : ll_typed (k_ll k);
  ks_idx : in_width 32 (k_idx_reserve k)
}.

(** The image: 32-bit addresses and priorities, and pids that fit. *)
Record image_typed (img : user_tasks_image) : Prop := {
  it_tasks : Forall (fun t => in_width 32 (t_start_pc t) /\ in_width 32 (t_task_begin t) /\
    in_width 32 (t_task_end t) /\ in_width 32 (t_priority t)) (tasks img);
  it_idle : in_width 32 (idle_start img);
  it_pids : nb_tasks img <= 2 ^ 28
}.

Create HintDb typed.
#[export] Hint Resolve Build_ctx_typed Build_timer_typed : typed.

(** ** Contexts *)

Lemma mem_typed_lookup m p c : mem_typed m -> m !! p = Some c -> ctx_typed c.
Proof. intros Hm. apply Hm. Qed.

Lemma mem_typed_insert m p c : mem_typed m -> ctx_typed c -> mem_typed (<[p := c]> m).
Proof. intros. by apply map_Forall_insert_2. Qed.

Lemma mem_typed_load m p : mem_typed m -> on_ok ctx_typed (load m p).
Proof. intros Hm. unfold load. destruct (m !! p) eqn:E; [|done]. by apply (Hm p). Qed.

Lemma mem_typed_modify m p f :
  mem_typed m -> (forall c, ctx_typed c -> ctx_typed (f c)) -> on_ok mem_typed (modify m p f).
Proof.
  intros Hm Hf. eapply on_ok_bind; [by apply mem_typed_load|]. intros c Hc.
  by apply mem_typed_insert; auto.
Qed.

Lemma typed_set_next n c : ctx_typed c -> ctx_typed (set_next n c).
Proof. by intros []. Qed.

Lemma typed_set_hw h c : ctx_typed c -> Forall (in_width 32) (hw_words h) -> ctx_typed (set_hw h c).
Proof. by intros [] ?. Qed.

Lemma typed_set_priority z c : ctx_typed c -> in_width 32 z -> ctx_typed (set_priority z c).
Proof. by intros [] ?. Qed.

#[export] Hint Resolve mem_typed_insert mem_typed_load typed_set_next typed_set_hw typed_set_priority
  : typed.

(** Links do not matter. *)
#[global] Instance mem_typed_proper : Proper (mem_eq_next ==> iff) mem_typed.
Proof.
  assert (forall m m', m ≈ₙ m' -> mem_typed m -> mem_typed m') as Himp.
  { intros m m' E Hm p c Hc. symmetry in E.
    destruct (mem_eq_next_lookup m' m p c E Hc) as [n Hn]. by destruct (Hm p _ Hn). }
  intros m m' E. split; apply Himp; [done|by symmetry].
Qed.

(** ** Queues *)

(** The operations of a queue write no field but [next]. *)
Class PQueueFrame (pf : prio_fn) (Q : Type) `{PQueue pf Q} := {
  pq_insert_frame nbc m q x : on_ok (fun r => r.1 ≈ₙ m) (pq_insert_elt nbc m q x);
  pq_remove_frame nbc m q : on_ok (fun r => r.1.2 ≈ₙ m) (pq_remove_elt nbc m q)
}.

Lemma modify_next_frame m p n : on_ok (fun m' => m' ≈ₙ m) (modify m p (set_next n)).
Proof.
  unfold modify, load. destruct (m !! p) eqn:E; [|done]. cbn. by apply mem_eq_set_next.
Qed.

Lemma link_two_frame {A} m p n q n' (h : A) :
  on_ok (fun r => r.1 ≈ₙ m)
    (let* m1 := modify m p (set_next n) in let* m2 := modify m1 q (set_next n') in Ok (m2, h)).
Proof.
  eapply on_ok_bind; [apply modify_next_frame|]. intros m1 H1.
  eapply on_ok_bind; [apply modify_next_frame|]. intros m2 H2. cbn. by transitivity m1.
Qed.

Lemma lq_insert_walk_frame pf fuel m heap prio elt cur prev :
  on_ok (fun r => r.1 ≈ₙ m) (lq_insert_walk pf fuel m heap prio elt cur prev).
Proof.
  revert cur prev. induction fuel as [|fuel IH]; intros [c|] prev; cbn; try done.
  - destruct prev; [|done]. apply link_two_frame.
  - apply on_ok_skip. intros cc. destruct (is_gt_priority _ _ _); [|apply IH].
    eapply (on_ok_bind (fun r => r.1 ≈ₙ m)).
    + destruct prev; [|done]. eapply on_ok_bind; [apply modify_next_frame|]. done.
    + intros [m1 h1] H1. eapply on_ok_bind; [apply modify_next_frame|]. intros m2 H2.
      cbn in *. by transitivity m1.
  - destruct prev; [|done]. apply link_two_frame.
Qed.

#[global] Instance list_frame pf : PQueueFrame pf list_heap.
Proof.
  split; intros; cbn.
  - unfold lq_insert_elt. apply on_ok_skip. intros ce.
    eapply (on_ok_bind (fun r => r.1 ≈ₙ m)); [|by intros []].
    destruct (lh_head q); [apply lq_insert_walk_frame|].
    eapply on_ok_bind; [apply modify_next_frame|]. done.
  - unfold lq_remove_elt. apply on_ok_skip. intros _. destruct (lh_head q); [|done].
    by apply on_ok_skip.
Qed.

#[global] Instance array_frame pf : PQueueFrame pf array_heap.
Proof.
  split; intros; cbn.
  - unfold ah_insert_elt. do 2 (apply on_ok_skip; intros ?). apply on_ok_skip. intros [].
    by apply on_ok_skip.
  - unfold ah_remove_elt. do 6 (apply on_ok_skip; intros ?).
    match goal with |- context [match ?r with Some _ => _ | None => _ end] => by destruct r end.
Qed.

(** ** Schedulers *)

Class SchedulerTyped (St : Type) `{Scheduler St} := {
  scheduler_init_typed img s :
    image_typed img -> sstate_typed s -> on_ok sstate_typed (scheduler_init img s);
  sched_set_waiting_typed img ctx s :
    sstate_typed s -> on_ok sstate_typed (sched_set_waiting img ctx s);
  sched_wake_tasks_typed img t s :
    sstate_typed s -> on_ok sstate_typed (sched_wake_tasks img t s);
  sched_maybe_preempt_typed img ctx s :
    sstate_typed s -> on_ok (fun r => sstate_typed r.2) (sched_maybe_preempt img ctx s);
  sched_choose_next_typed img s :
    sstate_typed s -> on_ok (fun r => sstate_typed r.2) (sched_choose_next img s);
  sched_duplicate_typed img ctx new s :
    sstate_typed s -> on_ok sstate_typed (sched_insert_duplicated_context img ctx new s)
}.

#[export] Hint Resolve scheduler_init_typed sched_set_waiting_typed sched_wake_tasks_typed
  sched_maybe_preempt_typed sched_choose_next_typed sched_duplicate_typed : typed.

Section PrioritySchedulers.
Context {fp : bool} {Q : Type} `{!PQueue waiting_pf Q} `{!PQueue (ready_pf fp) Q}.
Context `{!PQueueFrame waiting_pf Q} `{!PQueueFrame (ready_pf fp) Q}.
Implicit Types (img : user_tasks_image) (s : sstate (priority_sched fp Q)).

(** Queue operations keep the contexts typed. *)
Lemma insert_typed {pf} `{!PQueue pf Q, !PQueueFrame pf Q} nbc m (q : Q) x :
  mem_typed m -> on_ok (fun r => mem_typed r.1) (pq_insert_elt (pf := pf) nbc m q x).
Proof using.
  intros Hm. eapply on_ok_mono; [apply pq_insert_frame|]. intros [m' q'] E. cbn in *. by rewrite E.
Qed.

Lemma remove_typed {pf} `{!PQueue pf Q, !PQueueFrame pf Q} nbc m (q : Q) :
  mem_typed m -> on_ok (fun r => mem_typed r.1.2) (pq_remove_elt (pf := pf) nbc m q).
Proof using.
  intros Hm. eapply on_ok_mono; [apply pq_remove_frame|]. intros [[p m'] q'] E. cbn in *. by rewrite E.
Qed.

Lemma ready_insert_typed img x s : sstate_typed s -> on_ok sstate_typed (ready_insert fp img x s).
Proof using All.
  intros [Hm Ht]. eapply on_ok_bind; [by apply insert_typed|]. by intros [m r] Hm'.
Qed.

Lemma ready_remove_typed img s :
  sstate_typed s -> on_ok (fun r => sstate_typed r.2) (ready_remove fp img s).
Proof using All.
  intros [Hm Ht]. eapply on_ok_bind; [by apply remove_typed|]. by intros [[p m] r] Hm'.
Qed.

Lemma ps_wake_loop_typed fuel img t s :
  sstate_typed s -> on_ok sstate_typed (ps_wake_loop fp fuel img t s).
Proof using All.
  revert s. induction fuel as [|fuel IH]; intros s Hs; cbn [ps_wake_loop]; [done|].
  destruct (0 <? _); [|done]. do 2 (apply on_ok_skip; intros ?). destruct (_ <=? t); [|done].
  destruct Hs as [Hm Ht]. eapply on_ok_bind; [by apply remove_typed|]. intros [[p m] w] Hm'.
  apply on_ok_skip. intros _. eapply on_ok_bind; [by apply ready_insert_typed|]. intros s1 Hs1.
  by apply IH.
Qed.

Lemma ps_init_tasks_typed n img i s :
  image_typed img -> sstate_typed s -> on_ok sstate_typed (ps_init_tasks fp n img i s).
Proof using All.
  intros Himg. revert i s. induction n as [|n IH]; intros i s [Hm Ht]; cbn [ps_init_tasks]; [done|].
  destruct (_ <=? i); [done|]. destruct (tasks img !! _) as [task|] eqn:E; [|done].
  apply list_elem_of_lookup_2, (proj1 (Forall_forall _ _) (it_tasks _ Himg)) in E.
  eapply (on_ok_bind mem_typed).
  { destruct fp; [|done]. apply mem_typed_modify; [done|]. intros c Hc.
    by apply typed_set_priority; [|apply E]. }
  intros m Hm'. eapply on_ok_bind; [by apply ready_insert_typed|]. intros s1 Hs1. by apply IH.
Qed.

#[global] Instance priority_scheduler_typed : SchedulerTyped (priority_sched fp Q).
Proof using All.
  split; intros img; cbn [scheduler_init sched_set_waiting sched_wake_tasks sched_maybe_preempt
    sched_choose_next sched_insert_duplicated_context priority_scheduler].
  - intros s Himg [Hm Ht]. unfold ps_scheduler_init. eapply (on_ok_bind mem_typed).
    { destruct fp; [|done]. apply mem_typed_modify; [done|]. intros c Hc.
      by apply typed_set_priority. }
    intros m Hm'. by apply ps_init_tasks_typed.
  - intros ctx s [Hm Ht]. unfold ps_set_waiting. apply on_ok_skip. intros _.
    eapply on_ok_bind; [by apply insert_typed|]. intros [m w] Hm'. apply on_ok_skip. intros first.
    eapply on_ok_bind; [by apply mem_typed_load|]. intros c Hc. split; [done|].
    destruct Ht, Hc. by split.
  - intros t s Hs. by apply ps_wake_loop_typed.
  - intros ctx s Hs. unfold ps_maybe_preempt. apply on_ok_skip. intros _.
    destruct (0 <? _); [|done]. do 3 (apply on_ok_skip; intros ?).
    destruct (is_gt_priority _ _ _); [|done].
    eapply on_ok_bind; [by apply ready_insert_typed|]. intros s1 Hs1. by apply ready_remove_typed.
  - intros s Hs. unfold ps_choose_next. destruct (_ =? 0); [done|]. by apply ready_remove_typed.
  - intros ctx new s Hs. by apply ready_insert_typed.
Qed.
End PrioritySchedulers.

Lemma rr_link_typed n img i prev m : mem_typed m -> on_ok mem_typed (rr_link n img i prev m).
Proof.
  revert i prev m. induction n as [|n IH]; intros i prev m Hm; cbn [rr_link]; [done|].
  destruct (_ <=? i); [done|]. destruct (tasks img !! _); [|done].
  eapply on_ok_bind; [apply mem_typed_modify; [done|auto with typed]|]. intros m1 Hm1. by apply IH.
Qed.

#[global] Instance rr_scheduler_typed : SchedulerTyped rr_sched.
Proof.
  split; intros img; cbn [scheduler_init sched_set_waiting sched_wake_tasks sched_maybe_preempt
    sched_choose_next sched_insert_duplicated_context rr_scheduler]; try done.
  - intros s _ [Hm Ht]. unfold rr_scheduler_init. destruct (tasks img !! _); [|done].
    eapply on_ok_bind; [by apply rr_link_typed|]. intros m Hm'. by destruct (tasks img !! _).
  - intros s [Hm Ht]. unfold rr_choose_next. destruct (RoundRobin.current _); [|done]. apply on_ok_skip.
    intros c0. by destruct (next _).
  - intros ctx new s [Hm Ht]. unfold rr_insert_duplicated_context.
    do 3 (apply on_ok_skip; intros ?).
    eapply on_ok_bind; [apply mem_typed_modify; [done|auto with typed]|]. by intros m Hm'.
Qed.

(** ** The terminal *)

Lemma vga_store_typed b i v :
  Forall (in_width 16) b -> in_width 16 v -> on_ok (Forall (in_width 16)) (vga_store b i v).
Proof.
  intros Hb Hv. unfold vga_store. destruct (i <? _); [|done]. cbn. by apply Forall_insert.
Qed.

Lemma vga_entry_typed uc color : in_width 16 (vga_entry uc color).
Proof. by apply wrap_range. Qed.

Lemma clear_row_typed n y x v b :
  Forall (in_width 16) b -> in_width 16 v -> on_ok (Forall (in_width 16)) (clear_row n y x v b).
Proof.
  revert x b. induction n as [|n IH]; intros x b Hb Hv; [done|]. cbn [clear_row].
  eapply on_ok_bind; [by apply vga_store_typed|]. auto.
Qed.

Lemma clear_rows_typed n y v b :
  Forall (in_width 16) b -> in_width 16 v -> on_ok (Forall (in_width 16)) (clear_rows n y v b).
Proof.
  revert y b. induction n as [|n IH]; intros y b Hb Hv; [done|]. cbn [clear_rows].
  eapply on_ok_bind; [by apply clear_row_typed|]. auto.
Qed.

Lemma copy_up_typed n i b :
  Forall (in_width 16) b -> on_ok (Forall (in_width 16)) (copy_up n i b).
Proof.
  revert i b. induction n as [|n IH]; intros i b Hb; [done|]. cbn [copy_up].
  eapply (on_ok_bind (in_width 16)).
  - unfold vga_load. destruct (b !! _) eqn:E; [|done]. cbn.
    by apply (proj1 (Forall_forall _ _) Hb), list_elem_of_lookup_2 with (1 := E).
  - intros v Hv. eapply on_ok_bind; [by apply vga_store_typed|]. auto.
Qed.

Lemma clear_from_typed n i v b :
  Forall (in_width 16) b -> in_width 16 v -> on_ok (Forall (in_width 16)) (clear_from n i v b).
Proof.
  revert i b. induction n as [|n IH]; intros i b Hb Hv; [done|]. cbn [clear_from].
  eapply on_ok_bind; [by apply vga_store_typed|]. auto.
Qed.

Lemma terminal_initialize_typed t :
  Forall (in_width 16) (terminal_buffer t) -> on_ok term_typed (terminal_initialize t).
Proof.
  intros Ht. unfold terminal_initialize.
  eapply on_ok_bind; [by apply clear_rows_typed; [|apply vga_entry_typed]|].
  intros b Hb. by split.
Qed.

Lemma terminal_newline_typed t : term_typed t -> on_ok term_typed (terminal_newline t).
Proof.
  intros [Hr Hc Hco Hb]. unfold terminal_newline. destruct (_ <=? _).
  - eapply on_ok_bind; [by apply copy_up_typed|]. intros b1 Hb1.
    eapply on_ok_bind; [apply clear_from_typed; [done|apply vga_entry_typed]|]. intros b2 Hb2.
    by split.
  - split; cbn; try done. by apply wrap_range.
Qed.

Lemma terminal_putchar_typed c t : term_typed t -> on_ok term_typed (terminal_putchar c t).
Proof.
  intros Ht. unfold terminal_putchar. destruct (c =? 10); [by apply terminal_newline_typed|].
  eapply (on_ok_bind term_typed).
  - unfold terminal_putentryat. apply on_ok_skip. intros _. destruct (_ <=? _); [done|].
    eapply on_ok_bind; [apply vga_store_typed; [apply Ht|apply vga_entry_typed]|].
    intros b Hb. destruct Ht. by split.
  - intros t1 [Hr Hc Hco Hb]. destruct (_ <=? _); [apply terminal_newline_typed|].
    all: split; cbn; try done; by apply wrap_range.
Qed.

(** What each character keeps, vfprint keeps. *)
Section Vfprint.
Context {S : Type} (P : S -> Prop) (putchar : Z -> S -> res S).
Context (Hput : forall c s, P s -> on_ok P (putchar c s)).

Lemma put_chars_keeps l s : P s -> on_ok P (put_chars putchar l s).
Proof using Hput.
  revert s. induction l as [|c l IH]; intros s Hs; [done|]. cbn.
  eapply on_ok_bind; [by apply Hput|]. auto.
Qed.

Lemma put_buffer_keeps fuel b j s : P s -> on_ok P (put_buffer putchar fuel b j s).
Proof using Hput.
  revert j s. induction fuel as [|fuel IH]; intros j s Hs; [done|]. cbn. apply on_ok_skip.
  intros [c|]; [|done]. destruct (c =? 0); [done|]. eapply on_ok_bind; [by apply Hput|]. auto.
Qed.

Lemma put_buf_then {A} b s (k : S -> A) (Q : A -> Prop) :
  P s -> (forall s1, P s1 -> Q (k s1)) ->
  on_ok Q (let* s1 := put_buf putchar b s in Ok (k s1)).
Proof using Hput. intros Hs Hk. eapply on_ok_bind; [by apply put_buffer_keeps|]. done. Qed.

Lemma conversion_keeps format i ap s :
  P s -> on_ok (fun r => P r.2) (conversion putchar format i ap s).
Proof using Hput.
  intros Hs. unfold conversion. apply on_ok_skip. intros c.
  destruct (_ || _); [|destruct (c =? 120); [|destruct (c =? 115)]].
  - apply on_ok_skip. intros [d ap']. apply on_ok_skip. intros b. by apply put_buf_then.
  - apply on_ok_skip. intros [d ap']. apply on_ok_skip. intros b. by apply put_buf_then.
  - apply on_ok_skip. intros [str ap']. eapply on_ok_bind; [by apply put_chars_keeps|]. done.
  - apply on_ok_skip. intros ll. destruct (ll =? 120); [|destruct (ll =? 117);
      [|destruct (c =? ch_percent)]].
    + apply on_ok_skip. intros [d ap']. apply on_ok_skip. intros b.
      eapply on_ok_bind; [by apply put_buffer_keeps|]. intros s1 Hs1. apply on_ok_skip. intros b2.
      by apply put_buf_then.
    + apply on_ok_skip. intros [d ap']. apply on_ok_skip. intros b. by apply put_buf_then.
    + eapply on_ok_bind; [by apply Hput|]. done.
    + eapply on_ok_bind; [by apply put_chars_keeps|]. intros s1 H1.
      do 3 (eapply on_ok_bind; [by apply Hput|]; intros ? ?). done.
Qed.

Lemma vfprint_keeps format ap s : P s -> on_ok P (vfprint putchar format ap s).
Proof using Hput.
  unfold vfprint. generalize (Datatypes.S (length format)) as fuel, 0%nat as i. intros fuel.
  revert ap s. induction fuel as [|fuel IH]; intros ap s i Hs; [done|]. cbn [vfprint_loop].
  apply on_ok_skip. intros c. destruct (c =? 0); [done|]. destruct (negb _).
  - eapply on_ok_bind; [by apply Hput|]. auto.
  - eapply on_ok_bind; [by apply conversion_keeps|]. intros [[i1 ap1] s1] Hs1. by apply IH.
Qed.
End Vfprint.

Lemma catch_typed {A} (P : A -> Prop) t (r : res A) :
  term_typed t -> on_ok P r ->
  on_ok (fun x => match x with inl a => P a | inr t' => term_typed t' end) (catch t r).
Proof.
  intros Ht Hr. destruct r as [a|[format args| | |]]; cbn; try done.
  eapply on_ok_bind; [by apply (vfprint_keeps term_typed); [apply terminal_putchar_typed|]|]. done.
Qed.

(** ** The hardware layer *)

(** Splits [Forall] over a list given by its elements. *)
Local Ltac words := repeat first [apply Forall_nil_2 | apply Forall_cons_2].

Lemma hw_of_words_inv l h : hw_of_words l = Some h -> hw_words h = l.
Proof.
  intros E. do 16 (destruct l as [|? l]; [try discriminate E|]); [|discriminate E].
  cbn in E. by injection E as <-.
Qed.

Lemma hw_store_typed m p off v :
  mem_typed m -> in_width 32 v -> on_ok mem_typed (hw_store m p off v).
Proof.
  intros Hm Hv. eapply on_ok_bind; [by apply mem_typed_load|]. intros c Hc.
  destruct (_ && _); [|done]. destruct (hw_of_words _) as [h|] eqn:E; [|done].
  apply hw_of_words_inv in E. apply mem_typed_insert; [done|]. apply typed_set_hw; [done|].
  rewrite E. apply Forall_insert; [apply Hc|done].
Qed.

Lemma pushes_typed vs m p off :
  mem_typed m -> Forall (in_width 32) vs -> on_ok (fun r => mem_typed r.1) (pushes vs m p off).
Proof.
  intros Hm Hvs. revert m off Hm. induction Hvs as [|v vs Hv _ IH]; intros m off Hm; [done|].
  cbn [pushes]. eapply on_ok_bind; [by apply hw_store_typed|]. auto.
Qed.

Lemma interrupt_entry_typed syms error_code c m l :
  mem_typed m -> cpu_typed c -> Forall (in_width 32) error_code ->
  on_ok (fun r => mem_typed r.2) (interrupt_entry syms error_code c m l).
Proof.
  intros Hm Hc He. unfold interrupt_entry. destruct (esp0 (ll_tss l)) as [[p off]|]; [|done].
  unfold cpu_typed, cpu_words in Hc. rewrite !Forall_cons in Hc.
  destruct Hc as (? & ? & ? & ? & ? & ? & ? & ? & ? & ? & ? & ? & _).
  eapply on_ok_bind; [apply pushes_typed; [done|]|].
  { apply Forall_app. split; [words; done|done]. }
  intros [m1 off1] Hm1. eapply on_ok_bind; [apply pushes_typed; [done|]|].
  { words; try done. by apply wrap_range. }
  intros [m2 off2] Hm2. by destruct (off2 =? 0).
Qed.

Lemma restore_typed h :
  Forall (in_width 32) (hw_words h) -> cpu_typed (restore h (ss (iframe h))).
Proof.
  unfold hw_words, cpu_typed, cpu_words. rewrite !Forall_cons. cbn. tauto.
Qed.

Lemma copy64_typed d : in_width 64 (copy64 d).
Proof. by apply wrap_range. Qed.

Lemma set_gdt_typed g l :
  ll_typed l -> Forall (in_width 64) (gdt_entries g) -> ll_typed (set_gdt g l).
Proof. by intros [] ?. Qed.

Lemma switch_tables_typed p h l : ll_typed l -> ll_typed (switch_tables p h l).
Proof.
  intros [Hg Hi Hs Hgr Hir Ht Hp]. split; try done. unfold gdt_entries in *. cbn in *.
  rewrite !Forall_cons in Hg. destruct Hg as (? & ? & ? & _ & _ & ? & ?).
  words; try done; apply copy64_typed.
Qed.

Lemma hw_context_switch_typed p m l :
  mem_typed m -> ll_typed l ->
  on_ok (fun r => cpu_typed r.1 /\ ll_typed r.2) (hw_context_switch p m l).
Proof.
  intros Hm Hl. unfold hw_context_switch, hw_context_switch_no_idle.
  eapply on_ok_bind; [by apply mem_typed_load|]. intros c Hc.
  eapply (on_ok_bind (fun ds => ds = ss (iframe (hw c)))).
  { unfold load_ds_reg. destruct (gdt_descriptor _ _); [|done]. by destruct (_ && _). }
  intros ds ->. destruct (iret_ok _ _); [|done]. cbn.
  split; [apply restore_typed, Hc|by apply switch_tables_typed].
Qed.

Lemma create_gate_typed kind f sel pr sz :
  in_width 64 (Z.shiftl sel 16) -> in_width 64 (create_gate_descriptor kind f sel pr sz).
Proof.
  intros Hs. unfold create_gate_descriptor. apply in_width_lor; [lia| |by apply wrap_range].
  apply in_width_lor; [lia|by apply in_width_land|done].
Qed.

Lemma create_descriptor_typed base limit present privilege normal permissions accessed gran size :
  in_width 64 (create_descriptor base limit present privilege normal permissions accessed gran size).
Proof.
  unfold create_descriptor. apply in_width_lor; [lia| |by apply in_width_land].
  apply in_width_lor; [lia|by apply wrap_range|].
  apply (in_width_mono 32); [lia|by apply wrap_range].
Qed.

Lemma install_gate_typed n f pr idt :
  Forall (in_width 64) idt -> Forall (in_width 64) (install_gate n f pr idt).
Proof. intros Hi. apply Forall_insert; [done|]. by apply create_gate_typed. Qed.

Lemma install_range_typed syms l idt :
  Forall (in_width 64) idt ->
  Forall (in_width 64)
    (fold_left (fun idt n => install_gate n (sym_default_handler syms n) 3 idt) l idt).
Proof.
  revert idt. induction l as [|n l IH]; intros idt Hi; [done|]. by apply IH, install_gate_typed.
Qed.

(** The addresses that the tables hold. *)
Definition symbols_typed (syms : symbols) : Prop :=
  in_width 32 (sym_gdt syms) /\ in_width 32 (sym_idt syms).

Lemma init_interrupts_typed syms l :
  symbols_typed syms -> ll_typed l -> ll_typed (init_interrupts syms l).
Proof.
  intros [_ Hs] [Hg Hi Hs0 Hgr Hir Ht Hp]. split; try done.
  - by apply install_gate_typed, install_gate_typed, install_gate_typed, install_range_typed.
  - cbn. apply Forall_app. split; [done|]. repeat constructor; by vm_compute.
Qed.

Lemma load_tr_typed n l : in_width 16 n -> ll_typed l -> on_ok ll_typed (load_tr n l).
Proof.
  intros Hn Hl. unfold load_tr. destruct (gdt_descriptor _ _); [|done]. destruct (_ && _); [|done].
  destruct Hl as [Hg Hi Hs Hgr Hir Ht Hp]. split; try done. unfold gdt_entries in *. cbn in *.
  rewrite !Forall_cons in Hg. destruct Hg as (? & ? & ? & ? & ? & ? & ?).
  words; try done. by apply in_width_lor.
Qed.

Lemma low_level_tables_typed syms img tm l :
  symbols_typed syms -> ll_typed l -> timer_typed tm ->
  on_ok (fun r => timer_typed r.1 /\ ll_typed r.2) (low_level_tables syms img tm l).
Proof.
  intros Hs Hl [_ Hn Hc]. unfold low_level_tables. do 2 (apply on_ok_skip; intros ?).
  eapply on_ok_bind; [apply load_tr_typed; [by vm_compute|]|].
  - destruct Hl as [Hg Hi Hs0 Hgr Hir Ht Hp].
    split; cbn [ll_gdt ll_tss ll_idt ll_gdtr ll_idtr ll_tr ll_ports lgdt set_tss set_gdt ss0];
      try assumption; [|by vm_compute|split; [by apply wrap_range|apply Hs]].
    unfold gdt_entries in *. rewrite !Forall_cons in Hg. destruct Hg as (? & ? & ? & ? & ? & ? & ?).
    cbn [gdt_null gdt_kernel_code gdt_kernel_data gdt_user_code gdt_user_data gdt_tss].
    do 3 (apply Forall_cons_2; [by vm_compute|]). do 2 (apply Forall_cons_2; [assumption|]). words.
    unfold create_tss_descriptor. apply create_descriptor_typed.
  - intros l3 Hl3. cbn. split; [by split|].
    pose proof (init_interrupts_typed syms l3 Hs Hl3) as []. split; try done. cbn.
    apply Forall_app. split; [done|]. repeat constructor; by vm_compute.
Qed.

Lemma hw_context_init_typed h pc arg start fin :
  Forall (in_width 32) (hw_words h) -> in_width 32 pc -> in_width 32 arg -> in_width 32 start ->
  Forall (in_width 32) (hw_words (hw_context_init h pc arg start fin)).
Proof.
  unfold hw_words at 1. rewrite !Forall_cons. intros Hh Hpc Harg Hst.
  destruct Hh as (? & ? & ? & ? & ? & ? & ? & ? & ? & ? & ? & ? & ? & ? & ? & _).
  unfold hw_words, hw_context_init. cbn [regs iframe start_address memsize edi esi ebp pusha_esp ebx
    edx ecx eax eip cs flags esp ss].
  words; first [assumption|by apply wrap_range|by vm_compute].
Qed.

Lemma hw_set_return1_typed h r :
  Forall (in_width 32) (hw_words h) -> in_width 32 r ->
  Forall (in_width 32) (hw_words (hw_context_set_return1 h r)).
Proof.
  unfold hw_words at 1. rewrite !Forall_cons. intros Hh Hr.
  destruct Hh as (? & ? & ? & ? & ? & ? & ? & ? & ? & ? & ? & ? & ? & ? & ? & _).
  unfold hw_words. cbn. words; assumption.
Qed.

(** ** The kernel *)

(** Copying a context onto itself changes nothing. *)
Lemma copy_words_self n i p m c :
  m !! p = Some c -> on_ok (fun m' => m' = m) (copy_words n i p p m).
Proof.
  intros Hp. revert i. induction n as [|n IH]; intros i; [done|]. cbn [copy_words].
  unfold load. rewrite Hp. cbn [rbind]. destruct (context_cells c !! i) eqn:E; [|done].
  rewrite list_insert_id, context_of_cells_cells by done. rewrite insert_id by done. apply IH.
Qed.

Lemma copy_context_typed dest src m : mem_typed m -> on_ok mem_typed (copy_context dest src m).
Proof.
  intros Hm. destruct (m !! src) as [cs|] eqn:Es.
  2:{ unfold copy_context. cbn [copy_words sizeof_context_words]. unfold load. by rewrite Es. }
  destruct (decide (dest = src)) as [->|Hne].
  { eapply on_ok_mono; [by eapply copy_words_self|]. by intros ? ->. }
  destruct (m !! dest) as [cd|] eqn:Ed.
  - rewrite (copy_context_ok dest src m cs cd) by done.
    apply mem_typed_insert; [done|by eapply mem_typed_lookup].
  - unfold copy_context. cbn [copy_words sizeof_context_words]. unfold load. by rewrite Es, Ed.
Qed.

Section Kernel.
Context (cfg : config) (syms : symbols) (img : user_tasks_image).
Context {St : Type} `{SchedulerTyped St}.
Local Abbreviation kst := (kstate St).
Implicit Types (k : kst) (ctx : cptr).

(** The registers and the kernel when user code resumes. *)
Definition resume_typed (r : cpu * kst) : Prop := cpu_typed r.1 /\ kstate_typed r.2.

Lemma switch_to_typed ctx k : kstate_typed k -> on_ok resume_typed (switch_to ctx k).
Proof using Type.
  intros [Hs Ht Hl Hi]. eapply on_ok_bind; [by apply hw_context_switch_typed; [apply Hs|]|].
  intros [c l] [Hc Hl']. split; [done|]. by split.
Qed.

Lemma set_s_typed s k : sstate_typed s -> kstate_typed k -> kstate_typed (set_s s k).
Proof using Type. by intros ? []. Qed.

Lemma with_mem_typed m (s : sstate St) : mem_typed m -> sstate_typed s -> sstate_typed (with_mem m s).
Proof using Type. by intros ? []. Qed.

Lemma set_kmem_typed m k : mem_typed m -> kstate_typed k -> kstate_typed (set_kmem m k).
Proof using Type. intros Hm Hk. apply set_s_typed; [|done]. by apply with_mem_typed, Hk. Qed.

Lemma yield_dates_typed wh wl dh dl c : ctx_typed c -> ctx_typed (yield_dates cfg wh wl dh dl c).
Proof using Type.
  intros []. unfold yield_dates. destruct (edf cfg); split; cbn; try done; by apply wrap_range.
Qed.

Lemma set_return1_typed ctx r m :
  in_width 32 r -> mem_typed m -> on_ok mem_typed (set_return1 ctx r m).
Proof using Type.
  intros Hr Hm. apply mem_typed_modify; [done|]. intros c Hc. apply typed_set_hw; [done|].
  by apply hw_set_return1_typed; [apply Hc|].
Qed.

Lemma yield_typed ctx wh wl dh dl k :
  kstate_typed k -> on_ok resume_typed (c_syscall_yield cfg img ctx wh wl dh dl k).
Proof using All.
  intros Hk. unfold c_syscall_yield.
  eapply on_ok_bind; [apply mem_typed_modify; [apply Hk|apply yield_dates_typed]|]. intros m Hm.
  eapply on_ok_bind; [by apply sched_set_waiting_typed, with_mem_typed, Hk|]. intros s1 Hs1.
  eapply on_ok_bind; [by apply sched_choose_next_typed|]. intros [p s2] Hs2.
  by apply switch_to_typed, set_s_typed.
Qed.

Lemma putchar_typed ctx arg k : kstate_typed k -> on_ok resume_typed (syscall_putchar cfg ctx arg k).
Proof using Type.
  intros Hk. unfold syscall_putchar. eapply (on_ok_bind term_typed).
  - destruct (cfg_debug cfg); [|done]. apply terminal_putchar_typed, Hk.
  - intros t Ht. apply switch_to_typed. by destruct Hk.
Qed.

Lemma dup_thread_typed ctx k : kstate_typed k -> on_ok resume_typed (syscall_dup_thread cfg syms img ctx k).
Proof using All.
  intros Hk. unfold syscall_dup_thread. destruct (negb _); [done|]. apply on_ok_skip. intros c.
  destruct (_ =? 0); [done|]. destruct (_ =? 0); [done|].
  eapply on_ok_bind; [apply mem_typed_modify; [apply Hk|by intros ? []]|]. intros m1 H1.
  eapply on_ok_bind; [by apply copy_context_typed|]. intros m2 H2.
  eapply on_ok_bind; [by apply sched_duplicate_typed, with_mem_typed, Hk|]. intros s3 H3.
  eapply on_ok_bind; [by apply set_return1_typed; [|apply H3]|]. intros m4 H4.
  eapply on_ok_bind; [by apply set_return1_typed|]. intros m5 H5.
  apply switch_to_typed. destruct Hk as [_ Ht Hl Hi]. split; try done; cbn; [|by apply wrap_range].
  by apply with_mem_typed.
Qed.

Lemma syscall_typed c ctx k : kstate_typed k -> on_ok resume_typed (asm_syscall_handler cfg syms img c ctx k).
Proof using All.
  intros Hk. unfold asm_syscall_handler. destruct (_ <=? _); [done|].
  destruct (syscall_array cfg syms img !! _) as [call|] eqn:E; [|done].
  apply list_elem_of_lookup_2 in E. unfold syscall_array in E. rewrite !elem_of_cons in E.
  destruct E as [-> | [-> | [-> | [-> | []%elem_of_nil]]]].
  - by apply yield_typed.
  - by apply putchar_typed.
  - by apply dup_thread_typed.
  - by apply switch_to_typed.
Qed.

Lemma timer_tick_typed k : kstate_typed k -> on_ok kstate_typed (timer_tick cfg k).
Proof using Type.
  intros [[Hm [Hc Hn Hco]] Ht Hl Hi]. unfold timer_tick.
  assert (ll_typed (add_ports [outb master_pic_command 0x20] (k_ll k))) as Hl'.
  { destruct Hl. split; try done. cbn. apply Forall_app. split; [done|].
    apply Forall_singleton. by vm_compute. }
  destruct (cfg_debug cfg).
  - unfold timer_count. cbn [timer_advance count s_timer k_s set_ll].
    destruct (Z.eqb_spec (count (s_timer (k_s k))) (2 ^ 31 - 1)); [done|]. cbn [rbind].
    eapply (on_ok_bind term_typed).
    { destruct (_ =? 0); [by apply terminal_putchar_typed|done]. }
    intros t Ht'. split; try done. split; [done|]. split; cbn; [by apply wrap_range|done|].
    unfold in_width in *. lia.
  - split; try done. split; [done|]. split; cbn; [by apply wrap_range|done..].
Qed.

Lemma timer_alarm_typed ctx k : kstate_typed k -> on_ok resume_typed (timer_alarm img ctx k).
Proof using All.
  intros Hk. unfold timer_alarm. destruct (_ <=? _); [|by apply switch_to_typed].
  unfold high_level_timer_interrupt_handler.
  assert (kstate_typed (set_s (with_timer (timer_dont_wake (s_timer (k_s k))) (k_s k)) k)) as Hk1.
  { apply set_s_typed; [|done]. destruct (ks_sstate _ Hk) as [Hm []].
    split; [done|]. by split. }
  eapply on_ok_bind; [apply sched_wake_tasks_typed, Hk1|]. intros s1 Hs1.
  eapply (on_ok_bind (fun r => sstate_typed r.2)).
  { destruct (context_is_idle _ _); [by apply sched_choose_next_typed|by apply sched_maybe_preempt_typed]. }
  intros [p s2] Hs2. by apply switch_to_typed, set_s_typed.
Qed.

(** User code resumes, or the machine halts with a terminal. *)
Definition outcome_typed (r : (cpu * kst) + terminal) : Prop :=
  match r with inl x => resume_typed x | inr t => term_typed t end.

Lemma interrupt_typed n e c k :
  kstate_typed k -> cpu_typed c -> Forall (in_width 32) e ->
  on_ok outcome_typed (interrupt cfg syms img n e c k).
Proof using All.
  intros Hk Hc He. unfold interrupt. destruct (decode_gate <$> _); [|done].
  assert (forall f : cptr -> mem -> res ((cpu * kst) + terminal),
    (forall p m, mem_typed m -> on_ok outcome_typed (f p m)) ->
    on_ok outcome_typed (let* (p, m) := interrupt_entry syms e c (k_mem k) (k_ll k) in f p m)) as Hin.
  { intros f Hf. eapply on_ok_bind; [apply interrupt_entry_typed; [apply Hk|done..]|].
    intros [p m] Hm. by apply Hf. }
  destruct (handler_at _ _) as [[| | |num]|]; [..|done]; [| |cbn; apply Hk|]; apply Hin; intros p m Hm.
  all: pose proof (set_kmem_typed m k Hm Hk) as Hk1.
  - apply catch_typed; [apply Hk1|by apply syscall_typed].
  - eapply on_ok_bind; [by apply timer_tick_typed|]. intros k1 H1.
    apply catch_typed; [apply H1|by apply timer_alarm_typed].
  - apply (catch_typed resume_typed); [apply Hk1|done].
Qed.

Lemma software_interrupt_typed n c k :
  0 <= n < 256 -> kstate_typed k -> cpu_typed c ->
  on_ok outcome_typed (software_interrupt cfg syms img n c k).
Proof using All.
  intros Hn Hk Hc. unfold software_interrupt. destruct (decode_gate <$> _); [|done].
  destruct (_ <? 3); apply interrupt_typed; try done.
  apply Forall_singleton. unfold in_width. lia.
Qed.

(** *** Boot *)

Context (Himg : image_typed img) (Hsyms : symbols_typed syms).

Lemma context_init_typed m ctx idx pc start fin :
  mem_typed m -> 0 <= idx < 2 ^ 28 -> in_width 32 pc -> in_width 32 start ->
  on_ok mem_typed (context_init cfg m ctx idx pc start fin).
Proof using Type.
  intros Hm Hi Hpc Hst. apply mem_typed_modify; [done|]. intros c Hc.
  assert (in_width 31 (Z.shiftl idx DYNAMIC_TASK_INITIAL_HEIGHT)) as Hp.
  { unfold in_width, DYNAMIC_TASK_INITIAL_HEIGHT. rewrite Z.shiftl_mul_pow2 by lia. lia. }
  apply typed_set_hw.
  - destruct Hc. by destruct (cfg_dynamic cfg); split.
  - apply hw_context_init_typed; [|done|by apply wrap_range|done].
    destruct Hc. by destruct (cfg_dynamic cfg).
Qed.

Lemma set_next_if_typed n c : ctx_typed c -> ctx_typed (set_next_if cfg n c).
Proof using Type. unfold set_next_if. destruct (has_next cfg); auto with typed. Qed.

Lemma init_reserve_loop_typed n i task0 m :
  mem_typed m -> in_width 32 (t_start_pc task0) -> in_width 32 (t_task_begin task0) ->
  on_ok mem_typed (init_reserve_loop cfg img n i task0 m).
Proof using Type.
  intros Hm Hpc Hb. revert i m Hm. induction n as [|n IH]; intros i m Hm; [done|].
  cbn [init_reserve_loop]. eapply on_ok_bind; [by apply context_init_typed|]. intros m1 H1.
  eapply on_ok_bind; [apply mem_typed_modify; [done|apply set_next_if_typed]|]. auto.
Qed.

Lemma task_typed i task :
  tasks img !! i = Some task -> in_width 32 (t_start_pc task) /\ in_width 32 (t_task_begin task).
Proof using Himg.
  intros E. apply list_elem_of_lookup_2, (proj1 (Forall_forall _ _) (it_tasks _ Himg)) in E. naive_solver.
Qed.

Lemma init_contexts_typed n i m :
  0 <= i -> mem_typed m -> on_ok mem_typed (init_contexts cfg img n i m).
Proof using Himg.
  revert i m. induction n as [|n IH]; intros i m Hi Hm; [done|]. cbn [init_contexts].
  destruct (Z.leb_spec (nb_tasks img) i); [done|]. destruct (tasks img !! _) as [task|] eqn:E; [|done].
  destruct (task_typed _ _ E) as [Hpc Hb]. pose proof (it_pids _ Himg).
  eapply on_ok_bind; [apply context_init_typed; [done|lia|done..]|]. intros m1 Hm1.
  apply IH; [lia|done].
Qed.

Lemma init_idle_typed n i m : mem_typed m -> on_ok mem_typed (init_idle cfg img n i m).
Proof using Himg.
  revert i m. induction n as [|n IH]; intros i m Hm; [done|]. cbn [init_idle].
  eapply on_ok_bind; [by apply context_init_typed; [..|apply Himg]|]. intros m1 Hm1.
  eapply on_ok_bind; [apply mem_typed_modify; [done|]|auto].
  intros c Hc. apply (set_next_if_typed (idle_ctx_array img i)) in Hc as [].
  by destruct (edf cfg); split.
Qed.

Lemma high_level_init_typed (s : sstate St) :
  sstate_typed s -> on_ok sstate_typed (high_level_init cfg img s).
Proof using All.
  intros Hs. unfold high_level_init.
  eapply on_ok_bind; [apply init_contexts_typed; [done|apply Hs]|]. intros m1 Hm1.
  eapply (on_ok_bind mem_typed).
  { unfold init_reserve. destruct (tasks img !! 0%nat) as [task0|] eqn:E; [|done].
    destruct (task_typed _ _ E). by apply init_reserve_loop_typed. }
  intros m2 Hm2. eapply on_ok_bind; [by apply init_idle_typed|]. intros m3 Hm3.
  by apply scheduler_init_typed, with_mem_typed.
Qed.

Lemma start_typed magic k : kstate_typed k -> on_ok outcome_typed (start cfg syms img magic k).
Proof using All.
  intros [[Hm Htm] Ht Hl Hi]. unfold start.
  eapply (on_ok_bind (fun r => match r with
    | inl (t, tm, l) => term_typed t /\ timer_typed tm /\ ll_typed l
    | inr t => term_typed t end)).
  - unfold low_level_init. eapply (on_ok_bind term_typed).
    { destruct (cfg_debug cfg); [|done]. apply terminal_initialize_typed, Ht. }
    intros t1 Ht1. eapply on_ok_mono;
      [apply (catch_typed (fun x => term_typed x.1.1 /\ timer_typed x.1.2 /\ ll_typed x.2)); [done|]|].
    + apply on_ok_skip. intros _. eapply on_ok_bind; [by apply low_level_tables_typed|].
      by intros [tm1 l1] [].
    + by intros [[[]]|].
  - intros [[[t tm] l]|t]; [|done]. intros (Ht' & Htm' & Hl').
    apply catch_typed; [done|]. unfold boot.
    eapply on_ok_bind; [by apply high_level_init_typed|]. intros s1 Hs1.
    eapply on_ok_bind; [by apply sched_choose_next_typed|]. intros [p s2] Hs2.
    eapply (on_ok_bind term_typed).
    { destruct (cfg_debug cfg); [|done]. by apply put_chars_keeps; [apply terminal_putchar_typed|]. }
    intros t2 Ht2. apply switch_to_typed. by split.
Qed.

(** *** Reachable states *)

Definition mstate_typed (st : mstate (St := St)) : Prop :=
  match st with
  | UserMode c k => cpu_typed c /\ kstate_typed k
  | Halted t => term_typed t
  end.

Lemma outcome_mstate r : outcome_typed r -> mstate_typed (outcome r).
Proof using Type. by destruct r as [[]|]. Qed.

Lemma step_typed st st' :
  mstate_typed st -> step cfg syms img st st' -> mstate_typed st'.
Proof using All.
  assert (forall e r, on_ok outcome_typed e -> e = Ok r -> mstate_typed (outcome r)) as Hout.
  { intros e r He ->. by apply outcome_mstate. }
  intros Hst Hstep. destruct Hstep as [c c' k Hu|n c k r p off Hn _ _ _ E|c k r E|n c k r _ E];
    destruct Hst as [Hc Hk].
  - split; [apply Hu|done].
  - eapply Hout; [|exact E]. by apply software_interrupt_typed.
  - eapply Hout; [|exact E]. by apply interrupt_typed.
  - eapply Hout; [|exact E]. by apply interrupt_typed.
Qed.

Lemma reachable_typed k0 st : kstate_typed k0 -> reachable cfg syms img k0 st -> mstate_typed st.
Proof using All.
  intros Hk (r & E & Hrtc). pose proof (start_typed MULTIBOOT_LOADER_MAGIC k0 Hk) as Hs.
  rewrite E in Hs. apply outcome_mstate in Hs. clear E.
  induction Hrtc as [st|st1 st2 st3 Hstep _ IH]; [done|]. by eapply IH, step_typed.
Qed.
End Kernel.
