(* ===== verification/Response.v ===== *)
(** * Time: from the alarm to the task

    A run of the machine in which only user instructions and timer interrupts
    happen is measured in ticks.  While no alarm is due, ticks change nothing but
    the clock.  With a priority scheduler, at the first tick at or after the alarm
    a context runs that has precedence over all those that are due; so a task
    that waits alone is late by less than a tick. *)

From stdpp Require Import options.
From S2P Require Import Prelude Contexts PQueue Timer Scheduler PriorityScheduler Fprint.
From S2P Require Import Terminal Segment LowLevel HighLevel Kernel.

(** ** Runs *)

Section Ticks.
Context (cfg : config) (syms : symbols) (img : user_tasks_image) {St : Type} `{Scheduler St}.

(** [n] timer interrupts, with user instructions between them. *)
Inductive ticks : nat -> mstate (St := St) -> mstate (St := St) -> Prop :=
  | ticks_done st : ticks 0 st st
  | ticks_user n c c' k st :
      user_step c c' -> ticks n (UserMode c' k) st -> ticks n (UserMode c k) st
  | ticks_timer n c k r st :
      interrupt cfg syms img TIMER_INTNUM [] c k = Ok r -> ticks n (outcome r) st ->
      ticks (S n) (UserMode c k) st.

Lemma ticks_rtc n st st' : ticks n st st' -> rtc (step cfg syms img) st st'.
Proof using Type.
  induction 1 as [st|n c c' k st Hu _ IH|n c k r st E _ IH]; [done|..].
  - by eapply rtc_l; [apply step_user|].
  - by eapply rtc_l; [apply step_timer|].
Qed.
End Ticks.

(** The number of ticks from date [t] to the first one at or after [d], which is
    not the current one. *)
Definition wake_ticks (t d : Z) : nat :=
  Z.to_nat (Z.max 1 ((d - t + ACTUAL_TICK - 1) / ACTUAL_TICK)).

Lemma wake_ticks_spec t d (n : nat) :
  ((n < wake_ticks t d)%nat -> n = 0%nat \/ t + Z.of_nat n * ACTUAL_TICK < d) /\
  (n = wake_ticks t d -> (1 <= n)%nat /\ d <= t + Z.of_nat n * ACTUAL_TICK <= Z.max t d + ACTUAL_TICK).
Proof. unfold wake_ticks. rewrite actual_tick_value. split; intros; dlia. Qed.

Lemma wake_ticks_next t d :
  if decide (t + ACTUAL_TICK < d) then wake_ticks t d = S (wake_ticks (t + ACTUAL_TICK) d)
  else wake_ticks t d = 1%nat.
Proof. unfold wake_ticks. rewrite actual_tick_value. case_decide; dlia. Qed.

(** ** Before the alarm *)

Abbreviation clock k := (current_time (s_timer (k_s k))).
Abbreviation alarm k := (next_wake_date (s_timer (k_s k))).

Section Quiet.
Context (cfg : config) (syms : symbols) (img : user_tasks_image) (kernel_end : Z).
Context {St : Type} `{SchedulerSpec St} (Hsys : system_ok cfg syms img kernel_end).
Local Abbreviation kst := (kstate St).
Implicit Types (k : kst) (c : cpu) (live : list cptr) (p : cptr).

(** The counter of the debug build grows by one at most. *)
Lemma timer_tick_count k k1 :
  timer_tick cfg k = Ok k1 -> count (s_timer (k_s k1)) <= count (s_timer (k_s k)) + 1.
Proof using Type.
  unfold timer_tick. intros E. destruct (cfg_debug cfg).
  - unfold timer_count in E. destruct (_ =? 2 ^ 31 - 1); [done|]. cbn [rbind] in E.
    apply rbind_ok in E as (t & _ & [= <-]). cbn. lia.
  - injection E as <-. cbn. lia.
Qed.

(** User instructions do not matter. *)
Lemma user_step_cpu c c' : user_step c c' -> user_cpu c -> user_cpu c'.
Proof using Type. intros (E1 & E2 & _) [H1 H2]. split; congruence. Qed.

(** [k'] is [k] but for the clock, saved registers and devices. *)
Definition same_queues k k' : Prop :=
  s_sched (k_s k') = s_sched (k_s k) /\ forall q, sched <$> k_mem k' !! q = sched <$> k_mem k !! q.

(** A timer interrupt before the alarm goes back to the same context. *)
Lemma quiet_tick k live p c r t d :
  kernel_inv syms img kernel_end k live p -> user_cpu c -> clock k = t -> alarm k = d ->
  in_width 64 (t + ACTUAL_TICK) -> t + ACTUAL_TICK < d ->
  interrupt cfg syms img TIMER_INTNUM [] c k = Ok r ->
  exists c' k', r = inl (c', k') /\ user_cpu c' /\ kernel_inv syms img kernel_end k' live p /\
    clock k' = t + ACTUAL_TICK /\ alarm k' = d /\ same_queues k k' /\
    count (s_timer (k_s k')) <= count (s_timer (k_s k)) + 1.
Proof using Hsys.
  intros Hk Hu <- <- Hw Hlt E. destruct (timer_entry _ _ _ _ Hsys k live p c Hk Hu) as (ctx & Ec & Hk1 & E').
  rewrite E' in E. clear E'. set (k1 := set_kmem _ k) in *.
  unfold timer_interrupt_handler in E. apply rbind_ok in E as (k2 & Et & E).
  destruct (timer_tick_mid cfg _ _ _ k1 live _ k2 Hk1 Et) as [Hk2 _].
  pose proof (timer_tick_count _ _ Et) as Hcount.
  apply timer_tick_timer in Et as (tm & Es & En & Etm).
  assert (clock k2 = clock k + ACTUAL_TICK) as Ec2.
  { rewrite Es. cbn. rewrite Etm. by apply wrap_small. }
  assert (alarm k2 = alarm k) as Ea2 by (rewrite Es; exact En).
  destruct (switch_to_ok _ _ _ k2 live p Hk2 (ki_known _ _ _ _ _ _ Hk)) as (c' & k' & E2 & Hu' & Hi & Es').
  unfold timer_alarm in E. rewrite Ea2, Ec2, (proj2 (Z.leb_gt _ _) Hlt), E2 in E. injection E as <-.
  exists c', k'. split; [done|]. split; [done|]. split; [done|]. unfold same_queues, k_mem.
  rewrite Es', Ec2, Ea2. do 2 (split; [done|]). split; [|exact Hcount]. rewrite Es. split; [done|].
  intros q. cbn. rewrite lookup_insert. case_decide; [subst|done]. unfold k_mem in Ec. by rewrite Ec.
Qed.

(** A run of ticks before the alarm. *)
Lemma quiet_run n st st' : ticks cfg syms img n st st' ->
  forall c k live p t d, st = UserMode c k -> kernel_inv syms img kernel_end k live p -> user_cpu c ->
  clock k = t -> alarm k = d -> 0 <= t -> t + Z.of_nat n * ACTUAL_TICK < d -> d < 2 ^ 64 ->
  exists c' k', st' = UserMode c' k' /\ user_cpu c' /\ kernel_inv syms img kernel_end k' live p /\
    clock k' = t + Z.of_nat n * ACTUAL_TICK /\ alarm k' = d /\ same_queues k k'.
Proof using Hsys.
  pose proof actual_tick_value as Htick.
  induction 1 as [st|n c0 c1 k0 st Hus _ IH|n c0 k0 r st E Hrest IH];
    intros c k live p t d Est Hk Hu Hc Ha Ht Hn Hd; simplify_eq.
  - exists c, k. do 3 (split; [done|]). split; [cbn; lia|]. by split.
  - apply (IH c1 k live p _ _ eq_refl Hk); try done. by eapply user_step_cpu.
  - destruct (quiet_tick k live p c r _ _ Hk Hu eq_refl eq_refl) as (c' & k' & -> & Hu' & Hk' & Hc' & Ha' & Hq & _);
      [unfold in_width; lia|lia|done|].
    destruct (IH c' k' live p _ _ eq_refl Hk' Hu' Hc' Ha') as (c2 & k2 & -> & Hu2 & Hk2 & Hc2 & Ha2 & Hq2);
      [lia..|].
    exists c2, k2. do 3 (split; [done|]). split; [lia|]. split; [done|].
    destruct Hq as [H1 H2], Hq2 as [H3 H4]. split; [congruence|]. intros q. by rewrite H4, H2.
Qed.

(** A timer interrupt up to the test of the alarm. *)
Lemma due_tick k live p c r :
  kernel_inv syms img kernel_end k live p -> user_cpu c -> in_width 64 (clock k + ACTUAL_TICK) ->
  interrupt cfg syms img TIMER_INTNUM [] c k = Ok r ->
  exists k2, kernel_mid syms img kernel_end k2 live (running_phase img p) /\
    clock k2 = clock k + ACTUAL_TICK /\ alarm k2 = alarm k /\
    catch (k_term k2) (timer_alarm img p k2) = Ok r.
Proof using Hsys.
  intros Hk Hu Hw E. destruct (timer_entry _ _ _ _ Hsys k live p c Hk Hu) as (ctx & Ec & Hk1 & E').
  rewrite E' in E. unfold timer_interrupt_handler in E. apply rbind_ok in E as (k2 & Et & E).
  destruct (timer_tick_mid cfg _ _ _ _ live _ k2 Hk1 Et) as [Hk2 _].
  apply timer_tick_timer in Et as (tm & Es & En & Etm).
  exists k2. split; [done|]. rewrite Es. cbn [with_timer s_timer]. rewrite Etm.
  split; [by apply wrap_small|]. split; [exact En|exact E].
Qed.

Lemma ticks_0_inv c k st :
  ticks cfg syms img 0 (UserMode c k) st -> user_cpu c -> exists c', st = UserMode c' k /\ user_cpu c'.
Proof using Type.
  intros Ht. remember 0%nat as n. remember (UserMode c k) as st0. revert c k Heqst0.
  induction Ht as [st|n c0 c1 k0 st Hus _ IH|n c0 k0 r st]; intros c k Est Hu; [subst; eauto| |done].
  injection Est as <- <-. eapply IH; [done..|]. by eapply user_step_cpu.
Qed.

(** *** Until the alarm *)

(** [p] runs at date [t] with the alarm at [d]. *)
Definition before_alarm k live p (t d : Z) : Prop :=
  kernel_inv syms img kernel_end k live p /\ clock k = t /\ alarm k = d.

Section Until.
Context (live : list cptr) (p : cptr) (d : Z) (Done : kst -> Z -> Prop).
Context (Hdone : forall k c r t, before_alarm k live p t d -> user_cpu c ->
  in_width 64 (t + ACTUAL_TICK) -> d <= t + ACTUAL_TICK ->
  interrupt cfg syms img TIMER_INTNUM [] c k = Ok r ->
  exists c' k', r = inl (c', k') /\ user_cpu c' /\ Done k' (t + ACTUAL_TICK)).

(** A run of [n] ticks, until the first one at or after [d]. *)
Lemma until_alarm n st st' : ticks cfg syms img n st st' ->
  forall c k t, st = UserMode c k -> before_alarm k live p t d -> user_cpu c ->
  0 <= t -> Z.max t d + ACTUAL_TICK < 2 ^ 64 -> (n <= wake_ticks t d)%nat ->
  exists c' k', st' = UserMode c' k' /\ user_cpu c' /\
    if decide (n < wake_ticks t d)%nat then before_alarm k' live p (t + Z.of_nat n * ACTUAL_TICK) d
    else Done k' (t + Z.of_nat n * ACTUAL_TICK).
Proof using Hsys Hdone.
  pose proof actual_tick_value as Htick.
  induction 1 as [st|n c0 c1 k0 st Hus _ IH|n c0 k0 r st E Hrest IH]; intros c k t Est Hk Hu Ht Hmax Hn.
  - subst. exists c, k. split; [done|]. split; [done|].
    rewrite decide_True by (pose proof (proj2 (wake_ticks_spec t d _) eq_refl); lia).
    change (Z.of_nat 0) with 0. by rewrite Z.add_0_r.
  - injection Est as <- <-. apply (IH c1 k0 t); try done. by eapply user_step_cpu.
  - injection Est as <- <-. pose proof (wake_ticks_next t d) as Hnext.
    replace (t + Z.of_nat (S n) * ACTUAL_TICK) with (t + ACTUAL_TICK + Z.of_nat n * ACTUAL_TICK) by lia.
    destruct (decide (t + ACTUAL_TICK < d)) as [Hlt|Hge].
    + destruct Hk as (Hk & Hc & Ha).
      destruct (quiet_tick k0 live p c0 r t d Hk Hu Hc Ha) as (c' & k' & -> & Hu' & Hk' & Hc' & Ha' & _);
        [unfold in_width; lia|done|done|].
      destruct (IH c' k' (t + ACTUAL_TICK)) as (c2 & k2 & -> & Hu2 & Hc2); [done..|lia|lia|lia|].
      exists c2, k2. split; [done|]. split; [done|].
      destruct (decide (n < _)%nat) in Hc2; [rewrite decide_True by lia|rewrite decide_False by lia]; done.
    + destruct (Hdone k0 c0 r t Hk Hu) as (c' & k' & -> & Hu' & Hd'); [unfold in_width; lia|lia|done|].
      assert (n = 0%nat) as -> by lia. destruct (ticks_0_inv c' k' st Hrest Hu') as (c2 & -> & Hu2).
      exists c2, k'. split; [done|]. split; [done|]. rewrite decide_False by lia.
      change (Z.of_nat 0) with 0. by rewrite Z.add_0_r.
Qed.
End Until.

(** Such a run exists, as long as the debug counter does not overflow. *)
Lemma until_alarm_exists live p d n : forall c k t,
  before_alarm k live p t d -> user_cpu c -> 0 <= t -> Z.max t d + ACTUAL_TICK < 2 ^ 64 ->
  (n <= wake_ticks t d)%nat ->
  (cfg_debug cfg = true -> count (s_timer (k_s k)) + Z.of_nat n < 2 ^ 31) ->
  exists st, ticks cfg syms img n (UserMode c k) st.
Proof using Hsys.
  pose proof actual_tick_value as Htick.
  induction n as [|n IH]; intros c k t Hk Hu Ht Hmax Hn Hc; [eexists; constructor|].
  pose proof (wake_ticks_next t d) as Hnext.
  destruct (interrupt_timer_ok _ _ _ _ Hsys k live _ c (proj1 Hk) Hu) as (c' & k' & p' & E & Hu' & _).
  { intros Hd. specialize (Hc Hd). lia. }
  destruct (decide (t + ACTUAL_TICK < d)) as [Hlt|Hge].
  - destruct Hk as (Hk & Hck & Hak).
    destruct (quiet_tick k live p c (inl (c', k')) t d Hk Hu Hck Hak)
      as (c2 & k2 & [= <- <-] & _ & Hk' & Hc' & Ha' & _ & Hcount); [unfold in_width; lia|done|exact E|].
    destruct (IH c' k' (t + ACTUAL_TICK)) as (st & Hst); [done..|lia|lia|lia| |].
    { intros Hd. specialize (Hc Hd). lia. }
    exists st. by eapply ticks_timer.
  - assert (n = 0%nat) as -> by lia. eexists. eapply ticks_timer; [exact E|]. constructor.
Qed.
End Quiet.

(** ** The alarm *)

Section Alarm.
Context (cfg : config) (syms : symbols) (img : user_tasks_image) (kernel_end : Z).
Context {fp : bool} {Q : Type} `{!PQueue waiting_pf Q} `{!PQueue (ready_pf fp) Q}.
Context `{!PQueueSpec waiting_pf Q} `{!PQueueSpec (ready_pf fp) Q}.
Context (Hsys : system_ok cfg syms img kernel_end).
Local Abbreviation kst := (kstate (priority_sched fp Q)).
Implicit Types (k : kst) (c : cpu) (live : list cptr).

(** There is always a task. *)
Lemma live_not_empty k live ph : kernel_mid syms img kernel_end k live ph -> live <> [].
Proof using Hsys.
  intros Hk ->. destruct (km_reserve _ _ _ _ _ _ Hk) as [Hr _ Hc]. cbn in Hc.
  pose proof (so_image _ _ _ _ Hsys) as Himg. rewrite (img_nb_tasks _ Himg) in Hc.
  pose proof (img_some_task _ Himg). destruct (tasks img); [done|cbn in Hc; lia].
Qed.

(** The state when the alarm has been handled at date [t]: a context runs that has
    precedence over all those that are due, and it was due itself if [p], which
    ran before, is the idle context. *)
Definition handled p k live (t : Z) : Prop :=
  exists q, kernel_inv syms img kernel_end k live q /\ settled img (k_s k) live q t /\
    clock k = t /\ alarm k = DATE_FAR_AWAY /\ (p = context_idle img -> wakeup_of (k_mem k) q <= t).

(** A timer interrupt at the alarm. *)
Lemma alarm_handled k live p :
  kernel_mid syms img kernel_end k live (running_phase img p) -> p ∈ context_idle img :: live ->
  alarm k <= clock k ->
  exists c' k', timer_alarm img p k = Ok (c', k') /\ user_cpu c' /\ handled p k' live (clock k).
Proof using Hsys.
  intros Hk Hp Hdue. pose proof (img_addressable _ (so_image _ _ _ _ Hsys)) as Hadd.
  destruct (timer_alarm_ok _ _ _ _ Hsys k live p Hk Hp) as (c' & k' & q & E & Hu & Hi).
  exists c', k'. split; [done|]. split; [done|]. exists q. split; [done|].
  assert (forall s2 p', switch_to p' (set_s s2 (set_s (with_timer (timer_dont_wake (s_timer (k_s k))) (k_s k)) k))
      = Ok (c', k') -> q = p' /\ k_s k' = s2) as Hswitch.
  { intros s2 p' Es. pose proof (switch_to_current _ _ _ _ Es) as He.
    split; [|apply (switch_to_same _ _ _ _ Es)]. pose proof (ki_esp0 _ _ _ _ _ _ Hi). congruence. }
  pose proof (km_sched _ _ _ _ _ _ Hk) as Hs. revert Hs E.
  unfold timer_alarm, high_level_timer_interrupt_handler, running_phase, k_mem.
  rewrite (proj2 (Z.leb_le _ _) Hdue). unfold context_is_idle. case_bool_decide as Hid; intros Hs E.
  - destruct (ps_wake_choose_ok img (k_s k) live (clock k) Hadd Hs) as (s1 & p' & s2 & E1 & E2 & Hset & Ht & Hw);
      [by eapply live_not_empty|done|].
    cbn [sched_wake_tasks sched_choose_next priority_scheduler k_s set_s] in E.
    rewrite E1 in E. cbn [rbind] in E. rewrite E2 in E. cbn [rbind] in E.
    destruct (Hswitch s2 p' E) as [-> ->]. by rewrite Ht.
  - apply (sched_inv_alarm _ _ _ _ (timer_dont_wake (s_timer (k_s k)))) in Hs.
    destruct (ps_wake_preempt_ok img _ live p (clock k) Hadd Hs) as (s1 & p' & s2 & E1 & E2 & Hset & Ht).
    cbn [sched_wake_tasks sched_maybe_preempt priority_scheduler k_s set_s] in E.
    rewrite E1 in E. cbn [rbind] in E. rewrite E2 in E. cbn [rbind] in E.
    destruct (Hswitch s2 p' E) as [-> ->]. by rewrite Ht.
Qed.

(** The tick at the alarm. *)
Lemma alarm_tick k live p c r t d :
  before_alarm syms img kernel_end k live p t d -> user_cpu c -> in_width 64 (t + ACTUAL_TICK) ->
  d <= t + ACTUAL_TICK -> interrupt cfg syms img TIMER_INTNUM [] c k = Ok r ->
  exists c' k', r = inl (c', k') /\ user_cpu c' /\ handled p k' live (t + ACTUAL_TICK).
Proof using Hsys.
  intros (Hk & <- & <-) Hu Hw Hge E.
  destruct (due_tick _ _ _ _ Hsys k live _ c r Hk Hu Hw E) as (k2 & Hk2 & Ec2 & Ea2 & E2).
  destruct (alarm_handled k2 live p Hk2 (ki_known _ _ _ _ _ _ Hk)) as (c' & k' & E3 & Hu' & Ht); [lia|].
  rewrite E3 in E2. injection E2 as <-. exists c', k'. rewrite <-Ec2. done.
Qed.
End Alarm.
