(* ===== verification/Model.v ===== *)
(** * An abstract model of the kernel, and the proof that the kernel follows it

    The model has contexts, a running context, the data of a scheduling policy,
    a clock and an alarm; no link, queue, descriptor, gate or stack.  Its steps
    are labelled by what happens to the processor: an instruction of the task, a
    software interrupt, a timer interrupt, an exception.  Every run of the
    machine of Kernel.v is a run of the model with the same labels and the same
    registers, for each scheduler and the policy it refines ([sim_run]).  What is
    proved of the model then holds of the machine: Isolation.v and Builds.v use it. *)

From stdpp Require Import options.
From S2P Require Import Prelude Contexts PQueue Timer Scheduler Policies Fprint Terminal.
From S2P Require Import Segment LowLevel HighLevel Kernel.

(** ** Runs *)

(** What makes the machine move: an instruction of the task, which leaves the
    registers [c], a software interrupt, a timer interrupt, an exception. *)
Inductive event := EUser (c : cpu) | EInt (n : Z) | ETimer | EException (n : Z).

(** The steps of [R] labelled by the events of a list. *)
Inductive run {S : Type} (R : event -> S -> S -> Prop) : list event -> S -> S -> Prop :=
  | run_nil st : run R [] st st
  | run_cons e es st1 st2 st3 : R e st1 st2 -> run R es st2 st3 -> run R (e :: es) st1 st3.

(** The number of timer interrupts. *)
Fixpoint timer_events (es : list event) : nat :=
  match es with
  | [] => 0
  | ETimer :: es => S (timer_events es)
  | _ :: es => timer_events es
  end.

(** ** The model *)

Record model (D : Type) := Model {
  m_contexts : mem;                   (* without links *)
  m_current : cptr;
  m_data : D;
  m_now : Z;
  m_alarm : Z;
  m_free : Z                          (* contexts left in the reserve *)
}.
Arguments Model {D} m_contexts m_current m_data m_now m_alarm m_free.
Arguments m_contexts {D} m.
Arguments m_current {D} m.
Arguments m_data {D} m.
Arguments m_now {D} m.
Arguments m_alarm {D} m.
Arguments m_free {D} m.

Inductive mconfig (D : Type) := MUser (c : cpu) (a : model D) | MHalted.
Arguments MUser {D} c a.
Arguments MHalted {D}.

Section Model.
Context (cfg : config) (syms : symbols) (img : user_tasks_image) {D : Type} `{!Policy D}.
Implicit Types (a : model D) (c : cpu) (cs : mem).

(** The contexts once the registers are stored in the running one. *)
Definition suspend c a : mem :=
  alter (fun ctx => set_hw (saved syms (m_current a) c (hw ctx)) ctx) (m_current a) (m_contexts a).

(** The registers with which context [p] continues. *)
Definition resume cs (p : cptr) c : Prop :=
  exists ctx, cs !! p = Some ctx /\ c = restore (hw ctx) (ss (iframe (hw ctx))).

(** A context that returns [r] from its system call. *)
Definition returning (r : Z) (ctx : context) : context :=
  set_hw (hw_context_set_return1 (hw ctx) r) ctx.

(** The system calls that stop the machine. *)
Definition refused c a : Prop :=
  c_ebx c = 1 /\ cfg_debug cfg = false \/
  c_ebx c = 2 /\ (cfg_dynamic cfg = false \/ m_free a = 0 \/
    exists ctx, m_contexts a !! m_current a = Some ctx /\ u32 (range ctx) = 0) \/
  SYSCALL_NUMBER <= c_ebx c.

(** The events that stop the machine. *)
Definition stops (e : event) c a : Prop :=
  match e with
  | EInt n => 0 <= n < 256 /\ in_width 32 (c_ebx c) /\ m_current a <> context_idle img /\
      vector_privilege n = 3 /\ (n = SYSCALL_INTNUM -> refused c a)
  | EException n => no_error_code n
  | _ => False
  end.

Inductive mstep : event -> mconfig D -> mconfig D -> Prop :=
  | m_user c c' a : user_step c c' -> mstep (EUser c') (MUser c a) (MUser c' a)
  | m_yield c a d1 alarm' p d2 c' :
      m_current a <> context_idle img -> c_ebx c = 0 ->
      let cs := alter (yield_dates cfg (c_edx c) (c_ecx c) (c_esi c) (c_edi c)) (m_current a)
                  (suspend c a) in
      pol_wait cs (m_current a) (m_data a) (m_alarm a) d1 alarm' ->
      pol_choose (context_idle img) cs d1 p d2 -> resume cs p c' ->
      mstep (EInt SYSCALL_INTNUM) (MUser c a)
        (MUser c' (Model cs p d2 (m_now a) alarm' (m_free a)))
  | m_return c a c' :
      m_current a <> context_idle img ->
      c_ebx c = 1 /\ cfg_debug cfg = true \/ c_ebx c = 3 ->
      resume (suspend c a) (m_current a) c' ->
      mstep (EInt SYSCALL_INTNUM) (MUser c a)
        (MUser c' (Model (suspend c a) (m_current a) (m_data a) (m_now a) (m_alarm a) (m_free a)))
  | m_fork c a ctx d' c' :
      m_current a <> context_idle img -> c_ebx c = 2 -> cfg_dynamic cfg = true ->
      m_free a <> 0 -> suspend c a !! m_current a = Some ctx -> u32 (range ctx) <> 0 ->
      let child := reserve img (Z.to_nat (m_free a - 1)) in
      let cs := <[child := returning 0 ctx]> (<[m_current a := returning 1 ctx]> (suspend c a)) in
      pol_fork (m_current a) child (m_data a) d' -> resume cs (m_current a) c' ->
      mstep (EInt SYSCALL_INTNUM) (MUser c a)
        (MUser c' (Model cs (m_current a) d' (m_now a) (m_alarm a) (m_free a - 1)))
  | m_tick c a c' :
      let now := u64 (m_now a + ACTUAL_TICK) in
      now < m_alarm a -> resume (suspend c a) (m_current a) c' ->
      mstep ETimer (MUser c a)
        (MUser c' (Model (suspend c a) (m_current a) (m_data a) now (m_alarm a) (m_free a)))
  | m_alarm_task c a d1 p d2 c' :
      let now := u64 (m_now a + ACTUAL_TICK) in
      m_alarm a <= now -> m_current a <> context_idle img ->
      pol_wake (suspend c a) now (m_data a) d1 ->
      pol_preempt (suspend c a) (m_current a) d1 p d2 -> resume (suspend c a) p c' ->
      mstep ETimer (MUser c a)
        (MUser c' (Model (suspend c a) p d2 now DATE_FAR_AWAY (m_free a)))
  | m_alarm_idle c a d1 p d2 c' :
      let now := u64 (m_now a + ACTUAL_TICK) in
      m_alarm a <= now -> m_current a = context_idle img ->
      pol_wake (suspend c a) now (m_data a) d1 ->
      pol_choose (context_idle img) (suspend c a) d1 p d2 -> resume (suspend c a) p c' ->
      mstep ETimer (MUser c a)
        (MUser c' (Model (suspend c a) p d2 now DATE_FAR_AWAY (m_free a)))
  | m_stop e c a : stops e c a -> mstep e (MUser c a) MHalted.
End Model.

(** ** The machine, with labels *)

Section Machine.
Context (cfg : config) (syms : symbols) (img : user_tasks_image) {St : Type} `{Scheduler St}.

Inductive estep : event -> mstate (St := St) -> mstate (St := St) -> Prop :=
  | e_user c c' k : user_step c c' -> estep (EUser c') (UserMode c k) (UserMode c' k)
  | e_int n c k r p off :
      0 <= n < 256 -> esp0 (ll_tss (k_ll k)) = Some (p, off) -> p <> context_idle img ->
      in_width 32 (c_ebx c) ->
      software_interrupt cfg syms img n c k = Ok r -> estep (EInt n) (UserMode c k) (outcome r)
  | e_timer c k r :
      interrupt cfg syms img TIMER_INTNUM [] c k = Ok r -> estep ETimer (UserMode c k) (outcome r)
  | e_exception n c k r :
      no_error_code n -> interrupt cfg syms img n [] c k = Ok r ->
      estep (EException n) (UserMode c k) (outcome r).

(** The labels only name the rules of [step]. *)
Lemma step_event st st' : step cfg syms img st st' <-> exists e, estep e st st'.
Proof using Type.
  split; [intros []; eexists; by econstructor|].
  intros [e []]; [by apply step_user|by eapply step_int|by apply step_timer|by eapply step_exception].
Qed.

Lemma rtc_run st st' : rtc (step cfg syms img) st st' <-> exists es, run estep es st st'.
Proof using Type.
  split.
  - induction 1 as [st|st1 st2 st3 Hs _ [es Hes]]; [exists []; constructor|].
    apply step_event in Hs as [e He]. exists (e :: es). by econstructor.
  - intros [es Hes]. induction Hes as [|e es st1 st2 st3 He _ IH]; [done|].
    eapply rtc_l; [|exact IH]. apply step_event. eauto.
Qed.
End Machine.

(** ** Contexts without links *)

Lemma erase_store m p c (f : context -> context) :
  m !! p = Some c -> strip_next (f c) = f (strip_next c) ->
  erase (<[p := f c]> m) = alter f p (erase m).
Proof.
  intros Hc Hf. apply map_eq. intros q. rewrite erase_lookup.
  destruct (decide (q = p)) as [->|Hne].
  - rewrite lookup_insert_eq, lookup_alter_eq, erase_lookup, Hc. cbn. by rewrite Hf.
  - by rewrite lookup_insert_ne, lookup_alter_ne, erase_lookup.
Qed.

Lemma yield_dates_strip cfg wh wl dh dl c :
  strip_next (yield_dates cfg wh wl dh dl c) = yield_dates cfg wh wl dh dl (strip_next c).
Proof. unfold yield_dates. by destruct (edf cfg). Qed.

Lemma erase_Some m p c : erase m !! p = Some c -> exists n, m !! p = Some (set_next n c).
Proof.
  rewrite erase_lookup. intros E. destruct (m !! p) as [c'|]; [|done]. injection E as <-.
  exists (next (sched c')). by destruct c' as [? [] ? ?].
Qed.

Lemma modify_inv m p f m' :
  modify m p f = Ok m' -> exists c, m !! p = Some c /\ m' = <[p := f c]> m.
Proof. intros (c & ->%load_ok & [= <-])%rbind_ok. eauto. Qed.

(** Registers are no concern of the scheduler. *)
Lemma same_sched_set_hw m p c h l : m !! p = Some c -> same_sched m (<[p := set_hw h c]> m) l.
Proof. intros Hc q _. rewrite lookup_insert. case_decide; [subst; by rewrite Hc|done]. Qed.

(** Copying a context, then changing the two. *)
Lemma alter_copy (m : mem) p q c f g :
  m !! p = Some c -> q <> p ->
  alter g q (alter f p (<[q := c]> m)) = <[q := g c]> (<[p := f c]> m).
Proof.
  intros Hc Hne. apply map_eq. intros x. destruct (decide (x = q)) as [->|Hq].
  - by rewrite lookup_alter_eq, lookup_alter_ne, !lookup_insert_eq by done.
  - rewrite lookup_alter_ne, (lookup_insert_ne _ q) by done. destruct (decide (x = p)) as [->|Hp].
    + by rewrite lookup_alter_eq, lookup_insert_ne, lookup_insert_eq, Hc by done.
    + by rewrite lookup_alter_ne, !lookup_insert_ne by done.
Qed.

(** ** Simulation *)

Section Simulation.
Context (cfg : config) (syms : symbols) (img : user_tasks_image) (kernel_end : Z).
Context {St D : Type} `{HR : Refines St D}.
Context (Hsys : system_ok cfg syms img kernel_end).
Local Abbreviation kst := (kstate St).
Implicit Types (k : kst) (c : cpu) (p q : cptr) (live : list cptr) (d : D).

Abbreviation clock_of s := (current_time (s_timer s)).

(** The kernel about to leave for context [q], with the contexts [cs]. *)
Definition leaves k (r : cpu * kst) live (q : cptr) (d : D) (cs : mem) : Prop :=
  user_cpu r.1 /\ resume cs q r.1 /\ kernel_inv syms img kernel_end r.2 live q /\
  rep img (k_s r.2) live (running_phase img q) d /\ erase (k_mem r.2) = cs /\
  clock_of (k_s r.2) = clock_of (k_s k).

Lemma rep_chosen s live q d :
  q = context_idle img /\ rep img s live Idling d \/ rep img s live (Running q) d ->
  rep img s live (running_phase img q) d.
Proof using Type.
  intros [[-> Hr]|Hr].
  - unfold running_phase, context_is_idle. by rewrite bool_decide_true.
  - by destruct (running_phase_task _ _ _ _ (rep_inv _ _ _ _ _ Hr)) as [-> _].
Qed.

Lemma switch_to_resume k p c k' : switch_to p k = Ok (c, k') -> resume (erase (k_mem k)) p c.
Proof using Type.
  intros (ctx & Hc & ->)%switch_to_restore. exists (strip_next ctx). by rewrite erase_lookup, Hc.
Qed.

(** The last action of every handler, after the scheduler has chosen [q]. *)
Lemma switch_leaves k0 k live q c k' q' d :
  switch_to q k = Ok (c, k') -> user_cpu c -> kernel_inv syms img kernel_end k' live q' ->
  rep img (k_s k) live (running_phase img q) d -> clock_of (k_s k) = clock_of (k_s k0) ->
  q' = q /\ leaves k0 (c, k') live q d (erase (k_mem k)).
Proof using Type.
  intros E Hu Hk Hr Ht. pose proof (switch_to_current _ _ _ _ E) as He.
  assert (q' = q) as -> by (pose proof (ki_esp0 _ _ _ _ _ _ Hk); congruence).
  destruct (switch_to_same _ _ _ _ E) as [Es _]. unfold leaves, k_mem. cbn [fst snd]. rewrite Es.
  split; [done|]. split; [done|]. split; [by eapply switch_to_resume|done].
Qed.

Lemma yield_sim k live p ctx d wh wl dh dl r :
  kernel_mid syms img kernel_end k live (Running p) -> rep img (k_s k) live (Running p) d ->
  k_mem k !! p = Some ctx -> c_syscall_yield cfg img p wh wl dh dl k = Ok r ->
  let cs := alter (yield_dates cfg wh wl dh dl) p (erase (k_mem k)) in
  exists d1 q d2, pol_wait cs p d (alarm_of (k_s k)) d1 (alarm_of (k_s r.2)) /\
    pol_choose (context_idle img) cs d1 q d2 /\ leaves k r live q d2 cs /\
    k_idx_reserve r.2 = k_idx_reserve k.
Proof using Hsys.
  intros Hk Hr Ec E cs. pose proof (so_image _ _ _ _ Hsys) as Himg.
  destruct (c_syscall_yield_ok _ _ _ _ Hsys k live p ctx wh wl dh dl Hk Ec)
    as (c' & k' & q' & E' & Hu & Hi & _). rewrite E in E'. injection E' as ->.
  unfold c_syscall_yield in E. rewrite (modify_ok _ _ _ ctx Ec) in E. cbn [rbind] in E.
  set (m1 := <[p := _]> (k_mem k)) in E.
  assert (erase m1 = cs) as Em by (apply erase_store; [done|apply yield_dates_strip]).
  assert (rep img (with_mem m1 (k_s k)) live (Woken p) d) as Hw.
  { apply rep_redate; [done|]. eexists ctx, _, _. split; [done|]. unfold m1.
    by rewrite <-yield_dates_redate. }
  apply rbind_ok in E as (s1 & E1 & E). apply rbind_ok in E as ([q s2] & E2 & E).
  destruct (sched_set_waiting_spec img _ live p Himg (rep_inv _ _ _ _ _ Hw)) as (s1' & E1' & Hs1 & Hf1).
  rewrite E1 in E1'. injection E1' as <-.
  destruct (sched_choose_next_spec img s1 live Himg Hs1) as (q1 & s2' & E2' & _ & Hf2).
  rewrite E2 in E2'. injection E2' as <- <-.
  destruct (wait_refines _ _ _ _ _ _ Himg Hw E1) as (d1 & Hp1 & Hr1).
  destruct (choose_refines _ _ _ _ _ _ Himg Hr1 E2) as (d2 & Hp2 & Hr2 & Ha2).
  destruct (switch_leaves k _ live q c' k' q' d2 E Hu Hi (rep_chosen _ _ _ _ Hr2)) as [-> Hl].
  { destruct Hf1 as (_ & _ & Ht1 & _), Hf2 as (_ & _ & Ht2 & _). cbn [k_s set_s]. by rewrite Ht2, Ht1. }
  destruct (switch_to_same _ _ _ _ E) as [Es Ei]. cbn [k_s set_s with_mem s_mem s_timer] in *.
  destruct Hf1 as [Hm1 _], Hf2 as [Hm2 _]. cbn [with_mem s_mem] in Hm1.
  apply erase_eq in Hm1, Hm2. rewrite Hm1 in Hp2, Hm2. rewrite Em in *.
  exists d1, q, d2. cbn [snd]. rewrite Es, Ha2. unfold k_mem in Hl. cbn [k_s set_s] in Hl.
  rewrite Hm2 in Hl. done.
Qed.

(** The handlers that return to the same context. *)
Lemma return_sim k0 k live p d r :
  kernel_mid syms img kernel_end k live (running_phase img p) ->
  rep img (k_s k) live (running_phase img p) d -> p ∈ context_idle img :: live ->
  switch_to p k = Ok r -> clock_of (k_s k) = clock_of (k_s k0) ->
  leaves k0 r live p d (erase (k_mem k)) /\ alarm_of (k_s r.2) = alarm_of (k_s k) /\
  k_idx_reserve r.2 = k_idx_reserve k.
Proof using Type.
  intros Hk Hr Hp E Ht. destruct (switch_to_ok _ _ _ k live p Hk Hp) as (c & k' & E' & Hu & Hi & Es).
  rewrite E in E'. injection E' as ->.
  destruct (switch_leaves k0 k live p c k' p d E Hu Hi Hr Ht) as [_ Hl].
  destruct (switch_to_same _ _ _ _ E) as [_ Ei]. cbn [snd]. by rewrite Es.
Qed.

(** The actions of dup_thread when it succeeds. *)
Lemma dup_thread_inv k live p ctx r :
  cfg_dynamic cfg = true -> kernel_mid syms img kernel_end k live (Running p) ->
  k_mem k !! p = Some ctx -> u32 (range ctx) <> 0 -> k_idx_reserve k <> 0 ->
  syscall_dup_thread cfg syms img p k = Ok r ->
  let idx := k_idx_reserve k - 1 in
  let child := reserve img (Z.to_nat idx) in
  exists s3 x1 x2, child <> p /\
    sched_insert_duplicated_context img p child
      (with_mem (<[child := ctx]> (k_mem k)) (k_s k)) = Ok s3 /\
    s_mem s3 !! p = Some x1 /\ <[p := returning 1 x1]> (s_mem s3) !! child = Some x2 /\
    switch_to p (set_idx_reserve idx (set_s (with_mem
      (<[child := returning 0 x2]> (<[p := returning 1 x1]> (s_mem s3))) s3) k)) = Ok r.
Proof using Hsys.
  intros Hd Hk Ec Hrange Hi E idx child. pose proof (km_reserve _ _ _ _ _ _ Hk) as Hres.
  destruct (reserve_inv_take _ _ _ _ Hsys _ _ _ ctx Hres Hi) as (Hnl & _ & [cc Hcc] & _).
  fold idx child in Hnl, Hcc. pose proof (sched_inv_running _ _ _ _ (km_sched _ _ _ _ _ _ Hk)) as Hp.
  assert (child <> p) as Hne by by intros ->.
  unfold syscall_dup_thread in E. rewrite Hd, (proj2 (load_ok _ _ _) Ec) in E. cbn [rbind negb] in E.
  rewrite (proj2 (Z.eqb_neq _ _) Hrange), (proj2 (Z.eqb_neq _ _) Hi) in E.
  rewrite (wrap_small _ (k_idx_reserve k - 1)) in E by (destruct Hres; unfold in_width; lia).
  fold idx child in E. rewrite (modify_ok _ _ _ cc Hcc) in E. cbn [rbind] in E.
  rewrite (copy_context_ok child p _ ctx (set_range 0 cc)) in E;
    [|done|by rewrite lookup_insert_ne|apply lookup_insert_eq].
  rewrite insert_insert_eq in E. cbn [rbind] in E.
  apply rbind_ok in E as (s3 & E3 & E). apply rbind_ok in E as (m4 & E4 & E).
  apply rbind_ok in E as (m5 & E5 & E).
  apply modify_inv in E4 as (x1 & Hx1 & ->), E5 as (x2 & Hx2 & ->). by exists s3, x1, x2.
Qed.

Lemma fork_sim k live p ctx d r :
  cfg_dynamic cfg = true -> kernel_mid syms img kernel_end k live (Running p) ->
  rep img (k_s k) live (Running p) d -> k_mem k !! p = Some ctx -> u32 (range ctx) <> 0 ->
  k_idx_reserve k <> 0 -> syscall_dup_thread cfg syms img p k = Ok r ->
  let child := reserve img (Z.to_nat (k_idx_reserve k - 1)) in
  let cs := <[child := returning 0 (strip_next ctx)]>
              (<[p := returning 1 (strip_next ctx)]> (erase (k_mem k))) in
  exists d', pol_fork p child d d' /\ leaves k r (child :: live) p d' cs /\
    alarm_of (k_s r.2) = alarm_of (k_s k) /\ k_idx_reserve r.2 = k_idx_reserve k - 1.
Proof using Hsys.
  intros Hd Hk Hr Ec Hrange Hi E child cs.
  destruct (syscall_dup_thread_ok _ _ _ _ Hsys k live p ctx Hd Hk Ec Hrange Hi)
    as (c' & k' & E' & Hu & Hk' & _ & Hidx). rewrite E in E'. injection E' as ->. fold child in Hk'.
  destruct (dup_thread_inv k live p ctx _ Hd Hk Ec Hrange Hi E) as (s3 & x1 & x2 & Hne & E3 & Hx1 & Hx2 & Esw).
  fold child in Hne, E3, Hx2, Esw. pose proof (km_reserve _ _ _ _ _ _ Hk) as Hres.
  destruct (reserve_inv_take _ _ _ _ Hsys _ _ _ ctx Hres Hi) as (Hnl & Hni & _). fold child in Hnl, Hni.
  destruct (dup_insert_ok _ _ _ _ Hsys k live p ctx Hd Hk Ec Hi) as (s3' & E3' & _ & Hm3).
  fold child in E3', Hm3. rewrite E3 in E3'. injection E3' as <-.
  set (s2 := with_mem (<[child := ctx]> (k_mem k)) (k_s k)) in E3.
  assert (s_mem s2 !! p = Some ctx) as Ep by (cbn; by rewrite lookup_insert_ne).
  assert (s_mem s2 !! child = Some ctx) as Ech by apply lookup_insert_eq.
  destruct (fork_refines img s2 s3 live p child d) as (d' & Hpol & Hr3 & Ht3);
    [apply Hsys| |done|done| |by eauto|by rewrite Ep, Ech|done|].
  { apply rep_mem; [done|]. apply same_sched_lookup. intros q Hq. apply lookup_insert_ne. by intros <-. }
  { pose proof (so_room _ _ _ _ Hsys Hd). destruct Hres. lia. }
  set (m5 := <[child := returning 0 x2]> _) in Esw.
  assert (erase m5 = cs) as Em.
  { unfold m5. rewrite (erase_store _ child x2), (erase_store _ p x1) by done.
    apply erase_eq in Hm3. rewrite Hm3, erase_insert. apply alter_copy; [|done].
    by rewrite erase_lookup, Ec. }
  destruct (switch_leaves k _ (child :: live) p c' k' p d' Esw Hu Hk') as [_ Hl].
  { rewrite (proj1 (running_phase_task _ _ _ _ (rep_inv _ _ _ _ _ Hr3))).
    apply (rep_mem _ s3); [done|]. intros q Hq. unfold m5.
    etrans; [exact (same_sched_set_hw _ p x1 (hw (returning 1 x1)) _ Hx1 q Hq)|].
    exact (same_sched_set_hw _ child x2 (hw (returning 0 x2)) _ Hx2 q Hq). }
  { cbn [k_s set_s set_idx_reserve with_mem s_timer]. by rewrite Ht3. }
  destruct (switch_to_same _ _ _ _ Esw) as [Es Ei]. cbn [snd]. rewrite Es. cbn [k_s set_s set_idx_reserve with_mem s_timer].
  rewrite Ht3.
  change (k_mem _) with m5 in Hl. rewrite Em in Hl. exists d'. done.
Qed.

(** The scheduler's part of an alarm. *)
Lemma alarm_sched_sim (s s1 s2 : sstate St) live p q d (t : Z) :
  rep img s live (running_phase img p) d -> alarm_of s <= t ->
  sched_wake_tasks img t (with_timer (timer_dont_wake (s_timer s)) s) = Ok s1 ->
  (if context_is_idle img p then sched_choose_next img s1 else sched_maybe_preempt img p s1)
    = Ok (q, s2) ->
  exists d1 d2, pol_wake (erase (s_mem s)) t d d1 /\
    (if context_is_idle img p then pol_choose (context_idle img) (erase (s_mem s)) d1 q d2
     else pol_preempt (erase (s_mem s)) p d1 q d2) /\
    rep img s2 live (running_phase img q) d2 /\ sched_frame live s s2 /\ alarm_of s2 = DATE_FAR_AWAY.
Proof using Hsys.
  intros Hr Hdue E1 E2. pose proof (so_image _ _ _ _ Hsys) as Himg. unfold running_phase in Hr.
  destruct (context_is_idle img p).
  - destruct (sched_wake_idle_spec img s live t Himg (rep_inv _ _ _ _ _ Hr) Hdue)
      as (s1' & E1' & Hs1 & Hf1). rewrite E1 in E1'. injection E1' as <-.
    destruct (sched_choose_next_spec img s1 live Himg Hs1) as (q' & s2' & E2' & _ & Hf2).
    rewrite E2 in E2'. injection E2' as <- <-.
    destruct (wake_idle_refines _ _ _ _ _ _ Himg Hr Hdue E1) as (d1 & Hp1 & Hr1 & Ha1).
    destruct (choose_refines _ _ _ _ _ _ Himg Hr1 E2) as (d2 & Hp2 & Hr2 & Ha2).
    rewrite (proj1 (erase_eq _ _) (proj1 Hf1)) in Hp2.
    exists d1, d2. split; [done|]. split; [done|]. split; [by apply rep_chosen|].
    split; [by eapply sched_frame_trans|congruence].
  - apply (rep_alarm _ _ _ _ _ (timer_dont_wake (s_timer s))) in Hr.
    destruct (sched_wake_running_spec img _ live p t Himg (rep_inv _ _ _ _ _ Hr))
      as (s1' & E1' & Hs1 & Hf1). rewrite E1 in E1'. injection E1' as <-.
    destruct (sched_maybe_preempt_spec img s1 live p Himg Hs1) as (q' & s2' & E2' & _ & Hf2).
    rewrite E2 in E2'. injection E2' as <- <-.
    destruct (wake_running_refines _ _ _ _ _ _ _ Himg Hr E1) as (d1 & Hp1 & Hr1 & Ha1).
    destruct (preempt_refines _ _ _ _ _ _ _ Himg Hr1 E2) as (d2 & Hp2 & Hr2 & Ha2).
    rewrite (proj1 (erase_eq _ _) (proj1 Hf1)) in Hp2. cbn [with_timer s_mem] in Hp1, Hp2.
    exists d1, d2. split; [done|]. split; [done|]. split; [apply rep_chosen; by right|].
    split; [exact (sched_frame_trans _ _ _ _ Hf1 Hf2)|by rewrite Ha2, Ha1].
Qed.

Lemma alarm_sim k0 k live p d r :
  kernel_mid syms img kernel_end k live (running_phase img p) ->
  rep img (k_s k) live (running_phase img p) d -> p ∈ context_idle img :: live ->
  alarm_of (k_s k) <= clock_of (k_s k) -> timer_alarm img p k = Ok r ->
  clock_of (k_s k) = clock_of (k_s k0) ->
  let cs := erase (k_mem k) in
  exists d1 q d2, pol_wake cs (clock_of (k_s k)) d d1 /\
    (if context_is_idle img p then pol_choose (context_idle img) cs d1 q d2
     else pol_preempt cs p d1 q d2) /\
    leaves k0 r live q d2 cs /\ alarm_of (k_s r.2) = DATE_FAR_AWAY /\
    k_idx_reserve r.2 = k_idx_reserve k.
Proof using Hsys.
  intros Hk Hr Hp Hdue E Ht cs.
  destruct (timer_alarm_ok _ _ _ _ Hsys k live p Hk Hp) as (c' & k' & q' & E' & Hu & Hi).
  rewrite E in E'. injection E' as ->.
  unfold timer_alarm, high_level_timer_interrupt_handler in E.
  rewrite (proj2 (Z.leb_le _ _) Hdue) in E. cbn [k_s set_s] in E.
  apply rbind_ok in E as (s1 & E1 & E). apply rbind_ok in E as ([q s2] & E2 & E).
  destruct (alarm_sched_sim _ _ _ _ _ _ _ _ Hr Hdue E1 E2) as (d1 & d2 & Hw & Hc & Hr2 & Hf & Ha).
  destruct Hf as (Hm & _ & Htm & _).
  destruct (switch_leaves k0 _ live q c' k' q' d2 E Hu Hi Hr2) as [-> Hl]; [cbn; congruence|].
  destruct (switch_to_same _ _ _ _ E) as [Es Ei]. cbn [snd]. rewrite Es, Ei.
  unfold k_mem in Hl. cbn [k_s set_s] in Hl. rewrite (proj1 (erase_eq _ _) Hm) in Hl.
  exists d1, q, d2. done.
Qed.

(** *** The simulation relation *)

(** The model shows the registers, the running context, the saved contexts, the
    clock, the alarm and the reserve of the kernel. *)
Definition agrees (st : mstate (St := St)) (ast : mconfig D) : Prop :=
  match st, ast with
  | UserMode c k, MUser c' a =>
      c' = c /\ esp0 (ll_tss (k_ll k)) = Some (m_current a, sizeof_pusha + sizeof_iframe) /\
      m_contexts a = erase (k_mem k) /\ m_now a = clock_of (k_s k) /\
      m_alarm a = alarm_of (k_s k) /\ m_free a = k_idx_reserve k
  | Halted _, MHalted => True
  | _, _ => False
  end.

(** With the invariants of the kernel and of the scheduler. *)
Definition sim (st : mstate (St := St)) (ast : mconfig D) : Prop :=
  agrees st ast /\
  match st, ast with
  | UserMode c k, MUser _ a => user_cpu c /\
      exists live, kernel_inv syms img kernel_end k live (m_current a) /\
        rep img (k_s k) live (running_phase img (m_current a)) (m_data a)
  | _, _ => True
  end.

Lemma leaves_sim k r live q d cs alarm free :
  leaves k r live q d cs -> alarm = alarm_of (k_s r.2) -> free = k_idx_reserve r.2 ->
  sim (outcome (inl r)) (MUser r.1 (Model cs q d (clock_of (k_s k)) alarm free)).
Proof using Type.
  intros (Hu & _ & Hi & Hr & Ec & Et) -> ->. destruct r as [c' k']. cbn in *.
  split; [|by eauto]. split; [done|]. split; [apply (ki_esp0 _ _ _ _ _ _ Hi)|]. by rewrite Et.
Qed.

(** The kernel has been entered from the state [a] of the model. *)
Record entered c (a : model D) k live : Prop := {
  en_mid : kernel_mid syms img kernel_end k live (running_phase img (m_current a));
  en_rep : rep img (k_s k) live (running_phase img (m_current a)) (m_data a);
  en_known : m_current a ∈ context_idle img :: live;
  en_contexts : suspend syms c a = erase (k_mem k);
  en_range ctx : k_mem k !! m_current a = Some ctx ->
    exists ctx', m_contexts a !! m_current a = Some ctx' /\ range ctx' = range ctx;
  en_now : m_now a = clock_of (k_s k);
  en_alarm : m_alarm a = alarm_of (k_s k);
  en_free : m_free a = k_idx_reserve k
}.

Lemma sim_entry c k a ctx live :
  agrees (UserMode c k) (MUser c a) -> kernel_inv syms img kernel_end k live (m_current a) ->
  rep img (k_s k) live (running_phase img (m_current a)) (m_data a) ->
  k_mem k !! m_current a = Some ctx ->
  let k1 := set_kmem (<[m_current a := set_hw (saved syms (m_current a) c (hw ctx)) ctx]> (k_mem k)) k in
  kernel_mid syms img kernel_end k1 live (running_phase img (m_current a)) -> entered c a k1 live.
Proof using Type.
  intros (_ & _ & Ecs & En & Ea & Ef) Hi Hr Ec k1 Hk1. split; try done.
  - apply rep_mem; [done|]. by apply same_sched_set_hw.
  - apply (ki_known _ _ _ _ _ _ Hi).
  - unfold suspend. rewrite Ecs. symmetry.
    exact (erase_store _ _ ctx (fun x => set_hw (saved syms (m_current a) c (hw x)) x) Ec eq_refl).
  - intros ctx' Ec'. change (k_mem k1) with (<[m_current a := set_hw (saved syms (m_current a) c (hw ctx)) ctx]>
      (k_mem k)) in Ec'. rewrite lookup_insert_eq in Ec'. injection Ec' as <-.
    exists (strip_next ctx). by rewrite Ecs, erase_lookup, Ec.
Qed.

(** *** System calls *)

Lemma catch_cases {A} t (m : res A) r :
  catch t m = Ok r -> (exists x, m = Ok x /\ r = inl x) \/ (exists e t', m = Err e /\ r = inr t').
Proof using Type.
  destruct m as [x|e]; cbn; [intros [= <-]; eauto|].
  destruct e; try done; [|intros [= <-]; eauto 10].
  intros (t' & _ & [= <-])%rbind_ok. eauto 10.
Qed.

Section Syscalls.
Context (c : cpu) (a : model D) (k : kst) (live : list cptr).
Context (Hin : entered c a k live) (Htask : m_current a <> context_idle img).
Local Abbreviation p := (m_current a).
Local Abbreviation simulated r := (exists ast,
  mstep cfg syms img (EInt SYSCALL_INTNUM) (MUser c a) ast /\ sim (outcome r) ast).

Lemma entered_task :
  kernel_mid syms img kernel_end k live (Running p) /\ rep img (k_s k) live (Running p) (m_data a) /\
  exists ctx, k_mem k !! p = Some ctx.
Proof using Hin Htask.
  pose proof (en_known _ _ _ _ Hin) as Hp. apply elem_of_cons in Hp as [?|Hp]; [done|].
  pose proof (running_phase_live _ _ _ _ _ _ Hp (en_mid _ _ _ _ Hin)) as Hk. split; [done|].
  pose proof (en_rep _ _ _ _ Hin) as Hr.
  rewrite (proj1 (running_phase_task _ _ _ _ (km_sched _ _ _ _ _ _ Hk))) in Hr. split; [done|].
  destruct (km_contexts _ _ _ _ _ _ Hk p (en_known _ _ _ _ Hin)) as (ctx & Ec & _). eauto.
Qed.

Lemma refused_sim t : in_width 32 (c_ebx c) -> refused cfg c a -> simulated (inr t).
Proof using Htask.
  intros Hb Hr. exists MHalted. split; [|done]. apply m_stop. by split; [vm_compute|].
Qed.

Lemma yield_call_sim r :
  c_ebx c = 0 -> syscall_yield cfg img c p k = Ok r -> simulated (inl r).
Proof using Hin Htask Hsys.
  intros Eb E. destruct entered_task as (Hk & Hr & ctx & Ec).
  destruct (yield_sim k live p ctx _ _ _ _ _ r Hk Hr Ec E) as (d1 & q & d2 & Hw & Hc & Hl & Ei).
  rewrite <-(en_contexts _ _ _ _ Hin) in *. rewrite <-(en_alarm _ _ _ _ Hin) in Hw.
  eexists. split; [eapply m_yield; [done|done|exact Hw|exact Hc|apply Hl]|].
  rewrite (en_now _ _ _ _ Hin). apply (leaves_sim k _ _ _ _ _ _ _ Hl); [done|].
  by rewrite Ei, (en_free _ _ _ _ Hin).
Qed.

Lemma return_call_sim k1 r :
  c_ebx c = 1 /\ cfg_debug cfg = true \/ c_ebx c = 3 -> k_s k1 = k_s k ->
  kernel_mid syms img kernel_end k1 live (Running p) -> k_idx_reserve k1 = k_idx_reserve k ->
  switch_to p k1 = Ok r -> simulated (inl r).
Proof using Hin Htask.
  intros Eb Es Hk1 Ei E. pose proof (proj1 (running_phase_task _ _ _ _ (km_sched _ _ _ _ _ _ Hk1))) as Eph.
  destruct (return_sim k k1 live p (m_data a) r) as (Hl & Ea & Ei');
    [by rewrite Eph|rewrite Es; apply Hin|apply Hin|done|by rewrite Es|].
  unfold k_mem in Hl. rewrite Es in Hl, Ea. change (s_mem (k_s k)) with (k_mem k) in Hl.
  rewrite <-(en_contexts _ _ _ _ Hin) in Hl.
  eexists. split; [eapply m_return; [done|done|apply Hl]|].
  rewrite (en_now _ _ _ _ Hin), (en_alarm _ _ _ _ Hin), (en_free _ _ _ _ Hin).
  apply (leaves_sim k _ _ _ _ _ _ _ Hl); congruence.
Qed.

Lemma fork_call_sim r :
  c_ebx c = 2 -> catch (k_term k) (syscall_dup_thread cfg syms img p k) = Ok r -> simulated r.
Proof using Hin Htask Hsys.
  intros Eb E. destruct entered_task as (Hk & Hr & ctx & Ec).
  destruct (en_range _ _ _ _ Hin ctx Ec) as (ctx' & Ec' & Erange).
  assert (forall e, (cfg_dynamic cfg = false \/ m_free a = 0 \/ u32 (range ctx) = 0) ->
    syscall_dup_thread cfg syms img p k = Err e -> simulated r) as Hstop.
  { intros e Hcase Ee. rewrite Ee in E. apply catch_cases in E as [(x & [=] & _)|(e' & t & _ & ->)].
    apply refused_sim; [by rewrite Eb|]. right. left. split; [done|]. destruct Hcase as [?|[?|?]]; [auto..|].
    right. right. exists ctx'. by rewrite Erange. }
  unfold syscall_dup_thread in Hstop. rewrite (proj2 (load_ok _ _ _) Ec) in Hstop. cbn [rbind] in Hstop.
  destruct (cfg_dynamic cfg) eqn:Ed; [|by eapply Hstop; [left|]]. cbn [negb] in Hstop.
  destruct (Z.eqb_spec (u32 (range ctx)) 0) as [Er|Er]; [by eapply Hstop; [auto|]|].
  destruct (Z.eqb_spec (k_idx_reserve k) 0) as [Ei|Ei].
  { eapply Hstop; [|reflexivity]. rewrite (en_free _ _ _ _ Hin). auto. }
  destruct (syscall_dup_thread_ok _ _ _ _ Hsys k live p ctx Ed Hk Ec Er Ei) as (c' & k' & E' & _).
  rewrite E' in E. injection E as <-.
  destruct (fork_sim k live p ctx _ _ Ed Hk Hr Ec Er Ei E') as (d' & Hp & Hl & Ea & Ex).
  rewrite <-(en_free _ _ _ _ Hin) in *. rewrite <-(en_contexts _ _ _ _ Hin) in Hl.
  eexists. split.
  - eapply m_fork; [done..| | |exact Hp|apply Hl]; [|exact Er].
    rewrite (en_contexts _ _ _ _ Hin), erase_lookup, Ec. done.
  - rewrite (en_now _ _ _ _ Hin), (en_alarm _ _ _ _ Hin). by apply (leaves_sim k _ _ _ _ _ _ _ Hl).
Qed.

Lemma syscall_sim r :
  in_width 32 (c_ebx c) -> catch (k_term k) (asm_syscall_handler cfg syms img c p k) = Ok r ->
  simulated r.
Proof using Hin Htask Hsys.
  intros Hb E. destruct entered_task as (Hk & Hr & ctx & Ec).
  destruct (decide (4 <= c_ebx c)) as [Hge|Hlt].
  { unfold asm_syscall_handler, SYSCALL_NUMBER in E. rewrite (proj2 (Z.leb_le _ _) Hge) in E.
    injection E as <-. apply refused_sim; [done|]. do 2 right. exact Hge. }
  assert (c_ebx c = Z.of_nat 0 \/ c_ebx c = Z.of_nat 1 \/ c_ebx c = Z.of_nat 2 \/ c_ebx c = Z.of_nat 3)
    as [En | [En | [En | En]]] by (unfold in_width in Hb; lia).
  all: rewrite (syscall_call cfg syms img c p k _ _ En eq_refl) in E.
  - destruct (c_syscall_yield_ok _ _ _ _ Hsys k live p ctx (c_edx c) (c_ecx c) (c_esi c) (c_edi c) Hk Ec)
      as (c' & k' & q & E' & _). unfold syscall_yield in E. rewrite E' in E. injection E as <-.
    by apply yield_call_sim.
  - destruct (cfg_debug cfg) eqn:Ed.
    + destruct (terminal_putchar_total (u8 (c_edx c)) (k_term k) (km_term _ _ _ _ _ _ Hk)) as (t & Et & Ht).
      destruct (syscall_putchar_ok _ _ _ _ k live p (c_edx c) Ed Hk) as (c' & k' & E' & _).
      rewrite E' in E. injection E as <-. unfold syscall_putchar in E'. rewrite Ed, Et in E'. cbn [rbind] in E'.
      apply (return_call_sim (set_term t k)); try done; [by left|]. by apply kernel_mid_term.
    + apply catch_cases in E as [(x & E & _)|(e & t & _ & ->)].
      { unfold syscall_putchar in E. by rewrite Ed in E. }
      apply refused_sim; [done|]. by left.
  - by apply fork_call_sim.
  - apply catch_cases in E as [(x & E & ->)|(e & t & E & _)]; unfold syscall_trigger_bug in E.
    + apply (return_call_sim k); try done. by right.
    + destruct (switch_to_ok _ _ _ k live p (en_mid _ _ _ _ Hin) (en_known _ _ _ _ Hin)) as (c' & k' & E' & _).
      congruence.
Qed.
End Syscalls.

(** *** The timer *)

Lemma timer_sim c a k live r :
  entered c a k live -> timer_interrupt_handler cfg img (m_current a) k = Ok r ->
  exists ast, mstep cfg syms img ETimer (MUser c a) ast /\ sim (outcome r) ast.
Proof using Hsys.
  intros [Hk Hr Hp Ecs _ En Ea Ef] E. apply rbind_ok in E as (k2 & Et & E).
  destruct (timer_tick_mid cfg _ _ _ k live _ k2 Hk Et) as [Hk2 Ei].
  apply timer_tick_timer in Et as (tm & Es & Eal & Etm). set (now := u64 (m_now a + ACTUAL_TICK)).
  rewrite <-En in Etm. fold now in Etm.
  assert (clock_of (k_s k2) = now) as Ec2 by (by rewrite Es).
  assert (alarm_of (k_s k2) = m_alarm a) as Ea2 by (rewrite Es, Ea; exact Eal).
  assert (erase (k_mem k2) = suspend syms c a) as Em2 by (rewrite Ecs; unfold k_mem; by rewrite Es).
  assert (rep img (k_s k2) live (running_phase img (m_current a)) (m_data a)) as Hr2
    by (rewrite Es; by apply rep_clock).
  destruct (timer_alarm_ok _ _ _ _ Hsys k2 live _ Hk2 Hp) as (c' & k' & q' & E' & _).
  rewrite E' in E. injection E as <-. destruct (Z.le_gt_cases (m_alarm a) now) as [Hdue|Hdue].
  - destruct (alarm_sim k2 k2 live _ _ (c', k') Hk2 Hr2 Hp ltac:(by rewrite Ea2, Ec2) E' eq_refl)
      as (d1 & q & d2 & Hw & Hc & Hl & Ea' & Ei'). rewrite Ec2, Em2 in *. unfold context_is_idle in Hc.
    exists (MUser c' (Model (suspend syms c a) q d2 now DATE_FAR_AWAY (m_free a))). split.
    + case_bool_decide as Eid; [eapply m_alarm_idle|eapply m_alarm_task]; try done; apply Hl.
    + rewrite <-Ec2. apply (leaves_sim k2 _ _ _ _ _ _ _ Hl); [done|congruence].
  - unfold timer_alarm in E'. rewrite Ea2, Ec2, (proj2 (Z.leb_gt _ _) Hdue) in E'.
    destruct (return_sim k2 k2 live _ _ _ Hk2 Hr2 Hp E' eq_refl) as (Hl & Ea' & Ei'). rewrite Em2 in Hl.
    exists (MUser c' (Model (suspend syms c a) (m_current a) (m_data a) now (m_alarm a) (m_free a))). split.
    + apply m_tick; [done|apply Hl].
    + rewrite <-Ec2. apply (leaves_sim k2 _ _ _ _ _ _ _ Hl); congruence.
Qed.

(** *** Steps and runs *)

Lemma sim_step e st st' ast :
  sim st ast -> estep cfg syms img e st st' ->
  exists ast', mstep cfg syms img e ast ast' /\ sim st' ast'.
Proof using Hsys.
  intros [Hag Hsim] He. destruct ast as [c0 a|].
  2:{ by destruct He. }
  destruct He as [c c' k Hus|n c k r p off Hn He Hni Hb E|c k r E|n c k r Hn E];
    pose proof Hag as (-> & Hesp & Hag'); destruct Hsim as (Hu & live & Hi & Hr).
  - exists (MUser c' a). split; [by apply m_user|]. split; [by split|].
    split; [|by eauto]. destruct Hus as (E1 & E2 & _), Hu. split; congruence.
  - assert (p = m_current a) as -> by congruence.
    pose proof (ki_known _ _ _ _ _ _ Hi) as Hp. apply elem_of_cons in Hp as [?|Hp]; [done|].
    destruct (decide (n = SYSCALL_INTNUM)) as [->|Hns].
    + destruct (syscall_entry _ _ _ _ Hsys k live _ c Hi Hu Hp) as (ctx & Ec & Hk1 & E').
      rewrite E in E'. apply eq_sym in E'.
      eapply syscall_sim; [|done|exact Hb|exact E'].
      apply sim_entry; try done. by rewrite (proj1 (running_phase_task _ _ _ _ (km_sched _ _ _ _ _ _ Hk1))).
    + pose proof (software_interrupt_ok _ _ _ _ Hsys k live _ c n Hi Hu Hn Hp Hb) as Hs.
      destruct (vector_privilege n =? 0) eqn:Ev; [congruence|].
      assert (vector_privilege n = 3) as Hv by (unfold vector_privilege in *; by destruct (_ || _)).
      destruct (software_interrupt_halts _ _ _ _ Hsys k live _ c n Hi Hu Hn Hv Hns) as [t E'].
      rewrite E in E'. injection E' as ->. exists MHalted. split; [by apply m_stop|done].
  - destruct (timer_entry _ _ _ _ Hsys k live _ c Hi Hu) as (ctx & Ec & Hk1 & E'). rewrite E in E'.
    eapply timer_sim; [|by symmetry]. by apply sim_entry.
  - destruct (exception_halts _ _ _ _ Hsys k live _ c n Hi Hu) as (t & E'); [apply Hn|].
    rewrite E in E'. injection E' as ->. exists MHalted. split; [by apply m_stop|done].
Qed.

(** Every run of the machine is a run of the model. *)
Lemma sim_run es st st' ast :
  sim st ast -> run (estep cfg syms img) es st st' ->
  exists ast', run (mstep cfg syms img) es ast ast' /\ sim st' ast'.
Proof using Hsys.
  intros Hs Hrun. revert ast Hs.
  induction Hrun as [st|e es st1 st2 st3 He _ IH]; intros ast Hs; [exists ast; by split; [constructor|]|].
  destruct (sim_step e st1 st2 ast Hs He) as (ast2 & Hm & Hs2).
  destruct (IH ast2 Hs2) as (ast3 & Hm3 & Hs3). exists ast3. split; [by econstructor|done].
Qed.

(** The machine can do what the model can: an event of the model happens on the
    machine, unless the debug counter overflows. *)
Lemma sim_enabled e st ast ast' :
  sim st ast -> mstep cfg syms img e ast ast' ->
  (forall c k, e = ETimer -> st = UserMode c k -> count_ok cfg k) ->
  exists st', estep cfg syms img e st st'.
Proof using Hsys.
  intros [Hag Hsim] Hm Hcount. destruct ast as [c a|]; [|by inversion Hm].
  destruct st as [c' k|]; [|by destruct Hag]. destruct Hag as (-> & He & _), Hsim as (Hu & live & Hi & _).
  assert (forall n, 0 <= n < 256 -> vector_privilege n = 3 -> in_width 32 (c_ebx c') ->
    m_current a <> context_idle img -> exists st', estep cfg syms img (EInt n) (UserMode c' k) st') as Hint.
  { intros n Hn Hv Hb Hni. pose proof (ki_known _ _ _ _ _ _ Hi) as Hp.
    apply elem_of_cons in Hp as [?|Hp]; [done|].
    pose proof (software_interrupt_ok _ _ _ _ Hsys k live _ c' n Hi Hu Hn Hp Hb) as Hs. rewrite Hv in Hs.
    destruct Hs as (r & E & _). exists (outcome r). by eapply e_int. }
  assert (e = ETimer -> exists st', estep cfg syms img ETimer (UserMode c' k) st') as Htimer.
  { intros Ee. destruct (interrupt_timer_ok _ _ _ _ Hsys k live _ c' Hi Hu) as (c1 & k1 & p & E & _);
      [by eapply Hcount|]. eexists. by eapply e_timer. }
  assert (forall z, c_ebx c' = z -> in_width 32 z -> in_width 32 (c_ebx c')) as Hw by (by intros ? ->).
  inversion Hm; subst; try by apply Htimer.
  - eexists. by apply e_user.
  - apply Hint; [by vm_compute..|by eapply Hw|done].
  - apply Hint; [by vm_compute..| |done].
    match goal with H : _ \/ _ |- _ => destruct H as [[E1 _]|E1] end; by eapply Hw.
  - apply Hint; [by vm_compute..|by eapply Hw|done].
  - rename select (stops _ _ _ _ _) into Hstop. destruct e as [|n| |n]; try done.
    + destruct Hstop as (Hn & Hb & Hni & Hv & _). by apply Hint.
    + destruct (exception_halts _ _ _ _ Hsys k live _ c' n Hi Hu) as (t & E); [apply Hstop|].
      eexists. by eapply e_exception.
Qed.

(** *** Boot *)

(** The registers of task [t], number [i], before its first instruction. *)
Definition initial_hw (i : nat) (t : task_description) (h : hw_context) : hw_context :=
  hw_context_init h (t_start_pc t)
    (u32 (if cfg_dynamic cfg then Z.shiftl (Z.of_nat i) DYNAMIC_TASK_INITIAL_HEIGHT else Z.of_nat i))
    (t_task_begin t) (t_task_end t).

(** The contexts [m'] are the contexts [m] once the tasks are initialised. *)
Definition tasks_initial (m m' : mem) : Prop :=
  forall i t, tasks img !! i = Some t ->
    exists x0 x, m !! t_context t = Some x0 /\ m' !! t_context t = Some x /\
      hw x = initial_hw i t (hw x0).

(** The model when the kernel leaves for user mode the first time. *)
Record model_boot (k0 : kst) (c : cpu) (a : model D) : Prop := {
  mb_tasks : tasks_initial (k_mem k0) (m_contexts a);
  mb_data : exists m d0, init_memory cfg img (k_mem k0) = Ok m /\
    pol_init img (erase m) (m_contexts a) d0 /\
    pol_choose (context_idle img) (m_contexts a) d0 (m_current a) (m_data a);
  mb_resume : resume (m_contexts a) (m_current a) c;
  mb_now : m_now a = 0;
  mb_alarm : m_alarm a = alarm_of (k_s k0);
  mb_free : m_free a = k_idx_reserve k0
}.

Lemma context_init_inv m p idx pc start fin m' :
  context_init cfg m p idx pc start fin = Ok m' ->
  exists x x', m !! p = Some x /\ m' = <[p := x']> m /\
    hw x' = hw_context_init (hw x) pc
      (u32 (if cfg_dynamic cfg then Z.shiftl idx DYNAMIC_TASK_INITIAL_HEIGHT else idx)) start fin.
Proof using Type.
  intros (c & Hc & ->)%modify_inv. eexists c, _. split; [done|]. split; [done|].
  by destruct (cfg_dynamic cfg).
Qed.

Lemma init_contexts_hw n (i : nat) m m' :
  init_contexts cfg img n (Z.of_nat i) m = Ok m' ->
  (forall q, q ∉ t_context <$> drop i (tasks img) -> m' !! q = m !! q) /\
  (forall j t, (i <= j < i + n)%nat -> tasks img !! j = Some t ->
     exists x0 x, m !! t_context t = Some x0 /\ m' !! t_context t = Some x /\
       hw x = initial_hw j t (hw x0)).
Proof using Hsys.
  pose proof (img_contexts _ (so_image _ _ _ _ Hsys)) as Hnd.
  revert i m. induction n as [|n IH]; intros i m E; cbn [init_contexts] in E.
  { injection E as <-. split; [done|lia]. }
  destruct (_ <=? _); [done|]. rewrite Nat2Z.id in E. destruct (tasks img !! i) as [task|] eqn:Et; [|done].
  apply rbind_ok in E as (m1 & (c & c' & Hc & -> & Hhw)%context_init_inv & E).
  replace (Z.of_nat i + 1) with (Z.of_nat (S i)) in E by lia. apply IH in E as [Hfr Htasks].
  rewrite (drop_S _ _ _ Et). split.
  - intros q Hq. apply not_elem_of_cons in Hq as [Hq1 Hq2]. rewrite Hfr by done. by apply lookup_insert_ne.
  - assert (forall j t, (S i <= j)%nat -> tasks img !! j = Some t -> t_context t <> t_context task) as Hdist.
    { intros j t Hj Htj Heq. assert (j = i); [|lia].
      eapply (NoDup_lookup _ _ _ (t_context task) Hnd); rewrite list_lookup_fmap; [by rewrite Htj, <-Heq|].
      by rewrite Et. }
    intros j t Hj Htj. destruct (decide (j = i)) as [->|Hne].
    + assert (t = task) as -> by congruence. exists c, c'. split; [done|]. split; [|done].
      rewrite Hfr; [apply lookup_insert_eq|]. intros (t' & Heq & Hin)%list_elem_of_fmap.
      apply list_elem_of_lookup in Hin as [j' Hj']. rewrite lookup_drop in Hj'.
      apply (Hdist (S i + j')%nat t'); [lia|done|done].
    + destruct (Htasks j t ltac:(lia) Htj) as (c0 & c1 & Hc0 & Hc1). exists c0, c1. split; [|done].
      rewrite lookup_insert_ne in Hc0; [done|]. intros Heq. by apply (Hdist j t); [lia|..].
Qed.

Lemma init_reserve_loop_frame n i task0 m m' q :
  init_reserve_loop cfg img n i task0 m = Ok m' ->
  (forall j, (i <= j < i + n)%nat -> q <> reserve img j) -> m' !! q = m !! q.
Proof using Type.
  revert i m. induction n as [|n IH]; intros i m E Hq; cbn [init_reserve_loop] in E; [by injection E as <-|].
  apply rbind_ok in E as (m1 & (c & c' & _ & -> & _)%context_init_inv & E).
  apply rbind_ok in E as (m2 & (c2 & _ & ->)%modify_inv & E).
  apply IH in E as ->; [|intros j Hj; apply Hq; lia].
  by rewrite !lookup_insert_ne by (apply not_eq_sym, Hq; lia).
Qed.

(** The contexts of the tasks after the three loops of high_level_init. *)
Lemma init_memory_tasks m m3 : init_memory cfg img m = Ok m3 -> tasks_initial m m3.
Proof using Hsys.
  intros (m1 & E1 & (m2 & E2 & E3)%rbind_ok)%rbind_ok i t Hit. pose proof (so_image _ _ _ _ Hsys) as Himg.
  change 0 with (Z.of_nat 0) in E1. apply init_contexts_hw in E1 as [_ E1].
  apply lookup_lt_Some in Hit as Hlt.
  destruct (E1 i t) as (x0 & x & Hx0 & Hx & Hhw); [rewrite (img_nb_tasks _ Himg); lia|done|].
  exists x0, x. split; [done|]. split; [|done].
  assert (t_context t ∈ t_context <$> tasks img) as Hin
    by (apply list_elem_of_fmap_2; by eapply list_elem_of_lookup_2).
  unfold init_reserve in E2. destruct (tasks img !! 0%nat) as [task0|]; [|done].
  cbn [init_idle NUM_CPUS] in E3. apply rbind_ok in E3 as (m2' & (y & y' & _ & -> & _)%context_init_inv & E3).
  apply rbind_ok in E3 as (m2' & (z & _ & ->)%modify_inv & [= <-]).
  rewrite !lookup_insert_ne by (intros Heq; apply (img_not_idle _ Himg); unfold context_idle, current_cpu;
    by rewrite Heq).
  rewrite (init_reserve_loop_frame _ _ _ _ _ _ E2); [done|]. intros j Hj Heq.
  apply (so_reserve_tasks _ _ _ _ Hsys j); [lia|]. by rewrite <-Heq.
Qed.

Lemma high_level_init_sim (s s1 : sstate St) :
  (forall p, p ∈ t_context <$> tasks img -> is_Some (s_mem s !! p)) ->
  (forall i, (i < 10)%nat -> is_Some (s_mem s !! reserve img i)) ->
  is_Some (s_mem s !! context_idle img) -> high_level_init cfg img s = Ok s1 ->
  tasks_initial (s_mem s) (erase (s_mem s1)) /\ s_timer s1 = s_timer s /\
  exists m d0, init_memory cfg img (s_mem s) = Ok m /\ pol_init img (erase m) (erase (s_mem s1)) d0 /\
    rep img s1 (t_context <$> tasks img) Choosing d0.
Proof using Hsys.
  intros Ht Hr Hi E. pose proof (so_image _ _ _ _ Hsys) as Himg.
  destruct (init_memory_ok _ _ _ _ Hsys (s_mem s) Ht Hr Hi) as (m3 & E3 & [G _] & _).
  rewrite high_level_init_memory, E3 in E. cbn [rbind] in E.
  destruct (scheduler_init_spec img (with_mem m3 s) Himg) as (s' & Es & _ & Htm & Hns & _);
    [intros p Hp; apply G, Ht, Hp|apply G, Hi|]. rewrite E in Es. injection Es as <-.
  split; [|split; [done|]].
  2:{ destruct (init_refines img (with_mem m3 s) s1 Himg) as (d0 & H1 & H2); [|by apply G|done|by eauto].
      intros p Hp. by apply G, Ht. }
  intros i t Hit. destruct (init_memory_tasks _ _ E3 i t Hit) as (x0 & x & Hx0 & Hx & Hhw).
  specialize (Hns (t_context t)). cbn [with_mem s_mem] in Hns. rewrite Hx in Hns.
  destruct (s_mem s1 !! t_context t) as [x1|] eqn:Hx1; [|done]. injection Hns as Eh _ _.
  exists x0, (strip_next x1). rewrite erase_lookup, Hx1. by rewrite <-Hhw, <-Eh.
Qed.

Lemma boot_sim k r :
  kernel_tables syms (k_ll k) -> term_ok (k_term k) -> k_idx_reserve k = 10 ->
  (forall p, p ∈ t_context <$> tasks img -> is_Some (k_mem k !! p)) ->
  (forall i, (i < 10)%nat -> is_Some (k_mem k !! reserve img i)) ->
  is_Some (k_mem k !! context_idle img) -> clock_of (k_s k) = 0 -> boot cfg img k = Ok r ->
  exists a, model_boot k r.1 a /\ sim (outcome (inl r)) (MUser r.1 a).
Proof using Hsys.
  intros Htab Hterm Hidx Ht Hr Hi Hc E. pose proof (so_image _ _ _ _ Hsys) as Himg.
  destruct (boot_ok _ _ _ _ Hsys k Htab Hterm Hidx Ht Hr Hi) as (c' & k' & q' & E' & Hu & Hk').
  rewrite E in E'. injection E' as ->. unfold boot in E.
  apply rbind_ok in E as (s1 & E1 & E). apply rbind_ok in E as ([q s2] & E2 & E).
  apply rbind_ok in E as (t & _ & E).
  destruct (high_level_init_sim _ _ Ht Hr Hi E1) as (Hinit & Htm & m0 & d0 & Hm0 & Hp0 & Hr0).
  destruct (sched_choose_next_spec img s1 _ Himg (rep_inv _ _ _ _ _ Hr0)) as (q1 & s2' & E2' & _ & Hf).
  rewrite E2 in E2'. injection E2' as <- <-. destruct Hf as (Hm & _ & Hclk & _).
  destruct (choose_refines _ _ _ _ _ _ Himg Hr0 E2) as (d & Hp & Hr2 & Ha).
  destruct (switch_leaves k _ _ q c' k' q' d E Hu Hk' (rep_chosen _ _ _ _ Hr2)) as [-> Hl].
  { cbn. congruence. }
  destruct (switch_to_same _ _ _ _ E) as [Es Ei]. cbn [k_s set_s set_term k_idx_reserve] in Es, Ei.
  unfold k_mem in Hl. cbn [k_s set_s set_term] in Hl. rewrite (proj1 (erase_eq _ _) Hm) in Hl.
  exists (Model (erase (s_mem s1)) q d 0 (alarm_of (k_s k)) (k_idx_reserve k)). cbn [fst]. split.
  - split; cbn; [done|by exists m0, d0|apply Hl|done..].
  - rewrite <-Hc. apply (leaves_sim k _ _ _ _ _ _ _ Hl); [|done]. cbn [snd]. rewrite Es. congruence.
Qed.

(** _start leaves the kernel in a state of the model. *)
Lemma start_sim k0 r :
  boot_state cfg img k0 -> start cfg syms img MULTIBOOT_LOADER_MAGIC k0 = Ok r ->
  exists c k a, r = inl (c, k) /\ model_boot k0 c a /\ sim (UserMode c k) (MUser c a).
Proof using Hsys.
  intros Hb E. destruct (start_ok _ _ _ _ Hsys k0 Hb) as (c & k & p & E' & _).
  rewrite E in E'. injection E' as ->. unfold start, low_level_init in E.
  destruct (terminal_start_ok _ _ k0 Hb) as (t & Et & Hterm). rewrite Et in E. cbn [rbind] in E.
  rewrite Z.eqb_refl in E. cbn [rbind] in E. destruct Hb as [Ht Hr Hi Hidx Hidt Hbuf _].
  destruct (low_level_tables_ok syms img (s_timer (k_s k0)) (k_ll k0)) as (l' & El & Htab & _);
    [apply Hsys|done|]. rewrite El in E. cbn [rbind catch] in E.
  apply catch_cases in E as [(x & E & [= <-])|(e & t' & _ & [=])].
  apply boot_sim in E as (a & [H1 H2 H3 H4 H5 H6] & Hs); try done.
  exists c, k, a. split; [done|]. split; [by split|done].
Qed.

(** *** The clock *)

Lemma mstep_clock e c (a : model D) c' (a' : model D) :
  mstep cfg syms img e (MUser c a) (MUser c' a') ->
  m_now a' = if e is ETimer then u64 (m_now a + ACTUAL_TICK) else m_now a.
Proof using Type. by inversion 1. Qed.

Lemma run_clock es c (a : model D) c' (a' : model D) z :
  run (mstep cfg syms img) es (MUser c a) (MUser c' a') -> m_now a = u64 z ->
  m_now a' = u64 (z + Z.of_nat (timer_events es) * ACTUAL_TICK).
Proof using Type.
  intros Hrun. remember (MUser c a) as st eqn:Est. remember (MUser c' a') as st' eqn:Est'.
  revert c a z Est. induction Hrun as [st|e es st1 st2 st3 Hm Hrun IH]; intros c a z Est Ez.
  { rewrite Est in Est'. injection Est' as _ <-. cbn. by rewrite Z.add_0_r. }
  subst st1. destruct st2 as [c2 a2|].
  2:{ rewrite Est' in Hrun. inversion Hrun; subst. by rename select (mstep _ _ _ _ MHalted _) into Hbad; inversion Hbad. }
  apply mstep_clock in Hm. rewrite (IH Est' c2 a2 (if e is ETimer then z + ACTUAL_TICK else z) eq_refl).
  - destruct e; cbn [timer_events]; [done|done| |done]. f_equal. lia.
  - rewrite Hm. destruct e; [done|done| |done]. by rewrite Ez, wrap_add_l.
Qed.

(** The clock of the machine since _start. *)
Lemma clock_since_start k0 c k es c' k' :
  boot_state cfg img k0 -> start cfg syms img MULTIBOOT_LOADER_MAGIC k0 = Ok (inl (c, k)) ->
  run (estep cfg syms img) es (UserMode c k) (UserMode c' k') ->
  clock_of (k_s k') = u64 (Z.of_nat (timer_events es) * ACTUAL_TICK).
Proof using Hsys HR.
  intros Hb E Hrun. destruct (start_sim k0 _ Hb E) as (c1 & k1 & a & [= <- <-] & Hboot & Hs).
  destruct (sim_run es _ _ _ Hs Hrun) as ([c2 a2|] & Hm & Hag & _); [|done].
  destruct Hag as (-> & _ & _ & <- & _). rewrite (run_clock es c a c' a2 0 Hm); [done|].
  by rewrite (mb_now _ _ _ Hboot).
Qed.
End Simulation.
