(* ===== verification/Isolation.v ===== *)
(** * A task is not disturbed by the others

    While another context runs, the saved context of a task does not change, and
    when the task runs again it has the registers it had when it was switched
    out.  The frame of each step is read off the model of Model.v, where it is
    immediate; the simulation carries it to the machine. *)

From stdpp Require Import options.
From S2P Require Import Prelude Contexts PQueue Timer Scheduler Policies Fprint Terminal.
From S2P Require Import Segment LowLevel HighLevel Kernel Model.

(** Context [p] is the one that runs. *)
Definition running {St : Type} (st : mstate (St := St)) (p : cptr) : Prop :=
  match st with
  | UserMode _ k => exists off, esp0 (ll_tss (k_ll k)) = Some (p, off)
  | Halted _ => False
  end.

(** Steps of the machine while [p] does not run. *)
Definition away_step (cfg : config) (syms : symbols) (img : user_tasks_image) {St : Type}
    `{Scheduler St} (p : cptr) (st st' : mstate (St := St)) : Prop :=
  step cfg syms img st st' /\ ~ running st p.

(** The registers with which a task that was interrupted with [c] continues: the
    data segment register is reloaded with the selector of the stack. *)
Definition resumed (c : cpu) : cpu :=
  Cpu (c_edi c) (c_esi c) (c_ebp c) (c_ebx c) (c_edx c) (c_ecx c) (c_eax c) (c_eip c)
    (c_cs c) (c_flags c) (c_esp c) (c_ss c) (c_ss c).

(** ** Frames of the model *)

Section Frames.
Context (cfg : config) (syms : symbols) (img : user_tasks_image) {D : Type} `{!Policy D}.
Implicit Types (a : model D) (c : cpu) (q : cptr).

(** [q] is not one of the free contexts of the reserve. *)
Definition in_use q (free : Z) : Prop := forall i, Z.of_nat i < free -> q <> reserve img i.

Lemma suspend_other c a q : q <> m_current a -> suspend syms c a !! q = m_contexts a !! q.
Proof using Type. intros Hq. by apply lookup_alter_ne. Qed.

(** Contexts in use stay in use. *)
Lemma mstep_in_use e c a c' a' q :
  mstep cfg syms img e (MUser c a) (MUser c' a') -> in_use q (m_free a) -> in_use q (m_free a').
Proof using Type. intros Hs Hu. inversion Hs; subst; try done. intros i Hi. apply Hu. cbn in Hi. lia. Qed.

(** A step writes the running context, and the child of a fork. *)
Lemma mstep_frame e c a c' a' q :
  mstep cfg syms img e (MUser c a) (MUser c' a') -> 0 <= m_free a ->
  q <> m_current a -> in_use q (m_free a) -> m_contexts a' !! q = m_contexts a !! q.
Proof using Type.
  intros Hs Hf Hq Hu. inversion Hs; subst; cbn; try by rewrite ?suspend_other.
  - subst cs. by rewrite lookup_alter_ne, suspend_other by done.
  - assert (q <> child0) as Hne by (apply Hu; lia).
    subst cs. by rewrite !lookup_insert_ne, suspend_other by done.
Qed.

(** A step that switches to another context has stored the registers. *)
Lemma mstep_saved e c a c' a' ctx :
  mstep cfg syms img e (MUser c a) (MUser c' a') -> m_current a' <> m_current a ->
  m_contexts a !! m_current a = Some ctx ->
  exists ctx', m_contexts a' !! m_current a = Some ctx' /\
    hw ctx' = saved syms (m_current a) c (hw ctx).
Proof using Type.
  intros Hs Hne Hc.
  assert (suspend syms c a !! m_current a
      = Some (set_hw (saved syms (m_current a) c (hw ctx)) ctx)) as Hsus.
  { unfold suspend. by rewrite lookup_alter_eq, Hc. }
  inversion Hs; subst; cbn in *; try done; try by eauto.
  subst cs. rewrite lookup_alter_eq, Hsus. eexists. split; [done|].
  unfold yield_dates. by destruct (edf cfg).
Qed.

(** A step that switches to another context loads its registers. *)
Lemma mstep_resume e c a c' a' :
  mstep cfg syms img e (MUser c a) (MUser c' a') -> m_current a' <> m_current a ->
  resume (m_contexts a') (m_current a') c'.
Proof using Type. intros Hs Hne. by inversion Hs; subst. Qed.

(** What a fork does, when it is not refused. *)
Lemma mstep_fork c a ast ctx :
  mstep cfg syms img (EInt SYSCALL_INTNUM) (MUser c a) ast -> c_ebx c = 2 -> cfg_dynamic cfg = true ->
  m_free a <> 0 -> m_contexts a !! m_current a = Some ctx -> u32 (range ctx) <> 0 ->
  let ctx1 := set_hw (saved syms (m_current a) c (hw ctx)) ctx in
  let child := reserve img (Z.to_nat (m_free a - 1)) in
  exists c' a', ast = MUser c' a' /\ m_current a' = m_current a /\ m_free a' = m_free a - 1 /\
    m_contexts a' = <[child := returning 0 ctx1]> (<[m_current a := returning 1 ctx1]> (suspend syms c a)) /\
    resume (m_contexts a') (m_current a) c'.
Proof using Type.
  intros Hm Hb Hd Hf Hctx Hrange ctx1 child.
  assert (suspend syms c a !! m_current a = Some ctx1) as Hsus.
  { unfold suspend. by rewrite lookup_alter_eq, Hctx. }
  inversion Hm; subst; try congruence.
  - match goal with H : _ \/ _ |- _ => destruct H; lia end.
  - match goal with H : suspend _ _ _ !! _ = Some ?x |- _ => assert (x = ctx1) as -> by congruence end.
    by eexists _, _.
  - exfalso. match goal with H : stops _ _ _ _ _ |- _ => destruct H as (_ & _ & _ & _ & Hstop) end.
    destruct (Hstop eq_refl) as [[? _]|[(_ & [?|[?|(x & Hx & ?)]])|Hge]]; try congruence.
    rewrite Hb in Hge. by apply Hge.
Qed.
End Frames.

(** ** The machine *)

Section Isolation.
Context (cfg : config) (syms : symbols) (img : user_tasks_image) (kernel_end : Z).
Context {St D : Type} `{HR : Refines St D}.
Context (Hsys : system_ok cfg syms img kernel_end).
Local Abbreviation kst := (kstate St).
Local Abbreviation sim := (sim syms img kernel_end).
Implicit Types (k : kst) (c : cpu) (p q : cptr) (a : model D).

Lemma reachable_sim (k0 : kst) st :
  boot_state cfg img k0 -> reachable cfg syms img k0 st -> exists ast : mconfig D, sim st ast.
Proof using Hsys HR.
  intros Hb (r & E & Hrtc). destruct (start_sim _ _ _ _ Hsys k0 r Hb E) as (c & k & a & -> & _ & Hs).
  apply rtc_run in Hrtc as [es Hrun].
  destruct (sim_run _ _ _ _ Hsys es _ _ _ Hs Hrun) as (ast & _ & Hs'). eauto.
Qed.

Lemma sim_running st c a p : sim st (MUser c a) -> running st p <-> m_current a = p.
Proof using Type.
  intros [Hag _]. destruct st as [c' k|]; [|done]. destruct Hag as (_ & He & _). cbn.
  rewrite He. split; [by intros [off [= ->]]|intros ->; eauto].
Qed.

Lemma sim_free st c a : sim st (MUser c a) -> 0 <= m_free a /\ in_use img (m_current a) (m_free a).
Proof using Type.
  intros [Hag Hs]. destruct st as [c' k|]; [|done]. destruct Hag as (_ & _ & _ & _ & _ & ->).
  destruct Hs as (_ & live & Hi & _).
  destruct (km_reserve _ _ _ _ _ _ (ki_mid _ _ _ _ _ _ Hi)) as [Hr Hfree _]. split; [lia|].
  intros i Hlt Heq. destruct (Hfree i Hlt) as (H1 & H2 & _).
  pose proof (ki_known _ _ _ _ _ _ Hi) as Hp. rewrite Heq in Hp. by apply elem_of_cons in Hp as [?|?].
Qed.

(** What is known of [q] while it does not run: its context is [ctx]. *)
Definition kept q (ctx : context) (st : mstate (St := St)) : Prop :=
  exists c a, sim st (MUser c a) /\ m_current a <> q /\ in_use img q (m_free a) /\
    m_contexts a !! q = Some ctx.

(** One step while [q] does not run. *)
Lemma kept_step q ctx st c' k' :
  kept q ctx st -> step cfg syms img st (UserMode c' k') ->
  erase (k_mem k') !! q = Some ctx /\
  (~ running (UserMode c' k') q -> kept q ctx (UserMode c' k')) /\
  (running (UserMode c' k') q -> c' = restore (hw ctx) (ss (iframe (hw ctx)))).
Proof using Hsys.
  intros (c & a & Hs & Hq & Hu & Hc) (e & He)%step_event.
  destruct (sim_step _ _ _ _ Hsys _ _ _ _ Hs He) as ([c1 a'|] & Hm & Hs'); [|by destruct Hs' as [[] _]].
  destruct (sim_free _ _ _ Hs) as [Hf _].
  pose proof (mstep_in_use _ _ _ _ _ _ _ _ q Hm Hu) as Hu'.
  pose proof (mstep_frame _ _ _ _ _ _ _ _ q Hm Hf (not_eq_sym Hq) Hu) as Hc'. rewrite Hc in Hc'.
  pose proof Hs' as [(-> & _ & Ecs & _) _]. split; [by rewrite <-Ecs|].
  rewrite (sim_running _ _ _ _ Hs'). split.
  - intros Hne. exists c', a'. done.
  - intros <-. destruct (mstep_resume _ _ _ _ _ _ _ _ Hm) as (x & Hx & ->); [done|]. congruence.
Qed.

Lemma kept_run q ctx st st' :
  kept q ctx st -> rtc (away_step cfg syms img q) st st' -> ~ running st' q ->
  (exists t, st' = Halted t) \/ kept q ctx st'.
Proof using Hsys.
  intros Hk. revert st'. apply (rtc_ind_r (fun z => ~ running z q -> (exists t, z = Halted t) \/ kept q ctx z));
    [by right|]. intros y z _ [Hs Hy] IH Hz.
  destruct (IH Hy) as [[t ->]|Hk']; [inversion Hs|].
  destruct z as [c' k'|t]; [|eauto]. right. by apply (kept_step q ctx y c' k').
Qed.

(** The registers with which [q] runs when it runs at last. *)
Lemma kept_until_runs q ctx st c' k' :
  kept q ctx st -> rtc (away_step cfg syms img q) st (UserMode c' k') -> running (UserMode c' k') q ->
  c' = restore (hw ctx) (ss (iframe (hw ctx))).
Proof using Hsys.
  intros Hk Hrun Hr. apply rtc_inv_r in Hrun as [->|(y & Hrun & Hy & Hny)].
  - destruct Hk as (c & a & Hs & Hne & _). by apply (sim_running _ _ _ _ Hs) in Hr.
  - destruct (kept_run _ _ _ _ Hk Hrun Hny) as [[t ->]|Hky]; [inversion Hy|].
    destruct (kept_step _ _ _ _ _ Hky Hy) as (_ & _ & Hreg). by apply Hreg.
Qed.

(** The task is switched out by a step, then runs again. *)
Lemma switched_out_and_back c k p st1 c' k' a :
  sim (UserMode c k) (MUser c a) -> m_current a = p ->
  step cfg syms img (UserMode c k) st1 -> ~ running st1 p ->
  rtc (away_step cfg syms img p) st1 (UserMode c' k') -> running (UserMode c' k') p ->
  c' = resumed c.
Proof using Hsys.
  intros Hs <- (e & He)%step_event Hst1 Hrun Hr.
  destruct (sim_step _ _ _ _ Hsys _ _ _ _ Hs He) as ([c1 a1|] & Hm & Hs1).
  2:{ exfalso. destruct st1; [by destruct Hs1 as [[] _]|].
      apply rtc_inv in Hrun as [E|(z & [Hz _] & _)]; [done|inversion Hz]. }
  assert (m_current a1 <> m_current a) as Hne by (by rewrite (sim_running _ _ _ _ Hs1) in Hst1).
  pose proof Hs as [(_ & _ & Ecs & _) (_ & live & Hi & _)].
  destruct (km_contexts _ _ _ _ _ _ (ki_mid _ _ _ _ _ _ Hi) _ (ki_known _ _ _ _ _ _ Hi)) as (x & Hx & _).
  destruct (mstep_saved _ _ _ _ _ _ _ _ (strip_next x) Hm Hne) as (ctx & Hctx & Hhw).
  { by rewrite Ecs, erase_lookup, Hx. }
  rewrite (kept_until_runs (m_current a) ctx st1 c' k'), Hhw; [done|..|done|done].
  exists c1, a1. do 2 (split; [done|]). split; [|done].
  eapply mstep_in_use; [exact Hm|]. by apply (sim_free _ _ _ Hs).
Qed.

(** *** The first run of a task *)

Lemma first_run (k0 : kst) c k i t c' k' :
  boot_state cfg img k0 -> start cfg syms img MULTIBOOT_LOADER_MAGIC k0 = Ok (inl (c, k)) ->
  tasks img !! i = Some t -> rtc (away_step cfg syms img (t_context t)) (UserMode c k) (UserMode c' k') ->
  running (UserMode c' k') (t_context t) ->
  exists h, c' = restore (initial_hw cfg i t h) (ss (iframe (initial_hw cfg i t h))).
Proof using Hsys HR.
  intros Hb E Hit Hrun Hr. destruct (start_sim _ _ _ _ Hsys k0 _ Hb E) as (c1 & k1 & a & [= <- <-] & Hboot & Hs).
  destruct (mb_tasks _ _ _ _ _ Hboot i t Hit) as (x0 & x & _ & Hx & Hhw). exists (hw x0). rewrite <-Hhw.
  destruct (decide (m_current a = t_context t)) as [Hcur|Hne].
  - assert (UserMode c k = UserMode c' k') as [= <- <-].
    { apply rtc_inv in Hrun as [E'|(z & [_ Hz] & _)]; [done|]. by apply (sim_running _ _ _ _ Hs) in Hcur. }
    destruct (mb_resume _ _ _ _ _ Hboot) as (y & Hy & ->). congruence.
  - apply (kept_until_runs (t_context t) x (UserMode c k) c' k'); try done.
    exists c, a. do 2 (split; [done|]). split; [|done]. rewrite (mb_free _ _ _ _ _ Hboot), (bs_idx _ _ _ Hb).
    intros j Hj Heq. apply (so_reserve_tasks _ _ _ _ Hsys j); [lia|]. rewrite <-Heq.
    apply list_elem_of_fmap_2. by eapply list_elem_of_lookup_2.
Qed.

(** *** The child of dup_thread *)

(** The registers of the parent when dup_thread returns, and of the child when it
    runs for the first time. *)
Lemma fork_registers c k a r ctx :
  sim (UserMode c k) (MUser c a) -> m_current a <> context_idle img -> cfg_dynamic cfg = true ->
  c_ebx c = 2 -> m_free a <> 0 -> m_contexts a !! m_current a = Some ctx -> u32 (range ctx) <> 0 ->
  software_interrupt cfg syms img SYSCALL_INTNUM c k = Ok r ->
  let ctx1 := set_hw (saved syms (m_current a) c (hw ctx)) ctx in
  let child := reserve img (Z.to_nat (m_free a - 1)) in
  exists c1 k1, r = inl (c1, k1) /\ c1 = restore (hw (returning 1 ctx1)) (c_ss c) /\
    kept child (returning 0 ctx1) (UserMode c1 k1).
Proof using Hsys.
  intros Hs Hni Hd Hb Hf Hctx Hrange E ctx1 child.
  pose proof Hs as [(_ & He & _ & _ & _ & Ef) (Hu & live & Hi & _)].
  assert (estep cfg syms img (EInt SYSCALL_INTNUM) (UserMode c k) (outcome r)) as Hstep.
  { eapply e_int; [by vm_compute|exact He|done|by rewrite Hb|exact E]. }
  destruct (sim_step _ _ _ _ Hsys _ _ _ _ Hs Hstep) as (ast & Hm & Hs').
  destruct (mstep_fork _ _ _ c a ast ctx Hm Hb Hd Hf Hctx Hrange)
    as (c1 & a1 & -> & Ecur & Efree & Ecs & x & Hx & ->). fold ctx1 child in Ecs.
  destruct r as [[c1 k1]|t]; [|by destruct Hs' as [[] _]]. pose proof Hs' as [[E1 _] _]. subst c1.
  destruct (sim_free _ _ _ Hs) as [Hpos Huse].
  assert (m_current a <> child) as Hne by (apply Huse; lia).
  eexists _, k1. split; [done|]. split.
  - rewrite Ecs, lookup_insert_ne, lookup_insert_eq in Hx by done. by injection Hx as <-.
  - eexists _, a1. split; [exact Hs'|]. rewrite Ecur, Efree, Ecs. split; [done|].
    split; [|apply lookup_insert_eq]. intros i Hlt Heq. unfold child in Heq.
    pose proof (ri_range _ _ _ _ (km_reserve _ _ _ _ _ _ (ki_mid _ _ _ _ _ _ Hi))) as Hr.
    pose proof (so_reserve_distinct _ _ _ _ Hsys) as Hnd.
    assert (i = Z.to_nat (m_free a - 1)); [|lia].
    eapply (NoDup_lookup _ _ _ (reserve img i) Hnd); rewrite list_lookup_fmap, lookup_seq_lt by lia; [done|].
    cbn. by rewrite Heq.
Qed.
End Isolation.
