(* ===== verification/Rounds.v ===== *)
(** * Round robin, seen from the machine

    With the round-robin scheduler the threads take turns: a thread keeps the
    processor until it yields, whatever the timer does, and the yields pass the
    processor along a circle that holds every thread once. *)

From stdpp Require Import options.
From S2P Require Import Prelude Contexts PQueue Timer Scheduler RoundRobin Policies Fprint Terminal.
From S2P Require Import Segment LowLevel HighLevel Kernel Model Isolation.

(** ** Circular shifts *)

(** [l'] is [l] shifted by [n]. *)
Definition shifted (n : nat) (l l' : list cptr) : Prop :=
  length l' = length l /\
  forall i, (i < length l)%nat -> l' !! i = l !! ((i + n) mod length l)%nat.

Lemma shifted_refl l : shifted 0 l l.
Proof. split; [done|]. intros i Hi. by rewrite Nat.add_0_r, Nat.mod_small. Qed.

Lemma shifted_step n l c t : shifted n l (c :: t) -> shifted (S n) l (t ++ [c]).
Proof.
  intros [Hlen Hl]. split; [by rewrite length_app, Nat.add_1_r|]. intros i Hi. cbn in Hlen.
  assert ((t ++ [c]) !! i = (c :: t) !! ((i + 1) mod length l)%nat) as ->.
  { destruct (decide (i = length t)) as [->|Hne].
    - replace (length t + 1)%nat with (length l) by lia.
      rewrite Nat.Div0.mod_same, lookup_app_r, Nat.sub_diag by lia. done.
    - rewrite Nat.mod_small, lookup_app_l, Nat.add_1_r by lia. done. }
  rewrite Hl by (apply Nat.mod_upper_bound; lia).
  rewrite Nat.Div0.add_mod_idemp_l. do 2 f_equal. lia.
Qed.

(** ** Turns *)

Section Turns.
Context (cfg : config) (syms : symbols) (img : user_tasks_image) (kernel_end : Z).
Local Abbreviation mst := (mstate (St := rr_sched)).
Local Abbreviation est := (estep cfg syms img).
Implicit Types (a : model (list cptr)) (k : kstate rr_sched) (c : cpu).

(** Runs with [n] yields and without dup_thread. *)
Inductive turns : nat -> mst -> mst -> Prop :=
  | turns_nil st : turns 0 st st
  | turns_yield n c k st st' :
      c_ebx c = 0 -> est (EInt SYSCALL_INTNUM) (UserMode c k) st -> turns n st st' ->
      turns (S n) (UserMode c k) st'
  | turns_other n e c k st st' :
      (e = EInt SYSCALL_INTNUM -> c_ebx c <> 0 /\ c_ebx c <> 2) ->
      est e (UserMode c k) st -> turns n st st' -> turns n (UserMode c k) st'.

Lemma sim_first c k c' a :
  sim syms img kernel_end (UserMode c k) (MUser c' a) ->
  m_current a <> context_idle img /\ exists t, m_data a = m_current a :: t.
Proof using Type.
  intros (_ & _ & live & Hi & Hr). cbn [rep round_robin_refines] in Hr.
  unfold running_phase, context_is_idle in Hr. case_bool_decide as Hid.
  - by destruct Hr as ((_ & _ & _ & []) & _).
  - split; [done|]. by eapply rr_rep_running.
Qed.

Lemma mstep_turn e c a c' a' t :
  m_current a <> context_idle img -> m_data a = m_current a :: t ->
  mstep cfg syms img e (MUser c a) (MUser c' a') ->
  e = EInt SYSCALL_INTNUM /\ c_ebx c = 0 /\ m_data a' = t ++ [m_current a] \/
  e = EInt SYSCALL_INTNUM /\ c_ebx c = 2 \/
  (e = EInt SYSCALL_INTNUM -> c_ebx c <> 0) /\ m_data a' = m_data a.
Proof using Type.
  intros Hni Hd Hm. inversion Hm; subst; cbn.
  - right. by right.
  - left. rename select (pol_wait _ _ _ _ _ _) into Hw. rename select (pol_choose _ _ _ _ _) into Hc.
    destruct Hw as [-> _], Hc as (x & y & Hl & -> & _). rewrite Hd in Hl. injection Hl as <- <-. done.
  - right. right. split; [lia|done].
  - right. by left.
  - right. by right.
  - rename select (pol_wake _ _ _ _) into Hw. rename select (pol_preempt _ _ _ _ _) into Hp.
    destruct Hp as [_ ->]. rewrite Hw. right. by right.
  - done.
Qed.

Context (Hsys : system_ok cfg syms img kernel_end).

(** The list of the model turns with the yields. *)
Lemma turns_sim l n m c k c' k' a :
  turns n (UserMode c k) (UserMode c' k') -> sim syms img kernel_end (UserMode c k) (MUser c a) ->
  shifted m l (m_data a) ->
  exists a', sim syms img kernel_end (UserMode c' k') (MUser c' a') /\ shifted (m + n) l (m_data a').
Proof using Hsys.
  intros Ht. remember (UserMode c k) as st eqn:Est. remember (UserMode c' k') as st' eqn:Est'.
  revert m c k a Est. induction Ht as [st|n c1 k1 st st' Hb He Ht IH|n e c1 k1 st st' Hb He Ht IH];
    intros m c k a Est Hs Hl.
  { rewrite Est in Est'. injection Est' as <- <-. exists a. by rewrite Nat.add_0_r. }
  all: injection Est as -> ->; destruct (sim_first _ _ _ _ Hs) as [Hni [t Et]].
  all: destruct (sim_step _ _ _ _ Hsys _ _ _ _ Hs He) as ([c2 a2|] & Hm & Hs2);
    [|destruct st; [by destruct Hs2 as [[] _]|]; inversion Ht; congruence].
  all: destruct st as [c3 k3|]; [|by destruct Hs2 as [[] _]]; pose proof Hs2 as [(-> & _) _].
  all: destruct (mstep_turn _ _ _ _ _ _ Hni Et Hm) as [(Ee & Eb & Ed)|[[Ee Eb]|[Eb Ed]]].
  - rewrite Et in Hl. apply shifted_step in Hl. rewrite <-Ed in Hl. rewrite Nat.add_succ_r.
    exact (IH Est' (S m) _ _ a2 eq_refl Hs2 Hl).
  - lia.
  - by destruct Eb.
  - by destruct (Hb Ee).
  - by destruct (Hb Ee).
  - rewrite <-Ed in Hl. exact (IH Est' m _ _ a2 eq_refl Hs2 Hl).
Qed.

(** From any reachable state the yields run through the threads in a fixed order. *)
Lemma turns_in_order k0 k c :
  boot_state cfg img k0 -> reachable cfg syms img k0 (UserMode c k) ->
  exists l, l ≡ₚ threads img (k_idx_reserve k) /\
    forall n c' k', turns n (UserMode c k) (UserMode c' k') ->
      exists p, l !! (n mod length l)%nat = Some p /\ running (UserMode c' k') p.
Proof using Hsys.
  intros Hb Hr. destruct (reachable_sim (D := list cptr) _ _ _ _ Hsys _ _ Hb Hr) as ([c1 a|] & Hs);
    [|by destruct Hs as [[] _]].
  pose proof Hs as [(-> & _) (_ & live & Hi & _ & Hl & _)]. exists (m_data a). split.
  { rewrite <-Hl. by rewrite (ri_live _ _ _ _ (km_reserve _ _ _ _ _ _ (ki_mid _ _ _ _ _ _ Hi))). }
  intros n c' k' Ht. destruct (turns_sim (m_data a) n 0 c k c' k' a Ht Hs (shifted_refl _))
    as (a' & Hs' & Hlen & Hat).
  destruct (sim_first _ _ _ _ Hs') as [_ [t Et]]. exists (m_current a'). rewrite Et in Hlen, Hat.
  split; [symmetry; apply (Hat 0%nat); rewrite <-Hlen; cbn; lia|]. by apply (sim_running _ _ _ _ _ _ _ Hs').
Qed.
End Turns.
