(* ===== verification/Timing.v ===== *)
(** * Time: dates and activations

    The wakeup date of a task is the sum of the durations it has yielded for,
    whatever happens in between: a periodic task does not drift.  With a priority
    scheduler a task that runs is at or past its wakeup date, so no activation is
    early.  Both are read off the model of Model.v. *)

From stdpp Require Import options.
From S2P Require Import Prelude Contexts PQueue Timer Scheduler PriorityScheduler Policies.
From S2P Require Import Fprint Terminal Segment LowLevel HighLevel Kernel Model Isolation.

(** ** Requests *)

(** The duration of a yield, as the kernel reads it in the registers. *)
Definition duration (c : cpu) : Z := u64 (u64 (Z.shiftl (c_edx c) 32) + c_ecx c).

(** What [p] asks for when event [e] happens in state [st]. *)
Definition asked {St : Type} (p : cptr) (e : event) (st : mstate (St := St)) : Z :=
  match e, st with
  | EInt n, UserMode c k =>
      if bool_decide (n = SYSCALL_INTNUM /\ c_ebx c = 0 /\ fst <$> esp0 (ll_tss (k_ll k)) = Some p)
      then duration c else 0
  | _, _ => 0
  end.

Section Asks.
Context (cfg : config) (syms : symbols) (img : user_tasks_image) {St : Type} `{Scheduler St}.

(** Runs of the machine in which the yields of [p] add up to [z]. *)
Inductive asks (p : cptr) : list event -> Z -> mstate (St := St) -> mstate (St := St) -> Prop :=
  | asks_nil st : asks p [] 0 st st
  | asks_cons e es z st1 st2 st3 :
      estep cfg syms img e st1 st2 -> asks p es z st2 st3 ->
      asks p (e :: es) (asked p e st1 + z) st1 st3.

Lemma asks_run p es z st st' : asks p es z st st' -> run (estep cfg syms img) es st st'.
Proof using Type. induction 1; by econstructor. Qed.

Lemma run_asks p es st st' : run (estep cfg syms img) es st st' -> exists z, asks p es z st st'.
Proof using Type.
  induction 1 as [st|e es st1 st2 st3 He _ [z IH]]; [exists 0; constructor|].
  exists (asked p e st1 + z). by econstructor.
Qed.

Lemma asked_nonneg p e (st : mstate (St := St)) : 0 <= asked p e st.
Proof using Type.
  destruct e as [c0|n| |n], st as [c k|]; cbn; try done. case_bool_decide; [|done].
  unfold duration. apply (wrap_range 64). lia.
Qed.

Lemma asks_nonneg p es z st st' : asks p es z st st' -> 0 <= z.
Proof using Type.
  induction 1 as [|e es z st1 st2 st3 _ _ IH]; [done|]. pose proof (asked_nonneg p e st1). lia.
Qed.
End Asks.

(** ** Dates of the model *)

Lemma wakeup_of_alter f p m q :
  (forall c, wakeup_date (sched (f c)) = wakeup_date (sched c)) ->
  wakeup_of (alter f p m) q = wakeup_of m q.
Proof.
  intros Hf. unfold wakeup_of, prio_of. destruct (decide (q = p)) as [->|Hne].
  - rewrite lookup_alter_eq. destruct (m !! p); [apply Hf|done].
  - by rewrite lookup_alter_ne.
Qed.

Section Dates.
Context (cfg : config) (syms : symbols) (img : user_tasks_image) {D : Type} `{!Policy D}.
Implicit Types (a : model D) (c : cpu) (q : cptr).

Lemma suspend_date c a q : wakeup_of (suspend syms c a) q = wakeup_of (m_contexts a) q.
Proof using Type. by apply wakeup_of_alter. Qed.

(** The date of the context that yields. *)
Lemma yield_date c a ctx :
  m_contexts a !! m_current a = Some ctx ->
  wakeup_of (alter (yield_dates cfg (c_edx c) (c_ecx c) (c_esi c) (c_edi c)) (m_current a) (suspend syms c a))
    (m_current a) = u64 (wakeup_of (m_contexts a) (m_current a) + duration c).
Proof using Type.
  intros Hc. unfold wakeup_of, prio_of, suspend.
  rewrite !lookup_alter_eq, Hc. cbn. unfold yield_dates. by destruct (edf cfg).
Qed.

Definition m_asked q (e : event) c a : Z :=
  match e with
  | EInt n => if bool_decide (n = SYSCALL_INTNUM /\ c_ebx c = 0 /\ m_current a = q)
              then duration c else 0
  | _ => 0
  end.

(** The date of a context that is in use changes when it yields, by what it asks. *)
Lemma mstep_date e c a c' a' q ctx z :
  mstep cfg syms img e (MUser c a) (MUser c' a') -> 0 <= m_free a -> in_use img q (m_free a) ->
  m_contexts a !! q = Some ctx -> wakeup_of (m_contexts a) q = u64 z ->
  wakeup_of (m_contexts a') q = u64 (z + m_asked q e c a).
Proof using Type.
  intros Hs Hf Hu Hc Hz.
  assert (m_asked q e c a = 0 -> wakeup_of (m_contexts a') q = wakeup_of (m_contexts a) q ->
    wakeup_of (m_contexts a') q = u64 (z + m_asked q e c a)) as Hnone
    by (intros -> ->; by rewrite Z.add_0_r).
  destruct (decide (q = m_current a)) as [->|Hne].
  2:{ apply Hnone.
      - unfold m_asked. destruct e; try done. by rewrite bool_decide_false by naive_solver.
      - unfold wakeup_of, prio_of. by rewrite (mstep_frame _ _ _ _ _ _ _ _ _ Hs Hf Hne Hu). }
  inversion Hs; subst; cbn [m_contexts] in *; try (apply Hnone; [done|by rewrite ?suspend_date]).
  - unfold cs, m_asked. rewrite bool_decide_true by done. rewrite (yield_date c a ctx Hc), Hz.
    apply wrap_add_l.
  - apply Hnone; [|by rewrite suspend_date]. cbn. rewrite bool_decide_false; [done|]. lia.
  - apply Hnone; [cbn; rewrite bool_decide_false; [done|lia]|].
    assert (m_current a <> child0) as Hne by (apply Hu; lia).
    rename select (suspend _ _ _ !! _ = Some _) into Hsus.
    rewrite <-(suspend_date c a (m_current a)). unfold wakeup_of, prio_of, cs.
    by rewrite lookup_insert_ne, lookup_insert_eq, Hsus by done.
Qed.
End Dates.

(** ** Activations *)

Section OnTime.
Context (cfg : config) (syms : symbols) (img : user_tasks_image) (fp : bool).
Implicit Types (a : model (pdata fp)) (c : cpu) (q : cptr).

(** The contexts that run or could run are due. *)
Definition on_time a : Prop :=
  (m_current a <> context_idle img -> wakeup_of (m_contexts a) (m_current a) <= m_now a) /\
  forall q, q ∈ p_ready (m_data a) -> wakeup_of (m_contexts a) q <= m_now a.

(** The choices of the policy. *)
Lemma choose_on_time idle m (d d' : pdata fp) p t :
  pp_choose fp idle m d p d' -> (forall q, q ∈ p_ready d -> wakeup_of m q <= t) ->
  (p <> idle -> wakeup_of m p <= t) /\ forall q, q ∈ p_ready d' -> wakeup_of m q <= t.
Proof using Type.
  unfold pp_choose. intros Hc Hr. destruct (decide _); [destruct Hc as [-> ->]; by split|].
  destruct Hc as [[Hp _] ->]. cbn. split; [auto|]. intros q Hq. apply Hr. set_solver.
Qed.

Lemma wake_on_time m t (d d' : pdata fp) :
  pp_wake fp m t d d' -> (forall q, q ∈ p_ready d -> wakeup_of m q <= t) ->
  forall q, q ∈ p_ready d' -> wakeup_of m q <= t.
Proof using Type.
  intros -> Hr q Hq. cbn in Hq. apply elem_of_union in Hq as [Hq|Hq]; [|auto]. by apply elem_of_filter in Hq as [? _].
Qed.

Lemma mstep_on_time e c a c' a' :
  mstep cfg syms img e (MUser c a) (MUser c' a') -> m_current a ∉ p_ready (m_data a) ->
  in_width 64 (m_now a) -> (e = ETimer -> m_now a + ACTUAL_TICK < 2 ^ 64) ->
  on_time a -> on_time a'.
Proof using Type.
  intros Hs Hout Hw Hnow [Hc Hr]. pose proof actual_tick_value as Htick. unfold in_width in Hw.
  assert (e = ETimer -> u64 (m_now a + ACTUAL_TICK) = m_now a + ACTUAL_TICK) as Hadd.
  { intros He. specialize (Hnow He). apply wrap_small. unfold in_width. lia. }
  assert (forall t, m_now a <= t -> (m_current a <> context_idle img -> wakeup_of (suspend syms c a) (m_current a) <= t) /\
    forall q, q ∈ p_ready (m_data a) -> wakeup_of (suspend syms c a) q <= t) as Hsus.
  { intros t Ht. split; [intros Hni; specialize (Hc Hni)|intros q Hq; specialize (Hr q Hq)];
      rewrite suspend_date; lia. }
  inversion Hs; subst; unfold on_time; cbn [m_contexts m_current m_data m_now] in *.
  - done.
  - rename select (pol_wait _ _ _ _ _ _) into Hwait. destruct Hwait as [-> _].
    rename select (pol_choose _ _ _ _ _) into Hch. eapply choose_on_time; [exact Hch|]. cbn. intros q Hq. unfold cs, wakeup_of, prio_of.
    rewrite lookup_alter_ne by (by intros <-). by apply (Hsus (m_now a)).
  - by apply Hsus.
  - rename select (pol_fork _ _ _ _) into Hf. cbn in Hf. subst d'. cbn [p_ready].
    rename select (suspend _ _ _ !! _ = Some _) into Hctx.
    assert (forall q, q = child0 \/ q = m_current a -> wakeup_of cs q <= m_now a) as Hnew.
    { intros q Hq. transitivity (wakeup_of (suspend syms c a) (m_current a));
        [|by apply (proj1 (Hsus (m_now a) (Z.le_refl _)))].
      unfold wakeup_of, prio_of, cs. rewrite Hctx, !lookup_insert.
      do 2 (case_decide; [done|]). destruct Hq; congruence. }
    split; [auto|]. intros q Hq. destruct (decide (q = child0)) as [|Hne1]; [auto|].
    destruct (decide (q = m_current a)) as [|Hne2]; [auto|].
    unfold wakeup_of, prio_of, cs. rewrite !lookup_insert_ne by congruence.
    apply (proj2 (Hsus (m_now a) (Z.le_refl _))). by apply elem_of_union in Hq as [?%elem_of_singleton|Hq].
  - apply Hsus. unfold now. rewrite Hadd by done. lia.
  - rename select (pol_wake _ _ _ _) into Hwk. rename select (pol_preempt _ _ _ _ _) into Hp.
    destruct (Hsus now) as [Hcur Hrd]; [unfold now; rewrite Hadd by done; lia|].
    pose proof (wake_on_time _ _ _ _ Hwk Hrd) as Hd1. destruct Hp as ([Hp _] & _ & ->). cbn.
    assert (forall q, q ∈ {[m_current a]} ∪ p_ready d1 -> wakeup_of (suspend syms c a) q <= now) as Hall.
    { intros q [->%elem_of_singleton|Hq]%elem_of_union; auto. }
    split; [intros _; by apply Hall|]. intros q [Hq _]%elem_of_difference. by apply Hall.
  - rename select (pol_wake _ _ _ _) into Hwk.
    destruct (Hsus now) as [_ Hrd]; [unfold now; rewrite Hadd by done; lia|].
    rename select (pol_choose _ _ _ _ _) into Hch. eapply choose_on_time; [exact Hch|]. exact (wake_on_time _ _ _ _ Hwk Hrd).
Qed.
End OnTime.

(** ** Dates at boot *)

Section BootDates.
Context (cfg : config) (img : user_tasks_image).

Lemma modify_date m p f m' q :
  modify m p f = Ok m' -> (forall c, wakeup_date (sched (f c)) = wakeup_date (sched c)) \/ q <> p ->
  wakeup_of m' q = wakeup_of m q.
Proof using Type.
  intros (c & Hc & ->)%modify_inv Hf. unfold wakeup_of, prio_of. rewrite lookup_insert.
  case_decide as Heq; [|done]. subst q. rewrite Hc. cbn. by destruct Hf as [Hf|?].
Qed.

Lemma context_init_date m p idx pc start fin m' q :
  context_init cfg m p idx pc start fin = Ok m' -> wakeup_of m' q = wakeup_of m q.
Proof using Type. intros E. eapply modify_date; [exact E|]. left. intros c. by destruct (cfg_dynamic cfg). Qed.

Lemma init_contexts_date n i m m' q :
  init_contexts cfg img n i m = Ok m' -> wakeup_of m' q = wakeup_of m q.
Proof using Type.
  revert i m. induction n as [|n IH]; intros i m E; cbn [init_contexts] in E; [by injection E as <-|].
  destruct (_ <=? _); [done|]. destruct (tasks img !! _); [|done].
  apply rbind_ok in E as (m1 & E1 & E). by rewrite (IH _ _ E), (context_init_date _ _ _ _ _ _ _ _ E1).
Qed.

Lemma init_reserve_date n i task0 m m' q :
  init_reserve_loop cfg img n i task0 m = Ok m' -> wakeup_of m' q = wakeup_of m q.
Proof using Type.
  revert i m. induction n as [|n IH]; intros i m E; cbn [init_reserve_loop] in E; [by injection E as <-|].
  apply rbind_ok in E as (m1 & E1 & E). apply rbind_ok in E as (m2 & E2 & E).
  rewrite (IH _ _ E), (modify_date _ _ _ _ _ E2); [by eapply context_init_date|].
  left. intros c. unfold set_next_if. by destruct (has_next cfg).
Qed.

Lemma init_memory_date m m' q :
  init_memory cfg img m = Ok m' -> q <> context_idle img -> wakeup_of m' q = wakeup_of m q.
Proof using Type.
  intros (m1 & E1 & (m2 & E2 & E3)%rbind_ok)%rbind_ok Hq. unfold init_reserve in E2.
  destruct (tasks img !! 0%nat); [|done]. cbn [init_idle NUM_CPUS] in E3.
  apply rbind_ok in E3 as (m3 & E3 & E4). apply rbind_ok in E4 as (m4 & E4 & [= <-]).
  rewrite (modify_date _ _ _ _ _ E4) by (by right).
  by rewrite (context_init_date _ _ _ _ _ _ _ _ E3), (init_reserve_date _ _ _ _ _ _ E2),
    (init_contexts_date _ _ _ _ _ E1).
Qed.

Lemma with_priorities_date fp ts m q : wakeup_of (with_priorities fp ts m) q = wakeup_of m q.
Proof using Type.
  unfold with_priorities. revert m. induction ts as [|t ts IH]; intros m; [done|]. cbn [foldl]. rewrite IH.
  destruct fp; [|done].
  by apply wakeup_of_alter.
Qed.

Lemma pp_init_date fp m m' (d : pdata fp) q : pp_init fp img m m' d -> wakeup_of m' q = wakeup_of m q.
Proof using Type.
  intros [-> _]. rewrite wakeup_of_erase, with_priorities_date. destruct fp; [|done].
  by apply wakeup_of_alter.
Qed.
End BootDates.

(** ** Runs of the machine *)

Section Runs.
Context (syms : symbols) (img : user_tasks_image) (kernel_end : Z).
Context {fp : bool} {Q : Type} `{!PQueue waiting_pf Q} `{!PQueue (ready_pf fp) Q}.
Context `{!PQueueSpec waiting_pf Q} `{!PQueueSpec (ready_pf fp) Q}.
Local Abbreviation kst := (kstate (priority_sched fp Q)).
Local Abbreviation sim := (sim syms img kernel_end).
Implicit Types (k : kst) (c : cpu) (a : model (pdata fp)) (p q : cptr).

Lemma sim_not_ready c k c' a : sim (UserMode c k) (MUser c' a) -> m_current a ∉ p_ready (m_data a).
Proof using Type.
  intros (_ & _ & live & _ & Hps & _ & Hph). rewrite <-elem_of_elements.
  unfold running_phase in Hph. destruct (context_is_idle img (m_current a)).
  - destruct Hph as (-> & _). apply not_elem_of_nil.
  - destruct Hph as [Hl _]. destruct Hps as (Hnd & _). rewrite Hl in Hnd.
    apply NoDup_cons in Hnd as [Hnd _]. set_solver.
Qed.

Lemma sim_asked c k c' a p e : sim (UserMode c k) (MUser c' a) -> asked p e (UserMode c k) = m_asked p e c a.
Proof using Type.
  intros [(_ & He & _) _]. destruct e as [c0|n| |n]; try done. cbn. rewrite He. cbn.
  rewrite (bool_decide_ext _ (n = SYSCALL_INTNUM /\ c_ebx c = 0 /\ m_current a = p)); [done|]. naive_solver.
Qed.

Context (cfg : config) (Hsys : system_ok cfg syms img kernel_end).

(** The context of a task is never in the reserve. *)
Lemma sim_task c k c' a p :
  sim (UserMode c k) (MUser c' a) -> p ∈ t_context <$> tasks img ->
  0 <= m_free a /\ in_use img p (m_free a) /\ is_Some (m_contexts a !! p).
Proof using Hsys.
  intros [(_ & _ & Ecs & _ & _ & ->) (_ & live & Hi & _)] Hp.
  pose proof (ki_mid _ _ _ _ _ _ Hi) as Hk. destruct (km_reserve _ _ _ _ _ _ Hk) as [Hr _ _ Hl].
  split; [lia|]. split.
  - intros i Hlt ->. by apply (so_reserve_tasks _ _ _ _ Hsys i); [lia|].
  - destruct (km_contexts _ _ _ _ _ _ Hk p) as (x & Hx & _).
    { rewrite Hl. unfold threads. rewrite elem_of_cons, elem_of_app. auto. }
    rewrite Ecs, erase_lookup, Hx. eauto.
Qed.

Lemma asks_dates p es z st st' :
  p ∈ t_context <$> tasks img -> asks cfg syms img p es z st st' ->
  forall c k a z0, st = UserMode c k -> sim st (MUser c a) -> on_time img fp a ->
  wakeup_of (m_contexts a) p = u64 z0 -> 0 <= m_now a ->
  m_now a + Z.of_nat (timer_events es) * ACTUAL_TICK < 2 ^ 64 ->
  forall c' k', st' = UserMode c' k' ->
  exists a', sim st' (MUser c' a') /\ on_time img fp a' /\
    wakeup_of (m_contexts a') p = u64 (z0 + z) /\
    m_now a' = m_now a + Z.of_nat (timer_events es) * ACTUAL_TICK.
Proof using Hsys.
  intros Hp. pose proof actual_tick_value as Htick.
  induction 1 as [st|e es z st1 st2 st3 He Hes IH]; intros c k a z0 -> Hs Hon Hz Hnow Hmax c' k' Est.
  { injection Est as <- <-. exists a. cbn. rewrite !Z.add_0_r. auto. }
  destruct (sim_task _ _ _ _ p Hs Hp) as (Hf & Hu & [ctx Hctx]).
  destruct (sim_step _ _ _ _ Hsys _ _ _ _ Hs He) as ([c2 a2|] & Hm & Hs2).
  2:{ destruct st2; [by destruct Hs2 as [[] _]|]. inversion Hes; subst; [done|].
      rename select (estep _ _ _ _ (Halted _) _) into Hbad. inversion Hbad. }
  destruct st2 as [c3 k3|]; [|by destruct Hs2 as [[] _]]. pose proof Hs2 as [(-> & _) _].
  pose proof (mstep_date _ _ _ _ _ _ _ _ p ctx z0 Hm Hf Hu Hctx Hz) as Hz2.
  pose proof (mstep_clock _ _ _ _ _ _ _ _ Hm) as Hclk.
  assert (m_now a2 + Z.of_nat (timer_events es) * ACTUAL_TICK
    = m_now a + Z.of_nat (timer_events (e :: es)) * ACTUAL_TICK /\ m_now a <= m_now a2) as [Hsum Hle].
  { rewrite Hclk. destruct e; cbn [timer_events] in *; [lia|lia| |lia].
    rewrite wrap_small by (unfold in_width; lia). lia. }
  assert (on_time img fp a2) as Hon2.
  { eapply mstep_on_time; [exact Hm|by eapply sim_not_ready| | |done]; [unfold in_width; lia|].
    intros ->. cbn [timer_events] in Hmax. lia. }
  destruct (IH c3 k3 a2 _ eq_refl Hs2 Hon2 Hz2) with c' k' as (a3 & H1 & H2 & H3 & H4); [lia|lia|done|].
  exists a3. split; [done|]. split; [done|]. rewrite H3, H4, Hsum. split; [|done].
  rewrite (sim_asked _ _ _ _ _ _ Hs). f_equal. lia.
Qed.

(** From _start, when the dates of the tasks are 0. *)
Lemma start_on_time k0 c k :
  boot_state cfg img k0 -> (forall p, p ∈ t_context <$> tasks img -> wakeup_of (k_mem k0) p = 0) ->
  start cfg syms img MULTIBOOT_LOADER_MAGIC k0 = Ok (inl (c, k)) ->
  exists a, sim (UserMode c k) (MUser c a) /\ on_time img fp a /\ m_now a = 0 /\
    forall p, p ∈ t_context <$> tasks img -> wakeup_of (m_contexts a) p = 0.
Proof using Hsys.
  intros Hb H0 E. destruct (start_sim _ _ _ _ Hsys k0 _ Hb E) as (c1 & k1 & a & [= <- <-] & Hboot & Hs).
  destruct Hboot as [_ (m & d0 & Hm & Hinit & Hc) _ Hn _ _].
  assert (forall p, p ∈ t_context <$> tasks img -> wakeup_of (m_contexts a) p = 0) as Hdates.
  { intros p Hp. rewrite (pp_init_date _ _ _ _ _ p Hinit), wakeup_of_erase,
      (init_memory_date _ _ _ _ p Hm); [auto|]. intros ->. by apply (img_not_idle _ (so_image _ _ _ _ Hsys)). }
  exists a. split; [done|]. split; [|done]. unfold on_time. rewrite Hn.
  eapply choose_on_time; [exact Hc|]. destruct Hinit as (_ & -> & _). cbn. intros q Hq.
  rewrite Hdates; [done|]. by apply elem_of_list_to_set in Hq.
Qed.
End Runs.
