(* ===== verification/Output.v ===== *)
(** * What the screen shows

    Every character printed from the boot on, by the kernel or by the tasks, is on
    the screen in the order of the events, and nothing else is: the terminal, the
    system calls, the timer handler and fatal put together. *)

From stdpp Require Import options.
From S2P Require Import Prelude Contexts PQueue Timer Scheduler Fprint Terminal.
From S2P Require Import Segment LowLevel HighLevel Kernel Typing Model.

(** ** Texts *)

(** The screen shows the end of text [l], and nothing else. *)
Definition displays (l : list Z) (t : terminal) : Prop :=
  shows (fold_left (paper_putchar (terminal_color t)) l (Paper [] [])) t.

Lemma displays_putchar l c t : displays l t -> on_ok (displays (l ++ [c])) (terminal_putchar c t).
Proof.
  intros Hl. destruct (terminal_putchar_ok _ _ c Hl) as (t' & -> & Hs & Hc). cbn.
  unfold displays. by rewrite fold_left_app, Hc.
Qed.

(** The screen shows [l] and more. *)
Definition displays_from (l : list Z) (t : terminal) : Prop := exists more, displays (l ++ more) t.

Lemma displays_from_refl l t : displays l t -> displays_from l t.
Proof. intros Hl. exists []. by rewrite app_nil_r. Qed.

Lemma displays_from_putchar l c t :
  displays_from l t -> on_ok (displays_from l) (terminal_putchar c t).
Proof.
  intros [more Hl]. pose proof (displays_putchar _ c _ Hl) as H. destruct (terminal_putchar c t); [|done].
  exists (more ++ [c]). by rewrite app_assoc.
Qed.

Lemma displays_put_chars l l' t : displays l t -> on_ok (displays (l ++ l')) (put_chars terminal_putchar l' t).
Proof.
  intros Hl. destruct (put_chars_terminal l' _ _ Hl) as (t' & -> & Hs & Hc). cbn.
  unfold displays. by rewrite fold_left_app, Hc.
Qed.

(** The message of fatal. *)
Lemma catch_displays {A} (P : A -> Prop) l t (m : res A) :
  displays_from l t -> on_ok P m ->
  on_ok (fun r => match r with inl a => P a | inr t' => displays_from l t' end) (catch t m).
Proof.
  intros Hl Hm. destruct m as [a|[format args| | |]]; cbn; try done. unfold fatal.
  eapply on_ok_bind; [apply (vfprint_keeps (displays_from l)); [|exact Hl]|done].
  intros c s. apply displays_from_putchar.
Qed.

(** ** Events *)

Section Events.
Context (cfg : config) (syms : symbols) (img : user_tasks_image) {St : Type} `{Scheduler St}.
Implicit Types (k : kstate St) (c : cpu) (p : cptr).

(** The mark of the timer handler, every hundred ticks. *)
Definition mark k : list Z :=
  if cfg_debug cfg && (Z.rem (count (s_timer (k_s k)) + 1) 100 =? 0) then [38] else [].

(** The characters that event [e] prints on the way from [st] to [st'], the
    message of fatal apart. *)
Definition written (e : event) (st st' : mstate (St := St)) : list Z :=
  match e, st, st' with
  | EInt n, UserMode c _, UserMode _ _ =>
      if bool_decide (n = SYSCALL_INTNUM /\ c_ebx c = 1) then [u8 (c_edx c)] else []
  | ETimer, UserMode _ k, _ => mark k
  | _, _, _ => []
  end.

(** Runs that print [l]. *)
Inductive prints : list Z -> mstate (St := St) -> mstate (St := St) -> Prop :=
  | prints_nil st : prints [] st st
  | prints_cons e l st1 st2 st3 :
      estep cfg syms img e st1 st2 -> prints l st2 st3 -> prints (written e st1 st2 ++ l) st1 st3.

(** The screen in user mode, or once the machine is halted. *)
Definition display l (st : mstate (St := St)) : Prop :=
  match st with UserMode _ k => displays l (k_term k) | Halted t => displays_from l t end.

Lemma switch_to_term k p : on_ok (fun r => k_term r.2 = k_term k) (switch_to p k).
Proof using Type. unfold switch_to. by destruct (hw_context_switch p _ _) as [[]|]. Qed.

(** The system calls leave the terminal alone, but putchar. *)
Lemma asm_syscall_term c p k l :
  displays l (k_term k) ->
  on_ok (fun r => displays (l ++ if bool_decide (c_ebx c = 1) then [u8 (c_edx c)] else []) (k_term r.2))
    (asm_syscall_handler cfg syms img c p k).
Proof using Type.
  intros Hl.
  assert (forall k' q l', k_term k' = k_term k -> l' = [] ->
    on_ok (fun r => displays (l ++ l') (k_term r.2)) (switch_to q k')) as Hsame.
  { intros k' q l' Ek ->. rewrite app_nil_r. pose proof (switch_to_term k' q) as Hs.
    destruct (switch_to q k'); [|done]. cbn in *. congruence. }
  unfold asm_syscall_handler. destruct (SYSCALL_NUMBER <=? c_ebx c); [done|].
  destruct (Z.to_nat (c_ebx c)) as [|[|[|[|n]]]] eqn:En; cbn [syscall_array lookup list_lookup]; [| | | |done].
  - unfold syscall_yield, c_syscall_yield. do 2 (apply on_ok_skip; intros ?). apply on_ok_skip. intros [q s2].
    apply Hsame; [done|]. by rewrite bool_decide_false by lia.
  - assert (c_ebx c = 1) as Eb by lia. rewrite bool_decide_true by done. unfold syscall_putchar.
    destruct (cfg_debug cfg); [|done]. eapply on_ok_bind; [by apply displays_putchar|]. intros t Ht.
    pose proof (switch_to_term (set_term t k) p) as Hs. destruct (switch_to p _); [|done]. cbn in *. congruence.
  - assert (bool_decide (c_ebx c = 1) = false) as -> by (apply bool_decide_false; lia).
    unfold syscall_dup_thread. destruct (negb _); [done|]. apply on_ok_skip. intros x.
    destruct (_ =? 0); [done|]. destruct (_ =? 0); [done|]. do 5 (apply on_ok_skip; intros ?).
    by apply Hsame.
  - apply Hsame; [done|]. by rewrite bool_decide_false by lia.
Qed.

Lemma timer_tick_term k l :
  displays l (k_term k) -> on_ok (fun k1 => displays (l ++ mark k) (k_term k1)) (timer_tick cfg k).
Proof using Type.
  intros Hl. unfold timer_tick, mark. destruct (cfg_debug cfg); cbn [andb]; [|cbn; by rewrite app_nil_r].
  unfold timer_count. destruct (_ =? 2 ^ 31 - 1); [done|]. cbn [rbind].
  change (count (timer_advance _)) with (count (s_timer (k_s k))).
  destruct (Z.rem _ 100 =? 0).
  - eapply on_ok_bind; [by apply displays_putchar|]. by intros t Ht.
  - cbn. by rewrite app_nil_r.
Qed.

Lemma timer_alarm_term k p : on_ok (fun r => k_term r.2 = k_term k) (timer_alarm img p k).
Proof using Type.
  unfold timer_alarm. destruct (_ <=? _); [|apply switch_to_term].
  unfold high_level_timer_interrupt_handler. apply on_ok_skip. intros s1. apply on_ok_skip. intros [q s2].
  exact (switch_to_term (set_s s2 (set_s (with_timer (timer_dont_wake (s_timer (k_s k))) (k_s k)) k)) q).
Qed.

Lemma timer_handler_term k p l :
  displays l (k_term k) ->
  on_ok (fun r => display (l ++ mark k) (outcome r)) (timer_interrupt_handler cfg img p k).
Proof using Type.
  intros Hl. unfold timer_interrupt_handler. eapply on_ok_bind; [by apply timer_tick_term|]. intros k1 Hk1.
  eapply on_ok_mono; [apply (catch_displays (fun r => k_term r.2 = k_term k1) (l ++ mark k)); [by apply displays_from_refl|]|].
  - apply timer_alarm_term.
  - intros [[c' k']|t]; cbn; [by intros ->|done].
Qed.

(** Whatever the interrupt, the machine that it halts shows the text so far. *)
Lemma halted_display n ec c k l :
  displays l (k_term k) ->
  on_ok (fun r => match r with inl _ => True | inr t => displays_from l t end)
    (interrupt cfg syms img n ec c k).
Proof using Type.
  intros Hl. pose proof (displays_from_refl _ _ Hl) as Hf. unfold interrupt.
  destruct (decode_gate <$> _) as [g|]; [|done]. destruct (handler_at syms _) as [h|]; [|done].
  assert (forall A (m : res A), on_ok (fun r => match r with inl _ => True | inr t => displays_from l t end)
    (catch (k_term k) m)) as Hcatch by (intros A m; apply catch_displays; [done|by destruct m]).
  destruct h as [| | |num]; [| |done|]; apply on_ok_skip; intros [p m]; [apply Hcatch| |apply Hcatch].
  eapply on_ok_mono; [by apply (timer_handler_term (set_kmem m k) p l)|].
  intros [[c' k']|t]; [done|]. intros [more Hm]. exists (mark (set_kmem m k) ++ more). by rewrite app_assoc.
Qed.

Lemma software_halted_display n c k l :
  displays l (k_term k) ->
  on_ok (fun r => match r with inl _ => True | inr t => displays_from l t end)
    (software_interrupt cfg syms img n c k).
Proof using Type.
  intros Hl. unfold software_interrupt. destruct (decode_gate <$> _) as [g|]; [|done].
  destruct (gate_dpl g <? 3); by apply halted_display.
Qed.

(** *** Boot *)

Definition banner : list Z := if cfg_debug cfg then chars ("Switching to userspace" +:+ nl) else [].

Lemma boot_display k l :
  displays l (k_term k) -> on_ok (fun r => displays (l ++ banner) (k_term r.2)) (boot cfg img k).
Proof using Type.
  intros Hl. unfold boot, banner. apply on_ok_skip. intros s1. apply on_ok_skip. intros [p s2].
  apply (on_ok_bind (displays (l ++ if cfg_debug cfg then chars ("Switching to userspace" +:+ nl) else []))).
  - destruct (cfg_debug cfg); [by apply displays_put_chars|]. cbn. by rewrite app_nil_r.
  - intros t Ht. eapply on_ok_mono; [apply switch_to_term|]. by intros r ->.
Qed.

Lemma start_display magic k :
  length (terminal_buffer (k_term k)) = 2000%nat -> cfg_debug cfg = true ->
  on_ok (fun r => match r with inl (_, k') => displays banner (k_term k') | inr t => displays_from [] t end)
    (start cfg syms img magic k).
Proof using Type.
  intros Hlen Hd. unfold start, low_level_init. rewrite Hd.
  destruct (terminal_initialize_ok (k_term k) Hlen) as (t0 & -> & Hs0). cbn [rbind].
  assert (displays [] t0) as H0 by exact Hs0.
  eapply on_ok_bind.
  - apply (catch_displays (fun x => displays [] x.1.1) []); [by apply displays_from_refl|].
    apply on_ok_skip. intros _. apply on_ok_skip. by intros [tm1 l1].
  - intros [[[t tm] l']|t]; cbn [fst]; [|done]. intros Ht.
    eapply on_ok_mono; [eapply (catch_displays _ []); [by apply displays_from_refl|by apply (boot_display _ [])]|].
    intros [[c' k']|t']; [|done]. by cbn.
Qed.
End Events.

(** ** Runs *)

Section Runs.
Context (cfg : config) (syms : symbols) (img : user_tasks_image) (kernel_end : Z).
Context {St : Type} `{SchedulerSpec St} (Hsys : system_ok cfg syms img kernel_end).
Implicit Types (k : kstate St) (c : cpu) (p : cptr).

(** What a step prints. *)
Lemma estep_display e c k st l :
  safe_state syms img kernel_end (UserMode c k) -> displays l (k_term k) ->
  estep cfg syms img e (UserMode c k) st -> display (l ++ written cfg e (UserMode c k) st) st.
Proof using Hsys.
  intros (Hu & live & p & Hk) Hl He. inversion He; subst.
  - cbn. by rewrite app_nil_r.
  - rename select (software_interrupt _ _ _ _ _ _ = Ok _) into E.
    rename select (esp0 _ = Some _) into Hesp. rename select (_ <> context_idle img) into Hni.
    destruct (running_known _ _ _ k live p _ _ Hk Hesp Hni) as [-> Hp].
    destruct (decide (n = SYSCALL_INTNUM)) as [->|Hns].
    + destruct (syscall_entry _ _ _ _ Hsys k live p c Hk Hu Hp) as (ctx & _ & _ & E').
      rewrite E in E'. set (k1 := set_kmem _ k) in E'.
      pose proof (asm_syscall_term cfg syms img c p k1 l Hl) as Hs.
      apply (catch_displays _ l (k_term k) _ (displays_from_refl _ _ Hl)) in Hs. rewrite <-E' in Hs. cbn in Hs.
      destruct r as [[c' k']|t]; cbn; [|by rewrite app_nil_r].
      rewrite (bool_decide_ext _ (c_ebx c = 1)) by naive_solver. exact Hs.
    + assert (exists t, r = inr t) as [t ->].
      { pose proof (software_interrupt_ok _ _ _ _ Hsys k live p c n Hk Hu ltac:(done) Hp ltac:(done)) as Ho.
        destruct (vector_privilege n =? 0) eqn:Ev; [congruence|].
        assert (vector_privilege n = 3) as Hv by (unfold vector_privilege in *; by destruct (_ || _)).
        destruct (software_interrupt_halts _ _ _ _ Hsys k live p c n Hk Hu ltac:(done) Hv Hns) as [t E'].
        exists t. congruence. }
      cbn. rewrite app_nil_r. pose proof (software_halted_display cfg syms img n c k l Hl) as Hd.
      by rewrite E in Hd.
  - rename select (interrupt _ _ _ _ _ _ _ = Ok _) into E.
    destruct (timer_entry _ _ _ _ Hsys k live p c Hk Hu) as (ctx & _ & _ & E').
    set (k1 := set_kmem _ k) in E'. pose proof (timer_handler_term cfg img k1 p l Hl) as Ht.
    rewrite <-E', E in Ht. exact Ht.
  - rename select (interrupt _ _ _ _ _ _ _ = Ok _) into E.
    rename select (no_error_code _) into Hn.
    destruct (exception_halts _ _ _ _ Hsys k live p c n Hk Hu) as (t & E'); [apply Hn|].
    rewrite E in E'. injection E' as ->. cbn. rewrite app_nil_r.
    pose proof (halted_display cfg syms img n [] c k l Hl) as Hd. by rewrite E in Hd.
Qed.

Lemma prints_display l st st' : prints cfg syms img l st st' ->
  forall text, safe_state syms img kernel_end st -> display text st -> display (text ++ l) st'.
Proof using Hsys.
  induction 1 as [st|e l st1 st2 st3 He Hrest IH]; intros text Hsafe Hd; [by rewrite app_nil_r|].
  rewrite app_assoc. destruct st1 as [c k|t]; [|by inversion He].
  apply IH; [|by apply estep_display]. eapply step_safe; [done..|]. apply step_event. eauto.
Qed.

(** The screen from _start on. *)
Lemma screen_since_start k0 :
  boot_state cfg img k0 -> cfg_debug cfg = true ->
  exists c k, start cfg syms img MULTIBOOT_LOADER_MAGIC k0 = Ok (inl (c, k)) /\
    forall l st, prints cfg syms img l (UserMode c k) st -> display (banner cfg ++ l) st.
Proof using All.
  intros Hb Hd. destruct (start_ok _ _ _ _ Hsys k0 Hb) as (c & k & p & E & Hu & Hk). exists c, k.
  split; [done|]. intros l st Hl.
  pose proof (start_display cfg syms img MULTIBOOT_LOADER_MAGIC k0 (bs_buffer _ _ _ Hb) Hd) as Hs.
  rewrite E in Hs. apply (prints_display _ _ _ Hl); [|exact Hs]. split; eauto.
Qed.
End Runs.
