(* ===== verification/Builds.v ===== *)
(** * The choice of the queue does not show

    With fixed priorities that are all different the policy leaves no choice, so
    the model of Model.v is deterministic: what happens to the processor
    determines the run.  Both builds of the kernel, with the linked list and with
    the array heap, refine that model and start in the same state of it; so they
    behave the same for ever, and not only as queues. *)

From stdpp Require Import options.
From S2P Require Import Prelude Contexts PQueue Timer Scheduler PriorityScheduler Policies.
From S2P Require Import Fprint Terminal Segment LowLevel HighLevel Kernel Model.

(** ** Unique choices *)

(** The contexts of [L] have different priorities. *)
Definition ranked (L : gset cptr) (m : mem) : Prop :=
  forall x y, x ∈ L -> y ∈ L ->
    prio_of (ready_pf true) m x = prio_of (ready_pf true) m y -> x = y.

Lemma prio_alter f p m q :
  (forall c, Contexts.priority (sched (f c)) = Contexts.priority (sched c)) ->
  prio_of (ready_pf true) (alter f p m) q = prio_of (ready_pf true) m q.
Proof.
  intros Hf. unfold prio_of. destruct (decide (q = p)) as [->|Hne].
  - rewrite lookup_alter_eq. destruct (m !! p); [apply Hf|done].
  - by rewrite lookup_alter_ne.
Qed.

Lemma ranked_alter L f p m :
  (forall c, Contexts.priority (sched (f c)) = Contexts.priority (sched c)) ->
  ranked L m -> ranked L (alter f p m).
Proof. intros Hf Hr x y Hx Hy. rewrite !prio_alter by done. by apply Hr. Qed.

Lemma best_unique L m p q R :
  ranked L m -> R ⊆ L -> best true m p R -> best true m q R -> p = q.
Proof.
  intros Hr HR [Hp Hbp] [Hq Hbq]. apply Hr; [by apply HR..|].
  specialize (Hbp q Hq). specialize (Hbq p Hp). unfold outranks in *. cbn [is_gt_priority ready_pf] in *. lia.
Qed.

Lemma earliest_unique m R t t' : earliest m R t -> earliest m R t' -> t = t'.
Proof.
  intros [(q & Hq & <-) Hmin] [(q' & Hq' & <-) Hmin']. specialize (Hmin q' Hq'). specialize (Hmin' q Hq). lia.
Qed.

Lemma choose_unique L idle m d p d' q d'' :
  ranked L m -> p_ready d ⊆ L ->
  pp_choose true idle m d p d' -> pp_choose true idle m d q d'' -> p = q /\ d' = d''.
Proof.
  intros Hr HR. unfold pp_choose. destruct (decide _); [intros [-> ->] [-> ->]; done|].
  intros [Hp ->] [Hq ->]. by rewrite (best_unique _ _ _ _ _ Hr HR Hp Hq).
Qed.

Lemma preempt_unique L m ctx d p d' q d'' :
  ranked L m -> ctx ∈ L -> p_ready d ⊆ L ->
  pp_preempt true m ctx d p d' -> pp_preempt true m ctx d q d'' -> p = q /\ d' = d''.
Proof.
  intros Hr Hc HR (Hp & _ & ->) (Hq & _ & ->).
  by rewrite (best_unique L m p q ({[ctx]} ∪ p_ready d) Hr ltac:(set_solver) Hp Hq).
Qed.

Lemma resume_unique cs p c c' : resume cs p c -> resume cs p c' -> c = c'.
Proof. intros (x & Hx & ->) (y & Hy & ->). congruence. Qed.

(** ** The model is deterministic *)

Section Deterministic.
Context (cfg : config) (syms : symbols) (img : user_tasks_image).
Local Abbreviation model := (model (pdata true)).
Implicit Types (a : model) (c : cpu) (L : gset cptr).

(** The contexts that take part are those of [L]. *)
Record tidy L a : Prop := {
  td_ranked : ranked L (m_contexts a);
  td_ready : p_ready (m_data a) ⊆ L;
  td_waiting : p_waiting (m_data a) ⊆ L;
  td_current : m_current a = context_idle img \/ m_current a ∈ L
}.

Lemma ranked_suspend L c a : ranked L (m_contexts a) -> ranked L (suspend syms c a).
Proof using Type. by apply ranked_alter. Qed.

Lemma yield_dates_priority wh wl dh dl x :
  Contexts.priority (sched (yield_dates cfg wh wl dh dl x)) = Contexts.priority (sched x).
Proof using Type. unfold yield_dates. by destruct (edf cfg). Qed.

(** A system call that is refused is not executed. *)
Lemma refused_exclusive c a :
  refused cfg c a ->
  c_ebx c <> 0 /\ ~ (c_ebx c = 1 /\ cfg_debug cfg = true \/ c_ebx c = 3) /\
  (c_ebx c = 2 -> cfg_dynamic cfg = true -> m_free a <> 0 ->
   forall ctx, suspend syms c a !! m_current a = Some ctx -> u32 (range ctx) = 0).
Proof using Type.
  unfold refused, SYSCALL_NUMBER. intros [[Hb Hd]|[[Hb Hr]|Hb]].
  - split; [lia|]. split; [|lia]. intros [[_ ?]|?]; [congruence|lia].
  - split; [lia|]. split; [lia|]. intros _ Hd Hf ctx Hc.
    destruct Hr as [?|[?|(x & Hx & Hrange)]]; [congruence..|].
    unfold suspend in Hc. rewrite lookup_alter_eq, Hx in Hc. by injection Hc as <-.
  - split; [lia|]. split; lia.
Qed.

Lemma stops_syscall c a : stops cfg img (EInt SYSCALL_INTNUM) c a -> refused cfg c a.
Proof using Type. intros (_ & _ & _ & _ & Hr). by apply Hr. Qed.

(** The contexts that a yield leaves. *)
Lemma ranked_yield L c a :
  ranked L (m_contexts a) ->
  ranked L (alter (yield_dates cfg (c_edx c) (c_ecx c) (c_esi c) (c_edi c)) (m_current a) (suspend syms c a)).
Proof using Type. intros Hr. apply ranked_alter; [apply yield_dates_priority|by apply ranked_suspend]. Qed.

(** The contexts that waking leaves ready. *)
Lemma wake_subset L m t (d d' : pdata true) :
  pp_wake true m t d d' -> p_ready d ⊆ L -> p_waiting d ⊆ L -> p_ready d' ⊆ L /\ p_waiting d' ⊆ L.
Proof using Type.
  intros -> Hr Hw. cbn. split; intros p.
  - rewrite elem_of_union, elem_of_filter. set_solver.
  - rewrite elem_of_filter. set_solver.
Qed.

(** The outcomes of a system call. *)
Lemma syscall_cases c a x :
  mstep cfg syms img (EInt SYSCALL_INTNUM) (MUser c a) x ->
  m_current a <> context_idle img /\
  ((c_ebx c = 0 /\ exists d1 alarm' p d2 c',
      let cs := alter (yield_dates cfg (c_edx c) (c_ecx c) (c_esi c) (c_edi c)) (m_current a)
                  (suspend syms c a) in
      pp_wait true cs (m_current a) (m_data a) (m_alarm a) d1 alarm' /\
      pp_choose true (context_idle img) cs d1 p d2 /\ resume cs p c' /\
      x = MUser c' (Model cs p d2 (m_now a) alarm' (m_free a))) \/
   ((c_ebx c = 1 /\ cfg_debug cfg = true \/ c_ebx c = 3) /\ exists c',
      resume (suspend syms c a) (m_current a) c' /\
      x = MUser c' (Model (suspend syms c a) (m_current a) (m_data a) (m_now a) (m_alarm a) (m_free a))) \/
   (c_ebx c = 2 /\ cfg_dynamic cfg = true /\ m_free a <> 0) \/
   refused cfg c a /\ x = MHalted).
Proof using Type.
  intros Hm. inversion Hm; subst.
  - split; [done|]. left. split; [done|]. eexists _, _, _, _, _. cbv zeta.
    rename select (pol_wait _ _ _ _ _ _) into Hw. rename select (pol_choose _ _ _ _ _) into Hc.
    split; [exact Hw|]. split; [exact Hc|]. split; [eassumption|reflexivity].
  - split; [done|]. right. left. eauto.
  - split; [done|]. right. right. by left.
  - rename select (stops _ _ _ _ _) into Hs. split; [apply Hs|]. do 3 right. by split; [apply stops_syscall|].
Qed.

(** The outcomes of a timer interrupt. *)
Lemma timer_cases c a x :
  mstep cfg syms img ETimer (MUser c a) x ->
  let now := u64 (m_now a + ACTUAL_TICK) in
  let cs := suspend syms c a in
  (now < m_alarm a /\ exists c', resume cs (m_current a) c' /\
     x = MUser c' (Model cs (m_current a) (m_data a) now (m_alarm a) (m_free a))) \/
  (m_alarm a <= now /\ exists d1 p d2 c', pp_wake true cs now (m_data a) d1 /\
     (if decide (m_current a = context_idle img) then pp_choose true (context_idle img) cs d1 p d2
      else pp_preempt true cs (m_current a) d1 p d2) /\ resume cs p c' /\
     x = MUser c' (Model cs p d2 now DATE_FAR_AWAY (m_free a))).
Proof using Type.
  intros Hm now cs. inversion Hm; subst; [left; eauto|right..|done]; (split; [done|]); eexists _, _, _, _;
    rename select (pol_wake _ _ _ _) into Hw; (split; [exact Hw|]).
  - rename select (pol_preempt _ _ _ _ _) into Hc. rewrite decide_False by done. split; [exact Hc|].
    split; [eassumption|reflexivity].
  - rename select (pol_choose _ _ _ _ _) into Hc. rewrite decide_True by done. split; [exact Hc|].
    split; [eassumption|reflexivity].
Qed.

Context (Hdyn : cfg_dynamic cfg = false).

Lemma syscall_det L c a x y :
  tidy L a -> mstep cfg syms img (EInt SYSCALL_INTNUM) (MUser c a) x ->
  mstep cfg syms img (EInt SYSCALL_INTNUM) (MUser c a) y -> x = y.
Proof using Hdyn.
  intros [Hrk Hr Hw Hcur] [Hni H1]%syscall_cases [_ H2]%syscall_cases.
  pose proof (ranked_yield L c a Hrk) as Hrk'.
  destruct H1 as [(Eb & d1 & al & p & d2 & c1 & [-> Hal] & Hch & Hres & ->)|[(Eb & c1 & Hres & ->)|[(_ & Hd & _)|[Href ->]]]].
  - destruct H2 as [(_ & d1' & al' & p' & d2' & c1' & [-> Hal'] & Hch' & Hres' & ->)|[(Eb' & _)|[(Eb' & _)|[Href _]]]];
      [|lia|lia|by apply refused_exclusive in Href as [? _]].
    rewrite (earliest_unique _ _ _ _ Hal Hal').
    assert (p = p' /\ d2 = d2') as [<- <-] by (by eapply (choose_unique L); [| |exact Hch|exact Hch']).
    by rewrite (resume_unique _ _ _ _ Hres Hres').
  - destruct H2 as [(Eb' & _)|[(_ & c1' & Hres' & ->)|[(Eb' & _)|[Href _]]]];
      [lia| |lia|by apply refused_exclusive in Href as (_ & ? & _)].
    by rewrite (resume_unique _ _ _ _ Hres Hres').
  - congruence.
  - apply refused_exclusive in Href as (H0 & H13 & _).
    destruct H2 as [(Eb' & _)|[(Eb' & _)|[(_ & Hd & _)|[_ ->]]]]; [done|done|congruence|done].
Qed.

Lemma timer_det L c a x y :
  tidy L a -> mstep cfg syms img ETimer (MUser c a) x -> mstep cfg syms img ETimer (MUser c a) y -> x = y.
Proof using Type.
  intros [Hrk Hr Hw Hcur] H1%timer_cases H2%timer_cases. cbv zeta in *.
  apply (ranked_suspend L c) in Hrk.
  destruct H1 as [[Hlt (c1 & Hres & ->)]|[Hge (d1 & p & d2 & c1 & Hwk & Hch & Hres & ->)]],
    H2 as [[Hlt' (c1' & Hres' & ->)]|[Hge' (d1' & p' & d2' & c1' & Hwk' & Hch' & Hres' & ->)]]; [|lia|lia|].
  - by rewrite (resume_unique _ _ _ _ Hres Hres').
  - destruct (wake_subset L _ _ _ _ Hwk Hr Hw) as [Hr1 _].
    assert (d1' = d1) as -> by (unfold pp_wake in *; congruence).
    assert (p = p' /\ d2 = d2') as [<- <-].
    { destruct (decide _) as [|Hni]; [by eapply choose_unique|].
      destruct Hcur as [?|Hcur]; [done|]. by eapply (preempt_unique L). }
    by rewrite (resume_unique _ _ _ _ Hres Hres').
Qed.

(** Two steps of the model with the same event are the same step. *)
Lemma mstep_det L e c a x y :
  tidy L a -> mstep cfg syms img e (MUser c a) x -> mstep cfg syms img e (MUser c a) y -> x = y.
Proof using Hdyn.
  intros Ht H1 H2. destruct e as [c'|n| |n]; [| |by eapply timer_det|].
  - inversion H1; subst; inversion H2; by subst.
  - destruct (decide (n = SYSCALL_INTNUM)) as [->|Hne]; [by eapply syscall_det|].
    inversion H1; subst; inversion H2; by subst.
  - inversion H1; subst; inversion H2; by subst.
Qed.

Lemma mstep_tidy L e c a c' a' :
  tidy L a -> mstep cfg syms img e (MUser c a) (MUser c' a') -> tidy L a'.
Proof using Hdyn.
  intros [Hrk Hr Hw Hcur] Hm.
  assert (forall idle m d p d', p_ready d ⊆ L -> p_waiting d ⊆ L -> pp_choose true idle m d p d' ->
    p_ready d' ⊆ L /\ p_waiting d' ⊆ L /\ (p = idle \/ p ∈ L)) as Hchoose.
  { intros idle m d p d' HR HW. unfold pp_choose. destruct (decide _); [intros [-> ->]; auto|].
    intros [[Hp _] ->]. cbn. set_solver. }
  destruct e as [c1|n| |n]; [by inversion Hm; subst| | |by inversion Hm; subst].
  - destruct (decide (n = SYSCALL_INTNUM)) as [->|Hne]; [|by inversion Hm; subst].
    apply syscall_cases in Hm as [Hni Hm]. destruct Hcur as [?|Hcur]; [done|].
    destruct Hm as [(_ & d1 & al & p & d2 & c1 & [-> _] & Hch & _ & [= -> ->])
      |[(_ & c1 & _ & [= -> ->])|[(_ & Hd & _)|[_ [=]]]]]; [| |congruence].
    + apply Hchoose in Hch as (? & ? & ?); [|done|cbn; set_solver]. split; cbn; [by apply ranked_yield|done..].
    + split; cbn; [by apply ranked_suspend|done|done|by right].
  - apply timer_cases in Hm as [[_ (c1 & _ & [= -> ->])]|[_ (d1 & p & d2 & c1 & Hwk & Hch & _ & [= -> ->])]].
    + split; cbn; [by apply ranked_suspend|done..].
    + destruct (wake_subset L _ _ _ _ Hwk Hr Hw) as [Hr1 Hw1]. destruct (decide _) as [|Hni].
      * apply Hchoose in Hch as (? & ? & ?); [|done..]. split; cbn; [by apply ranked_suspend|done..].
      * destruct Hcur as [?|Hcur]; [done|]. destruct Hch as ([Hp _] & _ & ->).
        split; cbn; [by apply ranked_suspend|set_solver..].
Qed.

End Deterministic.

(** ** The same program with another queue *)

Definition with_queue (q : queue_impl) (cfg : config) : config :=
  Config (cfg_scheduler cfg) q (cfg_dynamic cfg) (cfg_debug cfg).

(** The build with fixed priorities and queue [q], without dynamic creation and
    without printing. *)
Definition fp_build (q : queue_impl) : config := Config FP_SCHEDULING q false false.

Section Queue.
Context (q : queue_impl) (cfg : config) (syms : symbols) (img : user_tasks_image).

Lemma mstep_queue {D : Type} `{!Policy D} e (x y : mconfig D) :
  mstep (with_queue q cfg) syms img e x y -> mstep cfg syms img e x y.
Proof using Type.
  intros [c c' a H|c a d1 al p d2 c' H1 H2 cs H3 H4 H5|c a c' H1 H2 H3|c a ctx d c' H1 H2 H3 H4 H5 H6 ch cs H7 H8
    |c a c' now H1 H2|c a d1 p d2 c' now H1 H2 H3 H4 H5|c a d1 p d2 c' now H1 H2 H3 H4 H5|e' c a H].
  - exact (m_user cfg _ _ _ _ _ H).
  - exact (m_yield cfg _ _ _ _ _ _ _ _ _ H1 H2 H3 H4 H5).
  - exact (m_return cfg _ _ _ _ _ H1 H2 H3).
  - exact (m_fork cfg _ _ _ _ _ _ _ H1 H2 H3 H4 H5 H6 H7 H8).
  - exact (m_tick cfg _ _ _ _ _ H1 H2).
  - exact (m_alarm_task cfg _ _ _ _ _ _ _ _ H1 H2 H3 H4 H5).
  - exact (m_alarm_idle cfg _ _ _ _ _ _ _ _ H1 H2 H3 H4 H5).
  - exact (m_stop cfg _ _ _ _ _ H).
Qed.

Lemma system_ok_queue kernel_end :
  system_ok cfg syms img kernel_end -> system_ok (with_queue q cfg) syms img kernel_end.
Proof using Type. intros []. by split. Qed.

(** The initial contexts of the two builds differ in the links. *)
Definition both_eq_next (r r' : res mem) : Prop :=
  forall m m', r = Ok m -> r' = Ok m' -> m ≈ₙ m'.

Lemma modify_both m m' p f f' :
  m ≈ₙ m' -> (forall c c', strip_next c = strip_next c' -> strip_next (f c) = strip_next (f' c')) ->
  both_eq_next (modify m p f) (modify m' p f').
Proof using Type.
  intros E Hf n n' (c & Hc & ->)%modify_inv (c' & Hc' & ->)%modify_inv x.
  destruct (decide (x = p)) as [->|Hne]; [|rewrite !lookup_insert_ne by done; apply E].
  rewrite !lookup_insert_eq. cbn. f_equal. apply Hf. specialize (E p). rewrite Hc, Hc' in E. by apply (inj Some).
Qed.

Lemma rbind_both r r' (f f' : mem -> res mem) :
  both_eq_next r r' -> (forall m m', m ≈ₙ m' -> both_eq_next (f m) (f' m')) ->
  both_eq_next (rbind r f) (rbind r' f').
Proof using Type.
  intros Hr Hf n n' (m & -> & E)%rbind_ok (m' & -> & E')%rbind_ok. exact (Hf m m' (Hr m m' eq_refl eq_refl) n n' E E').
Qed.

Lemma context_init_both m m' p idx pc start fin :
  m ≈ₙ m' -> both_eq_next (context_init cfg m p idx pc start fin)
                          (context_init (with_queue q cfg) m' p idx pc start fin).
Proof using Type.
  intros E. apply modify_both; [done|]. intros [h [] r d] [h' [] r' d'] [= -> -> -> -> -> ->]. cbn.
  by destruct (cfg_dynamic cfg).
Qed.

Lemma set_next_if_strip cfg' n c : strip_next (set_next_if cfg' n c) = strip_next c.
Proof using Type. unfold set_next_if. by destruct (has_next cfg'). Qed.

Lemma init_contexts_both n i m m' :
  m ≈ₙ m' -> both_eq_next (init_contexts cfg img n i m) (init_contexts (with_queue q cfg) img n i m').
Proof using Type.
  revert i m m'. induction n as [|n IH]; intros i m m' E; cbn [init_contexts].
  - by intros ? ? [= <-] [= <-].
  - destruct (_ <=? _); [done|]. destruct (tasks img !! _); [|done].
    apply rbind_both; [by apply context_init_both|by intros; apply IH].
Qed.

Lemma init_reserve_both n i task0 m m' :
  m ≈ₙ m' -> both_eq_next (init_reserve_loop cfg img n i task0 m)
                          (init_reserve_loop (with_queue q cfg) img n i task0 m').
Proof using Type.
  revert i m m'. induction n as [|n IH]; intros i m m' E; cbn [init_reserve_loop].
  - by intros ? ? [= <-] [= <-].
  - apply rbind_both; [by apply context_init_both|]. intros m1 m1' E1.
    apply rbind_both; [|by intros; apply IH]. apply modify_both; [done|].
    intros c c'. by rewrite !set_next_if_strip.
Qed.

Lemma init_idle_both n i m m' :
  m ≈ₙ m' -> both_eq_next (init_idle cfg img n i m) (init_idle (with_queue q cfg) img n i m').
Proof using Type.
  revert i m m'. induction n as [|n IH]; intros i m m' E; cbn [init_idle].
  - by intros ? ? [= <-] [= <-].
  - apply rbind_both; [by apply context_init_both|]. intros m1 m1' E1.
    apply rbind_both; [|by intros; apply IH]. apply modify_both; [done|].
    intros c c' Ec. rewrite <-(set_next_if_strip cfg (idle_ctx_array img i) c),
      <-(set_next_if_strip (with_queue q cfg) (idle_ctx_array img i) c') in Ec.
    change (edf (with_queue q cfg)) with (edf cfg).
    destruct (set_next_if cfg _ c) as [h [] r d], (set_next_if _ _ c') as [h' [] r' d'].
    injection Ec as -> -> -> -> -> ->. by destruct (edf cfg).
Qed.

Lemma init_memory_both m : both_eq_next (init_memory cfg img m) (init_memory (with_queue q cfg) img m).
Proof using Type.
  unfold init_memory. apply rbind_both; [by apply init_contexts_both|]. intros m1 m1' E1.
  apply rbind_both; [|by intros; apply init_idle_both]. unfold init_reserve.
  destruct (tasks img !! _); [by apply init_reserve_both|done].
Qed.
End Queue.

(** ** Both builds *)

Section Builds.
Context (q : queue_impl) (cfg : config) (img : user_tasks_image).
Context {Q1 Q2 : Type}.
Context `{!PQueue waiting_pf Q1} `{!PQueue (ready_pf true) Q1}.
Context `{!PQueueSpec waiting_pf Q1} `{!PQueueSpec (ready_pf true) Q1}.
Context `{!PQueue waiting_pf Q2} `{!PQueue (ready_pf true) Q2}.
Context `{!PQueueSpec waiting_pf Q2} `{!PQueueSpec (ready_pf true) Q2}.
Local Abbreviation S1 := (priority_sched true Q1).
Local Abbreviation S2 := (priority_sched true Q2).
Local Abbreviation cfg' := (with_queue q cfg).
Local Abbreviation mst1 := (mstate (St := S1)).
Local Abbreviation mst2 := (mstate (St := S2)).
Context (Hrank : NoDup (t_priority <$> tasks img)).

(** The same registers, running context, contexts up to links, times and reserve. *)
Definition look_alike (st1 : mst1) (st2 : mst2) : Prop :=
  match st1, st2 with
  | UserMode c1 k1, UserMode c2 k2 =>
      c1 = c2 /\ esp0 (ll_tss (k_ll k1)) = esp0 (ll_tss (k_ll k2)) /\ k_mem k1 ≈ₙ k_mem k2 /\
      current_time (s_timer (k_s k1)) = current_time (s_timer (k_s k2)) /\
      next_wake_date (s_timer (k_s k1)) = next_wake_date (s_timer (k_s k2)) /\
      k_idx_reserve k1 = k_idx_reserve k2
  | Halted _, Halted _ => True
  | _, _ => False
  end.

Lemma agrees_alike (st1 : mst1) (st2 : mst2) (ast : mconfig (pdata true)) :
  agrees st1 ast -> agrees st2 ast -> look_alike st1 st2.
Proof using Type.
  destruct st1 as [c1 k1|], st2 as [c2 k2|], ast as [c a|]; try done.
  intros (-> & E1 & E2 & E3 & E4 & E5) (-> & F1 & F2 & F3 & F4 & F5). cbn.
  split; [done|]. split; [congruence|]. split; [apply erase_eq; congruence|]. split; [congruence|].
  split; congruence.
Qed.

Local Abbreviation taskset := (list_to_set (t_context <$> tasks img) : gset cptr).

Lemma init_ranked m m' (d : pdata true) : pp_init true img m m' d -> ranked taskset m'.
Proof using Hrank.
  intros (_ & _ & Hp) x y (t & -> & Ht)%elem_of_list_to_set%list_elem_of_fmap
    (u & -> & Hu)%elem_of_list_to_set%list_elem_of_fmap.
  rewrite !Hp by done. intros E. apply list_elem_of_lookup in Ht as [i Hi], Hu as [j Hj].
  assert (i = j) as ->; [|congruence].
  eapply (NoDup_lookup _ _ _ (t_priority t) Hrank); rewrite list_lookup_fmap; [by rewrite Hi|by rewrite Hj, E].
Qed.

(** The model starts in one state only. *)
Lemma boot_unique (k1 : kstate S1) (k2 : kstate S2) c1 c2 (a1 a2 : model (pdata true)) :
  k_mem k1 = k_mem k2 -> k_idx_reserve k1 = k_idx_reserve k2 ->
  next_wake_date (s_timer (k_s k1)) = next_wake_date (s_timer (k_s k2)) ->
  model_boot cfg img k1 c1 a1 -> model_boot cfg' img k2 c2 a2 ->
  c1 = c2 /\ a1 = a2 /\ tidy img taskset a1.
Proof using Hrank.
  intros Em Ei Ea [_ (m & d0 & Hm & Hp & Hc) Hr1 Hn1 Ha1 Hf1] [_ (m' & d0' & Hm' & Hp' & Hc') Hr2 Hn2 Ha2 Hf2].
  rewrite Em in Hm. pose proof (init_memory_both q cfg img _ m m' Hm Hm') as E.
  apply erase_eq in E. rewrite <-E in Hp'. pose proof (init_ranked _ _ _ Hp) as Hrk.
  destruct Hp as (E1 & -> & _), Hp' as (E1' & -> & _). rewrite <-E1 in E1'. rewrite E1' in *.
  assert (m_current a1 = m_current a2 /\ m_data a1 = m_data a2) as [Ecur Edata]
    by (by eapply (choose_unique taskset); [exact Hrk|..|exact Hc|exact Hc']).
  rewrite Ecur in Hr1. pose proof (resume_unique _ _ _ _ Hr1 Hr2) as ->.
  split; [done|]. destruct a1, a2; cbn in *; subst. split; [by f_equal; congruence|].
  unfold pp_choose in Hc. destruct (decide _); cbn in Hc.
  - destruct Hc as [-> ->]. split; cbn; [done|set_solver..|by left].
  - destruct Hc as [[Hin _] ->]. split; cbn; [done|set_solver..|by right].
Qed.

Context (syms : symbols) (kernel_end : Z) (Hsys : system_ok cfg syms img kernel_end).
Context (Hdyn : cfg_dynamic cfg = false) (Hdebug : cfg_debug cfg = false).

Definition tidy_config (ast : mconfig (pdata true)) : Prop :=
  match ast with MUser _ a => tidy img taskset a | MHalted => True end.

(** What the first build does, the second does. *)
Lemma follow es (st1 st1' : mst1) (st2 : mst2) (ast : mconfig (pdata true)) :
  sim syms img kernel_end st1 ast -> sim syms img kernel_end st2 ast -> tidy_config ast ->
  run (estep cfg syms img) es st1 st1' ->
  exists st2', run (estep cfg' syms img) es st2 st2' /\ look_alike st1' st2'.
Proof using Hsys Hdyn Hdebug.
  intros H1 H2 Ht Hrun. revert st2 ast H1 H2 Ht.
  induction Hrun as [st|e es s1 s2 s3 He _ IH]; intros st2 ast H1 H2 Ht.
  { exists st2. split; [constructor|]. eapply agrees_alike; [apply H1|apply H2]. }
  pose proof (system_ok_queue q _ _ _ _ Hsys) as Hsys'.
  destruct (sim_step _ _ _ _ Hsys e s1 s2 ast H1 He) as (ast' & Hm & H1').
  destruct (sim_enabled cfg' syms img kernel_end Hsys' e st2 ast ast' H2) as [st2' He'].
  { by apply (mstep_queue (cfg_queue cfg) cfg'); destruct cfg. }
  { intros c k _ _. unfold count_ok. cbn. congruence. }
  destruct (sim_step _ _ _ _ Hsys' e st2 st2' ast H2 He') as (ast'' & Hm'%mstep_queue & H2').
  destruct ast as [c a|]; [|by inversion Hm]. pose proof (mstep_det _ _ _ Hdyn _ _ _ _ _ _ Ht Hm Hm') as <-.
  destruct (IH st2' ast' H1' H2') as (st2'' & Hr & Hl); [|exists st2''; split; [by econstructor|done]].
  destruct ast' as [c' a'|]; [|done]. by eapply mstep_tidy.
Qed.

Lemma builds_follow (k1 : kstate S1) (k2 : kstate S2) :
  boot_state cfg img k1 -> boot_state cfg' img k2 -> k_mem k1 = k_mem k2 ->
  next_wake_date (s_timer (k_s k1)) = next_wake_date (s_timer (k_s k2)) ->
  exists c k1' k2', start cfg syms img MULTIBOOT_LOADER_MAGIC k1 = Ok (inl (c, k1')) /\
    start cfg' syms img MULTIBOOT_LOADER_MAGIC k2 = Ok (inl (c, k2')) /\
    forall es st1, run (estep cfg syms img) es (UserMode c k1') st1 ->
      exists st2, run (estep cfg' syms img) es (UserMode c k2') st2 /\ look_alike st1 st2.
Proof using All.
  intros Hb1 Hb2 Em Ea. pose proof (system_ok_queue q _ _ _ _ Hsys) as Hsys'.
  destruct (start_ok _ _ _ _ Hsys k1 Hb1) as (? & ? & ? & E1 & _).
  destruct (start_ok _ _ _ _ Hsys' k2 Hb2) as (? & ? & ? & E2 & _).
  destruct (start_sim (D := pdata true) _ _ _ _ Hsys k1 _ Hb1 E1) as (c1 & k1' & a1 & [= -> ->] & Hm1 & H1).
  destruct (start_sim (D := pdata true) _ _ _ _ Hsys' k2 _ Hb2 E2) as (c2 & k2' & a2 & [= -> ->] & Hm2 & H2).
  destruct (boot_unique k1 k2 c1 c2 a1 a2 Em) as (<- & <- & Ht); [|done..|].
  { by rewrite (bs_idx _ _ _ Hb1), (bs_idx _ _ _ Hb2). }
  exists c1, k1', k2'. split; [done|]. split; [done|]. intros es st1 Hr. by eapply follow.
Qed.
End Builds.

Lemma look_alike_sym {Q1 Q2 : Type} (st1 : mstate (St := priority_sched true Q1))
    (st2 : mstate (St := priority_sched true Q2)) :
  look_alike st1 st2 -> look_alike st2 st1.
Proof.
  destruct st1 as [c1 k1|], st2 as [c2 k2|]; try done. intros (-> & E1 & E2 & E3 & E4 & E5). cbn. by rewrite E1, E2, E3, E4, E5.
Qed.
