(* ===== verification/FixedGdt.v ===== *)
(** * The build option FIXED_SIZE_GDT

    A context holds its two descriptors, built once, instead of the bounds of its
    memory from which DYNAMIC_DESCRIPTORS builds them at every switch (low_level.h,
    low_level.c).  The operations of the x86 layer with this option, and a
    simulation between the two builds. *)

From stdpp Require Import options.
From S2P Require Import Prelude Contexts PQueue Timer Scheduler Fprint Terminal Segment.
From S2P Require Import LowLevel HighLevel Kernel.

Module FixedGdt.

(** struct hw_context with FIXED_SIZE_GDT. *)
Record hw_context := HwContext {
  regs : pusha;
  iframe : inter_privilege_interrupt_frame;
  code_segment : Z;
  data_segment : Z
}.

Definition hw_context_init (h : hw_context) (pc arg start_address end_address : Z) : hw_context :=
  let r := regs h in
  let size := u32 (end_address - start_address) in
  {| regs := Pusha (edi r) (esi r) (ebp r) (pusha_esp r) (ebx r) (edx r) (ecx r) arg;
     iframe := Iframe pc (gdt_segment_selector 3 USER_CODE_SEGMENT_INDEX) initial_flags
                 (esp (iframe h)) (gdt_segment_selector 3 USER_DATA_SEGMENT_INDEX);
     code_segment := u64 (create_code_descriptor start_address size 3 0 1 0 1 S32BIT);
     data_segment := u64 (create_data_descriptor start_address size 3 0 1 0 1 S32BIT) |}.

Definition hw_context_idle_init (syms : symbols) (h : hw_context) : hw_context :=
  {| regs := regs h;
     iframe := Iframe (sym_idle syms) (gdt_segment_selector 3 KERNEL_CODE_SEGMENT_INDEX)
                 initial_flags (esp (iframe h)) (gdt_segment_selector 3 USER_DATA_SEGMENT_INDEX);
     code_segment := u64 (create_code_descriptor 0 0xFFFFFFFF 3 0 1 0 1 S32BIT);
     data_segment := u64 (create_data_descriptor 0 0xFFFFFFFF 3 0 1 0 1 S32BIT) |}.

Definition hw_context_set_return1 (h : hw_context) (ret1 : Z) : hw_context :=
  let r := regs h in
  HwContext (Pusha (edi r) (esi r) (ebp r) (pusha_esp r) (ebx r) (edx r) (ecx r) ret1)
    (iframe h) (code_segment h) (data_segment h).

(** The tables after the stores of hw_context_switch_no_idle. *)
Definition switch_tables (ctx : cptr) (h : hw_context) (l : lowlevel) : lowlevel :=
  let l1 := set_tss (Tss (Some (ctx, sizeof_pusha + sizeof_iframe)) (ss0 (ll_tss l))) l in
  let g := ll_gdt l1 in
  set_gdt (SystemGdt (gdt_null g) (gdt_kernel_code g) (gdt_kernel_data g)
             (copy64 (code_segment h)) (copy64 (data_segment h)) (gdt_tss g)) l1.

Definition restore (h : hw_context) (ds : Z) : cpu :=
  let r := regs h in
  let f := iframe h in
  Cpu (edi r) (esi r) (ebp r) (ebx r) (edx r) (ecx r) (eax r)
    (eip f) (cs f) (flags f) (esp f) (ss f) ds.

(** The saved hardware states; the rest of a context does not matter here. *)
Abbreviation fmem := (gmap cptr hw_context).

Definition fload (m : fmem) (p : cptr) : res hw_context :=
  match m !! p with Some h => Ok h | None => Err (Undef BadPointer) end.

Definition hw_context_switch_no_idle (ctx : cptr) (m : fmem) (l : lowlevel) : res (cpu * lowlevel) :=
  let* h := fload m ctx in
  let l1 := switch_tables ctx h l in
  let* ds := load_ds_reg (ll_gdt l1) (ss (iframe h)) in
  if iret_ok (ll_gdt l1) (iframe h) then Ok (restore h ds, l1) else Err (Undef HwFault).

(** The structure as words: the two descriptors take four. *)
Definition hw_words (h : hw_context) : list Z :=
  let r := regs h in
  let f := iframe h in
  [edi r; esi r; ebp r; pusha_esp r; ebx r; edx r; ecx r; eax r;
   eip f; cs f; flags f; esp f; ss f;
   code_segment h mod 2 ^ 32; code_segment h / 2 ^ 32;
   data_segment h mod 2 ^ 32; data_segment h / 2 ^ 32].

Definition hw_of_words (l : list Z) : option hw_context :=
  match l with
  | [w0; w1; w2; w3; w4; w5; w6; w7; w8; w9; w10; w11; w12; cl; ch; dl; dh] =>
      Some (HwContext (Pusha w0 w1 w2 w3 w4 w5 w6 w7) (Iframe w8 w9 w10 w11 w12)
              (cl + 2 ^ 32 * ch) (dl + 2 ^ 32 * dh))
  | _ => None
  end.

(** A word stored at an offset of a context, and a sequence of [push]. *)
Definition hw_store (m : fmem) (p : cptr) (off v : Z) : res fmem :=
  let* h := fload m p in
  if (0 <=? off) && (off mod 4 =? 0) && (off <? 68) then
    match hw_of_words (<[Z.to_nat (off / 4) := v]> (hw_words h)) with
    | Some h1 => Ok (<[p := h1]> m)
    | None => Err (Undef BadPointer)
    end
  else Err (Undef BadPointer).

Fixpoint pushes (vs : list Z) (m : fmem) (p : cptr) (off : Z) : res (fmem * Z) :=
  match vs with
  | [] => Ok (m, off)
  | v :: vs =>
      let off1 := off - 4 in
      let* m1 := hw_store m p off1 v in pushes vs m1 p off1
  end.

Definition interrupt_entry (syms : symbols) (c : cpu) (m : fmem) (l : lowlevel)
    : res (cptr * fmem) :=
  match esp0 (ll_tss l) with
  | None => Err (Undef BadPointer)
  | Some (p, off) =>
      let* (m1, off1) := pushes [c_ss c; c_esp c; c_flags c; c_cs c; c_eip c] m p off in
      let* (m2, off2) := pushes [c_eax c; c_ecx c; c_edx c; c_ebx c;
                                 u32 (sym_context syms p + off1);
                                 c_ebp c; c_esi c; c_edi c] m1 p off1 in
      if off2 =? 0 then Ok (p, m2) else Err (Undef BadPointer)
  end.

(** The trigger_bug system call with INJECT_BUG1: the descriptor it stores is
    the one that the context switch overwrites. *)
Definition syscall_trigger_bug1 (ctx : cptr) (arg1 arg2 : Z) (m : fmem) (l : lowlevel)
    : res (cpu * lowlevel) :=
  let g := ll_gdt l in
  let d := Z.land (u64 (Z.shiftl (u64 arg1) 32)) (u64 arg2) in
  hw_context_switch_no_idle ctx m
    (set_gdt (SystemGdt (gdt_null g) (gdt_kernel_code g) (gdt_kernel_data g) d
                (gdt_user_data g) (gdt_tss g)) l).

(** ** Runs of the hardware layer *)

(** What the kernel asks of the hardware layer between boot and halt:
    hw_context_init, hw_context_set_return1, the copy of a whole context, a
    context switch, and an interrupt that finds the registers [c] in user
    mode. *)
Inductive hw_event :=
  | EvInit (p : cptr) (pc arg start_address end_address : Z)
  | EvReturn (p : cptr) (ret1 : Z)
  | EvCopy (dest src : cptr)
  | EvSwitch (p : cptr)
  | EvInterrupt (c : cpu).

(** One event with DYNAMIC_DESCRIPTORS: the registers a switch loads, the
    context an interrupt saves, and the new state. *)
Inductive hw_output := Loaded (c : cpu) | Entered (p : cptr) | Silent.

Definition dynamic_event (syms : symbols) (e : hw_event) (st : mem * lowlevel)
    : res (hw_output * (mem * lowlevel)) :=
  let '(m, l) := st in
  match e with
  | EvInit p pc arg start fin =>
      let* m1 := modify m p (fun c => set_hw (LowLevel.hw_context_init (hw c) pc arg start fin) c) in
      Ok (Silent, (m1, l))
  | EvReturn p r => let* m1 := set_return1 p r m in Ok (Silent, (m1, l))
  | EvCopy dest src =>
      let* cs := load m src in
      let* m1 := modify m dest (fun _ => cs) in Ok (Silent, (m1, l))
  | EvSwitch p =>
      let* (c, l1) := LowLevel.hw_context_switch_no_idle p m l in Ok (Loaded c, (m, l1))
  | EvInterrupt c =>
      let* (p, m1) := LowLevel.interrupt_entry syms [] c m l in Ok (Entered p, (m1, l))
  end.

(** The same with FIXED_SIZE_GDT. *)
Definition fixed_event (syms : symbols) (e : hw_event) (st : fmem * lowlevel)
    : res (hw_output * (fmem * lowlevel)) :=
  let '(m, l) := st in
  match e with
  | EvInit p pc arg start fin =>
      let* h := fload m p in
      Ok (Silent, (<[p := hw_context_init h pc arg start fin]> m, l))
  | EvReturn p r =>
      let* h := fload m p in Ok (Silent, (<[p := hw_context_set_return1 h r]> m, l))
  | EvCopy dest src =>
      let* hs := fload m src in
      let* _ := fload m dest in Ok (Silent, (<[dest := hs]> m, l))
  | EvSwitch p => let* (c, l1) := hw_context_switch_no_idle p m l in Ok (Loaded c, (m, l1))
  | EvInterrupt c => let* (p, m1) := interrupt_entry syms c m l in Ok (Entered p, (m1, l))
  end.

(** A run, with its outputs in order. *)
Fixpoint hw_run {M} (event : hw_event -> M -> res (hw_output * M)) (es : list hw_event) (st : M)
    : res (list hw_output * M) :=
  match es with
  | [] => Ok ([], st)
  | e :: es =>
      let* (o, st1) := event e st in
      let* (os, st2) := hw_run event es st1 in Ok (o :: os, st2)
  end.

(** ** Simulation *)

(** The descriptors held by [f] are those that [h]'s bounds give. *)
Definition hw_rel (h : Contexts.hw_context) (f : hw_context) : Prop :=
  regs f = Contexts.regs h /\ iframe f = Contexts.iframe h /\
  code_segment f = u64 (create_code_descriptor (start_address h) (memsize h) 3 0 1 0 1 S32BIT) /\
  data_segment f = u64 (create_data_descriptor (start_address h) (memsize h) 3 0 1 0 1 S32BIT).

Definition mem_rel (m : mem) (fm : fmem) : Prop :=
  forall p, option_Forall2 (fun c f => hw_rel (hw c) f) (m !! p) (fm !! p).

(** Outcomes that agree: the same error, or related values. *)
Definition res_rel {A B} (R : A -> B -> Prop) (r : res A) (s : res B) : Prop :=
  match r, s with Ok a, Ok b => R a b | Err e, Err e' => e = e' | _, _ => False end.

Lemma res_rel_bind {A B A' B'} (R : A -> B -> Prop) (R' : A' -> B' -> Prop) r s f g :
  res_rel R r s -> (forall a b, R a b -> res_rel R' (f a) (g b)) ->
  res_rel R' (rbind r f) (rbind s g).
Proof. destruct r, s; cbn; naive_solver. Qed.

(** The stack of the TSS, once set, is the end of the registers of a context. *)
Definition stack_ok (l : lowlevel) : Prop :=
  match esp0 (ll_tss l) with Some (_, off) => off = sizeof_pusha + sizeof_iframe | None => True end.

Definition state_rel (a : mem * lowlevel) (b : fmem * lowlevel) : Prop :=
  mem_rel a.1 b.1 /\ a.2 = b.2 /\ stack_ok a.2.

Definition output_rel (a : hw_output * (mem * lowlevel)) (b : hw_output * (fmem * lowlevel)) : Prop :=
  a.1 = b.1 /\ state_rel a.2 b.2.

Lemma load_rel m fm p :
  mem_rel m fm -> res_rel (fun c f => hw_rel (hw c) f) (load m p) (fload fm p).
Proof. intros Hm. unfold load, fload. by destruct (Hm p). Qed.

Lemma insert_rel m fm p c f :
  mem_rel m fm -> hw_rel (hw c) f -> mem_rel (<[p := c]> m) (<[p := f]> fm).
Proof.
  intros Hm Hc q. destruct (decide (p = q)) as [->|].
  - rewrite !lookup_insert_eq. by constructor.
  - by rewrite !lookup_insert_ne.
Qed.

(** A store among the 13 words that both layouts share. *)
Lemma hw_store_rel m fm p k v :
  mem_rel m fm -> (k < 13)%nat ->
  res_rel mem_rel (LowLevel.hw_store m p (4 * Z.of_nat k) v) (hw_store fm p (4 * Z.of_nat k) v).
Proof.
  intros Hm Hk. unfold LowLevel.hw_store, hw_store.
  eapply res_rel_bind; [by apply load_rel|]. intros [h s pd rg] [r f cd dd] (Er & Ef & Ec & Ed).
  cbn [hw regs iframe code_segment data_segment] in *. subst.
  rewrite (Z.mul_comm 4), Z.mod_mul, Z.div_mul, Nat2Z.id by lia. zbool. cbn [andb].
  destruct h as [[w0 w1 w2 w3 w4 w5 w6 w7] [w8 w9 w10 w11 w12] st sz].
  unfold LowLevel.hw_words, hw_words.
  cbn [hw Contexts.regs Contexts.iframe regs iframe edi esi ebp pusha_esp ebx edx ecx eax eip cs
       flags esp ss code_segment data_segment start_address memsize].
  set (cd := create_code_descriptor _ _ _ _ _ _ _ _). set (dd := create_data_descriptor _ _ _ _ _ _ _ _).
  do 13 (destruct k as [|k];
    [cbn [insert list_insert LowLevel.hw_of_words hw_of_words]; rewrite !date_words;
     by apply insert_rel|]).
  lia.
Qed.

Lemma pushes_rel vs : forall m fm p k,
  mem_rel m fm -> (k <= 13)%nat -> (length vs <= k)%nat ->
  res_rel (fun a b => mem_rel a.1 b.1 /\ a.2 = b.2 /\ b.2 = 4 * Z.of_nat (k - length vs))
    (LowLevel.pushes vs m p (4 * Z.of_nat k)) (pushes vs fm p (4 * Z.of_nat k)).
Proof.
  induction vs as [|v vs IH]; intros m fm p k Hm Hk Hl.
  { cbn. by rewrite Nat.sub_0_r. }
  cbn [LowLevel.pushes pushes length] in *. destruct k as [|k]; [lia|].
  replace (4 * Z.of_nat (S k) - 4) with (4 * Z.of_nat k) by lia.
  eapply res_rel_bind; [apply hw_store_rel; [done|lia]|]. intros m1 fm1 Hm1.
  apply IH; [done|lia..].
Qed.

Lemma interrupt_rel syms c m fm l :
  mem_rel m fm -> stack_ok l ->
  res_rel (fun a b => a.1 = b.1 /\ mem_rel a.2 b.2)
    (LowLevel.interrupt_entry syms [] c m l) (interrupt_entry syms c fm l).
Proof.
  intros Hm Hs. unfold LowLevel.interrupt_entry, interrupt_entry, stack_ok in *.
  destruct (esp0 (ll_tss l)) as [[p off]|]; [|done]. subst off. rewrite app_nil_r.
  change (sizeof_pusha + sizeof_iframe) with (4 * Z.of_nat 13).
  eapply res_rel_bind; [apply pushes_rel; [done|cbn; lia..]|].
  intros [m1 off1] [fm1 off1'] (Hm1 & E1 & E2). cbn [fst snd] in *. subst off1 off1'.
  eapply res_rel_bind; [by apply (pushes_rel _ m1 fm1 p 8); [|cbn; lia..]|].
  intros [m2 off2] [fm2 off2'] (Hm2 & E1 & E2). cbn [fst snd] in *. subst off2 off2'. done.
Qed.

(** The tables of a switch are the same. *)
Lemma switch_tables_rel p h f l :
  hw_rel h f -> switch_tables p f l = LowLevel.switch_tables p h l.
Proof.
  intros (_ & _ & Ec & Ed). unfold switch_tables, LowLevel.switch_tables, copy64.
  by rewrite Ec, Ed, !wrap_wrap by lia.
Qed.

Lemma switch_rel p m fm l :
  mem_rel m fm ->
  res_rel eq (LowLevel.hw_context_switch_no_idle p m l) (hw_context_switch_no_idle p fm l).
Proof.
  intros Hm. unfold LowLevel.hw_context_switch_no_idle, hw_context_switch_no_idle.
  eapply res_rel_bind; [by apply load_rel|]. intros c f Hc.
  rewrite (switch_tables_rel p (hw c) f l Hc). destruct Hc as (Er & Ef & _).
  unfold restore, LowLevel.restore. rewrite Er, Ef.
  destruct (load_ds_reg _ _); [cbn [rbind]|done]. by destruct (iret_ok _ _).
Qed.

Lemma hw_rel_init h f pc arg start fin :
  hw_rel h f ->
  hw_rel (LowLevel.hw_context_init h pc arg start fin) (hw_context_init f pc arg start fin).
Proof. intros (Er & Ef & _ & _). unfold hw_rel, hw_context_init. cbn. by rewrite Er, Ef. Qed.

Lemma hw_rel_idle_init syms h f :
  hw_rel h f ->
  hw_rel (LowLevel.hw_context_idle_init syms h) (hw_context_idle_init syms f).
Proof. intros (Er & Ef & _ & _). unfold hw_rel, hw_context_idle_init. cbn. by rewrite Er, Ef. Qed.

Lemma hw_rel_return1 h f r :
  hw_rel h f -> hw_rel (LowLevel.hw_context_set_return1 h r) (hw_context_set_return1 f r).
Proof. intros (Er & Ef & Ec & Ed). unfold hw_rel, hw_context_set_return1. cbn. by rewrite Er. Qed.

Lemma switch_stack p m l c l1 :
  LowLevel.hw_context_switch_no_idle p m l = Ok (c, l1) -> stack_ok l1.
Proof.
  unfold LowLevel.hw_context_switch_no_idle. intros E. res_inv.
  destruct (iret_ok _ _); [|done]. by injection E as _ <-.
Qed.

Lemma silent_rel m fm l :
  mem_rel m fm -> stack_ok l -> output_rel (Silent, (m, l)) (Silent, (fm, l)).
Proof. done. Qed.

(** A load in both builds: related contexts, or the same error. *)
Local Ltac load_cases p :=
  match goal with
  | Hm : mem_rel ?m ?fm |- _ =>
      let Hl := fresh "Hl" in
      pose proof (load_rel m fm p Hm) as Hl;
      destruct (load m p), (fload fm p); cbn in Hl; [|by destruct Hl..|by subst]; cbn [rbind]
  end.

(** One event preserves the relation and has the same output in both builds. *)
Lemma event_rel syms e st fst :
  state_rel st fst -> res_rel output_rel (dynamic_event syms e st) (fixed_event syms e fst).
Proof.
  destruct st as [m l], fst as [fm l']. intros (Hm & El & Hl). cbn [fst snd] in *. subst l'.
  destruct e as [p pc arg start fin|p r|dest src|p|c]; cbn [dynamic_event fixed_event];
    unfold set_return1, modify.
  - load_cases p. apply silent_rel; [|done]. by apply insert_rel, hw_rel_init.
  - load_cases p. apply silent_rel; [|done]. by apply insert_rel, hw_rel_return1.
  - load_cases src. load_cases dest. apply silent_rel; [|done]. by apply insert_rel.
  - pose proof (switch_rel p m fm l Hm) as Hr.
    destruct (LowLevel.hw_context_switch_no_idle p m l) as [[c1 l1]|] eqn:E,
      (hw_context_switch_no_idle p fm l) as [[]|]; cbn in Hr; try done.
    simplify_eq.
    by apply switch_stack in E.
  - eapply res_rel_bind; [by apply interrupt_rel|]. intros [p1 m1] [p2 m2] [E Hm1].
    cbn in E, Hm1. by subst p2.
Qed.

(** Whole runs agree. *)
Lemma hw_run_rel syms es : forall st fst,
  state_rel st fst ->
  res_rel (fun a b => a.1 = b.1 /\ state_rel a.2 b.2)
    (hw_run (dynamic_event syms) es st) (hw_run (fixed_event syms) es fst).
Proof.
  induction es as [|e es IH]; intros st fst Hst; [done|]. cbn [hw_run].
  eapply res_rel_bind; [by apply event_rel|]. intros [o1 st1] [o2 fst1] [Eo Hst1].
  eapply res_rel_bind; [by apply IH|]. intros [os1 st2] [os2 fst2] [Eos Hst2].
  cbn in *. by subst.
Qed.
End FixedGdt.
