(* ===== verification/PrivilegedIdle.v ===== *)
(** * The build option PRIVILEGED_IDLE

    The kernel waits for interrupts itself, at privilege 0 and with its stack on
    the idle context, instead of running an idle task (low_level.c). *)

From stdpp Require Import options.
From S2P Require Import Prelude Contexts PQueue Timer Scheduler Fprint Terminal Segment.
From S2P Require Import LowLevel HighLevel Kernel.

Module PrivilegedIdle.

(** Where the kernel goes next: user code, or the [hlt] of hw_context_idle,
    with the stack on which the next interrupt will be pushed. *)
Inductive target := ToUser (c : cpu) | Waiting (p : cptr) (off : Z).

(** sizeof(struct intra_privilege_interrupt_frame). *)
Definition sizeof_intra_frame : Z := 12.

Definition hw_context_idle (img : user_tasks_image) : target :=
  Waiting (context_idle img) (sizeof_pusha + sizeof_intra_frame).

Definition hw_context_switch_no_idle (img : user_tasks_image) (ctx : cptr) (m : mem) (l : lowlevel)
    : res (cpu * lowlevel) :=
  let* _ := assertion (negb (hw_context_is_idle img ctx)) "!hw_context_is_idle(ctx)" in
  LowLevel.hw_context_switch_no_idle ctx m l.

Definition hw_context_switch (img : user_tasks_image) (ctx : cptr) (m : mem) (l : lowlevel)
    : res (target * lowlevel) :=
  if hw_context_is_idle img ctx then Ok (hw_context_idle img, l)
  else let* (c, l1) := hw_context_switch_no_idle img ctx m l in Ok (ToUser c, l1).

(** An interrupt at privilege 0, with registers [c]: the stack does not change,
    and neither esp nor ss is pushed; then pusha, as in every handler. *)
Definition idle_interrupt_entry (syms : symbols) (c : cpu) (p : cptr) (off : Z) (m : mem)
    : res (cptr * mem) :=
  let* (m1, off1) := pushes [c_flags c; c_cs c; c_eip c] m p off in
  let* (m2, off2) := pushes [c_eax c; c_ecx c; c_edx c; c_ebx c;
                             u32 (sym_context syms p + off1);
                             c_ebp c; c_esi c; c_edi c] m1 p off1 in
  if off2 =? 0 then Ok (p, m2) else Err (Undef BadPointer).

(** What it leaves in the idle context. *)
Definition idle_saved (syms : symbols) (p : cptr) (c : cpu) (h : hw_context) : hw_context :=
  HwContext
    (Pusha (c_edi c) (c_esi c) (c_ebp c) (u32 (sym_context syms p + 32)) (c_ebx c) (c_edx c)
       (c_ecx c) (c_eax c))
    (Iframe (c_eip c) (c_cs c) (c_flags c) (esp (iframe h)) (ss (iframe h)))
    (start_address h) (memsize h).

Lemma idle_interrupt_entry_ok syms c p m ctx :
  m !! p = Some ctx ->
  idle_interrupt_entry syms c p (sizeof_pusha + sizeof_intra_frame) m
    = Ok (p, <[p := set_hw (idle_saved syms p c (hw ctx)) ctx]> m).
Proof.
  intros Hp. unfold idle_interrupt_entry.
  destruct (pushes_ok [c_flags c; c_cs c; c_eip c] 11 m p ctx Hp) as (h1 & Hh1 & E1); [cbn; lia|].
  change (sizeof_pusha + sizeof_intra_frame) with (4 * Z.of_nat 11). rewrite E1. cbn [rbind].
  change (4 * Z.of_nat (11 - length [c_flags c; c_cs c; c_eip c])) with 32.
  match goal with |- context [pushes ?vs (<[p := set_hw h1 ctx]> m) p 32] =>
    destruct (pushes_ok vs 8 (<[p := set_hw h1 ctx]> m) p (set_hw h1 ctx)) as (h2 & Hh2 & E2);
      [apply lookup_insert_eq|cbn; lia|] end.
  change (4 * Z.of_nat 8) with 32 in E2. rewrite E2. cbn [rbind].
  rewrite insert_insert_eq. cbn [set_hw hw] in Hh2. rewrite Hh1 in Hh2.
  assert (h2 = idle_saved syms p c (hw ctx)) as -> by (apply hw_words_inj; rewrite Hh2; reflexivity).
  reflexivity.
Qed.

(** ** The timer interrupt *)

Section Handler.
Context (cfg : config) (syms : symbols) (img : user_tasks_image) (kernel_end : Z).
Context {St : Type} `{SchedulerSpec St}.
Local Abbreviation kst := (kstate St).
Implicit Types (k : kst) (p ctx : cptr) (live : list cptr).

Definition switch_to ctx k : res (target * kst) :=
  let* (t, l) := hw_context_switch img ctx (k_mem k) (k_ll k) in Ok (t, set_ll l k).

Definition high_level_timer_interrupt_handler ctx (curtime : Z) k : res (target * kst) :=
  let* s1 := sched_wake_tasks img curtime (k_s k) in
  let* (new_ctx, s2) :=
    if context_is_idle img ctx then sched_choose_next img s1
    else sched_maybe_preempt img ctx s1 in
  switch_to new_ctx (set_s s2 k).

Definition timer_alarm ctx k : res (target * kst) :=
  let tm := s_timer (k_s k) in
  let cur := current_time tm in
  if next_wake_date tm <=? cur then
    high_level_timer_interrupt_handler ctx cur
      (set_s (with_timer (timer_dont_wake tm) (k_s k)) k)
  else switch_to ctx k.

(** A timer interrupt that arrives while the kernel waits in hw_context_idle,
    with registers [c]. *)
Definition idle_timer_interrupt (c : cpu) (p : cptr) (off : Z) k : res ((target * kst) + terminal) :=
  let* (ctx, m) := idle_interrupt_entry syms c p off (k_mem k) in
  let* k1 := timer_tick cfg (set_kmem m k) in
  catch (k_term k1) (timer_alarm ctx k1).

(** The kernel with [live] contexts in phase [ph]; nothing is asked of the saved
    registers of the idle context. *)
Record waiting_inv k live (ph : phase) : Prop := {
  wi_tables : kernel_tables syms (k_ll k);
  wi_sched : sched_inv img (k_s k) live ph;
  wi_contexts q : q ∈ live -> exists c, k_mem k !! q = Some c /\ confined kernel_end (hw c);
  wi_idle : is_Some (k_mem k !! context_idle img);
  wi_term : term_ok (k_term k)
}.

(** After the handler: the kernel waits again, or a task runs in its segments
    with its context ready for the next interrupt. *)
Definition resumed (t : target) k live : Prop :=
  match t with
  | Waiting p off => p = context_idle img /\ off = sizeof_pusha + sizeof_intra_frame /\
      waiting_inv k live Idling
  | ToUser c => user_cpu c /\ exists p, waiting_inv k live (Running p) /\
      esp0 (ll_tss (k_ll k)) = Some (p, sizeof_pusha + sizeof_iframe)
  end.

Lemma waiting_inv_sched k live ph ph' s' :
  waiting_inv k live ph -> s_mem s' ≈ₙ k_mem k -> sched_inv img s' live ph' ->
  waiting_inv (set_s s' k) live ph'.
Proof using Type.
  intros [Ht _ Hc Hi Hterm] Hm Hs. split; [done..| | |done].
  - intros q Hq. destruct (Hc q Hq) as (c & Ec & Hconf).
    destruct (mem_eq_next_lookup _ (s_mem s') q c (symmetry Hm) Ec) as [n En].
    by exists (set_next n c).
  - by eapply mem_eq_next_is_Some.
Qed.

Lemma switch_idle k live :
  waiting_inv k live Idling ->
  switch_to (context_idle img) k = Ok (hw_context_idle img, set_ll (k_ll k) k) /\
  resumed (hw_context_idle img) (set_ll (k_ll k) k) live.
Proof using Type.
  intros Hk. unfold switch_to, hw_context_switch, hw_context_is_idle.
  rewrite bool_decide_true by done. split; [done|]. split; [done|]. split; [done|].
  by destruct Hk.
Qed.

Lemma switch_task k live p :
  waiting_inv k live (Running p) ->
  exists t k', switch_to p k = Ok (t, k') /\ resumed t k' live.
Proof using Type.
  intros Hk. pose proof (sched_inv_running _ _ _ _ (wi_sched _ _ _ Hk)) as Hp.
  destruct (sched_inv_live _ _ _ _ (wi_sched _ _ _ Hk)) as (_ & Hni & _).
  destruct (wi_contexts _ _ _ Hk p Hp) as (c & Ec & Hh & _).
  unfold switch_to, hw_context_switch, hw_context_switch_no_idle, hw_context_is_idle.
  rewrite bool_decide_false by (intros ->; done). cbn [negb assertion rbind].
  pose proof (hw_context_switch_ok p (k_mem k) (k_ll k) c Ec Hh) as E.
  unfold LowLevel.hw_context_switch in E. rewrite E. cbn [rbind].
  eexists _, _. split; [reflexivity|]. destruct Hh as (_ & _ & Ecs & Ess). split; [by split|].
  exists p. split; [|done]. destruct Hk as [[] ? ? ? ?]. by split; [split|..].
Qed.

(** A tick of the clock: only the timer, the terminal and the ports change. *)
Lemma timer_tick_frame k :
  term_ok (k_term k) -> count_ok cfg k ->
  exists k1, timer_tick cfg k = Ok k1 /\ term_ok (k_term k1) /\
    k_ll k1 = add_ports [outb master_pic_command 0x20] (k_ll k).
Proof using Type.
  unfold count_ok. intros Ht Hcount. unfold timer_tick. destruct (cfg_debug cfg); [|by eexists].
  unfold timer_count. cbn [timer_advance count s_timer k_s set_ll].
  rewrite (proj2 (Z.eqb_neq _ _) (Hcount eq_refl)). cbn [rbind k_term set_ll].
  assert (exists t, (if Z.rem (count (s_timer (k_s k)) + 1) 100 =? 0
      then terminal_putchar 38 (k_term k) else Ok (k_term k)) = Ok t /\ term_ok t) as (t & Et & Ht').
  { destruct (_ =? 0); [by apply terminal_putchar_total|eauto]. }
  rewrite Et. cbn [rbind]. by eexists.
Qed.

(** The saved registers of the idle context and the clock do not matter. *)
Lemma waiting_inv_tick k k1 live tm h ci :
  waiting_inv k live Idling -> k_mem k !! context_idle img = Some ci ->
  k_s k1 = with_timer tm (with_mem (<[context_idle img := set_hw h ci]> (k_mem k)) (k_s k)) ->
  next_wake_date tm = next_wake_date (s_timer (k_s k)) ->
  kernel_tables syms (k_ll k1) -> term_ok (k_term k1) -> waiting_inv k1 live Idling.
Proof using Type.
  intros [_ Hs Hc _ _] Hci Es Ew Htab Hterm.
  destruct (sched_inv_live _ _ _ _ Hs) as (_ & Hni & _).
  split; [done|rewrite Es|unfold k_mem; rewrite Es; cbn..|done].
  - apply (sched_inv_clock img (with_mem _ (k_s k))); [|done].
    apply sched_inv_mem; [done|]. intros q Hq. unfold k_mem.
    rewrite lookup_insert_ne; [done|]. by intros <-.
  - intros q Hq. rewrite lookup_insert_ne by (intros <-; done). by apply Hc.
  - rewrite lookup_insert_eq. eauto.
Qed.

(** The alarm: the kernel waits again or resumes a task. *)
Lemma idle_alarm_ok k live :
  image_ok img -> waiting_inv k live Idling ->
  exists t k', timer_alarm (context_idle img) k = Ok (t, k') /\ resumed t k' live.
Proof using Type.
  intros Himg Hk. unfold timer_alarm.
  destruct (Z.leb_spec (next_wake_date (s_timer (k_s k))) (current_time (s_timer (k_s k)))) as [Hd|_].
  2:{ destruct (switch_idle k live Hk) as [-> Hr]. eauto. }
  unfold high_level_timer_interrupt_handler, context_is_idle. rewrite bool_decide_true by done.
  cbn [set_s k_s].
  destruct (sched_wake_idle_spec img (k_s k) live _ Himg (wi_sched _ _ _ Hk) Hd)
    as (s1 & -> & Hs1 & (Hm1 & _)). cbn [rbind].
  destruct (sched_choose_next_spec img s1 live Himg Hs1) as (p' & s2 & -> & Hs2 & (Hm2 & _)).
  cbn [rbind]. assert (s_mem s2 ≈ₙ k_mem k) as Hm by (by etrans).
  change (set_s s2 (set_s _ k)) with (set_s s2 k).
  destruct Hs2 as [[-> Hs2]|Hs2].
  - destruct (switch_idle (set_s s2 k) live) as [-> Hr]; [by eapply waiting_inv_sched|]. eauto.
  - apply switch_task. by eapply waiting_inv_sched.
Qed.

Lemma idle_timer_interrupt_ok k live c :
  image_ok img -> waiting_inv k live Idling -> count_ok cfg k ->
  exists t k', idle_timer_interrupt c (context_idle img) (sizeof_pusha + sizeof_intra_frame) k
      = Ok (inl (t, k')) /\ resumed t k' live.
Proof using Type.
  intros Himg Hk Hcount. destruct (wi_idle _ _ _ Hk) as [ci Hci].
  unfold idle_timer_interrupt. rewrite (idle_interrupt_entry_ok _ _ _ _ ci Hci). cbn [rbind].
  destruct (timer_tick_frame (set_kmem (<[context_idle img :=
    set_hw (idle_saved syms (context_idle img) c (hw ci)) ci]> (k_mem k)) k)) as (k1 & E & Ht1 & El);
    [apply (wi_term _ _ _ Hk)|done|].
  rewrite E. cbn [rbind]. apply timer_tick_timer in E as (tm & Es & Ew & _).
  destruct (idle_alarm_ok k1 live Himg) as (t & k' & -> & Hr); [|by exists t, k'].
  eapply (waiting_inv_tick k); [done|exact Hci|exact Es|exact Ew| |done].
  rewrite El. by destruct (wi_tables _ _ _ Hk).
Qed.
End Handler.
End PrivilegedIdle.
