(* ===== verification/InjectedBugs.v ===== *)
(** * The faults of syscall_trigger_bug

    INJECT_BUG0 to INJECT_BUG6 (high_level.c), each with what the kernel does
    next, which may be to leave for code of the task's choice. *)

From stdpp Require Import options.
From S2P Require Import Prelude Contexts PQueue Timer Scheduler Fprint Terminal Segment.
From S2P Require Import LowLevel HighLevel Kernel.

Module InjectedBugs.

Inductive bug :=
  | INJECT_BUG0 | INJECT_BUG1 | INJECT_BUG2 | INJECT_BUG3 | INJECT_BUG4 | INJECT_BUG5 | INJECT_BUG6.

(** Where syscall_trigger_bug can lead: user mode; code of the user's choice at
    privilege 0, by iret or by a jump; a store to an address that belongs to no
    context; a call of printf, which executes [int] inside the kernel. *)
Inductive outcome (St : Type) :=
  | Resumes (c : cpu) (k : kstate St)
  | Privileged (c : cpu) (k : kstate St)
  | Jumps (addr : Z) (k : kstate St)
  | WildStore (addr v : Z) (k : kstate St)
  | NestedSyscalls (r : Z) (k : kstate St).
Arguments Resumes {St} c k.
Arguments Privileged {St} c k.
Arguments Jumps {St} addr k.
Arguments WildStore {St} addr v k.
Arguments NestedSyscalls {St} r k.

Definition set_cs (v : Z) (h : hw_context) : hw_context :=
  let f := iframe h in set_iframe (Iframe (eip f) v (flags f) (esp f) (ss f)) h.

Definition set_start_address (v : Z) (h : hw_context) : hw_context :=
  HwContext (regs h) (iframe h) v (memsize h).

(** An argument of type int. *)
Definition sint (w : Z) : Z := if w <? 2 ^ 31 then w else w - 2 ^ 32.

(** The context whose saved hardware state holds the byte at [addr]. *)
Definition context_at (syms : symbols) (m : mem) (addr : Z) : option cptr :=
  match list_find (fun pc => sym_context syms pc.1 <= addr < sym_context syms pc.1 + 60)
          (map_to_list m) with
  | Some (_, (p, _)) => Some p
  | None => None
  end.

(** A store of the kernel at an address given as an integer. *)
Definition kernel_store (syms : symbols) (m : mem) (addr v : Z) : option mem :=
  match context_at syms m addr with
  | Some p => match hw_store m p (addr - sym_context syms p) v with Ok m1 => Some m1 | Err _ => None end
  | None => None
  end.

Section Bugs.
Context (syms : symbols) {St : Type}.
Local Abbreviation kst := (kstate St).
Implicit Types (k : kst) (ctx : cptr).

(** hw_context_switch_no_idle with any saved code selector: iret to the
    privilege level it had keeps the stack and pops three words only. *)
Definition leave ctx k : res (outcome St) :=
  let* c := load (k_mem k) ctx in
  let h := set_cs (u16 (cs (iframe (hw c)))) (hw c) in
  let l1 := switch_tables ctx h (k_ll k) in
  let* ds := load_ds_reg (ll_gdt l1) (ss (iframe h)) in
  if selector_rpl (cs (iframe h)) =? 0 then
    let* s := load_code_segment (ll_gdt l1) (cs (iframe h)) in
    let r := restore h ds in
    Ok (Privileged (Cpu (c_edi r) (c_esi r) (c_ebp r) (c_ebx r) (c_edx r) (c_ecx r) (c_eax r)
                      (c_eip r) s (c_flags r) (u32 (sym_context syms ctx + 44))
                      (gdt_segment_selector 0 KERNEL_DATA_SEGMENT_INDEX) ds) (set_ll l1 k))
  else if iret_ok (ll_gdt l1) (iframe h) then Ok (Resumes (restore h ds) (set_ll l1 k))
  else Err (Undef HwFault).

(** syscall_trigger_bug; [arg3] is the word above the kernel stack. *)
Definition syscall_trigger_bug (b : bug) ctx (arg1 arg2 arg3 : Z) k : res (outcome St) :=
  match b with
  | INJECT_BUG0 => Ok (Jumps arg1 k)
  | INJECT_BUG1 =>
      let* m := modify (k_mem k) ctx (fun c => set_hw (set_cs arg1 (hw c)) c) in
      leave ctx (set_kmem m k)
  | INJECT_BUG2 =>
      let* m := modify (k_mem k) ctx (fun c => set_hw (set_start_address arg2 (hw c)) c) in
      leave ctx (set_kmem m k)
  | INJECT_BUG3 =>
      match kernel_store syms (k_mem k) arg2 arg3 with
      | Some m => leave ctx (set_kmem m k)
      | None => Ok (WildStore arg2 arg3 k)
      end
  | INJECT_BUG4 => leave ctx k
  | INJECT_BUG5 => Err (default_interrupt_handler 6)
  | INJECT_BUG6 =>
      if (sint arg3 =? 0) || (sint arg2 =? - 2 ^ 31) && (sint arg3 =? -1)
      then Err (default_interrupt_handler 0)
      else Ok (NestedSyscalls (Z.quot (sint arg2) (sint arg3)) k)
  end.
End Bugs.

(** ** What the bugs allow *)

(** Contexts do not overlap. *)
Definition contexts_apart (syms : symbols) (m : mem) : Prop :=
  forall p q, is_Some (m !! p) -> is_Some (m !! q) -> p <> q ->
    sym_context syms p + 60 <= sym_context syms q \/ sym_context syms q + 60 <= sym_context syms p.

Lemma context_at_ok syms m p off :
  contexts_apart syms m -> is_Some (m !! p) -> 0 <= off < 60 ->
  context_at syms m (sym_context syms p + off) = Some p.
Proof.
  intros Ha Hp Ho. unfold context_at. destruct (list_find _ _) as [[i [q c]]|] eqn:E.
  - apply list_find_Some in E as (Hi & Hr & _). cbn in Hr. f_equal.
    apply list_elem_of_lookup_2, elem_of_map_to_list in Hi.
    destruct (decide (q = p)) as [|Hne]; [done|].
    destruct (Ha q p) as [?|?]; [eauto|done|done|lia..].
  - exfalso. destruct Hp as [c Hc]. apply list_find_None in E. rewrite Forall_forall in E.
    apply (E (p, c)); [by apply elem_of_map_to_list|]. cbn. lia.
Qed.

Section Facts.
Context (syms : symbols) {St : Type}.
Implicit Types (k : kstate St).

(** Leaving for a context whose code selector is the user's, as without bugs. *)
Lemma leave_user k p ctx :
  k_mem k !! p = Some ctx -> user_hw (hw ctx) ->
  leave syms p k =
    Ok (Resumes (restore (hw ctx) (gdt_segment_selector 3 USER_DATA_SEGMENT_INDEX))
         (set_ll (switch_tables p (hw ctx) (k_ll k)) k)).
Proof using Type.
  intros Ec Hh. unfold leave. rewrite (proj2 (load_ok _ _ _) Ec). cbn [rbind].
  destruct Hh as (Hs & Hm & Ecs & Ess).
  assert (set_cs (u16 (cs (iframe (hw ctx)))) (hw ctx) = hw ctx) as ->.
  { rewrite Ecs. change (u16 (gdt_segment_selector 3 USER_CODE_SEGMENT_INDEX))
      with (gdt_segment_selector 3 USER_CODE_SEGMENT_INDEX).
    rewrite <-Ecs. by destruct (hw ctx) as [? [] ? ?]. }
  assert (user_hw (hw ctx)) as Hh by done. unfold load_ds_reg, iret_ok.
  rewrite Ecs, Ess, switch_user_code, switch_user_data by done. reflexivity.
Qed.

(** Leaving for a context whose code selector is the kernel's. *)
Lemma leave_kernel k p ctx :
  k_mem k !! p = Some ctx -> gdt_kernel_code (ll_gdt (k_ll k)) = kernel_code_descriptor ->
  cs (iframe (hw ctx)) = gdt_segment_selector 0 KERNEL_CODE_SEGMENT_INDEX ->
  in_width 32 (start_address (hw ctx)) -> in_width 32 (memsize (hw ctx)) ->
  ss (iframe (hw ctx)) = gdt_segment_selector 3 USER_DATA_SEGMENT_INDEX ->
  exists c k', leave syms p k = Ok (Privileged c k') /\ c_eip c = eip (iframe (hw ctx)) /\
    c_cs c = gdt_segment_selector 0 KERNEL_CODE_SEGMENT_INDEX.
Proof using Type.
  intros Ec Hg Ecs Hs Hm Ess. unfold leave. rewrite (proj2 (load_ok _ _ _) Ec). cbn [rbind].
  set (h := set_cs (u16 (cs (iframe (hw ctx)))) (hw ctx)).
  assert (cs (iframe h) = gdt_segment_selector 0 KERNEL_CODE_SEGMENT_INDEX) as Ecs'
    by (unfold h; cbn; by rewrite Ecs).
  set (hu := set_cs (gdt_segment_selector 3 USER_CODE_SEGMENT_INDEX) (hw ctx)).
  change (switch_tables p h (k_ll k)) with (switch_tables p hu (k_ll k)).
  assert (user_hw hu) as Hu by (by repeat split; try apply Hs; try apply Hm).
  change (ss (iframe h)) with (ss (iframe (hw ctx))).
  rewrite Ecs', Ess. unfold load_ds_reg. rewrite switch_user_data by done.
  rewrite load_kernel_code by done. cbn. eauto.
Qed.

(** The store of INJECT_BUG3 in the saved state of a context. *)
Lemma kernel_store_context m p c i v :
  contexts_apart syms m -> m !! p = Some c -> (i < 15)%nat ->
  exists h, hw_words h = <[i := v]> (hw_words (hw c)) /\
    kernel_store syms m (sym_context syms p + 4 * Z.of_nat i) v = Some (<[p := set_hw h c]> m).
Proof using Type.
  intros Ha Ec Hi. unfold kernel_store. rewrite context_at_ok by (done || lia || eauto).
  rewrite Z.add_simpl_l. destruct (hw_store_ok m p c i v Ec Hi) as (h & Eh & ->). eauto.
Qed.

Lemma bug1_privileged k p ctx arg2 arg3 :
  k_mem k !! p = Some ctx -> user_hw (hw ctx) ->
  gdt_kernel_code (ll_gdt (k_ll k)) = kernel_code_descriptor ->
  exists c k', syscall_trigger_bug syms INJECT_BUG1 p
      (gdt_segment_selector 0 KERNEL_CODE_SEGMENT_INDEX) arg2 arg3 k = Ok (Privileged c k') /\
    c_eip c = eip (iframe (hw ctx)) /\ selector_rpl (c_cs c) = 0.
Proof using Type.
  intros Ec (Hs & Hm & _ & Ess) Hg. cbn [syscall_trigger_bug]. rewrite (modify_ok _ _ _ _ Ec).
  cbn [rbind]. match goal with |- context [leave syms p ?k1] =>
    destruct (leave_kernel k1 p (set_hw (set_cs (gdt_segment_selector 0 KERNEL_CODE_SEGMENT_INDEX)
      (hw ctx)) ctx)) as (c & k' & -> & Eeip & Ecs) end; [apply lookup_insert_eq|done..|].
  exists c, k'. split; [done|]. split; [exact Eeip|]. by rewrite Ecs.
Qed.

Lemma bug2_moves k p ctx arg1 a arg3 :
  k_mem k !! p = Some ctx -> user_hw (hw ctx) -> in_width 32 a ->
  exists c k', syscall_trigger_bug syms INJECT_BUG2 p arg1 a arg3 k = Ok (Resumes c k') /\
    user_cpu c /\ seg_base (decode_segment (gdt_user_data (ll_gdt (k_ll k')))) = a.
Proof using Type.
  intros Ec (Hs & Hm & Ecs & Ess) Ha. cbn [syscall_trigger_bug]. rewrite (modify_ok _ _ _ _ Ec).
  cbn [rbind]. assert (user_hw (set_start_address a (hw ctx))) as Hu by (by split).
  match goal with |- context [leave syms p ?k1] =>
    rewrite (leave_user k1 p (set_hw (set_start_address a (hw ctx)) ctx)) end;
    [|apply lookup_insert_eq|done].
  eexists _, _. split; [reflexivity|]. split; [by split|]. cbn [k_ll set_ll].
  by rewrite switch_data_segment.
Qed.

Lemma bug3_stores k p q ctx cq arg1 arg3 i :
  k_mem k !! p = Some ctx -> user_hw (hw ctx) -> contexts_apart syms (k_mem k) ->
  q <> p -> k_mem k !! q = Some cq -> (i < 15)%nat ->
  exists c k' cq', syscall_trigger_bug syms INJECT_BUG3 p arg1
      (sym_context syms q + 4 * Z.of_nat i) arg3 k = Ok (Resumes c k') /\
    k_mem k' !! q = Some cq' /\ hw_words (hw cq') !! i = Some arg3.
Proof using Type.
  intros Ec Hh Ha Hne Hq Hi. cbn [syscall_trigger_bug].
  destruct (kernel_store_context (k_mem k) q cq i arg3 Ha Hq Hi) as (h & Eh & ->).
  match goal with |- context [leave syms p ?k1] => rewrite (leave_user k1 p ctx) end;
    [|by change (<[q := set_hw h cq]> (k_mem k) !! p = Some ctx); rewrite lookup_insert_ne|done].
  eexists _, _, (set_hw h cq). split; [reflexivity|]. split; [apply lookup_insert_eq|].
  cbn [hw set_hw]. rewrite Eh. apply list_lookup_insert_eq. by rewrite length_hw_words.
Qed.

Lemma bug4_harmless k p ctx arg1 arg2 arg3 :
  k_mem k !! p = Some ctx -> user_hw (hw ctx) ->
  exists c k', syscall_trigger_bug syms INJECT_BUG4 p arg1 arg2 arg3 k = Ok (Resumes c k') /\
    user_cpu c /\ k_mem k' = k_mem k.
Proof using Type.
  intros Ec Hh. cbn [syscall_trigger_bug]. rewrite (leave_user k p ctx Ec Hh).
  destruct Hh as (_ & _ & Ecs & Ess). eexists _, _. split; [reflexivity|]. by split.
Qed.
End Facts.
End InjectedBugs.
