(* ===== verification/RangeAllocation.v ===== *)
(** * Allocation of contexts by range

    The [#else] branch of syscall_dup_thread (high_level.c), in the two modes of
    config.h, DYNAMIC_TASK_CREATION_RECURSIVE and
    DYNAMIC_TASK_CREATION_PARENT_CHILDS: a context takes its child from the
    [range] contexts that follow it in the array of its task. *)

From stdpp Require Import options.
From S2P Require Import Prelude Contexts PQueue Timer Scheduler Fprint Terminal Segment.
From S2P Require Import LowLevel HighLevel Kernel.

Module RangeAllocation.

(** DYNAMIC_TASK_CREATION_RECURSIVE and DYNAMIC_TASK_CREATION_PARENT_CHILDS. *)
Inductive creation := Recursive_ | ParentChilds.

(** ctx + n, in the array of contexts that holds ctx. *)
Definition ptr_add (p : cptr) (n : Z) : cptr :=
  match p with
  | ContextFor t s => ContextFor t (s + Z.to_nat n)
  | Reserve i => Reserve (i + Z.to_nat n)
  | IdleCtx i => IdleCtx (i + Z.to_nat n)
  end.

(** The choice of ctx2, and the ranges. *)
Definition allocate (mode : creation) (ctx : cptr) (range0 : Z) (m : mem) : res (cptr * mem) :=
  match mode with
  | Recursive_ =>
      let range1 := Z.shiftr range0 1 in
      let* m1 := modify m ctx (set_range range1) in Ok (ptr_add ctx range1, m1)
  | ParentChilds =>
      let range1 := u32 (range0 - 1) in
      let* m1 := modify m ctx (set_range range1) in
      let ctx2 := ptr_add ctx range1 in
      let* m2 := modify m1 ctx2 (set_range 0) in Ok (ctx2, m2)
  end.

(** Allocation and copy. *)
Definition take_context (mode : creation) (ctx : cptr) (range0 : Z) (m : mem) : res (cptr * mem) :=
  let* (ctx2, m1) := allocate mode ctx range0 m in
  let* m2 := copy_context ctx2 ctx m1 in Ok (ctx2, m2).

(** syscall_dup_thread with the [#else] branch. *)
Definition syscall_dup_thread (syms : symbols) (img : user_tasks_image) {St} `{Scheduler St}
    (mode : creation) (ctx : cptr) (k : kstate St) : res (cpu * kstate St) :=
  let* c := load (k_mem k) ctx in
  let range0 := u32 (range c) in
  if range0 =? 0 then
    Err (Fatal "This thread (%x) cannot create another thread" [u32 (sym_context syms ctx)])
  else
    let* (ctx2, m2) := take_context mode ctx range0 (k_mem k) in
    let* s3 := sched_insert_duplicated_context img ctx ctx2 (with_mem m2 (k_s k)) in
    let* m4 := set_return1 ctx 1 (s_mem s3) in
    let* m5 := set_return1 ctx2 0 m4 in
    switch_to ctx (set_s (with_mem m5 s3) k).

(** ** Recursive creation *)

Section Recursive.
Context (t : nat).

(** The slots of task [t] that hold a thread, as successive creations by
    threads of range at least 2 take them. *)
Inductive created : list nat -> mem -> Prop :=
  | created_boot m c :
      (forall s, (s < 8)%nat -> is_Some (m !! ContextFor t s)) ->
      m !! ContextFor t 0 = Some c -> range c = 8 -> created [0%nat] m
  | created_dup slots m s c s2 m2 :
      created slots m -> s ∈ slots -> m !! ContextFor t s = Some c -> 2 <= range c ->
      take_context Recursive_ (ContextFor t s) (u32 (range c)) m = Ok (ContextFor t s2, m2) ->
      created (s2 :: slots) m2.

(** Slot [s] of memory [m] owns the slots [s, s + r). *)
Definition owns (m : mem) (s : nat) (r : Z) : Prop :=
  exists c, m !! ContextFor t s = Some c /\ range c = r.

(** The slots are owned by one thread at most. *)
Record blocks (slots : list nat) (m : mem) : Prop := {
  bl_exist s : (s < 8)%nat -> is_Some (m !! ContextFor t s);
  bl_nodup : NoDup slots;
  bl_owner s : s ∈ slots -> exists r, owns m s r /\ 1 <= r /\ Z.of_nat s + r <= 8;
  bl_disjoint s s' r r' : s ∈ slots -> s' ∈ slots -> owns m s r -> owns m s' r' -> s <> s' ->
    Z.of_nat s + r <= Z.of_nat s' \/ Z.of_nat s' + r' <= Z.of_nat s
}.

(** A creation by a thread of range [r >= 2] splits its block in two. *)
Lemma take_recursive slots m s c :
  blocks slots m -> s ∈ slots -> m !! ContextFor t s = Some c -> 2 <= range c ->
  let s2 := (s + Z.to_nat (range c / 2))%nat in
  let c1 := set_range (range c / 2) c in
  take_context Recursive_ (ContextFor t s) (u32 (range c)) m
    = Ok (ContextFor t s2, <[ContextFor t s2 := c1]> (<[ContextFor t s := c1]> m)) /\
  (s2 < 8)%nat /\ s2 ∉ slots.
Proof.
  intros [He _ Ho Hd] Hs Ec Hr s2 c1.
  destruct (Ho s Hs) as (r & (c' & Ec' & <-) & _ & Hle). assert (c' = c) as -> by congruence.
  assert (0 < range c / 2 /\ 2 * (range c / 2) <= range c) as [Hpos Hhalf] by dlia.
  assert (s2 <> s) as Hne by (unfold s2; lia). assert (s2 < 8)%nat as Hlt by (unfold s2; lia).
  split; [|split; [done|]].
  - unfold take_context, allocate. rewrite (wrap_small 32) by (unfold in_width; lia).
    rewrite Z.shiftr_div_pow2 by lia. change (2 ^ 1) with 2.
    rewrite (modify_ok _ _ _ _ Ec). cbn [rbind ptr_add]. fold s2 c1.
    destruct (He s2 Hlt) as [c2 Hc2].
    rewrite (copy_context_ok _ _ _ c1 c2); [done|by intros [= ?]|apply lookup_insert_eq|].
    rewrite lookup_insert_ne; [done|by intros [= ?]].
  - intros Hin. destruct (Ho s2 Hin) as (r2 & Hr2 & H1 & H2).
    destruct (Hd s s2 (range c) r2 Hs Hin) as [?|?]; [by exists c|done|done|unfold s2 in *; lia..].
Qed.

Lemma owns_insert m s s' c r :
  owns (<[ContextFor t s := c]> m) s' r ->
  s' = s /\ r = range c \/ s' <> s /\ owns m s' r.
Proof.
  intros (c' & E & Er). destruct (decide (s' = s)) as [->|Hne].
  - rewrite lookup_insert_eq in E. left. split; [done|]. congruence.
  - right. split; [done|]. exists c'. rewrite lookup_insert_ne in E; [done|]. by intros [= ->].
Qed.

Lemma blocks_split slots m s c :
  blocks slots m -> s ∈ slots -> m !! ContextFor t s = Some c -> 2 <= range c ->
  let s2 := (s + Z.to_nat (range c / 2))%nat in
  let c1 := set_range (range c / 2) c in
  blocks (s2 :: slots) (<[ContextFor t s2 := c1]> (<[ContextFor t s := c1]> m)).
Proof.
  intros Hb Hs Ec Hr s2 c1. destruct (take_recursive slots m s c Hb Hs Ec Hr) as (_ & Hlt & Hnew).
  fold s2 in Hlt, Hnew. destruct Hb as [He Hnd Ho Hd].
  destruct (Ho s Hs) as (r & (c' & Ec' & <-) & _ & Hle). assert (c' = c) as -> by congruence.
  assert (0 < range c / 2 /\ 2 * (range c / 2) <= range c) as [Hpos Hhalf] by dlia.
  assert (Z.of_nat s2 = Z.of_nat s + range c / 2) as Es2 by (unfold s2; lia).
  assert (owns m s (range c)) as Hown by (by exists c).
  split.
  - intros s' Hs'. rewrite !lookup_insert_is_Some'. auto.
  - by constructor.
  - intros s' Hs'. destruct (decide (s' = s2)) as [->|]; [|destruct (decide (s' = s)) as [->|]].
    + exists (range c / 2). split; [exists c1; by rewrite lookup_insert_eq|lia].
    + exists (range c / 2). split; [|lia]. exists c1. rewrite lookup_insert_ne by (intros [= ?]; lia).
      by rewrite lookup_insert_eq.
    + destruct (Ho s') as (r' & (c' & E' & Er') & Hb); [set_solver|]. exists r'. split; [|done].
      exists c'. by rewrite !lookup_insert_ne by congruence.
  - intros a b ra rb Ha Hb Oa Ob Hab.
    assert (forall x rx, x ∈ slots -> x <> s -> owns m x rx ->
      Z.of_nat s + range c <= Z.of_nat x \/ Z.of_nat x + rx <= Z.of_nat s) as Hx
      by (intros; by apply (Hd s x (range c) rx)).
    apply owns_insert in Oa as [[-> ->]|[Hna [[-> ->]|[Hna' Oa]]%owns_insert]];
      apply owns_insert in Ob as [[-> ->]|[Hnb [[-> ->]|[Hnb' Ob]]%owns_insert]];
      try done; cbn [range set_range c1].
    all: try (apply elem_of_cons in Ha as [->|Ha]; [done|]).
    all: try (apply elem_of_cons in Hb as [->|Hb]; [done|]).
    all: try lia.
    + destruct (Hx b rb Hb Hnb' Ob); lia.
    + destruct (Hx b rb Hb Hnb' Ob); lia.
    + destruct (Hx a ra Ha Hna' Oa); lia.
    + destruct (Hx a ra Ha Hna' Oa); lia.
    + by apply (Hd a b ra rb).
Qed.

Lemma created_blocks slots m : created slots m -> blocks slots m.
Proof.
  induction 1 as [m c He Ec Er|slots m s c s2 m2 _ IH Hs Ec Hr E].
  - split; [done|apply NoDup_singleton|..].
    + intros s ->%list_elem_of_singleton. exists 8. split; [by exists c|lia].
    + intros s s' r r' ->%list_elem_of_singleton ->%list_elem_of_singleton. done.
  - destruct (take_recursive slots m s c IH Hs Ec Hr) as (E' & _). rewrite E in E'.
    injection E' as -> ->. by apply blocks_split.
Qed.

Lemma created_bounded slots m : created slots m -> (length slots <= 8)%nat.
Proof.
  intros Hc. destruct (created_blocks _ _ Hc) as [_ Hnd Ho _].
  change 8%nat with (length (seq 0 8)). apply submseteq_length, NoDup_submseteq; [done|].
  intros s Hs. destruct (Ho s Hs) as (r & _ & Hr & Hle). apply elem_of_seq. lia.
Qed.
End Recursive.
End RangeAllocation.
