(* ===== verification/UserTask.v ===== *)
(** * User tasks (user_tasks.h, low_level.h, task.c)

    The system call stubs that tasks are linked with, as the registers they
    load before [int], and the example task of task.c as the sequence of system
    calls it makes. *)

From stdpp Require Import options.
From S2P Require Import Prelude Contexts Timer Scheduler Fprint LowLevel HighLevel.

(** ** Stubs *)

(** enum syscalls. *)
Definition SYSCALL_YIELD : Z := 0.
Definition SYSCALL_PUTCHAR : Z := 1.
Definition SYSCALL_DUP_THREAD : Z := 2.
Definition SYSCALL_TRIGGER_BUG : Z := 3.

(** The registers when [int SYSCALL_INTNUM] is executed: syscall1, syscall2 and
    syscall5 of low_level.h. *)
Definition syscall1 (arg : Z) (c : cpu) : cpu :=
  Cpu (c_edi c) (c_esi c) (c_ebp c) arg (c_edx c) (c_ecx c) (c_eax c)
    (c_eip c) (c_cs c) (c_flags c) (c_esp c) (c_ss c) (c_ds c).

Definition syscall2 (arg1 arg2 : Z) (c : cpu) : cpu :=
  Cpu (c_edi c) (c_esi c) (c_ebp c) arg1 arg2 (c_ecx c) (c_eax c)
    (c_eip c) (c_cs c) (c_flags c) (c_esp c) (c_ss c) (c_ds c).

Definition syscall5 (arg1 arg2 arg3 arg4 arg5 : Z) (c : cpu) : cpu :=
  Cpu arg5 arg4 (c_ebp c) arg1 arg2 arg3 (c_eax c)
    (c_eip c) (c_cs c) (c_flags c) (c_esp c) (c_ss c) (c_ds c).

(** syscall1_1 reads its result in eax when the task runs again. *)
Definition syscall1_1_result (c : cpu) : Z := c_eax c.

Definition yield (next_wakeup next_deadline : Z) : cpu -> cpu :=
  let next_wakeup_high := u32 (Z.shiftr next_wakeup 32) in
  let next_wakeup_low := u32 (Z.land next_wakeup 0xFFFFFFFF) in
  let next_deadline_high := u32 (Z.shiftr next_deadline 32) in
  let next_deadline_low := u32 (Z.land next_deadline 0xFFFFFFFF) in
  syscall5 SYSCALL_YIELD next_wakeup_high next_wakeup_low next_deadline_high next_deadline_low.

Definition putchar (x : Z) : cpu -> cpu := syscall2 SYSCALL_PUTCHAR (u8 x).

Definition dup_thread : cpu -> cpu := syscall1 SYSCALL_DUP_THREAD.

(** ** The example task *)

(** The system calls a task makes; [UDup r] is a dup_thread that returned [r]. *)
Inductive ucall := UPutchar (c : Z) | UYield (wakeup deadline : Z) | UDup (r : Z).

(** printf of user_tasks.h: fprint through putchar. *)
Definition user_printf (format : string) (args : list Z) : res (list ucall) :=
  let* out := fprint_output (chars format) (SWord <$> args) in Ok (UPutchar <$> out).

(** test_func, up to its final loop. *)
Definition test_func : res (list ucall) :=
  let* a := user_printf ("New thread!" +:+ nl) [] in
  let* b := user_printf "New thread: ending execution" [] in
  Ok (a ++ [UYield (u64 (10 * 1000000000)) 1000000000] ++ b).

(** thread_create: the child of dup_thread jumps to [func], the parent returns. *)
Definition thread_create (func : res (list ucall)) (dup_result : Z) : res (list ucall * bool) :=
  if dup_result =? 0 then
    let* l := func in Ok (UDup dup_result :: l, false)
  else Ok ([UDup dup_result], true).

(** [n] iterations of the loop of test_userspace, from counter value [i]; the
    counter is an int, and [n] is meant to be small enough not to overflow it. *)
Fixpoint task_loop (n : nat) (task_number : Z) (name : string) (pid i : Z) : res (list ucall) :=
  match n with
  | O => Ok []
  | S n =>
      let* a := user_printf ("task" +:+ name +:+ " pid %d: i=%d" +:+ nl) [u32 pid; u32 (i + 1)] in
      let* rest := task_loop n task_number name pid (i + 1) in
      Ok (a ++ [UYield (u64 ((task_number + 2) * 1000000000)) 1000000000] ++ rest)
  end.

(** test_userspace for [n] iterations; [name] is the text of TASK_NUMBER. *)
Definition test_userspace (dynamic : bool) (task_number : Z) (name : string) (pid dup_result : Z)
    (n : nat) : res (list ucall) :=
  let* hello := user_printf (" says hello %d %d" +:+ nl) [u32 task_number; u32 pid] in
  let start := UPutchar (u8 (48 + task_number)) :: hello in
  let* (created, continues) :=
    if dynamic && (task_number =? 0) then thread_create test_func dup_result else Ok ([], true) in
  if negb (continues : bool) then Ok (start ++ created)
  else
    let* dupped := if dynamic && (task_number =? 0)
                   then user_printf ("Dupped thread" +:+ nl) [] else Ok [] in
    let* loop := task_loop n task_number name pid 0 in
    Ok (start ++ created ++ dupped ++ loop).

(** *** Registers *)

(** Addresses in the segment of a task, where the linker places what task.c
    declares. *)
Record task_symbols := TaskSymbols {
  ts_user_stack : Z;
  ts_user_stack2 : Z;
  ts_test_userspace : Z;
  ts_test_func : Z
}.

Definition USER_STACK_SIZE : Z := 1024.

(** A jump to [pc] on a stack that ends at [sp]. *)
Definition jump (pc sp : Z) (c : cpu) : cpu :=
  Cpu (c_edi c) (c_esi c) (c_ebp c) (c_ebx c) (c_edx c) (c_ecx c) (c_eax c)
    pc (c_cs c) (c_flags c) sp (c_ss c) (c_ds c).

(** The registers with another value in eax. *)
Definition with_eax (r : Z) (c : cpu) : cpu :=
  Cpu (c_edi c) (c_esi c) (c_ebp c) (c_ebx c) (c_edx c) (c_ecx c) r
    (c_eip c) (c_cs c) (c_flags c) (c_esp c) (c_ss c) (c_ds c).

(** _start of task.c: the stack is set and test_userspace called, which pushes
    the return address; the other registers, eax included, are untouched. *)
Definition task_start (ts : task_symbols) : cpu -> cpu :=
  jump (ts_test_userspace ts) (u32 (u32 (ts_user_stack ts + USER_STACK_SIZE) - 4)).

(** The argument of test_userspace, which is passed in eax. *)
Definition test_userspace_pid (c : cpu) : Z := c_eax c.

(** thread_create after its dup_thread, in both threads: the child leaves for
    [func] on its own stack, the parent returns. *)
Definition thread_create_registers (func stack stack_size : Z) (c : cpu) : cpu :=
  if syscall1_1_result c =? 0 then jump func (u32 (stack + stack_size)) c else c.

(** What test_userspace of task 0 passes to thread_create. *)
Definition test_thread_create (ts : task_symbols) : cpu -> cpu :=
  thread_create_registers (ts_test_func ts) (ts_user_stack2 ts) USER_STACK_SIZE.

(** The code of the idle task in system_desc.c, which is two jumps to
    idle_task2; and the code at _idle of low_level.c, which is one to itself. *)
Definition idle_task (idle_task2 : Z) (c : cpu) : cpu := jump idle_task2 (c_esp c) c.
Definition _idle (c : cpu) : cpu := jump (c_eip c) (c_esp c) c.

(** user_error_infinite_loop, where a task goes if test_userspace returns: [hlt]
    is a privileged instruction, so in user mode it raises the general protection
    fault with error code 0. *)
Definition user_error_infinite_loop (cfg : config) (syms : symbols) (img : user_tasks_image)
    {St} `{Scheduler St} (c : cpu) (k : kstate St) :=
  interrupt cfg syms img 13 [0] c k.

(** ** Facts *)

(** A duration crosses the system call boundary as two words and back. *)
Lemma duration_words d :
  in_width 64 d ->
  u64 (u64 (Z.shiftl (u32 (Z.shiftr d 32)) 32) + u32 (Z.land d 0xFFFFFFFF)) = d.
Proof.
  intros Hd. change 0xFFFFFFFF with (Z.ones 32).
  rewrite Z.shiftr_div_pow2, Z.land_ones, Z.shiftl_mul_pow2 by lia.
  unfold in_width in Hd. unfold wrap. dlia.
Qed.

(** The kernel's yield handler sees the durations the task asked for. *)
Lemma yield_kernel_dates {St} `{Scheduler St} cfg syms img w d c ctx (k : kstate St) :
  in_width 64 w -> in_width 64 d ->
  asm_syscall_handler cfg syms img (yield w d c) ctx k =
    (let* m := modify (k_mem k) ctx (fun x =>
       let w' := u64 (wakeup_date (sched x) + w) in
       let x1 := set_wakeup_date w' x in
       if edf cfg then set_deadline (u64 (w' + d)) x1 else x1) in
     let* s1 := sched_set_waiting img ctx (with_mem m (k_s k)) in
     let* (new_ctx, s2) := sched_choose_next img s1 in
     switch_to new_ctx (set_s s2 k)).
Proof.
  intros Hw Hd. rewrite (syscall_call cfg syms img (yield w d c) ctx k 0 _ eq_refl eq_refl).
  unfold syscall_yield, c_syscall_yield. cbn [c_edx c_ecx c_esi c_edi].
  unfold modify. destruct (load (k_mem k) ctx) as [x|]; [cbn [rbind]|done].
  unfold yield_dates, yield, syscall5. cbn [c_edx c_ecx c_esi c_edi].
  by rewrite (duration_words w), (duration_words d).
Qed.
