(* ===== verification/TaskRun.v ===== *)
(** * Tasks against the kernel

    The system calls of a task, made one after the other on the machine: each
    loads its registers with a stub of user_tasks.h, executes [int] and goes on
    with the registers that the kernel gives back.  A task that only prints is
    never switched out, and its printf has the effect of a print by the kernel. *)

From stdpp Require Import options.
From S2P Require Import Prelude Contexts PQueue Timer Scheduler Fprint Terminal Segment.
From S2P Require Import LowLevel HighLevel Kernel UserTask.

(** ** Calls *)

(** The registers with which a call enters the kernel. *)
Definition call_registers (u : ucall) : cpu -> cpu :=
  match u with
  | UPutchar x => putchar x
  | UYield w d => yield w d
  | UDup _ => dup_thread
  end.

(** The idle task only jumps, so it enters the kernel by interrupts alone. *)
Lemma idle_task_step idle_task2 c :
  cpu_typed c -> in_width 32 idle_task2 -> user_step c (idle_task idle_task2 c).
Proof.
  intros Hc Hi. do 3 (split; [done|]). unfold cpu_typed, cpu_words in *. cbn in *.
  rewrite !Forall_cons in *. tauto.
Qed.

Section Run.
Context (cfg : config) (syms : symbols) (img : user_tasks_image) {St : Type} `{Scheduler St}.

(** The calls of [us] in order, while the kernel returns to the task. *)
Fixpoint run_calls (us : list ucall) (c : cpu) (k : kstate St) : res ((cpu * kstate St) + terminal) :=
  match us with
  | [] => Ok (inl (c, k))
  | u :: us =>
      let* r := software_interrupt cfg syms img SYSCALL_INTNUM (call_registers u c) k in
      match r with
      | inl (c1, k1) => run_calls us c1 k1
      | inr t => Ok (inr t)
      end
  end.
End Run.

(** ** vfprint and its callback *)

(** vfprint is independent of its callback: if it prints [l] when every character
    is accepted, it sends [l] to any other. *)
Section Callback.
Context {S : Type} (putc : Z -> S -> res S).

(** [f] records [l] on top of what was printed, [g] sends it to [putc]. *)
Definition sends {A} (f : list Z -> res (A * list Z)) (g : S -> res (A * S)) : Prop :=
  forall acc a out, f acc = Ok (a, out) ->
  exists l, out = reverse l ++ acc /\
    forall s, g s = (let* s1 := put_chars putc l s in Ok (a, s1)).

Lemma put_chars_record l acc : put_chars record_char l acc = Ok (reverse l ++ acc).
Proof using Type.
  revert acc. induction l as [|c l IH]; intros acc; [done|].
  change (put_chars record_char (c :: l) acc) with (put_chars record_char l (c :: acc)). rewrite IH.
  by rewrite reverse_cons, <-app_assoc.
Qed.

Lemma put_buffer_record fuel b j acc out :
  put_buffer record_char fuel b j acc = Ok out ->
  exists l, out = reverse l ++ acc /\ forall s, put_buffer putc fuel b j s = put_chars putc l s.
Proof using Type.
  revert j acc. induction fuel as [|fuel IH]; intros j acc E; [done|]. cbn in *.
  destruct (buf_get b j) as [[c|]|]; cbn in *; [|done..]. destruct (c =? 0).
  - injection E as <-. by exists [].
  - destruct (IH _ _ E) as (l & -> & Hl). exists (c :: l). split.
    + by rewrite reverse_cons, <-app_assoc.
    + intros s. cbn. destruct (putc c s); [apply Hl|done].
Qed.

(** A print step [rec] in the recording run is a [put_chars]. *)
Definition prints (rec : list Z -> res (list Z)) (snd : S -> res S) : Prop :=
  forall acc out, rec acc = Ok out ->
  exists l, out = reverse l ++ acc /\ forall s, snd s = put_chars putc l s.

Lemma prints_buf b : prints (put_buf record_char b) (put_buf putc b).
Proof using Type. intros acc out. apply put_buffer_record. Qed.

Lemma prints_chars l : prints (put_chars record_char l) (put_chars putc l).
Proof using Type. intros acc out E. rewrite put_chars_record in E. injection E as <-. by exists l. Qed.

Lemma prints_char c : prints (record_char c) (putc c).
Proof using Type. intros acc out [= <-]. exists [c]. split; [done|]. intros s. cbn. by destruct (putc c s). Qed.

Lemma prints_bind rec snd rec' snd' :
  prints rec snd -> prints rec' snd' ->
  prints (fun acc => let* a := rec acc in rec' a) (fun s => let* s1 := snd s in snd' s1).
Proof using Type.
  intros H1 H2 acc out E. apply rbind_ok in E as (o1 & E1 & E2).
  destruct (H1 _ _ E1) as (l1 & -> & Hl1). destruct (H2 _ _ E2) as (l2 & -> & Hl2).
  exists (l1 ++ l2). split; [by rewrite reverse_app, app_assoc|]. intros s. rewrite Hl1, put_chars_app.
  destruct (put_chars putc l1 s); [apply Hl2|done].
Qed.

(** A conversion that prints and then returns [a]. *)
Lemma sends_print {A} rec snd (a : A) :
  prints rec snd ->
  sends (fun acc => let* o := rec acc in Ok (a, o)) (fun s => let* s1 := snd s in Ok (a, s1)).
Proof using Type.
  intros Hp acc a' out E. apply rbind_ok in E as (o & E & [= <- <-]).
  destruct (Hp _ _ E) as (l & -> & Hl). exists l. split; [done|]. intros s. by rewrite Hl.
Qed.

Lemma sends_pure {A B} (m : res B) (f : B -> list Z -> res (A * list Z)) (g : B -> S -> res (A * S)) :
  (forall b, sends (f b) (g b)) ->
  sends (fun acc => let* b := m in f b acc) (fun s => let* b := m in g b s).
Proof using Type. intros Hb acc a out E. destruct m as [b|]; [by apply Hb in E|done]. Qed.

Lemma conversion_sends format i ap :
  sends (conversion record_char format i ap) (conversion putc format i ap).
Proof using Type.
  unfold conversion. apply sends_pure. intros c.
  destruct (_ || _); [|destruct (c =? 120); [|destruct (c =? 115)]].
  - apply sends_pure. intros [d ap']. apply sends_pure. intros b.
    apply (sends_print _ _ (i, ap')), prints_buf.
  - apply sends_pure. intros [d ap']. apply sends_pure. intros b.
    apply (sends_print _ _ (i, ap')), prints_buf.
  - apply sends_pure. intros [str ap']. apply (sends_print _ _ (i, ap')), prints_chars.
  - apply sends_pure. intros ll. destruct (ll =? 120); [|destruct (ll =? 117);
      [|destruct (c =? ch_percent)]].
    + apply sends_pure. intros [d ap']. apply sends_pure. intros b.
      destruct (itox (Z.land d 0xFFFFFFFF) b) as [b2|e] eqn:Eb.
      * intros acc a out E. apply rbind_ok in E as (o1 & E1 & E). cbn [rbind] in E.
        apply rbind_ok in E as (o2 & E2 & [= <- <-]).
        destruct (prints_buf b _ _ E1) as (l1 & -> & H1). destruct (prints_buf b2 _ _ E2) as (l2 & -> & H2).
        exists (l1 ++ l2). split; [by rewrite reverse_app, app_assoc|]. intros s.
        rewrite H1, put_chars_app. destruct (put_chars putc l1 s) as [s1|]; cbn [rbind]; [|done].
        by rewrite H2.
      * intros acc a out E. apply rbind_ok in E as (o1 & E1 & E). done.
    + apply sends_pure. intros [d ap']. apply sends_pure. intros b.
      apply (sends_print _ _ ((i + 2)%nat, ap')), prints_buf.
    + apply (sends_print _ _ (i, ap)), prints_char.
    + intros acc a out E.
      destruct (sends_print _ _ (i, ap) (prints_bind _ _ _ _ (prints_chars (chars "<unsupported conversion: `"))
        (prints_bind _ _ _ _ (prints_char c) (prints_bind _ _ _ _ (prints_char 39) (prints_char 62))))
        acc a out) as (l & -> & Hl).
      * rewrite <-E. by destruct (put_chars record_char _ acc).
      * exists l. split; [done|]. intros s. rewrite <-Hl.
        destruct (put_chars putc _ s) as [s1|]; [cbn [rbind]|done].
        destruct (putc c s1) as [s2|]; [cbn [rbind]|done]. by destruct (putc 39 s2).
Qed.

Lemma vfprint_loop_sends fuel format i ap :
  prints (vfprint_loop record_char fuel format i ap) (vfprint_loop putc fuel format i ap).
Proof using Type.
  revert i ap. induction fuel as [|fuel IH]; intros i ap acc out E; [done|]. cbn [vfprint_loop] in *.
  destruct (char_at format i) as [c|]; cbn [rbind] in *; [|done]. destruct (c =? 0).
  { injection E as <-. by exists []. }
  destruct (negb _).
  - apply (prints_bind _ _ _ _ (prints_char c) (IH (i + 1)%nat ap) acc out E).
  - apply rbind_ok in E as ([[i1 ap1] o1] & E1 & E2).
    destruct (conversion_sends _ _ _ _ _ _ E1) as (l1 & -> & H1).
    destruct (IH _ _ _ _ E2) as (l2 & -> & H2).
    exists (l1 ++ l2). split; [by rewrite reverse_app, app_assoc|]. intros s.
    rewrite H1, put_chars_app. destruct (put_chars putc l1 s); [apply H2|done].
Qed.

Lemma fprint_output_sends format ap out :
  fprint_output format ap = Ok out -> forall s, vfprint putc format ap s = put_chars putc out s.
Proof using Type.
  unfold fprint_output. intros E s. apply rbind_ok in E as (o & E & [= <-]).
  destruct (vfprint_loop_sends _ _ _ _ _ _ E) as (l & -> & Hl).
  rewrite app_nil_r, reverse_involutive. apply Hl.
Qed.
End Callback.

(** ** Printing *)

Section Printing.
Context (cfg : config) (syms : symbols) (img : user_tasks_image) (kernel_end : Z).
Context {St : Type} `{SchedulerSpec St} (Hsys : system_ok cfg syms img kernel_end).
Local Abbreviation kst := (kstate St).
Implicit Types (k : kst) (c : cpu) (p : cptr) (live : list cptr).

(** The registers a task gets back when the kernel returns to it at once: all of
    them but ds, which is reloaded. *)
Definition returned c : cpu :=
  Cpu (c_edi c) (c_esi c) (c_ebp c) (c_ebx c) (c_edx c) (c_ecx c) (c_eax c) (c_eip c) (c_cs c)
    (c_flags c) (c_esp c) (c_ss c) (c_ss c).

(** What printing leaves alone: the other contexts, the scheduling data of the
    task, the queues, the clock and the reserve. *)
Definition only_prints p k k' : Prop :=
  (forall q, q <> p -> k_mem k' !! q = k_mem k !! q) /\
  sched <$> k_mem k' !! p = sched <$> k_mem k !! p /\
  s_sched (k_s k') = s_sched (k_s k) /\ s_timer (k_s k') = s_timer (k_s k) /\
  k_idx_reserve k' = k_idx_reserve k.

Lemma only_prints_refl p k : only_prints p k k.
Proof using Type. by repeat split. Qed.

Lemma only_prints_trans p k1 k2 k3 :
  only_prints p k1 k2 -> only_prints p k2 k3 -> only_prints p k1 k3.
Proof using Type.
  intros (H1 & H2 & H3 & H4 & H5) (H1' & H2' & H3' & H4' & H5').
  repeat split; try congruence. intros q Hq. by rewrite H1', H1.
Qed.

(** One putchar call of a running task. *)
Lemma putchar_call k live p c :
  cfg_debug cfg = true -> kernel_inv syms img kernel_end k live p -> user_cpu c -> p ∈ live ->
  c_ebx c = SYSCALL_PUTCHAR ->
  exists k', software_interrupt cfg syms img SYSCALL_INTNUM c k = Ok (inl (returned c, k')) /\
    kernel_inv syms img kernel_end k' live p /\ only_prints p k k' /\
    terminal_putchar (u8 (c_edx c)) (k_term k) = Ok (k_term k').
Proof using Hsys.
  intros Hd Hk Hu Hp Hb. destruct (syscall_entry _ _ _ _ Hsys k live p c Hk Hu Hp) as (ctx & Ec & Hk1 & ->).
  set (k1 := set_kmem _ k) in *. rewrite (syscall_call cfg syms img c p k1 1 _ Hb eq_refl).
  destruct (syscall_putchar_ok cfg _ _ _ k1 live p (c_edx c) Hd Hk1) as (c' & k' & E & _ & Hi & Et).
  rewrite E. cbn [catch]. exists k'. unfold syscall_putchar in E. apply rbind_ok in E as (t & _ & E).
  pose proof (switch_to_same _ _ _ _ E) as [Es Ei]. apply switch_to_restore in E as (ctx' & Ec' & ->).
  assert (k_mem k1 !! p = Some (set_hw (saved syms p c (hw ctx)) ctx)) as Ek1 by apply lookup_insert_eq.
  change (k_mem k1 !! p = Some ctx') in Ec'. rewrite Ek1 in Ec'. injection Ec' as <-. split; [reflexivity|]. split; [done|]. split; [|exact Et].
  unfold only_prints, k_mem. rewrite Es. cbn. repeat split; try done.
  - intros q Hq. by rewrite lookup_insert_ne.
  - rewrite lookup_insert_eq. unfold k_mem in Ec. by rewrite Ec.
Qed.

(** yield does not print. *)
Lemma yield_term p wh wl dh dl k c k' :
  c_syscall_yield cfg img p wh wl dh dl k = Ok (c, k') -> k_term k' = k_term k.
Proof using Type.
  unfold c_syscall_yield, switch_to. intros E. res_inv; try done.
  repeat match goal with x : (_ * _)%type |- _ => destruct x end. cbn [rbind] in *. res_inv; try done.
  by repeat match goal with x : (_ * _)%type |- _ => destruct x end; injection E as _ <-.
Qed.

(** One yield of a running task. *)
Lemma yield_call k live p c ctx w d :
  kernel_inv syms img kernel_end k live p -> user_cpu c -> p ∈ live ->
  k_mem k !! p = Some ctx -> in_width 64 w -> in_width 64 d ->
  exists c' k' p' ctx', software_interrupt cfg syms img SYSCALL_INTNUM (yield w d c) k = Ok (inl (c', k')) /\
    user_cpu c' /\ kernel_inv syms img kernel_end k' live p' /\ k_term k' = k_term k /\
    k_mem k' !! p = Some ctx' /\
    wakeup_date (sched ctx') = u64 (wakeup_date (sched ctx) + w) /\
    deadline (sched ctx') =
      (if edf cfg then u64 (u64 (wakeup_date (sched ctx) + w) + d) else deadline (sched ctx)) /\
    (forall q, q <> p -> strip_next <$> k_mem k' !! q = strip_next <$> k_mem k !! q).
Proof using Hsys.
  intros Hk Hu Hlive Ec Hw Hd.
  destruct (syscall_entry _ _ _ _ Hsys k live p (yield w d c) Hk Hu Hlive) as (ctx' & Ec' & Hk1 & ->).
  assert (ctx' = ctx) as -> by congruence.
  set (ctx1 := set_hw _ ctx) in *. set (k1 := set_kmem _ k) in *.
  assert (k_mem k1 !! p = Some ctx1) as Ek1 by apply lookup_insert_eq.
  rewrite (syscall_call cfg syms img (yield w d c) p k1 0 _ eq_refl eq_refl).
  change (syscall_yield cfg img (yield w d c) p k1)
    with (c_syscall_yield cfg img p (u32 (Z.shiftr w 32)) (u32 (Z.land w 0xFFFFFFFF))
            (u32 (Z.shiftr d 32)) (u32 (Z.land d 0xFFFFFFFF)) k1).
  destruct (c_syscall_yield_ok _ _ _ _ Hsys k1 live p ctx1 (u32 (Z.shiftr w 32))
    (u32 (Z.land w 0xFFFFFFFF)) (u32 (Z.shiftr d 32)) (u32 (Z.land d 0xFFFFFFFF)) Hk1 Ek1)
    as (c' & k' & p' & E & Hu' & Hk' & Hm).
  rewrite E. destruct (mem_eq_next_lookup _ _ p _ (symmetry Hm) (lookup_insert_eq _ _ _)) as [n En].
  eexists c', k', p', _. split; [reflexivity|]. split; [done|]. split; [done|].
  split; [by rewrite (yield_term _ _ _ _ _ _ _ _ E)|]. split; [exact En|].
  unfold yield_dates. rewrite !duration_words by done.
  split; [by destruct (edf cfg)|]. split; [by destruct (edf cfg)|].
  intros q' Hq'. rewrite (Hm q'), lookup_insert_ne by done.
  change (k_mem k1) with (<[p := ctx1]> (k_mem k)). by rewrite lookup_insert_ne.
Qed.

(** The registers of a task after it has printed [l]. *)
Definition printed (l : list Z) c : cpu := foldl (fun c x => returned (putchar x c)) c l.

(** A task that prints is not switched out, and the terminal shows its text. *)
Lemma run_putchars l : forall k live p c,
  cfg_debug cfg = true -> kernel_inv syms img kernel_end k live p -> user_cpu c -> p ∈ live ->
  exists k', run_calls cfg syms img (UPutchar <$> l) c k = Ok (inl (printed l c, k')) /\
    user_cpu (printed l c) /\ kernel_inv syms img kernel_end k' live p /\ only_prints p k k' /\
    put_chars (fun x => terminal_putchar (u8 x)) l (k_term k) = Ok (k_term k').
Proof using Hsys.
  induction l as [|x l IH]; intros k live p c Hd Hk Hu Hp.
  { exists k. by do 4 (split; [done|]). }
  cbn [fmap list_fmap run_calls call_registers put_chars].
  destruct (putchar_call k live p (putchar x c) Hd Hk Hu Hp eq_refl) as (k1 & -> & Hk1 & Ho1 & Et).
  cbn [rbind]. destruct (IH k1 live p (returned (putchar x c)) Hd Hk1 Hu Hp) as (k' & E & Hu' & Hk' & Ho & Et').
  exists k'. split; [exact E|]. split; [done|]. split; [done|].
  split; [by eapply only_prints_trans|].
  change (u8 (c_edx (putchar x c))) with (u8 (u8 x)) in Et. rewrite (wrap_wrap 8 ltac:(lia) x) in Et.
  by rewrite Et.
Qed.

(** A sequence of calls in two parts. *)
Lemma run_calls_app us us' c k c1 k1 :
  run_calls cfg syms img us c k = Ok (inl (c1, k1)) ->
  run_calls cfg syms img (us ++ us') c k = run_calls cfg syms img us' c1 k1.
Proof using Type.
  revert c k. induction us as [|u us IH]; intros c k E; [by injection E as -> ->|].
  cbn [run_calls app] in *. apply rbind_ok in E as ([[c2 k2]|t] & -> & E); [|done]. by apply IH.
Qed.

(** Only ebx, edx and ds change. *)
Lemma printed_registers l c :
  c_eip (printed l c) = c_eip c /\ c_esp (printed l c) = c_esp c /\ c_ebp (printed l c) = c_ebp c /\
  c_eax (printed l c) = c_eax c /\ c_ecx (printed l c) = c_ecx c /\ c_esi (printed l c) = c_esi c /\
  c_edi (printed l c) = c_edi c.
Proof using Type.
  unfold printed. revert c. induction l as [|x l IH]; intros c; [done|]. cbn.
  by destruct (IH (returned (putchar x c))) as (-> & -> & -> & -> & -> & -> & ->).
Qed.

(** A call of printf by a task, through the callback of user_tasks.h. *)
Lemma run_printf k live p c format args calls :
  cfg_debug cfg = true -> kernel_inv syms img kernel_end k live p -> user_cpu c -> p ∈ live ->
  user_printf format args = Ok calls ->
  exists c' k', run_calls cfg syms img calls c k = Ok (inl (c', k')) /\
    user_cpu c' /\ kernel_inv syms img kernel_end k' live p /\ only_prints p k k' /\
    (c_eip c' = c_eip c /\ c_esp c' = c_esp c /\ c_ebp c' = c_ebp c) /\
    vfprint (fun x => terminal_putchar (u8 x)) (chars format) (SWord <$> args) (k_term k) = Ok (k_term k').
Proof using Hsys.
  unfold user_printf. intros Hd Hk Hu Hp E. apply rbind_ok in E as (out & E & [= <-]).
  destruct (run_putchars out k live p c Hd Hk Hu Hp) as (k' & Er & Hu' & Hk' & Ho & Et).
  exists (printed out c), k'. split; [done|]. split; [done|]. split; [done|]. split; [done|].
  destruct (printed_registers out c) as (? & ? & ? & _). split; [done|].
  by rewrite (fprint_output_sends _ _ _ _ E).
Qed.
End Printing.
