(* ===== verification/Examples.v ===== *)
(** * Concrete systems

    A system of two tasks and one of a single task, as system_desc.c and the
    linker would lay them out, used to exhibit the properties of Theorems.v on
    actual states. *)

From stdpp Require Import options.
From S2P Require Import Prelude Contexts PQueue ListQueue ArrayHeap Timer Scheduler.
From S2P Require Import PriorityScheduler RoundRobin Fprint Terminal Segment LowLevel.
From S2P Require Import HighLevel Kernel Typing Model Timing UserTask.

Definition zero_context : context :=
  Context_ (HwContext (Pusha 0 0 0 0 0 0 0 0) (Iframe 0 0 0 0 0) 0 0) (SchedContext 0 0 0 None) 0 0.

(** EDF over the linked list, with dynamic creation and without printing. *)
Definition ex_cfg : config := Config EDF_SCHEDULING SCHED_PRIORITY_QUEUE_USE_LIST true false.

Definition ex_entries : list task_entry :=
  [TaskEntry 0x120000 0x121000 1; TaskEntry 0x121010 0x122000 2].

Definition ex_img : user_tasks_image := system_desc ex_cfg ex_entries 0x110000 0x110010.

(** One task only. *)
Definition solo_img : user_tasks_image :=
  system_desc ex_cfg [TaskEntry 0x120000 0x121000 1] 0x110000 0x110010.

Definition ex_kernel_end : Z := 0x110000.

Definition ex_symbols : symbols :=
  Symbols (fun p => match p with
                    | ContextFor t s => 0x108000 + 0x1000 * Z.of_nat t + 0x80 * Z.of_nat s
                    | Reserve i => 0x10E000 + 0x80 * Z.of_nat i
                    | IdleCtx i => 0x10F000 + 0x80 * Z.of_nat i
                    end)
    0x100000 0x100100 0x100200 (fun n => 0x101000 + 64 * (n mod 256)) 0x106000 0x106040 0x106080 0x1060C0.

Definition ex_pointers : list cptr :=
  [ContextFor 0 0; ContextFor 1 0; IdleCtx 0] ++ (Reserve <$> seq 0 10).

Definition ex_mem : mem := list_to_map ((fun p => (p, zero_context)) <$> ex_pointers).

Definition ex_terminal : terminal := Terminal 0 0 7 (replicate 2000 0).

Definition ex_state {St} (s : St) : kstate St :=
  KState (SState ex_mem s timer_zero) ex_terminal lowlevel_zero 10.

(** EDF with the list queue. *)
Definition ex_sched : priority_sched false list_heap := PrioritySched lq_heap_init lq_heap_init.
Definition ex_k0 : kstate (priority_sched false list_heap) := ex_state ex_sched.

Lemma ex_image_ok : image_ok ex_img.
Proof.
  split; try done.
  - cbn. apply NoDup_cons. split; [|apply NoDup_singleton]. by rewrite list_elem_of_singleton.
  - cbn. rewrite !not_elem_of_cons. split; [done|]. split; [done|apply not_elem_of_nil].
Qed.

Lemma ex_symbols_ok : symbols_ok ex_symbols.
Proof.
  split; [by vm_compute| |by vm_compute..|].
  - intros n. cbn. pose proof (Z.mod_pos_bound n 256 ltac:(lia)). unfold in_width. lia.
  - apply (bool_decide_unpack _). vm_compute. exact I.
Qed.

Lemma ex_system_ok : system_ok ex_cfg ex_symbols ex_img ex_kernel_end.
Proof.
  split; [apply ex_image_ok|apply ex_symbols_ok|..].
  - apply (bool_decide_unpack _). by vm_compute.
  - intros i _. cbn. rewrite !not_elem_of_cons. split; [done|]. split; [done|apply not_elem_of_nil].
  - done.
  - repeat constructor; by vm_compute.
  - repeat constructor; by vm_compute.
  - done.
Qed.

Lemma ex_lookup p : p ∈ ex_pointers -> ex_mem !! p = Some zero_context.
Proof.
  intros Hp. apply elem_of_list_to_map_1'.
  - intros y Hy. apply list_elem_of_fmap in Hy as (q & [= -> ->] & _). done.
  - apply list_elem_of_fmap. eauto.
Qed.

Lemma ex_boot_state {St} (s : St) : boot_state ex_cfg ex_img (ex_state s).
Proof.
  split; [| | |done..].
  - intros p Hp. exists zero_context. apply ex_lookup. cbn in *. set_solver.
  - intros i Hi. exists zero_context. apply ex_lookup. unfold ex_pointers. apply elem_of_app. right.
    apply list_elem_of_fmap_2, elem_of_seq. lia.
  - exists zero_context. apply ex_lookup. cbn. set_solver.
Qed.

Lemma ex_term_ok : term_ok ex_terminal.
Proof. by vm_compute. Qed.

(** ** States after _start *)

Definition ex_default : cpu * kstate (priority_sched false list_heap) :=
  (Cpu 0 0 0 0 0 0 0 0 0 0 0 0 0, ex_k0).

(** The two-task system just after the boot: task 0 runs. *)
Definition ex_booted : cpu * kstate (priority_sched false list_heap) :=
  match start ex_cfg ex_symbols ex_img MULTIBOOT_LOADER_MAGIC ex_k0 with
  | Ok (inl x) => x
  | _ => ex_default
  end.

Lemma ex_booted_start :
  start ex_cfg ex_symbols ex_img MULTIBOOT_LOADER_MAGIC ex_k0 = Ok (inl ex_booted).
Proof.
  destruct (start_ok ex_cfg ex_symbols ex_img ex_kernel_end ex_system_ok ex_k0 (ex_boot_state _))
    as (c & k & p & E & _). unfold ex_booted. by rewrite E.
Qed.

(** The registers of a task that is about to make system call [n]. *)
Definition with_ebx (n : Z) (c : cpu) : cpu :=
  Cpu (c_edi c) (c_esi c) (c_ebp c) n (c_edx c) (c_ecx c) (c_eax c)
    (c_eip c) (c_cs c) (c_flags c) (c_esp c) (c_ss c) (c_ds c).

Lemma ex_reachable c' :
  user_step ex_booted.1 c' ->
  reachable ex_cfg ex_symbols ex_img ex_k0 (UserMode c' ex_booted.2).
Proof.
  intros Hs. exists (inl ex_booted). split; [apply ex_booted_start|].
  apply rtc_once. unfold outcome. destruct ex_booted as [c k]. by apply step_user.
Qed.

Lemma ex_booted_typed : cpu_typed ex_booted.1.
Proof. apply (bool_decide_unpack _). by vm_compute. Qed.

Lemma ex_with_ebx n : in_width 32 n -> user_step ex_booted.1 (with_ebx n ex_booted.1).
Proof.
  intros Hn. split; [reflexivity|]. split; [reflexivity|]. split; [reflexivity|].
  pose proof ex_booted_typed as Ht. unfold cpu_typed, cpu_words in *. cbn in *.
  do 3 (apply Forall_cons in Ht as [? Ht]; apply Forall_cons; split; [done|]).
  apply Forall_cons in Ht as [_ Ht]. by apply Forall_cons.
Qed.

(** What task 0 sees. *)
Lemma ex_running : esp0 (ll_tss (k_ll ex_booted.2)) = Some (ContextFor 0 0, 52).
Proof. by vm_compute. Qed.

Lemma ex_task0_range : exists ctx, k_mem ex_booted.2 !! ContextFor 0 0 = Some ctx /\ range ctx = 8.
Proof. eexists. split; vm_compute; reflexivity. Qed.

Lemma ex_reachable_call n :
  in_width 32 n ->
  reachable ex_cfg ex_symbols ex_img ex_k0 (UserMode (with_ebx n ex_booted.1) ex_booted.2).
Proof. intros Hn. by apply ex_reachable, ex_with_ebx. Qed.

Lemma ex_task0_not_idle : ContextFor 0 0 <> context_idle ex_img.
Proof. done. Qed.

Lemma width_small n : 0 <= n < 2 ^ 32 -> in_width 32 n /\ in_width 64 n.
Proof. unfold in_width. lia. Qed.

Lemma ex_idx_reserve : k_idx_reserve ex_booted.2 = 10.
Proof. by vm_compute. Qed.

(** The same system after task 0 has yielded for one nanosecond: task 1 runs. *)
Definition ex_yield_result :=
  software_interrupt ex_cfg ex_symbols ex_img SYSCALL_INTNUM (yield 1 1 (with_ebx 0 ex_booted.1))
    ex_booted.2.

Definition ex_yielded : cpu * kstate (priority_sched false list_heap) :=
  match ex_yield_result with Ok (inl x) => x | _ => ex_default end.

Lemma ex_yield_returns : match ex_yield_result with Ok (inl _) => True | _ => False end.
Proof. by vm_compute. Qed.

Lemma ex_yielded_facts :
  esp0 (ll_tss (k_ll ex_yielded.2)) = Some (ContextFor 1 0, 52) /\
  next_wake_date (s_timer (k_s ex_yielded.2)) = 1 /\
  current_time (s_timer (k_s ex_yielded.2)) = 0.
Proof. by vm_compute. Qed.

Lemma ex_yielded_step : ex_yield_result = Ok (inl ex_yielded).
Proof.
  pose proof ex_yield_returns as H. unfold ex_yielded.
  destruct ex_yield_result as [[x|t]|e]; [reflexivity|destruct H|destruct H].
Qed.

Lemma ex_yield_ebx : in_width 32 (c_ebx (yield 1 1 (with_ebx 0 ex_booted.1))).
Proof. by vm_compute. Qed.

Lemma ex_yield_typed : cpu_typed (yield 1 1 (with_ebx 0 ex_booted.1)).
Proof. apply (bool_decide_unpack _). by vm_compute. Qed.

Lemma ex_yield_step : user_step ex_booted.1 (yield 1 1 (with_ebx 0 ex_booted.1)).
Proof. split; [reflexivity|]. split; [reflexivity|]. split; [reflexivity|]. apply ex_yield_typed. Qed.

Lemma ex_yielded_reachable :
  reachable ex_cfg ex_symbols ex_img ex_k0 (UserMode ex_yielded.1 ex_yielded.2).
Proof.
  assert (0 <= SYSCALL_INTNUM < 256) as Hn by by vm_compute.
  destruct (ex_reachable _ ex_yield_step) as (r & E & Hr).
  exists r. split; [exact E|]. eapply rtc_r; [exact Hr|].
  pose proof ex_yielded_step as Es. unfold ex_yield_result in Es.
  destruct ex_yielded as [c k]. cbn [fst snd]. change (UserMode c k) with (outcome (inl (c, k))).
  exact (step_int ex_cfg ex_symbols ex_img SYSCALL_INTNUM _ ex_booted.2 (inl (c, k)) (ContextFor 0 0) 52
    Hn ex_running ex_task0_not_idle ex_yield_ebx Es).
Qed.

Lemma ex_task1_not_idle : ContextFor 1 0 <> context_idle ex_img.
Proof. done. Qed.

Lemma ex_count_ok {St} (k : kstate St) : count_ok ex_cfg k.
Proof. done. Qed.

Lemma ex_yielded_due :
  next_wake_date (s_timer (k_s ex_yielded.2))
    <= u64 (current_time (s_timer (k_s ex_yielded.2)) + ACTUAL_TICK).
Proof. destruct ex_yielded_facts as (_ & -> & ->). by vm_compute. Qed.

(** ** A system with one task, which yields *)

(** Without dynamic creation, so one context is enough. *)
Definition solo_cfg : config := Config EDF_SCHEDULING SCHED_PRIORITY_QUEUE_USE_LIST false false.

Definition one_img : user_tasks_image :=
  system_desc solo_cfg [TaskEntry 0x120000 0x121000 1] 0x110000 0x110010.

Lemma one_system_ok : system_ok solo_cfg ex_symbols one_img ex_kernel_end.
Proof.
  split; [|apply ex_symbols_ok|..]; try done.
  - split; try done; cbn; [apply NoDup_singleton|by rewrite list_elem_of_singleton].
  - apply (bool_decide_unpack _). by vm_compute.
  - intros i _. cbn. by rewrite list_elem_of_singleton.
  - repeat constructor; by vm_compute.
Qed.

Lemma one_boot_state {St} (s : St) : boot_state solo_cfg one_img (ex_state s).
Proof.
  destruct (ex_boot_state s) as [Ht Hr Hi Hx Hidt Hb Hterm]. split; try done.
  intros p Hp. apply Ht. apply list_elem_of_singleton in Hp as ->. by left.
Qed.

Definition one_booted : cpu * kstate (priority_sched false list_heap) :=
  match start solo_cfg ex_symbols one_img MULTIBOOT_LOADER_MAGIC ex_k0 with
  | Ok (inl x) => x
  | _ => ex_default
  end.

Lemma one_booted_start :
  start solo_cfg ex_symbols one_img MULTIBOOT_LOADER_MAGIC ex_k0 = Ok (inl one_booted).
Proof.
  destruct (start_ok solo_cfg ex_symbols one_img ex_kernel_end one_system_ok ex_k0 (one_boot_state _))
    as (c & k & p & E & _). unfold one_booted. by rewrite E.
Qed.

Lemma one_booted_facts :
  esp0 (ll_tss (k_ll one_booted.2)) = Some (ContextFor 0 0, 52) /\
  in_width 32 (c_ebx (yield 5000000 1 one_booted.1)) /\
  cpu_typed (yield 5000000 1 one_booted.1).
Proof. apply (bool_decide_unpack _). by vm_compute. Qed.

(** After its yield for five milliseconds, the idle task runs. *)
Definition one_yield_result :=
  software_interrupt solo_cfg ex_symbols one_img SYSCALL_INTNUM (yield 5000000 1 one_booted.1)
    one_booted.2.

Definition one_idle : cpu * kstate (priority_sched false list_heap) :=
  match one_yield_result with Ok (inl x) => x | _ => ex_default end.

Lemma one_yield_returns : match one_yield_result with Ok (inl _) => True | _ => False end.
Proof. by vm_compute. Qed.

Lemma one_idle_facts :
  esp0 (ll_tss (k_ll one_idle.2)) = Some (context_idle one_img, 52) /\
  next_wake_date (s_timer (k_s one_idle.2)) = 5000000 /\
  current_time (s_timer (k_s one_idle.2)) = 0.
Proof. by vm_compute. Qed.

Lemma one_idle_step : one_yield_result = Ok (inl one_idle).
Proof.
  pose proof one_yield_returns as H. unfold one_idle.
  destruct one_yield_result as [[x|t]|e]; [reflexivity|destruct H|destruct H].
Qed.

Lemma one_idle_reachable :
  reachable solo_cfg ex_symbols one_img ex_k0 (UserMode one_idle.1 one_idle.2).
Proof.
  assert (0 <= SYSCALL_INTNUM < 256) as Hn by by vm_compute.
  destruct one_booted_facts as (He & Hb & Ht).
  exists (inl one_booted). split; [apply one_booted_start|].
  eapply (rtc_l _ _ (UserMode (yield 5000000 1 one_booted.1) one_booted.2)).
  { unfold outcome. destruct one_booted as [c k] eqn:Ebt. apply step_user.
    split; [reflexivity|]. split; [reflexivity|]. split; [reflexivity|exact Ht]. }
  apply rtc_once. pose proof one_idle_step as Es. unfold one_yield_result in Es.
  destruct one_idle as [c k]. cbn [fst snd]. change (UserMode c k) with (outcome (inl (c, k))).
  exact (step_int solo_cfg ex_symbols one_img SYSCALL_INTNUM _ one_booted.2 (inl (c, k))
    (ContextFor 0 0) 52 Hn He ltac:(discriminate) Hb Es).
Qed.

(** The same system when the task yields for one nanosecond, and after the next
    tick, when it runs again. *)
Definition one_nap_regs : cpu := yield 1 1 one_booted.1.

Definition one_nap_result :=
  software_interrupt solo_cfg ex_symbols one_img SYSCALL_INTNUM one_nap_regs one_booted.2.

Definition one_nap : cpu * kstate (priority_sched false list_heap) :=
  match one_nap_result with Ok (inl x) => x | _ => ex_default end.

Definition one_back_result :=
  interrupt solo_cfg ex_symbols one_img TIMER_INTNUM [] one_nap.1 one_nap.2.

Definition one_back : cpu * kstate (priority_sched false list_heap) :=
  match one_back_result with Ok (inl x) => x | _ => ex_default end.

Lemma one_nap_returns :
  match one_nap_result with Ok (inl _) => True | _ => False end /\
  match one_back_result with Ok (inl _) => True | _ => False end.
Proof. by vm_compute. Qed.

Lemma one_nap_facts :
  esp0 (ll_tss (k_ll one_nap.2)) = Some (context_idle one_img, 52) /\
  esp0 (ll_tss (k_ll one_back.2)) = Some (ContextFor 0 0, 52) /\
  in_width 32 (c_ebx one_nap_regs) /\ cpu_typed one_nap_regs.
Proof. apply (bool_decide_unpack _). by vm_compute. Qed.

Lemma one_nap_reachable :
  reachable solo_cfg ex_symbols one_img ex_k0 (UserMode one_nap_regs one_booted.2).
Proof.
  exists (inl one_booted). split; [apply one_booted_start|]. apply rtc_once.
  destruct one_nap_facts as (_ & _ & _ & Ht). unfold one_nap_regs, outcome in *.
  destruct one_booted as [c k]. apply step_user. by do 3 (split; [reflexivity|]).
Qed.

Lemma one_task_not_idle : ContextFor 0 0 <> context_idle one_img.
Proof. done. Qed.

Lemma one_nap_events :
  estep solo_cfg ex_symbols one_img (EInt SYSCALL_INTNUM) (UserMode one_nap_regs one_booted.2) (UserMode one_nap.1 one_nap.2) /\
  estep solo_cfg ex_symbols one_img ETimer (UserMode one_nap.1 one_nap.2) (UserMode one_back.1 one_back.2).
Proof.
  assert (0 <= SYSCALL_INTNUM < 256) as Hv by by vm_compute.
  destruct one_nap_returns as [Hn Hb], one_nap_facts as (_ & _ & Hx & _), one_booted_facts as (He & _).
  split.
  - assert (one_nap_result = Ok (inl one_nap)) as E.
    { unfold one_nap. destruct one_nap_result as [[x|t]|e]; [reflexivity|destruct Hn|destruct Hn]. }
    unfold one_nap_result in E. destruct one_nap as [c k]. cbn [fst snd]. change (UserMode c k) with (outcome (inl (c, k))).
    exact (e_int solo_cfg ex_symbols one_img SYSCALL_INTNUM one_nap_regs one_booted.2 (inl (c, k))
      (ContextFor 0 0) 52 Hv He one_task_not_idle Hx E).
  - assert (one_back_result = Ok (inl one_back)) as E.
    { unfold one_back. destruct one_back_result as [[x|t]|e]; [reflexivity|destruct Hb|destruct Hb]. }
    unfold one_back_result in E. destruct one_back as [c k]. cbn [fst snd]. change (UserMode c k) with (outcome (inl (c, k))).
    exact (e_timer solo_cfg ex_symbols one_img one_nap.1 one_nap.2 (inl (c, k)) E).
Qed.

Lemma one_nap_steps :
  step solo_cfg ex_symbols one_img (UserMode one_nap_regs one_booted.2) (UserMode one_nap.1 one_nap.2) /\
  step solo_cfg ex_symbols one_img (UserMode one_nap.1 one_nap.2) (UserMode one_back.1 one_back.2).
Proof. destruct one_nap_events as [H1 H2]. split; apply step_event; [exact (ex_intro _ _ H1)|exact (ex_intro _ _ H2)]. Qed.

Definition one_nap_run : list event := [EUser one_nap_regs; EInt SYSCALL_INTNUM; ETimer].

(** The task has asked for one nanosecond. *)
Lemma one_nap_asks :
  asks solo_cfg ex_symbols one_img (ContextFor 0 0) one_nap_run 1
    (UserMode one_booted.1 one_booted.2) (UserMode one_back.1 one_back.2).
Proof.
  destruct one_nap_events as [H1 H2], one_nap_facts as (_ & _ & _ & Ht), one_booted_facts as (He & _).
  assert (estep solo_cfg ex_symbols one_img (EUser one_nap_regs) (UserMode one_booted.1 one_booted.2)
    (UserMode one_nap_regs one_booted.2)) as H0.
  { apply e_user. unfold one_nap_regs in *. destruct one_booted as [c k]. by do 3 (split; [reflexivity|]). }
  assert (asked (ContextFor 0 0) (EInt SYSCALL_INTNUM) (UserMode one_nap_regs one_booted.2) = 1) as E1.
  { unfold asked. rewrite He, bool_decide_true by (split; [reflexivity|split; reflexivity]). reflexivity. }
  pose proof (asks_cons _ _ _ (ContextFor 0 0) _ _ _ _ _ _ H0 (asks_cons _ _ _ (ContextFor 0 0) _ _ _ _ _ _ H1
    (asks_cons _ _ _ (ContextFor 0 0) _ _ _ _ _ _ H2 (asks_nil _ _ _ _ _)))) as H.
  rewrite E1 in H. exact H.
Qed.

(** ** A round-robin system that prints *)

Definition dbg_cfg : config := Config ROUND_ROBIN_SCHEDULING SCHED_PRIORITY_QUEUE_USE_LIST true true.
Definition dbg_k0 : kstate rr_sched := ex_state (RRSched None).

Lemma dbg_system_ok : system_ok dbg_cfg ex_symbols ex_img ex_kernel_end.
Proof. by destruct ex_system_ok; split. Qed.

Lemma dbg_boot_state : boot_state dbg_cfg ex_img dbg_k0.
Proof. by destruct (ex_boot_state (RRSched None)); split. Qed.

(** Round robin never idles, so a task runs after the boot. *)
Lemma dbg_booted :
  exists c k p ctx, reachable dbg_cfg ex_symbols ex_img dbg_k0 (UserMode c k) /\
    esp0 (ll_tss (k_ll k)) = Some (p, 52) /\ p <> context_idle ex_img /\ k_mem k !! p = Some ctx.
Proof.
  destruct (start_ok dbg_cfg ex_symbols ex_img ex_kernel_end dbg_system_ok dbg_k0 dbg_boot_state)
    as (c & k & p & E & Hu & Hk).
  destruct (km_contexts _ _ _ _ _ _ (ki_mid _ _ _ _ _ _ Hk) p (ki_known _ _ _ _ _ _ Hk)) as (ctx & Ec & _).
  exists c, k, p, ctx. split; [exists (inl (c, k)); exact (conj E (rtc_refl _ _))|]. clear E.
  split; [exact (ki_esp0 _ _ _ _ _ _ Hk)|]. split; [|exact Ec]. intros ->.
  pose proof (km_sched _ _ _ _ _ _ (ki_mid _ _ _ _ _ _ Hk)) as (_ & _ & _ & Hph).
  unfold running_phase, context_is_idle in Hph. by rewrite bool_decide_true in Hph.
Qed.

(** ** A typed initial state *)

Lemma ex_image_typed : image_typed ex_img.
Proof. split; [apply (bool_decide_unpack _)|..]; by vm_compute. Qed.

Lemma ex_symbols_typed : symbols_typed ex_symbols.
Proof. split; by vm_compute. Qed.

Lemma ex_state_typed {St} (s : St) : kstate_typed (ex_state s).
Proof.
  split; [split|..|by vm_compute].
  - intros p c Hp. apply elem_of_list_to_map_2, list_elem_of_fmap in Hp as (q & [= -> ->] & _).
    split; [apply (bool_decide_unpack _)|..]; by vm_compute.
  - split; by vm_compute.
  - split; [by vm_compute..|]. apply (Forall_replicate (in_width 16) 2000 0). by vm_compute.
  - split; [apply (bool_decide_unpack _)|apply (Forall_replicate (in_width 64) 256 0)|..];
      by vm_compute.
Qed.

(** ** A memory with two queues *)

Definition ex_dated (date : Z) (n : option cptr) : context :=
  Context_ (hw zero_context) (SchedContext date date 0 n) 0 0.

(** Contexts 1 and 0 wait until dates 10 and 30, context 2 is ready, context 3
    runs. *)
Definition ex_qmem : mem :=
  list_to_map [(ContextFor 0 0, ex_dated 30 None); (ContextFor 1 0, ex_dated 10 (Some (ContextFor 0 0)));
    (ContextFor 2 0, ex_dated 20 None); (ContextFor 3 0, ex_dated 20 None)].

Definition ex_waiting : list_heap := ListHeap 2 (Some (ContextFor 1 0)).
Definition ex_ready : list_heap := ListHeap 1 (Some (ContextFor 2 0)).

Definition ex_queues : sstate (priority_sched false list_heap) :=
  SState ex_qmem (PrioritySched ex_waiting ex_ready) timer_zero.

Lemma ex_nodup (l : list cptr) : bool_decide (NoDup l) = true -> NoDup l.
Proof. apply bool_decide_eq_true_1. Qed.

Lemma ex_waiting_rep : lq_rep waiting_pf ex_qmem ex_waiting [ContextFor 1 0; ContextFor 0 0].
Proof.
  split; [|by apply ex_nodup|by repeat constructor|done].
  cbn. split; [done|]. eexists. split; [reflexivity|]. cbn. split; [done|]. eexists. by split.
Qed.

Lemma ex_ready_rep : lq_rep (ready_pf false) ex_qmem ex_ready [ContextFor 2 0].
Proof.
  split; [|by apply ex_nodup|by repeat constructor|done].
  cbn. split; [done|]. eexists. by split.
Qed.

Lemma ex_queues_ok :
  queues (nb_contexts ex_img) (s_mem ex_queues) (s_sched ex_queues)
    [ContextFor 2 0] [ContextFor 1 0; ContextFor 0 0].
Proof.
  split; [|..|by apply ex_nodup]; eexists; (split; [reflexivity|]);
    [apply ex_ready_rep|apply ex_waiting_rep].
Qed.

Lemma ex_context3 : is_Some (ex_qmem !! ContextFor 3 0).
Proof. by eexists. Qed.

Lemma ex_nb_contexts : nb_contexts ex_img = 16.
Proof. done. Qed.

Lemma ex_addressable : addressable (nb_contexts ex_img).
Proof. done. Qed.
