(* ===== verification/Bindings.v ===== *)
(** * The C parts of libase

    utils/int_builtins_c.c (integer logarithms on OCaml's tagged integers),
    ext/framac_ival/c_bindings.c (floating-point primitives) and libc.c (the
    stubs the analyser substitutes for C library functions).  An OCaml value is
    a 64-bit word; a double is its 64-bit pattern.  What the C library and the
    OCaml runtime provide (libm, strtof, usleep, the floating-point
    environment's encodings) is a parameter. *)

From stdpp Require Import options.
From S2P Require Import Prelude Segment.

(** ** OCaml values *)

(** Val_long and Long_val on 64 bits; integers are signed. *)
Definition signed (w z : Z) : Z := if z <? 2 ^ (w - 1) then z else z - 2 ^ w.
Definition Val_long (n : Z) : Z := u64 (2 * n + 1).
Definition Long_val (v : Z) : Z := Z.shiftr (signed 64 v) 1.
Definition Val_int : Z -> Z := Val_long.
(** Int_val truncates to int. *)
Definition Int_val (v : Z) : Z := signed 32 (u32 (Long_val v)).
Definition Val_unit : Z := Val_int 0.
Definition Val_false : Z := Val_int 0.
Definition Val_true : Z := Val_int 1.

(** ** int_builtins_c.c *)

(** __builtin_clzll, undefined on 0. *)
Definition clzll (v : Z) : res Z :=
  if v =? 0 then Err (Undef BadPointer) else Ok (63 - Z.log2 v).

(** clz takes an unsigned int: only 32 bits of its argument arrive. *)
Definition clz (v : Z) : res Z := clzll (u32 v).

(** 8*sizeof(value). *)
Definition value_bits : Z := 64.

Definition caml_int_builtin_log2 (i : Z) : res Z :=
  let* c := clz i in Ok (u64 (value_bits - 2 - c)).
Definition caml_int_builtin_log2_untagged (i : Z) : res Z :=
  let* c := clz i in Ok (u64 (value_bits - 1 - c)).
Definition caml_int_builtin_log2_byte (i : Z) : res Z :=
  let* l := caml_int_builtin_log2 i in Ok (Val_int l).

(** [1 << n] at type int. *)
Definition int_shift (n : Z) : res Z :=
  if n <? 31 then Ok (Z.shiftl 1 n) else Err (Undef SignedOverflow).

(** The int result is converted to uintnat. *)
Definition caml_int_builtin_highest_bit (i : Z) : res Z :=
  let* l := caml_int_builtin_log2 i in int_shift l.
Definition caml_int_builtin_highest_bit_untagged (i : Z) : res Z :=
  let* l := caml_int_builtin_log2_untagged i in int_shift l.
Definition caml_int_builtin_highest_bit_byte (i : Z) : res Z :=
  let* l := caml_int_builtin_log2 i in
  let* b := int_shift l in Ok (Val_int b).

(** The argument of usleep, an unsigned int, and the result. *)
Definition fc_ival_ml_usleep (v : Z) : Z * Z := (u32 (Int_val v), Val_unit).

(** ** c_bindings.c: comparisons *)

(** [ux.i ^ (((uint64_t)(ux.i >> 63))>>1)] as an int64_t, from the bits. *)
Definition total_key (x : Z) : Z :=
  let i := signed 64 x in
  signed 64 (Z.lxor x (Z.shiftr (u64 (Z.shiftr i 63)) 1)).

Definition fc_ival_float_compare_total (x y : Z) : Z :=
  if signed 64 x =? signed 64 y then Val_int 0
  else if total_key x <? total_key y then Val_int (-1) else Val_int 1.

Definition fc_ival_float_is_negative (v : Z) : Z := Val_int (Z.shiftr v 63).

(** memcmp over the first [len] bytes, when both strings have them. *)
Definition fc_ival_compare_strings (v1 v2 : list Z) (vlen : Z) : Z :=
  if bool_decide (take (Z.to_nat (Long_val vlen)) v1 = take (Z.to_nat (Long_val vlen)) v2)
  then Val_true else Val_false.

(** The address divided by sizeof(long). *)
Definition fc_ival_address_of_value (v : Z) : Z := Val_long (v / 8).

(** ** c_bindings.c: rounding modes *)

(** c_rounding_mode_t. *)
Inductive c_rounding_mode := FE_ToNearest | FE_Upward | FE_Downward | FE_TowardZero.

Definition rounding_index (r : c_rounding_mode) : Z :=
  match r with FE_ToNearest => 0 | FE_Upward => 1 | FE_Downward => 2 | FE_TowardZero => 3 end.

(** The outcomes of the bindings: a value, or an OCaml exception. *)
Inductive caml_result := Returned (v : Z) | Failwith (msg : string) | InvalidArgument (msg : string).

(** <fenv.h>: the constants of the four modes. *)
Record fenv := Fenv { fe_tonearest : Z; fe_upward : Z; fe_downward : Z; fe_towardzero : Z }.

Definition fe_constant (e : fenv) (r : c_rounding_mode) : Z :=
  match r with
  | FE_ToNearest => fe_tonearest e | FE_Upward => fe_upward e
  | FE_Downward => fe_downward e | FE_TowardZero => fe_towardzero e
  end.

(** The setters: the value and the new mode of the environment. *)
Definition fc_ival_set_round_downward (e : fenv) : Z * Z := (Val_unit, fe_downward e).
Definition fc_ival_set_round_upward (e : fenv) : Z * Z := (Val_unit, fe_upward e).
Definition fc_ival_set_round_nearest_even (e : fenv) : Z * Z := (Val_unit, fe_tonearest e).
Definition fc_ival_set_round_toward_zero (e : fenv) : Z * Z := (Val_unit, fe_towardzero e).

Definition fc_ival_get_rounding_mode (e : fenv) (mode : Z) : caml_result :=
  if mode =? fe_tonearest e then Returned (Val_int (rounding_index FE_ToNearest))
  else if mode =? fe_downward e then Returned (Val_int (rounding_index FE_Downward))
  else if mode =? fe_upward e then Returned (Val_int (rounding_index FE_Upward))
  else if mode =? fe_towardzero e then Returned (Val_int (rounding_index FE_TowardZero))
  else Failwith "illegal rounding mode (should never happen)".

Definition fc_ival_set_rounding_mode (e : fenv) (rm mode : Z) : caml_result * Z :=
  let i := Int_val rm in
  if i =? rounding_index FE_ToNearest then (Returned Val_unit, fe_tonearest e)
  else if i =? rounding_index FE_Downward then (Returned Val_unit, fe_downward e)
  else if i =? rounding_index FE_Upward then (Returned Val_unit, fe_upward e)
  else if i =? rounding_index FE_TowardZero then (Returned Val_unit, fe_towardzero e)
  else (InvalidArgument "set_rounding_mode", mode).

(** ** c_bindings.c: functions of the C library *)

Section Libm.
Context (float : Type) (to_float : Z -> float) (to_double : float -> Z).
Context (round_d trunc_d : Z -> Z).
Context (expf logf log10f sqrtf cosf sinf : float -> float) (powf fmodf atan2f : float -> float -> float).
(** strtof: the number and the count of characters read. *)
Context (strtof : list Z -> float * nat).

Definition fc_ival_c_round (d : Z) : Z := round_d d.
Definition fc_ival_c_trunc (d : Z) : Z := trunc_d d.
Definition fc_ival_c_expf (d : Z) : Z := to_double (expf (to_float d)).
Definition fc_ival_c_logf (d : Z) : Z := to_double (logf (to_float d)).
Definition fc_ival_c_log10f (d : Z) : Z := to_double (log10f (to_float d)).
Definition fc_ival_c_powf (x y : Z) : Z := to_double (powf (to_float x) (to_float y)).
Definition fc_ival_c_sqrtf (d : Z) : Z := to_double (sqrtf (to_float d)).
Definition fc_ival_c_fmodf (x y : Z) : Z := to_double (fmodf (to_float x) (to_float y)).
Definition fc_ival_c_cosf (x : Z) : Z := to_double (cosf (to_float x)).
Definition fc_ival_c_sinf (x : Z) : Z := to_double (sinf (to_float x)).
Definition fc_ival_c_atan2f (x y : Z) : Z := to_double (atan2f (to_float x) (to_float y)).
Definition fc_ival_round_to_float (d : Z) : Z := to_double (to_float d).

(** The string is terminated by a NUL, which strtof never consumes. *)
Definition fc_ival_single_precision_of_string (str : list Z) : caml_result :=
  let '(f, n) := strtof str in
  if negb (n =? length str)%nat then
    let c := default 0 (str !! n) in
    if negb (n + 1 =? length str)%nat
       || (negb (c =? 102) && negb (c =? 70) && negb (c =? 108) && (c =? 76))
    then Failwith "single_precision_of_string"
    else Returned (to_double f)
  else Returned (to_double f).
End Libm.

(** ** libc.c *)

(** The bytes of memory as a list; rand_char() as the sequence of the values it
    returns, rand_int() as its next value. *)
Definition byte_set (m : list Z) (i : nat) (v : Z) : res (list Z) :=
  if (i <? length m)%nat then Ok (<[i := v]> m) else Err (Undef OutOfBounds).
Definition byte_get (m : list Z) (i : nat) : res Z :=
  match m !! i with Some v => Ok v | None => Err (Undef OutOfBounds) end.

(** [dest[i] = src[i]] for the [n] indices from [i]. *)
Fixpoint memcpy_loop (n i dest src : nat) (m : list Z) : res (list Z) :=
  match n with
  | O => Ok m
  | S n =>
      let* v := byte_get m (src + i) in
      let* m1 := byte_set m (dest + i) v in memcpy_loop n (S i) dest src m1
  end.

(** The index is an int, which cannot count to 2^31. *)
Definition memcpy (dest src n : nat) (m : list Z) : res (list Z * nat) :=
  if 2 ^ 31 <=? Z.of_nat n then Err (Undef SignedOverflow)
  else let* m1 := memcpy_loop n 0 dest src m in Ok (m1, dest).

Fixpoint memset_loop (n i dest : nat) (c : Z) (m : list Z) : res (list Z) :=
  match n with
  | O => Ok m
  | S n => let* m1 := byte_set m (dest + i) (u8 c) in memset_loop n (S i) dest c m1
  end.

Definition memset (dest : nat) (c : Z) (n : nat) (m : list Z) : res (list Z * nat) :=
  if 2 ^ 31 <=? Z.of_nat n then Err (Undef SignedOverflow)
  else let* m1 := memset_loop n 0 dest c m in Ok (m1, dest).

(** The loop that fills [n] bytes with rand_char(), whose next values are
    [rc i], [rc (i + 1)], ... *)
Fixpoint random_fill (n p : nat) (rc : nat -> Z) (i : nat) (m : list Z) : res (list Z) :=
  match n with
  | O => Ok m
  | S n => let* m1 := byte_set m p (u8 (rc i)) in random_fill n (S p) rc (S i) m1
  end.

(** tcsetattr and tcgetattr; [size] is sizeof(struct termios), [ri] the value of
    rand_int(). *)
Definition tcsetattr (size p : nat) (rc : nat -> Z) (ri : Z) (m : list Z) : res (list Z * Z) :=
  let* m1 := random_fill size p rc 0 m in Ok (m1, ri).
Definition tcgetattr (size p : nat) (rc : nat -> Z) (ri : Z) (m : list Z) : res (list Z * Z) :=
  let* m1 := random_fill size p rc 0 m in Ok (m1, ri).

(** snprintf: a length below [size], or the endless loop. *)
Definition snprintf (str size : nat) (rc : nat -> Z) (ri : Z) (m : list Z) : res (list Z * Z) :=
  let* m1 := random_fill size str rc 0 m in
  if (0 <=? ri) && (ri <? Z.of_nat size) then Ok (m1, ri) else Err InfiniteLoop.

(** ** Logarithms *)

(** On the tagged integers that fit in 32 bits, the logarithm is exact. *)
Lemma log2_ok n :
  1 <= n < 2 ^ 31 -> caml_int_builtin_log2 (Val_long n) = Ok (Z.log2 n).
Proof.
  intros Hn. unfold caml_int_builtin_log2, clz, clzll, Val_long.
  rewrite !wrap_small by (try apply wrap_range; unfold in_width; rewrite ?wrap_small by (unfold in_width; lia); lia).
  rewrite (proj2 (Z.eqb_neq _ _)) by lia. cbn [rbind].
  rewrite Z.log2_succ_double by lia. unfold value_bits.
  pose proof (Z.log2_nonneg n). pose proof (proj1 (Z.log2_lt_pow2 n 31 ltac:(lia)) ltac:(lia)).
  rewrite wrap_small by (unfold in_width; lia). f_equal. lia.
Qed.

Lemma highest_bit_ok n :
  1 <= n < 2 ^ 31 -> caml_int_builtin_highest_bit (Val_long n) = Ok (2 ^ Z.log2 n).
Proof.
  intros Hn. unfold caml_int_builtin_highest_bit. rewrite log2_ok by done. cbn [rbind].
  unfold int_shift. pose proof (proj1 (Z.log2_lt_pow2 n 31 ltac:(lia)) ltac:(lia)).
  rewrite (proj2 (Z.ltb_lt _ _)) by lia. f_equal. rewrite Z.shiftl_mul_pow2 by apply Z.log2_nonneg. lia.
Qed.

(** ** The total order on doubles *)

(** Sign and magnitude of a bit pattern. *)
Definition sign_bit (x : Z) : bool := Z.testbit x 63.
Definition magnitude (x : Z) : Z := x mod 2 ^ 63.

(** -nan < -inf < ... < -0 < +0 < ... < +inf < +nan. *)
Definition total_lt (x y : Z) : Prop :=
  match sign_bit x, sign_bit y with
  | true, false => True
  | false, true => False
  | false, false => magnitude x < magnitude y
  | true, true => magnitude y < magnitude x
  end.

Lemma lxor_ones_complement w m : 0 <= w -> in_width w m -> Z.lxor m (Z.ones w) = Z.ones w - m.
Proof.
  intros Hw Hm. assert (m + Z.lxor m (Z.ones w) = Z.ones w) as E; [|lia].
  rewrite Z.add_nocarry_lxor.
  - by rewrite <-Z.lxor_assoc, Z.lxor_nilpotent, Z.lxor_0_l.
  - apply Z.bits_inj'. intros j Hj. rewrite Z.land_spec, Z.lxor_spec, Z.bits_0.
    destruct (Z.lt_ge_cases j w).
    + rewrite Z.ones_spec_low by lia. by destruct (Z.testbit m j).
    + by rewrite (testbit_high w Hw m) by done.
Qed.

Lemma land_high_low w m : 0 <= w -> in_width w m -> Z.land (2 ^ w) m = 0.
Proof.
  intros Hw Hm. apply Z.bits_inj'. intros j Hj. rewrite Z.land_spec, Z.bits_0.
  destruct (Z.lt_ge_cases j w).
  - by rewrite Z.pow2_bits_false by lia.
  - rewrite (testbit_high w Hw m) by done. apply andb_false_r.
Qed.

Lemma lxor_high x : 2 ^ 63 <= x < 2 ^ 64 -> Z.lxor x (Z.ones 63) = 2 ^ 63 + (2 ^ 64 - 1 - x).
Proof.
  intros Hx. assert (in_width 63 (x - 2 ^ 63)) as Hm by (unfold in_width; lia).
  replace x with (2 ^ 63 + (x - 2 ^ 63)) at 1 by lia.
  rewrite (Z.add_nocarry_lxor (2 ^ 63)) by (apply land_high_low; [lia|done]).
  rewrite Z.lxor_assoc, lxor_ones_complement by (lia || done).
  rewrite <-Z.add_nocarry_lxor; rewrite Z.ones_equiv; [lia|].
  apply land_high_low; unfold in_width in *; lia.
Qed.

Lemma sign_bit_spec x : in_width 64 x -> sign_bit x = (2 ^ 63 <=? x) /\ 
  magnitude x = if 2 ^ 63 <=? x then x - 2 ^ 63 else x.
Proof.
  intros Hx. unfold in_width in Hx. unfold sign_bit, magnitude.
  destruct (Z.leb_spec (2 ^ 63) x) as [H|H].
  - split; [|dlia]. apply Z.testbit_true; [lia|]. dlia.
  - split; [|dlia]. apply Z.testbit_false; [lia|]. dlia.
Qed.

(** The key orders the bit patterns as signed integers. *)
Lemma total_key_value x :
  in_width 64 x -> total_key x = if sign_bit x then - 1 - magnitude x else magnitude x.
Proof.
  intros Hx. destruct (sign_bit_spec x Hx) as [-> ->]. unfold total_key, signed.
  change (64 - 1) with 63. unfold in_width in Hx.
  destruct (Z.leb_spec (2 ^ 63) x) as [H|H].
  - rewrite (proj2 (Z.ltb_ge x (2 ^ 63))) by lia.
    assert (Z.shiftr (x - 2 ^ 64) 63 = -1) as -> by (rewrite Z.shiftr_div_pow2 by lia; dlia).
    change (Z.shiftr (u64 (-1)) 1) with (Z.ones 63).
    rewrite lxor_high by (unfold in_width; lia). zbool. lia.
  - rewrite (proj2 (Z.ltb_lt x (2 ^ 63))) by lia.
    assert (Z.shiftr x 63 = 0) as -> by (rewrite Z.shiftr_div_pow2 by lia; dlia).
    change (Z.shiftr (u64 0) 1) with 0. rewrite Z.lxor_0_r. zbool. lia.
Qed.

(** The comparison decides the total order. *)
Lemma float_compare_total_ok x y :
  in_width 64 x -> in_width 64 y ->
  (fc_ival_float_compare_total x y = Val_int 0 <-> x = y) /\
  (fc_ival_float_compare_total x y = Val_int (-1) <-> total_lt x y) /\
  (fc_ival_float_compare_total x y = Val_int 1 <-> total_lt y x).
Proof.
  intros Hx Hy. unfold fc_ival_float_compare_total, total_lt.
  rewrite !total_key_value by done.
  destruct (sign_bit_spec x Hx) as [-> ->], (sign_bit_spec y Hy) as [-> ->].
  unfold signed, in_width in *. change (64 - 1) with 63.
  destruct (Z.leb_spec (2 ^ 63) x), (Z.leb_spec (2 ^ 63) y).
  all: repeat match goal with |- context [?a <? 2 ^ 63] =>
      first [ rewrite (proj2 (Z.ltb_lt a (2 ^ 63))) by lia
            | rewrite (proj2 (Z.ltb_ge a (2 ^ 63))) by lia ] end.
  all: match goal with |- context [?a =? ?b] => destruct (Z.eqb_spec a b); [|
      match goal with |- context [?c <? ?d] => destruct (Z.ltb_spec c d) end] end.
  all: repeat split; intros; try lia; try done.
Qed.

(** ** Rounding modes *)

Definition fenv_distinct (e : fenv) : Prop :=
  NoDup [fe_tonearest e; fe_upward e; fe_downward e; fe_towardzero e].

(** Setting a mode and reading it back. *)
Lemma rounding_mode_roundtrip e r mode :
  fenv_distinct e ->
  exists mode', fc_ival_set_rounding_mode e (Val_int (rounding_index r)) mode = (Returned Val_unit, mode') /\
    fc_ival_get_rounding_mode e mode' = Returned (Val_int (rounding_index r)).
Proof.
  intros Hd. exists (fe_constant e r). unfold fenv_distinct in Hd. rewrite !NoDup_cons in Hd.
  split; [by destruct r|]. unfold fc_ival_get_rounding_mode.
  assert (fe_tonearest e <> fe_upward e /\ fe_tonearest e <> fe_downward e /\
    fe_tonearest e <> fe_towardzero e /\ fe_upward e <> fe_downward e /\
    fe_upward e <> fe_towardzero e /\ fe_downward e <> fe_towardzero e) as (H1 & H2 & H3 & H4 & H5 & H6)
    by set_solver.
  destruct r; cbn [fe_constant]; zbool; done.
Qed.

(** ** Strings of the C library *)

(** When one character is left after the number, only 'L' is rejected. *)
Lemma single_precision_suffix {float} to_double (strtof : list Z -> float * nat) s c f :
  strtof (s ++ [c]) = (f, length s) ->
  fc_ival_single_precision_of_string float to_double strtof (s ++ [c])
    = if c =? 76 then Failwith "single_precision_of_string" else Returned (to_double f).
Proof.
  intros E. unfold fc_ival_single_precision_of_string. rewrite E, length_app. cbn [length].
  rewrite (proj2 (Nat.eqb_neq _ _)) by lia. rewrite Nat.eqb_refl. cbn [negb orb].
  rewrite list_lookup_middle by done. unfold default, from_option, id.
  destruct (Z.eqb_spec c 76) as [->|]; [done|]. by rewrite !andb_false_r.
Qed.

(** ** Memory functions *)

Lemma byte_set_ok m i v : (i < length m)%nat -> byte_set m i v = Ok (<[i := v]> m).
Proof. intros H. unfold byte_set. by rewrite (proj2 (Nat.ltb_lt _ _)). Qed.

(** Copying forward is right when the destination does not start inside the source. *)
Lemma memcpy_loop_ok n i dest src m :
  (dest + i + n <= length m)%nat -> (src + i + n <= length m)%nat ->
  (dest <= src \/ src + i + n <= dest + i)%nat ->
  exists m', memcpy_loop n i dest src m = Ok m' /\ length m' = length m /\
    forall j, m' !! j = if decide (dest + i <= j < dest + i + n)%nat
                        then m !! (src + (j - dest))%nat else m !! j.
Proof.
  revert i m. induction n as [|n IH]; intros i m Hd Hs Ho; cbn [memcpy_loop].
  { exists m. split; [done|]. split; [done|]. intros j. by rewrite decide_False by lia. }
  unfold byte_get. destruct (lookup_lt_is_Some_2 m (src + i)) as [v Hv]; [lia|]. rewrite Hv. cbn [rbind].
  rewrite byte_set_ok by lia. cbn [rbind].
  destruct (IH (S i) (<[dest + i := v]> m)%nat) as (m' & E & Hl & Hm); [rewrite length_insert; lia..|lia|].
  exists m'. split; [done|]. rewrite length_insert in Hl. split; [done|]. intros j. rewrite Hm.
  destruct (decide (j = dest + i)%nat) as [->|Hne].
  - rewrite decide_False, decide_True, list_lookup_insert_eq by lia.
    by replace (src + (dest + i - dest))%nat with (src + i)%nat by lia.
  - destruct (decide (dest + S i <= j < dest + S i + n)%nat).
    + rewrite decide_True, list_lookup_insert_ne by lia. done.
    + rewrite decide_False, list_lookup_insert_ne by lia. done.
Qed.

Lemma memset_loop_ok n i dest c m :
  (dest + i + n <= length m)%nat ->
  exists m', memset_loop n i dest c m = Ok m' /\ length m' = length m /\
    forall j, m' !! j = if decide (dest + i <= j < dest + i + n)%nat then Some (u8 c) else m !! j.
Proof.
  revert i m. induction n as [|n IH]; intros i m Hd; cbn [memset_loop].
  { exists m. split; [done|]. split; [done|]. intros j. by rewrite decide_False by lia. }
  rewrite byte_set_ok by lia. cbn [rbind].
  destruct (IH (S i) (<[dest + i := u8 c]> m)%nat) as (m' & E & Hl & Hm); [rewrite length_insert; lia|].
  exists m'. split; [done|]. rewrite length_insert in Hl. split; [done|]. intros j. rewrite Hm.
  destruct (decide (j = dest + i)%nat) as [->|Hne].
  - by rewrite decide_False, decide_True, list_lookup_insert_eq by lia.
  - destruct (decide (dest + S i <= j < dest + S i + n)%nat).
    + by rewrite decide_True by lia.
    + by rewrite decide_False, list_lookup_insert_ne by lia.
Qed.
