(* ===== verification/UnitTests.v ===== *)
(** * The unit tests of the sources

    heap.c and fprint.c end with a test program, disabled in the build.  They are
    run here on the models: an instance of the linked queue over an array of
    eight elements, and a few calls of the formatting functions. *)

From stdpp Require Import options.
From S2P Require Import Prelude Contexts PQueue ListQueue Fprint Examples.

(** ** heap.c *)

(** test_get_priority and test_is_gt_priority. *)
Definition test_pf : prio_fn := PrioFn Contexts.priority (fun a b => b <? a).

(** the_heap_array[i]; the priority of an element is in its scheduling data. *)
Definition the_heap_array (i : nat) : cptr := ContextFor 0 i.
Definition test_mem : mem :=
  list_to_map ((fun i => (the_heap_array i, zero_context)) <$> seq 0 8).

(** print_elt_array: the priorities along the links. *)
Fixpoint print_elt_array (fuel : nat) (m : mem) (cur : option cptr) : res (list Z) :=
  match fuel, cur with
  | _, None => Ok []
  | O, _ => Err NoFuel
  | S fuel, Some p =>
      let* c := load m p in
      let* l := print_elt_array fuel m (next (sched c)) in
      Ok (Contexts.priority (sched c) :: l)
  end.

(** check_is_a_heap prints FAILURE unless the priorities decrease strictly. *)
Fixpoint check_is_a_heap (l : list Z) : bool :=
  match l with
  | a :: (b :: _) as l' => is_gt_priority test_pf a b && check_is_a_heap l'
  | _ => true
  end.

Definition insert_with_prio (prio : Z) (m : mem) (heap : list_heap) : res (mem * list_heap) :=
  let elt := the_heap_array (Z.to_nat (lh_size heap)) in
  let* m1 := modify m elt (set_priority prio) in
  lq_insert_elt test_pf m1 heap elt.

(** The insertions of main, with the checks in between. *)
Fixpoint insert_all (l : list Z) (m : mem) (heap : list_heap) : res (bool * mem * list_heap) :=
  match l with
  | [] => Ok (true, m, heap)
  | prio :: l =>
      let* (m1, heap1) := insert_with_prio prio m heap in
      let* shown := print_elt_array 9 m1 (lh_head heap1) in
      let* (ok, m2, heap2) := insert_all l m1 heap1 in
      Ok (check_is_a_heap shown && ok, m2, heap2)
  end.

(** Its removals: [assert(new <= last)] and the priorities printed. *)
Fixpoint remove_all (n : nat) (last : Z) (m : mem) (heap : list_heap) : res (bool * list Z) :=
  match n with
  | O => Ok (true, [])
  | S n =>
      let* (elt, m1, heap1) := lq_remove_elt m heap in
      let* c := load m1 elt in
      let new := Contexts.priority (sched c) in
      let* shown := print_elt_array 9 m1 (lh_head heap1) in
      let* (ok, l) := remove_all n new m1 heap1 in
      Ok (check_is_a_heap shown && (new <=? last) && ok, new :: l)
  end.

Definition heap_main : res (bool * list Z) :=
  let* (ok, m, heap) := insert_all [88; 66; 44; 77; 11; 55; 22; 33] test_mem lq_heap_init in
  let* (ok', l) := remove_all 8 (2 ^ 31 - 1) m heap in
  Ok (ok && ok', l).

(** The test passes and prints the priorities in decreasing order. *)
Lemma heap_main_passes : heap_main = Ok (true, [88; 77; 66; 55; 44; 33; 22; 11]).
Proof. vm_compute. reflexivity. Qed.

(** ** fprint.c *)

(** What main prints with puts, then with fprint; %g is not supported. *)
Definition fprint_main : res (buffer * list Z) :=
  let* tutu := itoa 30 (replicate 30 None) in
  let* out := fprint_output (chars ("Hello %d %x" +:+ nl +:+ "World %g")) [SWord 32; SWord 32] in
  Ok (tutu, out).

Lemma fprint_main_prints :
  exists tutu, fprint_main
    = Ok (tutu, chars ("Hello 32 20" +:+ nl +:+ "World <unsupported conversion: `g'>")) /\
    holds_string tutu (chars "30").
Proof.
  eexists. split; [vm_compute; reflexivity|]. eexists. split; [reflexivity|]. by repeat constructor.
Qed.
