(* ===== verification/SchedulerTheorems.v ===== *)
(** * Theorems on queues and schedulers

    The properties of the priority queues, of the priority schedulers and of the
    round-robin scheduler, alone and inside the kernel. *)

From stdpp Require Import options.
From S2P Require Import Prelude Contexts PQueue ListQueue ArrayHeap Timer Scheduler.
From S2P Require Import PriorityScheduler RoundRobin Fprint Termination Terminal Segment.
From S2P Require Import LowLevel HighLevel Kernel Response Policies Model Isolation Rounds Timing Examples.

(** ** Priority schedulers inside the kernel *)

Module Policy.
Section Policy.
Context (cfg : config) (syms : symbols) (img : user_tasks_image) (kernel_end : Z).
Context {fp : bool} {Q : Type} `{!PQueue waiting_pf Q} `{!PQueue (ready_pf fp) Q}.
Context `{!PQueueSpec waiting_pf Q} `{!PQueueSpec (ready_pf fp) Q}.
Local Abbreviation kst := (kstate (priority_sched fp Q)).
Implicit Types (k : kst) (c : cpu).

(** (C12) In every reachable state of a system scheduled by priorities or
    deadlines, with either queue, no thread is lost or duplicated: the contexts of
    the tasks and those that dup_thread took from the reserve are, each once, the
    running one or in one of the two queues.  No ready context has precedence over
    the running task, and when the idle task runs no context is ready and the
    alarm is set to the earliest wakeup date of the waiting contexts. *)
Theorem running_task_is_best (k0 k : kst) c p off :
  system_ok cfg syms img kernel_end -> boot_state cfg img k0 ->
  reachable cfg syms img k0 (UserMode c k) -> esp0 (ll_tss (k_ll k)) = Some (p, off) ->
  let all := threads img (k_idx_reserve k) in
  exists lr lw, queues (nb_contexts img) (k_mem k) (s_sched (k_s k)) lr lw /\ NoDup all /\
    if context_is_idle img p then lr = [] /\ lw ≡ₚ all /\ armed (k_mem k) (s_timer (k_s k)) lw
    else p :: lr ++ lw ≡ₚ all /\ top_of (ready_pf fp) (k_mem k) p lr.
Proof using All.
  intros Hsys Hb Hr He all. destruct (reachable_safe _ _ _ _ Hsys _ _ Hb Hr) as (Hu & live & q & Hk).
  assert (q = p) as -> by (pose proof (ki_esp0 _ _ _ _ _ _ Hk); congruence).
  pose proof (ri_live _ _ _ _ (km_reserve _ _ _ _ _ _ (ki_mid _ _ _ _ _ _ Hk))) as Elive.
  pose proof (km_sched _ _ _ _ _ _ (ki_mid _ _ _ _ _ _ Hk)) as (Hnd & _ & _ & _ & lr & lw & Hq & Hph).
  unfold all. rewrite <-Elive. exists lr, lw. split; [done|]. split; [done|].
  unfold running_phase in Hph. destruct (context_is_idle img p).
  - by destruct Hph as (-> & Hl & Harm).
  - by destruct Hph as [Hl Htop].
Qed.

(** (C13) Activations are periodic and never early.  Along any run from _start
    with a priority scheduler, the wakeup date of a task is the sum of all the
    durations it has yielded for, modulo 2^64, however late it ran and whatever
    the others did: a task that always asks for its period does not drift.  And
    when it runs, the clock, which counts the timer interrupts, has reached that
    date. *)
Theorem activations_not_early (k0 k k' : kst) c c' p es z :
  system_ok cfg syms img kernel_end -> boot_state cfg img k0 ->
  (forall q, q ∈ t_context <$> tasks img -> wakeup_of (k_mem k0) q = 0) ->
  start cfg syms img MULTIBOOT_LOADER_MAGIC k0 = Ok (inl (c, k)) ->
  p ∈ t_context <$> tasks img -> asks cfg syms img p es z (UserMode c k) (UserMode c' k') ->
  let now := Z.of_nat (timer_events es) * ACTUAL_TICK in
  now < 2 ^ 64 ->
  current_time (s_timer (k_s k')) = now /\ wakeup_of (k_mem k') p = u64 z /\
  (running (UserMode c' k') p -> u64 z <= now).
Proof using All.
  intros Hsys Hb H0 E Hp Hes now Hnow.
  destruct (start_on_time _ _ _ _ Hsys k0 c k Hb H0 E) as (a & Hs & Hon & Ha & Hd).
  destruct (asks_dates syms img kernel_end cfg Hsys p es z _ _ Hp Hes c k a 0 eq_refl Hs Hon) with c' k'
    as (a' & Hs' & [Hcur _] & Hz & Hn); [by rewrite Hd|lia|by rewrite Ha|done|].
  rewrite Ha, Z.add_0_l in Hn. rewrite Z.add_0_l in Hz. pose proof Hs' as [(_ & _ & Ecs & En & _) _].
  unfold now. rewrite <-Hn, <-En, <-Hz, Ecs, wakeup_of_erase. split; [done|]. split; [done|].
  intros <-%(sim_running _ _ _ _ _ _ _ Hs'). rewrite <-wakeup_of_erase, <-Ecs. apply Hcur.
  intros Hid. rewrite Hid in Hp. by apply (img_not_idle _ (so_image _ _ _ _ Hsys)).
Qed.

(** (C15) A timer interrupt that finds the alarm due in a task leaves the alarm
    disarmed: the contexts that remain in the waiting queue are not due yet, and
    the alarm is not set to the date of any of them but to DATE_FAR_AWAY.  So they
    starve: as long as the task that runs makes no system call, whatever the
    number of ticks, it keeps the processor and they stay in the waiting queue,
    the ones whose wakeup date comes included. *)
Theorem alarm_disarmed_in_task (k0 k : kst) c p off :
  system_ok cfg syms img kernel_end -> boot_state cfg img k0 ->
  reachable cfg syms img k0 (UserMode c k) -> esp0 (ll_tss (k_ll k)) = Some (p, off) ->
  p <> context_idle img -> count_ok cfg k ->
  let now := u64 (current_time (s_timer (k_s k)) + ACTUAL_TICK) in
  next_wake_date (s_timer (k_s k)) <= now ->
  exists c' k' p' lr lw, interrupt cfg syms img TIMER_INTNUM [] c k = Ok (inl (c', k')) /\
    esp0 (ll_tss (k_ll k')) = Some (p', sizeof_pusha + sizeof_iframe) /\
    queues (nb_contexts img) (k_mem k') (s_sched (k_s k')) lr lw /\
    Forall (fun q => now < wakeup_of (k_mem k') q) lw /\
    next_wake_date (s_timer (k_s k')) = DATE_FAR_AWAY /\
    forall n st, now + Z.of_nat n * ACTUAL_TICK < DATE_FAR_AWAY ->
      ticks cfg syms img n (UserMode c' k') st ->
      exists c2 k2, st = UserMode c2 k2 /\
        esp0 (ll_tss (k_ll k2)) = Some (p', sizeof_pusha + sizeof_iframe) /\
        current_time (s_timer (k_s k2)) = now + Z.of_nat n * ACTUAL_TICK /\
        queues (nb_contexts img) (k_mem k2) (s_sched (k_s k2)) lr lw.
Proof using All.
  intros Hsys Hb Hr He Hp Hc now Hdue.
  destruct (reachable_safe _ _ _ _ Hsys _ _ Hb Hr) as (Hu & live & q & Hk).
  destruct (running_known _ _ _ k live q p off Hk He Hp) as [-> Hlive].
  destruct (timer_entry _ _ _ _ Hsys k live q c Hk Hu) as (ctx & Ec & Hk1 & ->). set (k1 := set_kmem _ k) in *.
  unfold timer_interrupt_handler.
  destruct (timer_tick_ok cfg _ _ _ k1 live _ Hk1) as (k2 & E & Hk2 & _); [done|].
  rewrite E. cbn [rbind]. apply timer_tick_timer in E as (tm & Es & En & Et).
  change (s_timer (k_s k1)) with (s_timer (k_s k)) in *. fold now in Et.
  destruct (alarm_handled cfg syms img kernel_end Hsys k2 live q Hk2 (ki_known _ _ _ _ _ _ Hk))
    as (c' & k' & -> & Hu' & p' & Hi & (lr & lw & (_ & Hq & _) & Hw) & Hclk & Hal & _).
  { rewrite Es. cbn [with_timer s_timer]. by rewrite En, Et. }
  rewrite Es in Hw, Hclk. cbn [with_timer s_timer] in Hw, Hclk. rewrite Et in Hw, Hclk.
  exists c', k', p', lr, lw. split; [done|]. split; [apply (ki_esp0 _ _ _ _ _ _ Hi)|]. split; [done|].
  split; [done|]. split; [done|]. intros n st Hn Hrun.
  destruct (quiet_run _ _ _ _ Hsys n _ _ Hrun c' k' live p' now DATE_FAR_AWAY eq_refl Hi Hu')
    as (c2 & k2' & -> & _ & Hi2 & Hc2 & _ & Hs2 & Hm2); [done|done|apply (wrap_range 64); lia|done|reflexivity|].
  exists c2, k2'. split; [done|]. split; [apply (ki_esp0 _ _ _ _ _ _ Hi2)|]. split; [done|]. rewrite Hs2.
  eapply queues_frame; [exact Hq|]. intros x _. by rewrite Hm2.
Qed.

(** (C14) The alarm is served on time.  From any reachable state, while no system
    call is made, the context that runs keeps running until the first timer tick
    at or after the date of the alarm, at most a tick late; there a thread runs
    that has precedence over every thread whose wakeup date has come, and that was
    due itself if the idle task was running.  This holds whatever happens between
    the ticks, and the run exists as long as the debug counter does not overflow. *)
Theorem alarm_on_time (k0 k : kst) c p off :
  system_ok cfg syms img kernel_end -> boot_state cfg img k0 ->
  reachable cfg syms img k0 (UserMode c k) -> esp0 (ll_tss (k_ll k)) = Some (p, off) ->
  let t := current_time (s_timer (k_s k)) in
  let d := next_wake_date (s_timer (k_s k)) in
  let last := wake_ticks t d in
  0 <= t -> Z.max t d + ACTUAL_TICK < 2 ^ 64 ->
  (forall n st, ticks cfg syms img n (UserMode c k) st -> (n <= last)%nat ->
     exists c' k' p', st = UserMode c' k' /\
       esp0 (ll_tss (k_ll k')) = Some (p', sizeof_pusha + sizeof_iframe) /\
       let now := t + Z.of_nat n * ACTUAL_TICK in
       current_time (s_timer (k_s k')) = now /\
       if decide (n < last)%nat then p' = p
       else d <= now <= Z.max t d + ACTUAL_TICK /\ p' ∈ threads img (k_idx_reserve k') /\
         (p = context_idle img -> wakeup_of (k_mem k') p' <= now) /\
         forall q, q ∈ threads img (k_idx_reserve k') -> wakeup_of (k_mem k') q <= now ->
           outranks (ready_pf fp) (k_mem k') q p' = false) /\
  ((cfg_debug cfg = true -> count (s_timer (k_s k)) + Z.of_nat last < 2 ^ 31) ->
     exists st, ticks cfg syms img last (UserMode c k) st).
Proof using All.
  intros Hsys Hb Hr He t d last Ht Hmax.
  destruct (reachable_safe _ _ _ _ Hsys _ _ Hb Hr) as (Hu & live & q & Hk).
  assert (q = p) as -> by (pose proof (ki_esp0 _ _ _ _ _ _ Hk); congruence).
  assert (before_alarm syms img kernel_end k live p t d) as Hat by done. split.
  - intros n st Hrun Hn.
    destruct (until_alarm cfg syms img kernel_end Hsys live p d
      (fun k' now => handled syms img kernel_end p k' live now)) with n (UserMode c k) st c k t
      as (c' & k' & -> & _ & Hcase); [intros; by eapply alarm_tick|done..|].
    exists c', k'. fold last in Hcase. destruct (decide (n < last)%nat).
    + destruct Hcase as (Hk' & Hc & _). exists p. split; [done|].
      split; [apply (ki_esp0 _ _ _ _ _ _ Hk')|done].
    + destruct Hcase as (p' & Hk' & Hset & Hc & _ & Hw). exists p'. split; [done|].
      split; [apply (ki_esp0 _ _ _ _ _ _ Hk')|]. split; [done|]. split; [apply wake_ticks_spec; unfold last in *; lia|].
      rewrite <-(ri_live _ _ _ _ (km_reserve _ _ _ _ _ _ (ki_mid _ _ _ _ _ _ Hk'))).
      split; [|split; [done|intros q Hq; by eapply settled_best]].
      destruct Hset as (lr & lw & (_ & _ & Hl & _) & _). rewrite Hl. by left.
  - intros Hcount. by apply (until_alarm_exists cfg syms img kernel_end Hsys live p d last c k t).
Qed.
End Policy.

#[local] Opaque ex_booted ex_yielded one_booted one_idle.

(** A task that sleeps five milliseconds alone is awake after six ticks. *)
Lemma alarm_on_time_witness :
  exists c' k', ticks solo_cfg ex_symbols one_img 6 (UserMode one_idle.1 one_idle.2) (UserMode c' k') /\
    current_time (s_timer (k_s k')) = 5999082.
Proof.
  destruct one_idle_facts as (He & Hd & Ht).
  destruct (alarm_on_time solo_cfg ex_symbols one_img ex_kernel_end ex_k0 one_idle.2 one_idle.1
    (context_idle one_img) 52
    one_system_ok (one_boot_state ex_sched) one_idle_reachable He) as [Hrun Hex].
  - rewrite Ht. lia.
  - rewrite Ht, Hd. reflexivity.
  - rewrite Ht, Hd in Hrun, Hex. destruct Hex as [st Hst]; [discriminate|].
    destruct (Hrun 6%nat st Hst ltac:(by vm_compute)) as (c' & k' & p & -> & _ & Hc & _).
    exists c', k'. split; [exact Hst|exact Hc].
Defined.

Lemma running_task_is_best_witness :
  exists lr lw, queues (nb_contexts ex_img) (k_mem ex_yielded.2) (s_sched (k_s ex_yielded.2)) lr lw /\
    ContextFor 1 0 :: lr ++ lw ≡ₚ threads ex_img (k_idx_reserve ex_yielded.2).
Proof.
  destruct ex_yielded_facts as (He & _).
  destruct (running_task_is_best ex_cfg ex_symbols ex_img ex_kernel_end ex_k0 ex_yielded.2
    ex_yielded.1 (ContextFor 1 0) 52 ex_system_ok (ex_boot_state ex_sched) ex_yielded_reachable He) as (lr & lw & Hq & _ & Hrun & _).
  exists lr, lw. exact (conj Hq Hrun).
Defined.

(** The task that yields for a nanosecond and runs again at the next tick. *)
Lemma activations_not_early_witness :
  current_time (s_timer (k_s one_back.2)) = 999847 /\ wakeup_of (k_mem one_back.2) (ContextFor 0 0) = 1.
Proof.
  destruct (activations_not_early solo_cfg ex_symbols one_img ex_kernel_end ex_k0 one_booted.2 one_back.2
    one_booted.1 one_back.1 (ContextFor 0 0) one_nap_run 1 one_system_ok (one_boot_state ex_sched))
    as (Hc & Hw & _).
  - intros q Hq. apply list_elem_of_singleton in Hq as ->. reflexivity.
  - rewrite <-surjective_pairing. apply one_booted_start.
  - apply list_elem_of_singleton. reflexivity.
  - apply one_nap_asks.
  - reflexivity.
  - split; [exact Hc|exact Hw].
Defined.

Lemma alarm_disarmed_in_task_witness :
  exists c' k', interrupt ex_cfg ex_symbols ex_img TIMER_INTNUM [] ex_yielded.1 ex_yielded.2
      = Ok (inl (c', k')) /\ next_wake_date (s_timer (k_s k')) = DATE_FAR_AWAY.
Proof.
  destruct ex_yielded_facts as (He & _).
  destruct (alarm_disarmed_in_task ex_cfg ex_symbols ex_img ex_kernel_end ex_k0 ex_yielded.2
    ex_yielded.1 (ContextFor 1 0) 52 ex_system_ok (ex_boot_state ex_sched) ex_yielded_reachable He
    ex_task1_not_idle (ex_count_ok _) ex_yielded_due)
    as (c' & k' & p' & lr & lw & E & _ & _ & _ & E' & _).
  exists c', k'. exact (conj E E').
Defined.
End Policy.

(** ** The priority queues *)

Module Queues.
Section Queues.
Context (pf : prio_fn) `{!PrioOrder pf}.

(** (C16) The linked queue is a list sorted by precedence.  Insertion puts the
    context after every context it has no precedence over, so contexts of equal
    priority keep their order, and before every context it precedes; only links
    change.  Removal returns the head, which nothing in the queue precedes, and
    leaves the rest of the queue without touching memory. *)
Theorem list_queue_refines m heap l :
  lq_rep pf m heap l -> Z.of_nat (length l) + 1 < 2 ^ 32 ->
  (forall x, is_Some (m !! x) -> x ∉ l ->
   exists m' heap' l1 l2, l = l1 ++ l2 /\ lq_insert_elt pf m heap x = Ok (m', heap') /\
     lq_rep pf m' heap' (l1 ++ x :: l2) /\ m' ≈ₙ m /\
     Forall (fun y => outranks pf m x y = false) l1 /\
     Forall (fun y => outranks pf m x y = true) l2) /\
  (forall x l', l = x :: l' ->
   lq_get_first heap = Ok x /\ top_of pf m x l /\
   exists heap', lq_remove_elt m heap = Ok (x, m, heap') /\ lq_rep pf m heap' l').
Proof using All.
  intros Hrep Hlen. split.
  - intros x Hx Hnx.
    destruct (lq_insert_elt_refines m heap l x Hrep Hx Hnx Hlen) as (m' & heap' & E & Hrep' & Heq & _).
    destruct (ordered_insert_split m x l (lq_sorted _ _ _ _ Hrep)) as (l1 & l2 & El & Eo & H1 & H2).
    rewrite Eo in Hrep'. exists m', heap', l1, l2. done.
  - intros x l' ->. split; [by eapply lq_get_first_refines|]. split; [by eapply lq_rep_top|].
    apply lq_remove_elt_refines; [done|]. cbn in Hlen. lia.
Qed.

(** (C17) The array is a heap.  Insertion keeps the heap order, adds the element,
    stays within the array and writes no context; removal returns the root, which
    nothing in the heap precedes, and restores the heap order of the remaining
    elements. *)
Theorem array_heap_refines nbc m heap h :
  addressable nbc -> ah_rep pf nbc m heap h ->
  (forall x, is_Some (m !! x) -> x ∉ h -> Z.of_nat (length h) < nbc ->
   exists heap' h', ah_insert_elt pf nbc m heap x = Ok (m, heap') /\
     ah_rep pf nbc m heap' h' /\ h' ≡ₚ x :: h) /\
  (forall x h1, h = x :: h1 ->
   ah_get_first heap = Ok x /\ top_of pf m x h /\
   exists heap' h', ah_remove_elt pf nbc m heap = Ok (x, m, heap') /\
     ah_rep pf nbc m heap' h' /\ h' ≡ₚ h1).
Proof using All.
  intros Hadd Hrep. split.
  - intros x. by apply ah_insert_elt_spec.
  - intros x h1 ->. destruct (ah_get_first_spec nbc m heap x h1 Hrep) as [E Htop].
    split; [done|]. split; [done|]. by apply ah_remove_elt_spec.
Qed.

(** (C18) The two implementations of the queue are interchangeable: contexts of
    distinct priorities come out of both in the same order, by priority. *)
Theorem queue_implementations_agree nbc l m :
  addressable nbc -> NoDup l -> Z.of_nat (length l) <= nbc ->
  (forall p, p ∈ l -> is_Some (m !! p)) ->
  (forall x y, x ∈ l -> y ∈ l -> outranks pf m x y = false -> outranks pf m y x = false -> x = y) ->
  exists k, pq_sort pf (Q := list_heap) nbc l m = Ok k /\
    pq_sort pf (Q := array_heap) nbc l m = Ok k /\
    k ≡ₚ l /\ StronglySorted (served_before pf m) k.
Proof using All.
  intros Hadd Hnd Hlen Hal Hdist.
  destruct (pq_sort_ok pf (Q := list_heap) nbc l m Hadd Hnd Hlen Hal) as (k & E & Hk & Hs).
  destruct (pq_sort_ok pf (Q := array_heap) nbc l m Hadd Hnd Hlen Hal) as (k' & E' & Hk' & Hs').
  exists k. split; [done|]. split; [|done]. rewrite E'. f_equal.
  apply (StronglySorted_unique_strong (served_before pf m)); [|done..|by rewrite Hk', Hk].
  intros x y Hx Hy H1 H2. apply Hdist; [by rewrite <-Hk'|by rewrite <-Hk|done..].
Qed.

(** (C19) The loops of the queues end: moving a hole up from index [i] takes at
    most log2 (i + 1) + 1 iterations, sifting down in a heap of [n] elements
    log2 n + 1, and an insertion in a linked queue visits each element at most
    once; the fuel of the models, linear for the heaps, is never exhausted. *)
Theorem queue_loops_end :
  (forall f m prio a i, 0 <= i < 2 ^ 32 -> Z.log2 (i + 1) < Z.of_nat f ->
   settled (ah_sift_up pf f m prio a i) (ah_sift_up pf (S (Z.to_nat i)) m prio a i)) /\
  (forall f nbc m n a prio, 0 <= n <= 2 ^ 31 - 1 -> Z.log2 n < Z.of_nat f ->
   settled (ah_sift_down pf f nbc m n a 0 prio)
     (ah_sift_down pf (S (Z.to_nat n)) nbc m n a 0 prio)) /\
  (forall f m heap l x, lq_rep pf m heap l -> is_Some (m !! x) -> x ∉ l -> l <> [] ->
   (length l <= f)%nat ->
   settled (lq_insert_walk pf f m heap (prio_of pf m x) x (lh_head heap) None)
     (lq_insert_walk pf (size m) m heap (prio_of pf m x) x (lh_head heap) None)).
Proof using All.
  split; [|split].
  - intros f m prio a i Hi Hf. apply sift_up_log; [done..|].
    pose proof (Z.log2_lt_lin (i + 1) ltac:(lia)). lia.
  - intros f nbc m n a prio Hn Hf. apply sift_down_log; [lia|by left|lia|..];
      change (Z.log2 (0 + 1)) with 0; [lia|].
    destruct (decide (n = 0)) as [-> |]; [done|]. pose proof (Z.log2_lt_lin n ltac:(lia)). lia.
  - intros f m heap l x [Hl Hnd _ _] [ce Hce] Hx Hne Hf. apply lq_insert_walk_settled with l ce; try done.
    apply alloc_length; [done|]. intros p. by eapply lseg_alloc.
Qed.
End Queues.

Lemma list_queue_refines_witness :
  (exists m' heap' l', lq_insert_elt waiting_pf ex_qmem ex_waiting (ContextFor 3 0) = Ok (m', heap') /\
     lq_rep waiting_pf m' heap' l') /\
  lq_get_first ex_waiting = Ok (ContextFor 1 0) /\
  top_of waiting_pf ex_qmem (ContextFor 1 0) [ContextFor 1 0; ContextFor 0 0].
Proof.
  destruct (list_queue_refines waiting_pf ex_qmem ex_waiting [ContextFor 1 0; ContextFor 0 0]
    ex_waiting_rep eq_refl) as [Hi Hr]. split.
  - destruct (Hi (ContextFor 3 0) ex_context3) as (m' & heap' & l1 & l2 & _ & E & Hrep & _).
    + apply (bool_decide_unpack _). vm_compute. exact I.
    + exists m', heap', (l1 ++ ContextFor 3 0 :: l2). exact (conj E Hrep).
  - destruct (Hr _ _ eq_refl) as (E & Ht & _). exact (conj E Ht).
Defined.

(** The array heap with contexts 1 and 0. *)
Definition ex_array : array_heap :=
  ArrayHeap 2 (Some (ContextFor 1 0) :: Some (ContextFor 0 0) :: replicate 14 None).

Lemma ex_array_rep : ah_rep waiting_pf 16 ex_qmem ex_array [ContextFor 1 0; ContextFor 0 0].
Proof.
  split; [done| |done|done|by apply ex_nodup| |].
  - intros [|[|n]] x [= <-]; done.
  - intros p Hp. apply elem_of_cons in Hp as [-> |Hp]; [by eexists|].
    apply list_elem_of_singleton in Hp as ->. by eexists.
  - intros [|[|n]] x y Hn [= <-]; [lia|]. by intros [= <-].
Qed.

Lemma array_heap_refines_witness :
  (exists heap' h', ah_insert_elt waiting_pf 16 ex_qmem ex_array (ContextFor 3 0) = Ok (ex_qmem, heap') /\
     ah_rep waiting_pf 16 ex_qmem heap' h') /\
  exists heap' h', ah_remove_elt waiting_pf 16 ex_qmem ex_array = Ok (ContextFor 1 0, ex_qmem, heap') /\
    ah_rep waiting_pf 16 ex_qmem heap' h' /\ h' ≡ₚ [ContextFor 0 0].
Proof.
  destruct (array_heap_refines waiting_pf 16 ex_qmem ex_array [ContextFor 1 0; ContextFor 0 0]
    ex_addressable ex_array_rep) as [Hi Hr]. split.
  - destruct (Hi (ContextFor 3 0) ex_context3) as (heap' & h' & E & Hrep & _).
    + apply (bool_decide_unpack _). vm_compute. exact I.
    + reflexivity.
    + exists heap', h'. exact (conj E Hrep).
  - destruct (Hr _ _ eq_refl) as (_ & _ & H). exact H.
Defined.

Lemma queue_implementations_agree_witness :
  exists k, pq_sort waiting_pf (Q := list_heap) 16 [ContextFor 0 0; ContextFor 1 0; ContextFor 2 0] ex_qmem
      = Ok k /\
    pq_sort waiting_pf (Q := array_heap) 16 [ContextFor 0 0; ContextFor 1 0; ContextFor 2 0] ex_qmem = Ok k.
Proof.
  destruct (queue_implementations_agree waiting_pf 16 [ContextFor 0 0; ContextFor 1 0; ContextFor 2 0]
    ex_qmem) as (k & E & E' & _).
  - exact ex_addressable.
  - apply ex_nodup. vm_compute. reflexivity.
  - discriminate.
  - intros p Hp. repeat (apply elem_of_cons in Hp as [-> |Hp]; [by eexists|]). by apply elem_of_nil in Hp.
  - intros x y Hx Hy. rewrite !elem_of_cons, elem_of_nil in Hx, Hy.
    destruct Hx as [-> |[-> |[-> |[]]]], Hy as [-> |[-> |[-> |[]]]]; vm_compute; congruence.
  - exists k. exact (conj E E').
Defined.

(** One iteration more than the logarithm of the index is enough. *)
Lemma queue_loops_end_witness :
  settled (ah_sift_up waiting_pf 2 ex_qmem 5 (ah_array ex_array) 2)
    (ah_sift_up waiting_pf 3 ex_qmem 5 (ah_array ex_array) 2).
Proof. apply (queue_loops_end waiting_pf); [lia|reflexivity]. Defined.
End Queues.

(** ** The functions of the priority schedulers *)

Module PriorityFunctions.
Section PriorityFunctions.
Context {fp : bool} {Q : Type} `{!PQueue waiting_pf Q} `{!PQueue (ready_pf fp) Q}.
Context `{!PQueueSpec waiting_pf Q} `{!PQueueSpec (ready_pf fp) Q}.
Implicit Types (img : user_tasks_image) (s : sstate (priority_sched fp Q)).

(** (C20) sched_wake_tasks moves exactly the contexts whose wakeup date has come
    from the waiting queue to the ready queue; its loop runs once per such
    context, and ends. *)
Theorem wake_moves_due_contexts img t s lr lw :
  queues (nb_contexts img) (s_mem s) (s_sched s) lr lw -> addressable (nb_contexts img) ->
  Z.of_nat (length (lr ++ lw)) <= nb_contexts img ->
  let due := filter (fun p => wakeup_of (s_mem s) p <= t) lw in
  exists s' lr' lw', ps_wake_tasks fp img t s = Ok s' /\
    queues (nb_contexts img) (s_mem s') (s_sched s') lr' lw' /\
    lr' ≡ₚ due ++ lr /\ lw' ≡ₚ filter (fun p => ~ wakeup_of (s_mem s) p <= t) lw /\
    s_timer s' = s_timer s /\ s_mem s' ≈ₙ s_mem s /\
    forall fuel, ps_wake_loop fp fuel img t s =
      if decide (fuel <= length due)%nat then Err NoFuel else Ok s'.
Proof using All.
  intros Hq Hadd Hlen due.
  destruct (ps_wake_tasks_ok img t s lr lw Hq Hadd Hlen)
    as (s' & lr' & lw' & E & Hq' & Hr & Hw & _ & Ht & Heq & _).
  exists s', lr', lw'. do 6 (split; [done|]). intros fuel. destruct (decide _) as [Hf|Hf].
  - by eapply ps_wake_loop_short.
  - by eapply ps_wake_loop_exact; [done..|fold due; lia|].
Qed.

(** (C21) What the other functions of a priority scheduler do, whatever the
    queues hold.  sched_set_waiting adds the context to the waiting queue and sets
    the alarm to the earliest wakeup date of that queue.  sched_maybe_preempt
    keeps the running context unless a ready context has strict precedence over
    it; otherwise the context that none precedes runs and the preempted one
    becomes ready.  sched_choose_next returns the idle context when no context is
    ready, and otherwise removes from the ready queue a context that none
    precedes. *)
Theorem priority_decisions img s lr lw :
  queues (nb_contexts img) (s_mem s) (s_sched s) lr lw -> addressable (nb_contexts img) ->
  Z.of_nat (length (lr ++ lw)) < nb_contexts img ->
  (forall ctx, is_Some (s_mem s !! ctx) -> ctx ∉ lr ++ lw ->
   exists s', ps_set_waiting fp img ctx s = Ok s' /\
     queues (nb_contexts img) (s_mem s') (s_sched s') lr (ctx :: lw) /\
     (exists p, p ∈ ctx :: lw /\ next_wake_date (s_timer s') = wakeup_of (s_mem s') p /\
        forall q, q ∈ ctx :: lw -> wakeup_of (s_mem s') p <= wakeup_of (s_mem s') q) /\
     s_mem s' ≈ₙ s_mem s) /\
  (forall ctx, context_is_idle img ctx = false -> is_Some (s_mem s !! ctx) -> ctx ∉ lr ++ lw ->
   exists p lr' s', ps_maybe_preempt fp img ctx s = Ok (p, s') /\ ctx :: lr ≡ₚ p :: lr' /\
     queues (nb_contexts img) (s_mem s') (s_sched s') lr' lw /\
     top_of (ready_pf fp) (s_mem s') p lr' /\
     (p = ctx \/ outranks (ready_pf fp) (s_mem s) p ctx = true) /\ s_mem s' ≈ₙ s_mem s) /\
  (if decide (lr = []) then ps_choose_next fp img s = Ok (context_idle img, s)
   else exists x lr' s', ps_choose_next fp img s = Ok (x, s') /\ lr ≡ₚ x :: lr' /\
     top_of (ready_pf fp) (s_mem s) x lr /\
     queues (nb_contexts img) (s_mem s') (s_sched s') lr' lw).
Proof using All.
  intros Hq Hadd Hlen. rewrite length_app in Hlen. split; [|split].
  - intros ctx Hs Hx. destruct (ps_set_waiting_queues img s lr lw ctx Hq Hadd ltac:(lia) Hs Hx)
      as (s' & E & Hq' & Harm & Heq & _).
    exists s'. split; [done|]. split; [done|]. split; [|done].
    destruct Harm as [?|(p & Hp & Hn & Htop)]; [done|]. exists p. split; [done|]. split; [done|].
    intros q. by apply top_waiting_le.
  - intros ctx Hi Hs Hx. destruct (ps_maybe_preempt_queues img s lr lw ctx Hq Hadd Hi Hs Hx ltac:(lia))
      as (p & lr' & s' & E & Hp & Hq' & Ht & Ho & _ & Heq & _). exists p, lr', s'. done.
  - unfold ps_choose_next. rewrite (pq_rep_size _ _ _ _ (q_ready _ _ _ _ _ Hq)).
    destruct (decide _) as [->|Hne]; [done|].
    rewrite (proj2 (Z.eqb_neq _ 0)) by (destruct lr; [done|cbn; lia]).
    destruct (ready_remove_ok img s lr lw Hq Hadd ltac:(lia) Hne)
      as (x & lr' & s' & E & Hp & Htop & Hq' & _). exists x, lr', s'. done.
Qed.

End PriorityFunctions.

Lemma wake_moves_due_contexts_witness :
  exists s' lr' lw', ps_wake_tasks false ex_img 15 ex_queues = Ok s' /\
    lr' ≡ₚ [ContextFor 1 0; ContextFor 2 0] /\ lw' ≡ₚ [ContextFor 0 0] /\
    ps_wake_loop false 1 ex_img 15 ex_queues = Err NoFuel /\
    ps_wake_loop false 2 ex_img 15 ex_queues = Ok s'.
Proof.
  destruct (wake_moves_due_contexts ex_img 15 ex_queues _ _ ex_queues_ok ex_addressable)
    as (s' & lr' & lw' & E & _ & Hr & Hw & _ & _ & Hf).
  - rewrite ex_nb_contexts. discriminate.
  - exists s', lr', lw'. exact (conj E (conj Hr (conj Hw (conj (Hf 1%nat) (Hf 2%nat))))).
Defined.

Lemma ex_context3_new : ContextFor 3 0 ∉ [ContextFor 2 0] ++ [ContextFor 1 0; ContextFor 0 0].
Proof. by apply (bool_decide_unpack _). Qed.

Lemma priority_decisions_witness :
  (exists s', ps_set_waiting false ex_img (ContextFor 3 0) ex_queues = Ok s') /\
  (exists p lr' s', ps_maybe_preempt false ex_img (ContextFor 3 0) ex_queues = Ok (p, s') /\
     [ContextFor 3 0; ContextFor 2 0] ≡ₚ p :: lr') /\
  (exists x s', ps_choose_next false ex_img ex_queues = Ok (x, s') /\ x = ContextFor 2 0).
Proof.
  destruct (priority_decisions ex_img ex_queues _ _ ex_queues_ok ex_addressable) as (Hw & Hp & Hc).
  { rewrite ex_nb_contexts. reflexivity. }
  split; [|split].
  - destruct (Hw (ContextFor 3 0) ex_context3 ex_context3_new) as (s' & E & _). exists s'. exact E.
  - destruct (Hp (ContextFor 3 0) eq_refl ex_context3 ex_context3_new) as (p & lr' & s' & E & Hpp & _).
    exists p, lr', s'. exact (conj E Hpp).
  - destruct Hc as (x & lr' & s' & E & Hpp & _).
    exists x, s'. split; [exact E|]. apply Permutation_length_1_inv in Hpp. congruence.
Defined.

End PriorityFunctions.

(** ** Round robin *)

Module RoundRobinFunctions.

(** (C23) Round robin is fair.  From any reachable state the threads take turns
    in a fixed order that holds each of them once: as long as none is created, and
    whatever else happens, after n yields the thread number n of the order, modulo
    their number, has the processor.  As many choices as there are contexts select each of them exactly
    once, from any state.  scheduler_init links the contexts of all tasks in the
    circle, and a context duplicated from the running one joins it: every later
    round selects it once, and the others as before. *)
Theorem round_robin_fair img :
  (forall cfg syms kernel_end k0 k c,
   system_ok cfg syms img kernel_end -> boot_state cfg img k0 ->
   reachable cfg syms img k0 (UserMode c k) ->
   exists order, order ≡ₚ threads img (k_idx_reserve k) /\
     forall n c' k', turns cfg syms img n (UserMode c k) (UserMode c' k') ->
       exists p, order !! (n mod length order)%nat = Some p /\ running (UserMode c' k') p) /\
  (forall s live, rr_inv img s live Choosing ->
   exists l, rr_choices (length live) img s = Ok (l, s) /\ l ≡ₚ live) /\
  (forall s, image_ok img -> (forall p, p ∈ t_context <$> tasks img -> is_Some (s_mem s !! p)) ->
   exists s' l, rr_scheduler_init img s = Ok s' /\
     rr_choices (length (tasks img)) img s' = Ok (l, s') /\ l ≡ₚ t_context <$> tasks img /\
     s_mem s' ≈ₙ s_mem s) /\
  (forall s live ctx new, rr_inv img s live (Running ctx) -> new ∉ live -> new <> context_idle img ->
   is_Some (s_mem s !! new) -> sched <$> s_mem s !! new = sched <$> s_mem s !! ctx ->
   exists s' l, rr_insert_duplicated_context img ctx new s = Ok s' /\
     rr_choices (S (length live)) img s' = Ok (l, s') /\ l ≡ₚ new :: live).
Proof.
  split; [intros cfg syms kernel_end k0 k c Hsys; by apply turns_in_order with kernel_end|].
  split; [apply rr_round|split].
  - intros s Himg Hal. destruct (rr_scheduler_init_ok img s Himg Hal)
      as (s' & E & Hinv & _ & _ & _ & Heq & _).
    destruct (rr_round img s' _ Hinv) as (l & El & Hl). rewrite length_fmap in El.
    exists s', l. done.
  - intros s live ctx new Hinv Hn Hi Hs E.
    destruct (rr_duplicate_ok img s live ctx new Hinv Hn Hi Hs E) as (s' & E' & Hinv' & _).
    destruct (rr_round img s' (new :: live)) as (l & El & Hl).
    { destruct Hinv' as (H1 & H2 & H3 & Hc). do 3 (split; [done|]). by exists ctx. }
    exists s', l. done.
Qed.

(** The ring of contexts 0 and 1, context 0 running; context 2 is a copy of it. *)
Definition ex_ring : rr_state :=
  SState (list_to_map [(ContextFor 0 0, ex_dated 0 (Some (ContextFor 1 0)));
      (ContextFor 1 0, ex_dated 0 (Some (ContextFor 0 0)));
      (ContextFor 2 0, ex_dated 0 (Some (ContextFor 1 0)))])
    (RRSched (Some (ContextFor 0 0))) timer_zero.

Lemma ex_ring_inv ph :
  ph = Choosing \/ ph = Running (ContextFor 0 0) ->
  rr_inv ex_img ex_ring [ContextFor 0 0; ContextFor 1 0] ph.
Proof.
  intros Hph. split; [by apply ex_nodup|]. split; [by apply (bool_decide_unpack _)|]. split.
  - exists [ContextFor 0 0; ContextFor 1 0]. split; [done|]. split; [done|]. cbn.
    split; [done|]. eexists. split; [reflexivity|]. split; [done|]. eexists. by split.
  - assert (ContextFor 0 0 ∈ [ContextFor 0 0; ContextFor 1 0]) by by left.
    destruct Hph as [-> | ->]; [by exists (ContextFor 0 0)|done].
Qed.

Lemma round_robin_fair_witness :
  (exists c k order, reachable dbg_cfg ex_symbols ex_img dbg_k0 (UserMode c k) /\
     order ≡ₚ threads ex_img (k_idx_reserve k)) /\
  (exists l, rr_choices 2 ex_img ex_ring = Ok (l, ex_ring) /\ l ≡ₚ [ContextFor 0 0; ContextFor 1 0]) /\
  (exists s' l, rr_scheduler_init ex_img (SState ex_mem (RRSched None) timer_zero) = Ok s' /\
     rr_choices 2 ex_img s' = Ok (l, s') /\ l ≡ₚ [ContextFor 0 0; ContextFor 1 0]) /\
  (exists s' l, rr_insert_duplicated_context ex_img (ContextFor 0 0) (ContextFor 2 0) ex_ring = Ok s' /\
     rr_choices 3 ex_img s' = Ok (l, s') /\ l ≡ₚ [ContextFor 2 0; ContextFor 0 0; ContextFor 1 0]).
Proof.
  destruct (round_robin_fair ex_img) as (Hturns & Hfair & Hinit & Hdup). split; [|split; [|split]].
  - destruct dbg_booted as (c & k & _ & _ & Hr & _).
    destruct (Hturns dbg_cfg ex_symbols ex_kernel_end dbg_k0 k c dbg_system_ok dbg_boot_state Hr) as (l & Hl & _).
    exists c, k, l. exact (conj Hr Hl).
  - apply (Hfair ex_ring _ (ex_ring_inv Choosing (or_introl eq_refl))).
  - destruct (Hinit (SState ex_mem (RRSched None) timer_zero) ex_image_ok) as (s' & l & E & E' & Hl & _).
    + intros p Hp. exists zero_context. apply ex_lookup. cbn in *. set_solver.
    + exists s', l. exact (conj E (conj E' Hl)).
  - apply (Hdup ex_ring _ (ContextFor 0 0) (ContextFor 2 0)
      (ex_ring_inv (Running (ContextFor 0 0)) (or_intror eq_refl))).
    + apply (bool_decide_unpack _). vm_compute. exact I.
    + discriminate.
    + eexists. reflexivity.
    + reflexivity.
Defined.
End RoundRobinFunctions.
