(* ===== verification/DeviceTheorems.v ===== *)
(** * Theorems on devices, tables and printing

    The terminal, formatted output, descriptors and the tables of the processor,
    and the clock. *)

From stdpp Require Import options.
From S2P Require Import Prelude Contexts PQueue ListQueue Timer Scheduler PriorityScheduler.
From S2P Require Import Fprint Termination Terminal Segment LowLevel HighLevel Kernel UserTask.
From S2P Require Import Policies Model Output RoundRobin Examples.

(** ** The terminal and formatted output *)

Module Printing.





(** (C31) Printing ends: on every format, those that are not well formed
    included, and every list of words and strings, vfprint returns or fails, if
    putchar does; the bounds of its loops and conversions are never reached. *)
Theorem printing_ends {S : Type} (putchar : Z -> S -> res S) format ap s :
  (forall c s, finishes (putchar c s)) -> Forall slot_typed ap ->
  finishes (vfprint putchar format ap s).
Proof. intros Hput. by apply vfprint_finishes. Qed.

Lemma printing_ends_witness :
  finishes (vfprint record_char (chars "%i%llu%") [SWord 0xFFFFFFFF; SWord 1; SWord 2] []).
Proof.
  apply (printing_ends record_char).
  - discriminate.
  - repeat (apply Forall_cons_2; [by vm_compute|]). apply Forall_nil_2.
Defined.

(** The character of a hexadecimal digit, as terminal.c prints it. *)
Definition digit_char (n : Z) : Z := if n <? 10 then 48 + n else 87 + n.

Lemma write_uint32_loop_ok n num t :
  write_uint32_loop n (4 * (Z.of_nat n - 1)) num t
    = put_chars terminal_putchar
        ((fun i => digit_char (Z.land (Z.shiftr num (4 * Z.of_nat i)) 15)) <$> reverse (seq 0 n)) t.
Proof.
  revert t. induction n as [|n IH]; intros t; [done|].
  rewrite seq_S, reverse_snoc, fmap_cons. cbn [write_uint32_loop put_chars].
  replace (4 * (Z.of_nat (S n) - 1)) with (4 * Z.of_nat n) by lia.
  rewrite terminal_write_hexa_digit_eq.
  2:{ change 15 with (Z.ones 4). rewrite Z.land_ones by lia. by apply Z.mod_pos_bound. }
  change (digit_char ?x) with (if x <? 10 then 48 + x else 87 + x). cbn [Nat.add].
  destruct (terminal_putchar _ t) as [t1|]; [|done]. cbn [rbind].
  replace (4 * Z.of_nat n - 4) with (4 * (Z.of_nat n - 1)) by lia. apply IH.
Qed.

Lemma write_uint8_ok byte t :
  0 <= byte < 256 ->
  terminal_write_uint8 byte t
    = put_chars terminal_putchar [digit_char (byte mod 16); digit_char (byte / 16)] t.
Proof.
  intros Hb. unfold terminal_write_uint8. change 15 with (Z.ones 4).
  rewrite Z.land_ones, Z.shiftr_div_pow2 by lia. change (2 ^ 4) with 16.
  rewrite terminal_write_hexa_digit_eq by dlia. cbn [put_chars].
  change (digit_char ?x) with (if x <? 10 then 48 + x else 87 + x).
  destruct (terminal_putchar _ t) as [t1|]; [|done]. cbn [rbind].
  rewrite terminal_write_hexa_digit_eq by dlia.
  by destruct (terminal_putchar _ t1).
Qed.

(** (C32) Corner cases of the conversions.  itoa on a negative int does not
    produce its numeral: it writes the digits of the absolute value over the minus
    sign, then a byte of its local buffer that was never written.  The hexadecimal
    form of a 64-bit number does not determine it, and a format that ends with a
    percent sign is read past its end.  terminal_write_uint32 prints the eight
    hexadecimal digits, most significant first, but terminal_write_uint8 prints
    its two digits least significant first. *)
Theorem printing_corner_cases :
  (forall n aout, - 2 ^ 31 < n < 0 -> length aout = 22%nat ->
   exists b l, itoa n aout = Ok b /\ numeral 10 (- n) l /\
     exists rest, b = (Some <$> l) ++ None :: Some 0 :: rest) /\
  fprint_output (chars "%llx") [SWord 0x23; SWord 1]
    = fprint_output (chars "%llx") [SWord 3; SWord 0x12] /\
  fprint_output (chars "100%") [] = Err (Undef OutOfBounds) /\
  (forall num t, terminal_write_uint32 num t
    = put_chars terminal_putchar
        ((fun i => digit_char (Z.land (Z.shiftr num (4 * Z.of_nat i)) 15)) <$> [7; 6; 5; 4; 3; 2; 1; 0]%nat) t) /\
  (forall byte t, 0 <= byte < 256 -> terminal_write_uint8 byte t
    = put_chars terminal_putchar [digit_char (byte mod 16); digit_char (byte / 16)] t).
Proof.
  split; [apply itoa_negative_garbage|]. split; [apply llx_ambiguous|].
  split; [apply trailing_percent_overruns|]. split; [apply (write_uint32_loop_ok 8)|].
  apply write_uint8_ok.
Qed.

Lemma printing_corner_cases_witness :
  (exists b l, itoa (-42) new_buffer = Ok b /\ numeral 10 42 l) /\
  terminal_write_uint8 0x1a ex_terminal = put_chars terminal_putchar (chars "a1") ex_terminal.
Proof.
  destruct printing_corner_cases as (Hn & _ & _ & _ & H8). split.
  - destruct (Hn (-42) new_buffer) as (b & l & E & Hl & _); [lia|reflexivity|].
    exists b, l. exact (conj E Hl).
  - apply (H8 0x1a ex_terminal). lia.
Defined.
End Printing.

(** ** Descriptors and tables *)

Module Tables.

(** (C33) The processor reads back from the descriptors of segment.h the fields
    they were created from, except that only the 20 low bits of the limit remain. *)
Theorem descriptor_roundtrip base limit present privilege normal_segment permissions accessed
    granularity size :
  in_width 32 base -> in_width 32 limit -> in_width 1 present -> in_width 2 privilege ->
  in_width 1 normal_segment -> in_width 3 permissions -> in_width 1 accessed ->
  in_width 1 granularity -> in_width 1 size ->
  decode_segment (create_descriptor base limit present privilege normal_segment permissions accessed
      granularity size) = {|
    seg_base := base; seg_limit := limit mod 2 ^ 20; seg_4k := Z.testbit granularity 0;
    seg_present := Z.testbit present 0; seg_dpl := privilege;
    seg_normal := Z.testbit normal_segment 0;
    seg_type := Z.lor accessed (Z.shiftl permissions 1); seg_32bit := Z.testbit size 0 |}.
Proof. intros. by apply decode_create_descriptor. Qed.

Lemma descriptor_roundtrip_witness :
  decode_segment (create_descriptor 0x120000 0x1000 1 3 1 5 0 1 1) = user_segment 0x120000 0x1000 10.
Proof. apply (descriptor_roundtrip 0x120000 0x1000 1 3 1 5 0 1 1); vm_compute; split; congruence. Defined.



(** The switch to a context of hw_context_idle_init. *)
Lemma idle_init_switch syms ctx m c h l :
  gdt_kernel_code (ll_gdt l) = kernel_code_descriptor ->
  m !! ctx = Some (set_hw (hw_context_idle_init syms h) c) ->
  hw_context_switch ctx m l = Err (Undef HwFault).
Proof.
  intros Hk Ec. unfold hw_context_switch, hw_context_switch_no_idle.
  rewrite (proj2 (load_ok _ _ _) Ec). cbn [rbind set_hw hw].
  set (h' := hw_context_idle_init syms h). set (g := ll_gdt (switch_tables ctx h' l)).
  assert (gdt_descriptor g (cs (iframe h')) = Some (decode_segment kernel_code_descriptor)) as Ecs.
  { rewrite <-Hk. reflexivity. }
  assert (gdt_descriptor g (ss (iframe h')) = Some (user_segment 0 0xFFFFFFFF 2)) as Ess.
  { vm_compute. reflexivity. }
  unfold load_ds_reg, iret_ok. by rewrite Ecs, Ess.
Qed.

(** (C35) The segments that the context switch gives to a task start at its first
    address, but extend far beyond its memory: the limit, the number of bytes of
    the task, counts blocks of 4 KiB, so a task of n bytes reaches every address
    of the 4096 * (n + 1) bytes from its first one, those of the tasks loaded after
    it included.  A context made by hw_context_idle_init, which asks for the
    kernel's code segment at privilege 3, cannot be switched to: iret faults. *)
Theorem context_segments :
  (forall ctx h l, user_hw h -> memsize h < 2 ^ 20 ->
   let g := ll_gdt (switch_tables ctx h l) in
   let s := decode_segment (gdt_user_data g) in
   seg_base s = start_address h /\ seg_last s = memsize h * 4096 + 4095 /\
   seg_base (decode_segment (gdt_user_code g)) = start_address h /\
   seg_last (decode_segment (gdt_user_code g)) = memsize h * 4096 + 4095 /\
   forall address, start_address h <= address <= start_address h + (memsize h * 4096 + 4095) ->
     address < 2 ^ 32 -> exists off, 0 <= off <= seg_last s /\ seg_linear s off = address) /\
  (forall syms ctx m c h l, gdt_kernel_code (ll_gdt l) = kernel_code_descriptor ->
   m !! ctx = Some (set_hw (hw_context_idle_init syms h) c) ->
   hw_context_switch ctx m l = Err (Undef HwFault)).
Proof.
  split; [|apply idle_init_switch]. intros ctx h l Hu Hlt. cbn zeta.
  rewrite switch_data_segment, switch_code_segment by done. destruct Hu as (Hs & Hm & _).
  unfold in_width in Hs, Hm. unfold seg_last, seg_linear, user_segment. cbn [seg_base seg_4k seg_limit].
  rewrite Z.mod_small by lia. do 4 (split; [lia|]). intros address Ha Hmax.
  exists (address - start_address h). split; [lia|]. rewrite wrap_small by (unfold in_width; lia). lia.
Qed.

(** The second task of Examples.v is within reach of the first. *)
Lemma context_segments_witness :
  let h := hw_context_init (hw zero_context) 0 0 0x120000 0x121000 in
  let s := decode_segment (gdt_user_data (ll_gdt (switch_tables (ContextFor 0 0) h lowlevel_zero))) in
  (exists off, 0 <= off <= seg_last s /\ seg_linear s off = 0x121010) /\
  hw_context_switch (IdleCtx 0)
    {[IdleCtx 0 := set_hw (hw_context_idle_init ex_symbols (hw zero_context)) zero_context]}
    (set_gdt (SystemGdt 0 kernel_code_descriptor kernel_data_descriptor 0 0 0) lowlevel_zero)
    = Err (Undef HwFault).
Proof.
  destruct context_segments as [Hext Hidle]. split.
  - apply (Hext (ContextFor 0 0) (hw_context_init (hw zero_context) 0 0 0x120000 0x121000) lowlevel_zero).
    + repeat split; vm_compute; congruence.
    + reflexivity.
    + split; vm_compute; congruence.
    + reflexivity.
  - apply (Hidle ex_symbols (IdleCtx 0) _ zero_context (hw zero_context)).
    + reflexivity.
    + apply lookup_singleton_eq.
Defined.

(** (C36) In every reachable state an exception with an error code makes the
    processor write below the running context: the error code leaves no room for
    the registers.  A task can raise one at will, with the software interrupt of a
    privileged gate or with the hlt of user_error_infinite_loop. *)
Theorem error_codes_overrun cfg syms img kernel_end {St} `{SchedulerSpec St}
    (k0 k : kstate St) c :
  system_ok cfg syms img kernel_end -> boot_state cfg img k0 ->
  reachable cfg syms img k0 (UserMode c k) ->
  (forall n e, 0 <= n < 32 -> interrupt cfg syms img n [e] c k = Err (Undef BadPointer)) /\
  (forall n, n = TIMER_INTNUM \/ n = SPURIOUS_TIMER_INTNUM ->
   software_interrupt cfg syms img n c k = Err (Undef BadPointer)) /\
  user_error_infinite_loop cfg syms img c k = Err (Undef BadPointer).
Proof.
  intros Hsys Hb Hr. destruct (reachable_safe _ _ _ _ Hsys _ _ Hb Hr) as (Hu & live & q & Hk).
  assert (forall n e, 0 <= n < 32 -> interrupt cfg syms img n [e] c k = Err (Undef BadPointer)) as Ho
    by (intros n e; by apply (error_code_overrun _ _ _ _ Hsys k live q)).
  split; [done|]. split; [|by apply Ho]. intros n Hn. unfold software_interrupt.
  assert (0 <= n < 256 /\ vector_privilege n = 0) as [Hn' Hv] by (destruct Hn as [-> | ->]; done).
  destruct (gate_handler _ _ _ _ Hsys k n (km_tables _ _ _ _ _ _ (ki_mid _ _ _ _ _ _ Hk)) Hn')
    as (g & -> & -> & _). rewrite Hv. by apply Ho.
Qed.

#[local] Opaque ex_booted.

Lemma error_codes_overrun_witness :
  software_interrupt ex_cfg ex_symbols ex_img TIMER_INTNUM (with_ebx 0 ex_booted.1) ex_booted.2
    = Err (Undef BadPointer).
Proof.
  destruct (error_codes_overrun ex_cfg ex_symbols ex_img ex_kernel_end ex_k0 ex_booted.2
    (with_ebx 0 ex_booted.1) ex_system_ok (ex_boot_state ex_sched)
    (ex_reachable_call 0 (proj1 (width_small 0 ltac:(lia))))) as (_ & H & _).
  exact (H TIMER_INTNUM (or_introl eq_refl)).
Defined.
End Tables.

(** ** The clock *)

Module Clock.

(** [n] ticks of a kernel compiled with DEBUG_PRINTING. *)
Fixpoint ticks (n : nat) (t : timer) : res timer :=
  match n with
  | O => Ok t
  | S n => let* t1 := ticks n t in let* (_, t2) := timer_count (timer_advance t1) in Ok t2
  end.

Lemma ticks_ok n t :
  in_width 64 (current_time t) -> count t = 0 -> Z.of_nat n < 2 ^ 31 ->
  ticks n t = Ok (Timer (u64 (current_time t + Z.of_nat n * ACTUAL_TICK)) (next_wake_date t) (Z.of_nat n)).
Proof.
  intros Ht Hc. induction n as [|n IH]; intros Hn.
  - cbn [ticks]. rewrite Z.mul_0_l, Z.add_0_r, wrap_small by done.
    destruct t as [ct nw cnt]. cbn [count] in Hc. by subst.
  - cbn [ticks]. rewrite IH by lia. cbn [rbind]. unfold timer_count, timer_advance.
    cbn [count current_time next_wake_date]. rewrite (proj2 (Z.eqb_neq _ _)) by lia. cbn [rbind].
    rewrite wrap_add_l. f_equal. f_equal; [f_equal; lia|lia].
Qed.

(** (C37) The clock counts ticks of 999847 ns modulo 2^64, the divisor being the
    one programmed in the timer: at any point of a run from _start, with any
    scheduler, it shows the number of timer interrupts times the length of a tick.
    With DEBUG_PRINTING the int counter of ticks is exact during 2^31 - 1 ticks,
    and the next one overflows it. *)
Theorem clock_counts_ticks :
  ACTUAL_TICK = 999847 /\
  (forall t, (timer_init t).2 = [(0x43, 0x34); (0x40, DIVISOR mod 256); (0x40, DIVISOR / 256)]) /\
  (forall (St D : Type) `{Refines St D} cfg syms img kernel_end (k0 k k' : kstate St) c c' es,
   system_ok cfg syms img kernel_end -> boot_state cfg img k0 ->
   start cfg syms img MULTIBOOT_LOADER_MAGIC k0 = Ok (inl (c, k)) ->
   run (estep cfg syms img) es (UserMode c k) (UserMode c' k') ->
   current_time (s_timer (k_s k')) = u64 (Z.of_nat (timer_events es) * ACTUAL_TICK)) /\
  (forall n t, in_width 64 (current_time t) -> count t = 0 -> Z.of_nat n < 2 ^ 31 ->
   ticks n t = Ok (Timer (u64 (current_time t + Z.of_nat n * ACTUAL_TICK)) (next_wake_date t) (Z.of_nat n)) /\
   (Z.of_nat n = 2 ^ 31 - 1 -> ticks (S n) t = Err (Undef SignedOverflow))).
Proof.
  split; [apply actual_tick_value|]. split; [done|]. split.
  { intros St D ? ? ? ? cfg syms img kernel_end k0 k k' c c' es Hsys. exact (clock_since_start (D := D) cfg syms img kernel_end Hsys k0 c k es c' k'). }
  intros n t Ht Hc Hn. split; [by apply ticks_ok|].
  intros Hmax. cbn [ticks]. rewrite (ticks_ok n t) by done. cbn [rbind].
  unfold timer_count, timer_advance. cbn [count]. by rewrite (proj2 (Z.eqb_eq _ _) Hmax).
Qed.

Lemma clock_counts_ticks_witness :
  ticks 3 timer_zero = Ok (Timer 2999541 DATE_FAR_AWAY 3) /\
  exists c k, start ex_cfg ex_symbols ex_img MULTIBOOT_LOADER_MAGIC ex_k0 = Ok (inl (c, k)) /\
    current_time (s_timer (k_s k)) = 0.
Proof.
  destruct clock_counts_ticks as (_ & _ & Hrun & Hticks). split.
  - apply (Hticks 3%nat timer_zero); [by vm_compute|reflexivity|reflexivity].
  - exists ex_booted.1, ex_booted.2. rewrite ex_booted_start, <-surjective_pairing. split; [reflexivity|].
    apply (Hrun _ (pdata false) _ _ _ _ ex_cfg ex_symbols ex_img ex_kernel_end ex_k0 ex_booted.2 ex_booted.2
      ex_booted.1 ex_booted.1 [] ex_system_ok (ex_boot_state _)); [|apply run_nil].
    rewrite <-surjective_pairing. apply ex_booted_start.
Defined.

End Clock.
