(* ===== verification/VariantTheorems.v ===== *)
(** * Theorems on the build options that are not the default ones

    FIXED_SIZE_GDT, PRIVILEGED_IDLE, the injected faults and the allocation of
    contexts by range, with the witnesses of the theorems. *)

From stdpp Require Import options.
From S2P Require Import Prelude Contexts PQueue ListQueue ArrayHeap Timer Scheduler PriorityScheduler.
From S2P Require Import Fprint Terminal Segment LowLevel HighLevel Kernel Model Builds FixedGdt.
From S2P Require Import PrivilegedIdle InjectedBugs RangeAllocation UserTask Examples.

Module BuildOptions.

(** ** SCHED_PRIORITY_QUEUE *)


(** ** FIXED_SIZE_GDT *)

(** (C25) The builds with FIXED_SIZE_GDT and with DYNAMIC_DESCRIPTORS cannot be
    told apart: from related states, any sequence of initialisations, returns,
    copies, context switches and interrupts gives in both the same registers,
    the same saved contexts, the same tables and the same faults. *)
Theorem fixed_gdt_equivalent (syms : symbols) (es : list FixedGdt.hw_event)
    (m : mem) (fm : gmap cptr FixedGdt.hw_context) (l : lowlevel) :
  FixedGdt.mem_rel m fm -> FixedGdt.stack_ok l ->
  match FixedGdt.hw_run (FixedGdt.dynamic_event syms) es (m, l),
        FixedGdt.hw_run (FixedGdt.fixed_event syms) es (fm, l) with
  | Ok (os, (m', l')), Ok (os', (fm', l'')) => os' = os /\ l'' = l' /\ FixedGdt.mem_rel m' fm'
  | Err e, Err e' => e' = e
  | _, _ => False
  end.
Proof.
  intros Hm Hl.
  pose proof (FixedGdt.hw_run_rel syms es (m, l) (fm, l) (conj Hm (conj eq_refl Hl))) as Hr.
  destruct (FixedGdt.hw_run (FixedGdt.dynamic_event _) _ _) as [[os [m' l']]|],
    (FixedGdt.hw_run (FixedGdt.fixed_event _) _ _) as [[os' [fm' l'']]|]; cbn in Hr; try done.
  destruct Hr as (-> & Hm' & El & _). cbn in Hm', El. by rewrite El.
Qed.

(** ** PRIVILEGED_IDLE *)


(** ** INJECT_BUG *)

(** (C27) What the injected faults do to a running task [p] that calls
    trigger_bug: bug 1 with the kernel's selector runs the task's code at
    privilege 0; bug 2 moves its segments to any address [a], the kernel's
    included; bug 3 stores in the saved state of any context; bug 4 is harmless;
    bug 5, and bug 6 with a zero divisor, halt the machine. *)
Theorem injected_bugs_effects (syms : symbols) (img : user_tasks_image)
    (kernel_end : Z) {St : Type} `{SchedulerSpec St} (k : kstate St) (live : list cptr)
    (p : cptr) (ctx : context) (arg1 arg2 arg3 : Z) :
  kernel_mid syms img kernel_end k live (Running p) -> k_mem k !! p = Some ctx ->
  let bug b := InjectedBugs.syscall_trigger_bug syms b p in
  (exists c k', bug InjectedBugs.INJECT_BUG1 (gdt_segment_selector 0 KERNEL_CODE_SEGMENT_INDEX)
       arg2 arg3 k = Ok (InjectedBugs.Privileged c k') /\
     c_eip c = eip (iframe (hw ctx)) /\
     selector_rpl (c_cs c) = 0) /\
  (forall a, in_width 32 a -> exists c k',
     bug InjectedBugs.INJECT_BUG2 arg1 a arg3 k = Ok (InjectedBugs.Resumes c k') /\ user_cpu c /\
     seg_base (decode_segment (gdt_user_data (ll_gdt (k_ll k')))) = a) /\
  (forall q i, InjectedBugs.contexts_apart syms (k_mem k) -> q <> p -> is_Some (k_mem k !! q) ->
     (i < 15)%nat -> exists c k' cq,
     bug InjectedBugs.INJECT_BUG3 arg1 (sym_context syms q + 4 * Z.of_nat i) arg3 k
       = Ok (InjectedBugs.Resumes c k') /\
     k_mem k' !! q = Some cq /\ hw_words (hw cq) !! i = Some arg3) /\
  (exists c k', bug InjectedBugs.INJECT_BUG4 arg1 arg2 arg3 k = Ok (InjectedBugs.Resumes c k') /\
     user_cpu c /\ k_mem k' = k_mem k) /\
  (exists t, catch (k_term k) (bug InjectedBugs.INJECT_BUG5 arg1 arg2 arg3 k) = Ok (inr t)) /\
  (exists t, catch (k_term k) (bug InjectedBugs.INJECT_BUG6 arg1 arg2 0 k) = Ok (inr t)).
Proof.
  intros Hk Ec bug.
  pose proof (sched_inv_running _ _ _ _ (km_sched _ _ _ _ _ _ Hk)) as Hp.
  destruct (km_contexts _ _ _ _ _ _ Hk p ltac:(by right)) as (ctx' & Ec' & Hh & _).
  assert (ctx' = ctx) as -> by congruence. pose proof (km_term _ _ _ _ _ _ Hk) as Hterm.
  split; [|split; [|split; [|split; [|split]]]].
  - apply (InjectedBugs.bug1_privileged syms k p ctx); [done|done|].
    apply (kt_kernel_code _ _ (km_tables _ _ _ _ _ _ Hk)).
  - intros a Ha. by apply (InjectedBugs.bug2_moves syms k p ctx).
  - intros q i Ha Hne [cq Hq] Hi. by apply (InjectedBugs.bug3_stores syms k p q ctx cq).
  - by apply (InjectedBugs.bug4_harmless syms k p ctx).
  - destruct (catch_plain (A := InjectedBugs.outcome St) ("Invalid opcode exception" +:+ nl)
      (k_term k) eq_refl Hterm) as (t & E & _). by exists t.
  - destruct (catch_plain (A := InjectedBugs.outcome St) ("Division by zero exception" +:+ nl)
      (k_term k) eq_refl Hterm) as (t & E & _). by exists t.
Qed.

(** With FIXED_SIZE_GDT the fault of INJECT_BUG1 is overwritten before it can be
    used. *)
Lemma fixed_bug1_harmless p arg1 arg2 fm l :
  FixedGdt.syscall_trigger_bug1 p arg1 arg2 fm l = FixedGdt.hw_context_switch_no_idle p fm l.
Proof. reflexivity. Qed.

(** ** Allocation by range *)

(** (C28) Recursive creation gives distinct contexts of the task's array, eight
    at most, as long as threads of range 1 do not call dup_thread; such a thread
    would be made its own child.  Parent-child creation leaves its range to the
    child, whose first creation takes a context past the end of the array. *)
Theorem range_allocation (t : nat) (slots : list nat) (m : mem) (s : nat) (c : context) :
  RangeAllocation.created t slots m -> s ∈ slots -> m !! ContextFor t s = Some c ->
  (2 <= range c -> exists s2 m2,
     RangeAllocation.take_context RangeAllocation.Recursive_ (ContextFor t s) (u32 (range c)) m
       = Ok (ContextFor t s2, m2) /\
     (s2 < 8)%nat /\ s2 ∉ slots /\ RangeAllocation.created t (s2 :: slots) m2) /\
  (length slots <= 8)%nat /\
  (range c < 2 -> exists m2,
     RangeAllocation.allocate RangeAllocation.Recursive_ (ContextFor t s) (u32 (range c)) m
       = Ok (ContextFor t s, m2)) /\
  (slots = [0%nat] -> range c = 8 -> m !! ContextFor t 13 = None -> exists m2 c2,
     RangeAllocation.take_context RangeAllocation.ParentChilds (ContextFor t s) 8 m
       = Ok (ContextFor t 7, m2) /\
     m2 !! ContextFor t 7 = Some c2 /\ range c2 = 7 /\
     RangeAllocation.take_context RangeAllocation.ParentChilds (ContextFor t 7) 7 m2
       = Err (Undef BadPointer)).
Proof.
  intros Hc Hs Ec. pose proof (RangeAllocation.created_blocks _ _ _ Hc) as Hb.
  split; [|split; [by eapply RangeAllocation.created_bounded|split]].
  - intros Hr. destruct (RangeAllocation.take_recursive t slots m s c Hb Hs Ec Hr) as (E & Hlt & Hnew).
    eexists _, _. split; [exact E|]. split; [done|]. split; [done|].
    by apply (RangeAllocation.created_dup t slots m s c).
  - intros Hr. destruct (RangeAllocation.bl_owner _ _ _ Hb s Hs) as (r & (c' & Ec' & <-) & H1 & _).
    assert (range c = 1) as -> by (assert (c' = c) by congruence; subst; lia).
    unfold RangeAllocation.allocate. rewrite (modify_ok _ _ _ _ Ec). cbn [rbind].
    change (Z.shiftr (u32 1) 1) with 0. cbn. rewrite Nat.add_0_r. eauto.
  - intros -> Hr H13. apply list_elem_of_singleton in Hs as ->.
    destruct (RangeAllocation.bl_exist _ _ _ Hb 7%nat ltac:(lia)) as [c7 H7].
    set (c1 := set_range 7 c).
    exists (<[ContextFor t 7 := c1]> (<[ContextFor t 0 := c1]> m)), c1.
    split; [|split; [apply lookup_insert_eq|split; [done|]]].
    + unfold RangeAllocation.take_context, RangeAllocation.allocate. rewrite (modify_ok _ _ _ _ Ec).
      cbn [rbind]. change (u32 (8 - 1)) with 7. cbn [RangeAllocation.ptr_add].
      change (0 + Z.to_nat 7)%nat with 7%nat.
      erewrite modify_ok by (by rewrite lookup_insert_ne). cbn [rbind].
      erewrite copy_context_ok; [|done| |apply lookup_insert_eq].
      2:{ rewrite lookup_insert_ne by done. apply lookup_insert_eq. }
      cbn [rbind]. by rewrite insert_insert_eq.
    + unfold RangeAllocation.take_context, RangeAllocation.allocate.
      erewrite modify_ok by apply lookup_insert_eq. cbn [rbind].
      change (u32 (7 - 1)) with 6. cbn [RangeAllocation.ptr_add].
      change (7 + Z.to_nat 6)%nat with 13%nat. unfold modify, load.
      by rewrite !lookup_insert_ne, H13.
Qed.

(** ** Witnesses *)

(** A context in both builds, and a run that initialises it, enters user mode
    and is interrupted. *)
Definition ex_fixed : FixedGdt.hw_context :=
  FixedGdt.HwContext (regs (hw zero_context)) (iframe (hw zero_context))
    (u64 (create_code_descriptor 0 0 3 0 1 0 1 S32BIT))
    (u64 (create_data_descriptor 0 0 3 0 1 0 1 S32BIT)).

Definition ex_events : list FixedGdt.hw_event :=
  [FixedGdt.EvInit (ContextFor 0 0) 0 7 0x120000 0x121000; FixedGdt.EvSwitch (ContextFor 0 0);
   FixedGdt.EvInterrupt (Cpu 1 2 3 4 5 6 7 8 27 514 9 35 35)].

Lemma ex_fixed_rel :
  FixedGdt.mem_rel (<[ContextFor 0 0 := zero_context]> ∅) (<[ContextFor 0 0 := ex_fixed]> ∅).
Proof.
  apply FixedGdt.insert_rel; [|by repeat split]. intros p. rewrite !lookup_empty. constructor.
Qed.






Lemma fixed_gdt_equivalent_witness :
  match FixedGdt.hw_run (FixedGdt.dynamic_event ex_symbols) ex_events
          (<[ContextFor 0 0 := zero_context]> ∅, lowlevel_zero),
        FixedGdt.hw_run (FixedGdt.fixed_event ex_symbols) ex_events
          (<[ContextFor 0 0 := ex_fixed]> ∅, lowlevel_zero) with
  | Ok (os, (m', l')), Ok (os', (fm', l'')) => os' = os /\ l'' = l' /\ FixedGdt.mem_rel m' fm'
  | Err e, Err e' => e' = e
  | _, _ => False
  end.
Proof. exact (fixed_gdt_equivalent ex_symbols ex_events _ _ lowlevel_zero ex_fixed_rel I). Defined.

(** The run returns, with the registers of the initialised context. *)
Lemma ex_fixed_run :
  match FixedGdt.hw_run (FixedGdt.fixed_event ex_symbols) ex_events
          (<[ContextFor 0 0 := ex_fixed]> ∅, lowlevel_zero) with
  | Ok ([_; FixedGdt.Loaded c; FixedGdt.Entered p], _) => c_eax c = 7 /\ p = ContextFor 0 0
  | _ => False
  end.
Proof. vm_compute. split; reflexivity. Qed.






#[local] Opaque ex_booted.

(** Task 0 of the booted system inside a system call. *)
Lemma ex_booted_mid :
  exists live ctx, kernel_mid ex_symbols ex_img ex_kernel_end ex_booted.2 live (Running (ContextFor 0 0)) /\
    k_mem ex_booted.2 !! ContextFor 0 0 = Some ctx.
Proof.
  destruct (reachable_safe _ _ _ _ ex_system_ok _ _ (ex_boot_state _)
    (ex_reachable_call 3 (proj1 (width_small 3 ltac:(lia))))) as (_ & live & p & Hk).
  destruct (running_known _ _ _ _ live p _ _ Hk ex_running ex_task0_not_idle) as [E Hp].
  subst p. destruct ex_task0_range as (ctx & Ec & _). exists live, ctx. split; [|exact Ec].
  exact (running_phase_live _ _ _ _ live _ Hp (ki_mid _ _ _ _ _ _ Hk)).
Qed.

Lemma injected_bugs_effects_witness :
  exists c k', InjectedBugs.syscall_trigger_bug ex_symbols InjectedBugs.INJECT_BUG2 (ContextFor 0 0) 0 0 0
      ex_booted.2 = Ok (InjectedBugs.Resumes c k') /\ user_cpu c /\
    seg_base (decode_segment (gdt_user_data (ll_gdt (k_ll k')))) = 0.
Proof.
  destruct ex_booted_mid as (live & ctx & Hk & Ec).
  destruct (injected_bugs_effects ex_symbols ex_img ex_kernel_end ex_booted.2 live (ContextFor 0 0) ctx
    0 0 0 Hk Ec) as (_ & H2 & _).
  exact (H2 0 (proj1 (width_small 0 ltac:(lia)))).
Defined.

(** The array of a task whose first context may create seven others. *)
Definition ex_range_mem : mem :=
  list_to_map ((fun s => (ContextFor 0 s, set_range 8 zero_context)) <$> seq 0 8).

Lemma ex_created : RangeAllocation.created 0 [0%nat] ex_range_mem.
Proof.
  apply (RangeAllocation.created_boot 0 ex_range_mem (set_range 8 zero_context)); [|done..].
  intros s Hs. do 8 (destruct s as [|s]; [by eexists|]). lia.
Qed.

Lemma range_allocation_witness :
  exists s2 m2, RangeAllocation.take_context RangeAllocation.Recursive_ (ContextFor 0 0) (u32 8) ex_range_mem
    = Ok (ContextFor 0 s2, m2) /\ (s2 < 8)%nat.
Proof.
  destruct (range_allocation 0 [0%nat] ex_range_mem 0 (set_range 8 zero_context) ex_created
    ltac:(by left) eq_refl) as (H1 & _).
  destruct (H1 ltac:(done)) as (s2 & m2 & E & Hlt & _). exists s2, m2. split; [exact E|exact Hlt].
Defined.
End BuildOptions.
