(* ===== verification/LibaseTheorems.v ===== *)
(** * Theorems on the C bindings of libase

    The integer built-ins, the comparison of doubles, the rounding modes and the
    memory functions of Bindings.v. *)

From stdpp Require Import options.
From S2P Require Import Prelude Bindings.

Module Libase.




(** (C39) fc_ival_float_compare_total decides the total order of the bit
    patterns of doubles: by sign, then by magnitude.  Setting a rounding mode and
    reading it back gives the same mode, when the constants of fenv.h are
    distinct. *)
Theorem float_bindings :
  (forall x y, in_width 64 x -> in_width 64 y ->
   (fc_ival_float_compare_total x y = Val_int 0 <-> x = y) /\
   (fc_ival_float_compare_total x y = Val_int (-1) <-> total_lt x y) /\
   (fc_ival_float_compare_total x y = Val_int 1 <-> total_lt y x)) /\
  (forall e r mode, fenv_distinct e ->
   exists mode', fc_ival_set_rounding_mode e (Val_int (rounding_index r)) mode
       = (Returned Val_unit, mode') /\
     fc_ival_get_rounding_mode e mode' = Returned (Val_int (rounding_index r))).
Proof. split; [apply float_compare_total_ok|apply rounding_mode_roundtrip]. Qed.

(** +0.0 and -0.0; the constants of x86. *)
Lemma float_bindings_witness :
  (fc_ival_float_compare_total (2 ^ 63) 0 = Val_int (-1) <-> total_lt (2 ^ 63) 0) /\
  exists mode', fc_ival_set_rounding_mode (Fenv 0 0x800 0x400 0xC00) (Val_int (rounding_index FE_Upward)) 0
      = (Returned Val_unit, mode') /\
    fc_ival_get_rounding_mode (Fenv 0 0x800 0x400 0xC00) mode' = Returned (Val_int (rounding_index FE_Upward)).
Proof.
  split.
  - apply (proj1 float_bindings (2 ^ 63) 0); by vm_compute.
  - apply (proj2 float_bindings (Fenv 0 0x800 0x400 0xC00) FE_Upward 0).
    apply (bool_decide_unpack _). vm_compute. exact I.
Defined.

(** (C40) Below 2^31 bytes, memcpy copies the bytes of the source to the
    destination, unless the destination starts inside the source, and returns the
    destination; memset fills its range.  Neither touches another byte. *)
Theorem memory_functions dest src n c m :
  Z.of_nat n < 2 ^ 31 ->
  (dest + n <= length m)%nat -> (src + n <= length m)%nat -> (dest <= src \/ src + n <= dest)%nat ->
  (exists m', memcpy dest src n m = Ok (m', dest) /\
     forall j, m' !! j = if decide (dest <= j < dest + n)%nat then m !! (src + (j - dest))%nat else m !! j) /\
  (exists m', memset dest c n m = Ok (m', dest) /\
     forall j, m' !! j = if decide (dest <= j < dest + n)%nat then Some (u8 c) else m !! j).
Proof.
  intros Hn Hd Hs Ho. unfold memcpy, memset. rewrite (proj2 (Z.leb_gt _ _) Hn). split.
  - destruct (memcpy_loop_ok n 0 dest src m) as (m' & E & _ & Hm); [lia..|].
    exists m'. rewrite E. split; [done|]. intros j. rewrite Hm.
    by rewrite Nat.add_0_r.
  - destruct (memset_loop_ok n 0 dest c m) as (m' & E & _ & Hm); [lia|].
    exists m'. rewrite E. split; [done|]. intros j. rewrite Hm.
    by rewrite Nat.add_0_r.
Qed.

Lemma memory_functions_witness : exists m', memcpy 3 0 2 [1; 2; 3; 4; 5] = Ok (m', 3%nat).
Proof.
  destruct (memory_functions 3 0 2 0 [1; 2; 3; 4; 5]) as [(m' & E & _) _]; [cbn; lia..|].
  exists m'. exact E.
Defined.
End Libase.
