(* ===== verification/Theorems.v ===== *)
(** * Theorems

    The properties of the system, each with a witness at a concrete input.  The
    proofs apply the lemmas of the component files. *)

From stdpp Require Import options.
From S2P Require Import Prelude Contexts PQueue ListQueue ArrayHeap Timer Scheduler.
From S2P Require Import PriorityScheduler RoundRobin Policies Fprint Terminal Segment LowLevel.
From S2P Require Import HighLevel Kernel Model Isolation Typing UserTask TaskRun Examples.

(** ** The system *)

Module System.
Section System.
Context (cfg : config) (syms : symbols) (img : user_tasks_image) (kernel_end : Z).
Context {St : Type} `{SchedulerSpec St}.
Implicit Types (k : kstate St) (c : cpu).

(** (C1) In every state reachable from _start the kernel handles every interrupt
    without undefined behaviour, for any scheduler that meets its contract: an
    exception without error code halts the machine, a timer interrupt returns to
    user mode unless the debug counter overflows, and a software interrupt of a
    task returns to user mode or halts, unless its gate is privileged. *)
Theorem kernel_never_faults (k0 k : kstate St) (c : cpu) :
  system_ok cfg syms img kernel_end -> boot_state cfg img k0 ->
  reachable cfg syms img k0 (UserMode c k) ->
  (forall n, no_error_code n -> exists t, interrupt cfg syms img n [] c k = Ok (inr t)) /\
  (count_ok cfg k ->
     exists c' k', interrupt cfg syms img TIMER_INTNUM [] c k = Ok (inl (c', k'))) /\
  (forall n p off, 0 <= n < 256 -> vector_privilege n = 3 ->
     esp0 (ll_tss (k_ll k)) = Some (p, off) -> p <> context_idle img -> in_width 32 (c_ebx c) ->
     exists r, software_interrupt cfg syms img n c k = Ok r).
Proof using All.
  intros Hsys Hb Hr. destruct (reachable_safe _ _ _ _ Hsys _ _ Hb Hr) as (Hu & live & p & Hk).
  split; [|split].
  - intros n [Hn _]. by apply (exception_halts _ _ _ _ Hsys k live p).
  - intros Hc. destruct (interrupt_timer_ok _ _ _ _ Hsys k live p c Hk Hu Hc) as (c' & k' & _ & E & _).
    eauto.
  - intros n q off Hn Hv He Hq Hebx.
    destruct (running_known _ _ _ k live p q off Hk He Hq) as [-> Hp].
    pose proof (software_interrupt_ok _ _ _ _ Hsys k live p c n Hk Hu Hn Hp Hebx) as Hs.
    rewrite Hv in Hs. destruct Hs as (r & E & _). eauto.
Qed.




(** (C5) In every reachable state, an interrupt stores the registers of the
    running task in its own context, and switching back to that context resumes
    the task with the registers it had (the data segment register is reloaded). *)
Theorem interrupt_save_restore (k0 k : kstate St) (c : cpu) :
  system_ok cfg syms img kernel_end -> boot_state cfg img k0 ->
  reachable cfg syms img k0 (UserMode c k) ->
  exists p ctx m, esp0 (ll_tss (k_ll k)) = Some (p, sizeof_pusha + sizeof_iframe) /\
    k_mem k !! p = Some ctx /\
    interrupt_entry syms [] c (k_mem k) (k_ll k) = Ok (p, m) /\
    m = <[p := set_hw (saved syms p c (hw ctx)) ctx]> (k_mem k) /\
    exists l, hw_context_switch p m (k_ll k) =
      Ok (Cpu (c_edi c) (c_esi c) (c_ebp c) (c_ebx c) (c_edx c) (c_ecx c) (c_eax c) (c_eip c)
            (c_cs c) (c_flags c) (c_esp c) (c_ss c)
            (gdt_segment_selector 3 USER_DATA_SEGMENT_INDEX), l).
Proof using All.
  intros Hsys Hb Hr. destruct (reachable_safe _ _ _ _ Hsys _ _ Hb Hr) as (Hu & live & p & Hk).
  destruct (entry_ok _ _ _ k live p c Hk Hu) as (ctx & Ec & E & Hk').
  destruct (km_contexts _ _ _ _ _ _ Hk' p (ki_known _ _ _ _ _ _ Hk)) as (ctx' & Ec' & Hc' & _).
  eexists p, ctx, _. split; [apply (ki_esp0 _ _ _ _ _ _ Hk)|]. split; [done|]. split; [exact E|].
  split; [done|]. eexists.
  match type of Ec' with k_mem (set_kmem ?m k) !! p = _ => change (m !! p = Some ctx') in Ec' end.
  rewrite (hw_context_switch_ok p _ (k_ll k) ctx' Ec' Hc').
  rewrite lookup_insert_eq in Ec'. injection Ec' as <-. reflexivity.
Qed.




(** (C9) A task that yields with durations [w] and [d] is rescheduled: its
    wakeup date advances by [w], modulo 2^64, and with EDF its deadline is [d]
    after the new wakeup date; the other contexts keep their dates. *)
Theorem yield_sets_dates (k0 k : kstate St) (c : cpu) (p : cptr) (off : Z) (ctx : context) (w d : Z) :
  system_ok cfg syms img kernel_end -> boot_state cfg img k0 ->
  reachable cfg syms img k0 (UserMode c k) ->
  esp0 (ll_tss (k_ll k)) = Some (p, off) -> p <> context_idle img ->
  k_mem k !! p = Some ctx -> in_width 64 w -> in_width 64 d ->
  exists c' k' ctx', software_interrupt cfg syms img SYSCALL_INTNUM (yield w d c) k = Ok (inl (c', k')) /\
    k_mem k' !! p = Some ctx' /\
    wakeup_date (sched ctx') = u64 (wakeup_date (sched ctx) + w) /\
    deadline (sched ctx') =
      (if edf cfg then u64 (u64 (wakeup_date (sched ctx) + w) + d) else deadline (sched ctx)) /\
    (forall q, q <> p -> strip_next <$> k_mem k' !! q = strip_next <$> k_mem k !! q).
Proof using All.
  intros Hsys Hb Hr He Hp Ec Hw Hd.
  destruct (reachable_safe _ _ _ _ Hsys _ _ Hb Hr) as (Hu & live & q & Hk).
  destruct (running_known _ _ _ k live q p off Hk He Hp) as [-> Hlive].
  destruct (yield_call _ _ _ _ Hsys k live q c ctx w d Hk Hu Hlive Ec Hw Hd)
    as (c' & k' & p' & ctx' & E & _ & _ & _ & Hctx'). exists c', k', ctx'. done.
Qed.

(** (C10) One iteration of the loop of the example task: its printf goes through
    one system call per character and leaves on the terminal what a print by the
    kernel would, the task is not switched out meanwhile, and its yield then
    advances its wakeup date by the period, modulo 2^64; the other contexts keep
    their registers and dates. *)
Theorem task_iteration (k0 k : kstate St) (c : cpu) (p : cptr) (off : Z) (ctx : context)
    (task_number pid i : Z) (name : string) (calls : list ucall) :
  system_ok cfg syms img kernel_end -> boot_state cfg img k0 ->
  reachable cfg syms img k0 (UserMode c k) -> cfg_debug cfg = true ->
  esp0 (ll_tss (k_ll k)) = Some (p, off) -> p <> context_idle img -> k_mem k !! p = Some ctx ->
  task_loop 1 task_number name pid i = Ok calls ->
  exists c' k' ctx', run_calls cfg syms img calls c k = Ok (inl (c', k')) /\ user_cpu c' /\
    vfprint (fun x => terminal_putchar (u8 x)) (chars ("task" +:+ name +:+ " pid %d: i=%d" +:+ nl))
      (SWord <$> [u32 pid; u32 (i + 1)]) (k_term k) = Ok (k_term k') /\
    k_mem k' !! p = Some ctx' /\
    wakeup_date (sched ctx') = u64 (wakeup_date (sched ctx) + (task_number + 2) * 1000000000) /\
    (forall q, q <> p -> strip_next <$> k_mem k' !! q = strip_next <$> k_mem k !! q).
Proof using All.
  intros Hsys Hb Hr Hd He Hp Ec E.
  destruct (reachable_safe _ _ _ _ Hsys _ _ Hb Hr) as (Hu & live & q & Hk).
  destruct (running_known _ _ _ k live q p off Hk He Hp) as [-> Hlive].
  cbn [task_loop] in E. apply rbind_ok in E as (a & Ea & [= <-]).
  destruct (run_printf _ _ _ _ Hsys k live q c _ _ a Hd Hk Hu Hlive Ea)
    as (c1 & k1 & E1 & Hu1 & Hk1 & (Hoth & Hs & _) & _ & Et).
  rewrite (run_calls_app _ _ _ _ _ _ _ _ _ E1). cbn [run_calls app call_registers].
  rewrite Ec in Hs. destruct (k_mem k1 !! q) as [ctx1|] eqn:Ec1; [|done]. injection Hs as Hs.
  destruct (yield_call _ _ _ _ Hsys k1 live q c1 ctx1 (u64 ((task_number + 2) * 1000000000)) 1000000000
    Hk1 Hu1 Hlive Ec1) as (c' & k' & p' & ctx' & -> & Hu' & _ & Eterm & Ectx & Hw & _ & Hoth');
    [by apply wrap_range|by vm_compute|].
  exists c', k', ctx'. split; [done|]. split; [done|]. split; [by rewrite Eterm|]. split; [done|].
  split; [by rewrite Hw, Hs, (wrap_add_r 64)|]. intros q' Hq'. by rewrite Hoth', Hoth.
Qed.

(** (C11) The variables keep the types of the C code: when the memory before
    _start is typed, in every reachable state the registers and saved contexts
    hold 32-bit words, the dates and the clock 64 bits, descriptors and gates 64
    bits, the cells of the screen 16 bits, and counters stay in their ranges; for
    each of the schedulers. *)
Theorem variables_in_width `{!SchedulerTyped St} (k0 : kstate St) (st : mstate) :
  image_typed img -> symbols_typed syms -> kstate_typed k0 -> reachable cfg syms img k0 st ->
  match st with
  | UserMode c k => cpu_typed c /\ kstate_typed k
  | Halted t => term_typed t
  end.
Proof using Type.
  intros Himg Hsy Hk Hr. exact (reachable_typed cfg syms img Himg Hsy k0 st Hk Hr).
Qed.
End System.

(** The calls of the first iteration of task 0. *)
Definition ex_calls : list ucall :=
  match task_loop 1 0 "0" 0 0 with Ok l => l | Err _ => [] end.

Lemma ex_calls_ok : task_loop 1 0 "0" 0 0 = Ok ex_calls.
Proof. by vm_compute. Qed.

Lemma task_iteration_witness :
  exists c k c' k', reachable dbg_cfg ex_symbols ex_img dbg_k0 (UserMode c k) /\
    run_calls dbg_cfg ex_symbols ex_img ex_calls c k = Ok (inl (c', k')) /\ user_cpu c'.
Proof.
  destruct dbg_booted as (c & k & p & ctx & Hr & He & Hp & Ec).
  destruct (task_iteration dbg_cfg ex_symbols ex_img ex_kernel_end dbg_k0 k c p 52 ctx 0 0 0 "0" ex_calls
    dbg_system_ok dbg_boot_state Hr eq_refl He Hp Ec ex_calls_ok) as (c' & k' & ctx' & E & Hu & _).
  exists c, k, c', k'. exact (conj Hr (conj E Hu)).
Defined.

#[local] Opaque ex_booted ex_yielded.

Lemma variables_in_width_witness : cpu_typed ex_yielded.1 /\ kstate_typed ex_yielded.2.
Proof.
  exact (variables_in_width ex_cfg ex_symbols ex_img ex_k0 (UserMode ex_yielded.1 ex_yielded.2)
    ex_image_typed ex_symbols_typed (ex_state_typed ex_sched) ex_yielded_reachable).
Defined.

#[local] Transparent ex_booted ex_yielded.


#[local] Opaque one_booted one_nap one_back.


(** The two-task system of Examples.v, just after its boot. *)
Lemma kernel_never_faults_witness :
  exists t, interrupt ex_cfg ex_symbols ex_img 0 [] (with_ebx 2 ex_booted.1) ex_booted.2 = Ok (inr t).
Proof.
  apply (kernel_never_faults ex_cfg ex_symbols ex_img ex_kernel_end ex_k0 ex_booted.2
    (with_ebx 2 ex_booted.1) ex_system_ok (ex_boot_state _)
    (ex_reachable _ (ex_with_ebx 2 ltac:(by vm_compute)))).
  split; [lia|]. rewrite !not_elem_of_cons. repeat split; try lia. apply not_elem_of_nil.
Defined.


Lemma interrupt_save_restore_witness :
  exists p ctx m, esp0 (ll_tss (k_ll ex_booted.2)) = Some (p, sizeof_pusha + sizeof_iframe) /\
    k_mem ex_booted.2 !! p = Some ctx /\
    interrupt_entry ex_symbols [] (with_ebx 2 ex_booted.1) (k_mem ex_booted.2) (k_ll ex_booted.2)
      = Ok (p, m).
Proof.
  destruct (interrupt_save_restore ex_cfg ex_symbols ex_img ex_kernel_end ex_k0 ex_booted.2
    (with_ebx 2 ex_booted.1) ex_system_ok (ex_boot_state _)
    (ex_reachable _ (ex_with_ebx 2 ltac:(by vm_compute)))) as (p & ctx & m & H1 & H2 & H3 & _).
  exists p, ctx, m. auto.
Defined.


#[local] Opaque ex_booted.



Lemma yield_sets_dates_witness :
  exists c' k' ctx', software_interrupt ex_cfg ex_symbols ex_img SYSCALL_INTNUM
      (yield 2000000000 1000000000 (with_ebx 0 ex_booted.1)) ex_booted.2 = Ok (inl (c', k')) /\
    k_mem k' !! ContextFor 0 0 = Some ctx'.
Proof.
  destruct ex_task0_range as (ctx & Ec & Er).
  destruct (yield_sets_dates ex_cfg ex_symbols ex_img ex_kernel_end ex_k0 ex_booted.2
    (with_ebx 0 ex_booted.1) (ContextFor 0 0) 52 ctx 2000000000 1000000000 ex_system_ok
    (ex_boot_state _) (ex_reachable_call 0 (proj1 (width_small 0 ltac:(lia)))) ex_running
    ex_task0_not_idle Ec (proj2 (width_small 2000000000 ltac:(lia)))
    (proj2 (width_small 1000000000 ltac:(lia)))) as (c' & k' & ctx' & E & E' & _).
  exists c', k', ctx'. exact (conj E E').
Defined.
End System.
